(* ===== verification/_CoqProject ===== *)
-Q . S2P
Prelude.v
GoErrors.v
Meta.v
Selectors.v
ApiV1.v
Conditions.v
Steps.v
Trees.v
Validation.v
FlagCodec.v
Workload.v
RteUpdate.v
RteUpdateSpec.v
Objects.v
MergeSpec.v
Cluster.v
Apply.v
RteState.v
Dangling.v
Controller.v
Scenario.v
ControllerSpec.v
Install.v
WriteFrame.v
Willing.v
MachineConfigSpec.v
DaemonSetSpec.v
Rollout.v
Setup.v
NoPanic.v
Steady.v
Progress.v
SchedParams.v
SchedParamsSpec.v
SchedApi.v
SchedUpdate.v
SchedState.v
SchedController.v
SchedCluster.v
SchedSpec.v
SchedDeploySpec.v
SchedInstall.v
SchedReconcileSpec.v
SchedTheorems.v
Conversion.v
Kubelet.v
KubeletSpec.v
Watches.v
Loading.v
LoadingSpec.v
Nrovalidate.v
NrovalidateSpec.v
Detect.v
Main.v
MainSpec.v
Resources.v
ResourcesSpec.v
PfpSync.v
Waits.v
Tools.v
ToolsSpec.v
Programs.v
ProgramsSpec.v
RemoteExec.v
AlphaTrees.v
