(* ===== verification/Prelude.v ===== *)
(** * The NUMA resources operator: a verification library

    The program is a Kubernetes operator written in Go, with three controllers, a
    mode that prints manifests, the exporter it deploys, a command that validates a
    cluster, and the tools around them.

    - For one [NUMAResourcesOperator] resource that lists node groups, the first
      controller keeps in the cluster, for every group of nodes, a daemon set that
      runs the resource topology exporter, the objects these daemon sets share,
      the topology API, and (on OpenShift) the machine configs of the pools behind
      the groups, and reports how far it got in the status of the resource.
    - For one [NUMAResourcesScheduler] resource, the second keeps a secondary
      scheduler: its deployment, the config map with its configuration, and their
      permissions.
    - For every kubelet configuration of a pool, the third keeps the config map
      the exporter of the pool reads.
    - At start-up the command line is read, the cluster and the image of the operator
      are discovered, the embedded manifests are loaded and rendered; the controllers
      work on the result.

    This library translates these functions and what they call, from the sources
    under src/, and proves what makes them correct.

    ** How the code is rendered

    - A Go function that can dereference a nil pointer, fail a type assertion or
      index out of range returns [go A] (this file): [Ret a] or [Panic why].
      Errors are returned values, of the type [error] of GoErrors.v, next to the
      result as in Go, or in a sum where the value next to an error is not used.
    - A pointer receiver or an argument written in place is an argument and a
      result. So are the manifests the scheduler's reconciler rewrites and the
      queue of the kubelet configurations' one, from one call to the next. Where
      two values share a map and the sharing shows (the metadata maps in a merge,
      Objects.v), both holders are returned.
    - A pointer to a slice element is the element's index (Workload.v), a pointer
      that may be nil is an [option], an interface value that may be nil, or hold
      a nil pointer, is the type [iface] of Objects.v.
    - A Go map is a [gmap]. A loop over one is a loop over its elements in an
      order no theorem depends on.
    - [time.Duration] and the instants of the clock are integers, as are int32 and
      int64 with their wrap-around where it can happen; the readings of the clock,
      the environment and the network are arguments.
    - Object fields the code only copies are kept as opaque text, so that
      "unchanged" means something for them too. Log messages are left out. Text is
      ASCII where its case or its blanks matter.
    - Every recursion is structural: the loops of the code range over slices and
      trees, so there is no fuel, and every definition computes. What may run for ever,
      or next to something else, is given by its steps (Programs, RemoteExec).

    ** Files, and the code they model

    Shared:
    - Prelude: [go], its bind [let!], the bind [let?] of sums, list, string and
      map lemmas, tactics. GoErrors: errors, wrapping, joining, API status errors.
    - Meta: conditions, selectors, tolerations, owner references, object
      metadata, duration printing; the interface [SelectorLib] of the label
      selector library. Selectors: an executable instance of it.
    - ApiV1: api/v1 (types, defaults, normalisation, printing), pkg/objectnames,
      internal/api/annotations, internal/relatedobjects, the platform type.
    - Conditions: pkg/status. Steps: pkg/status/conditioninfo and
      internal/reconcile.
    - Validation: pkg/validation, internal/api/scheduler (image digests).
    - FlagCodec: pkg/numaresourcesoperator/flagcodec.
    - Workload: pods, containers, daemon sets; the finders of
      pkg/numaresourcesoperator/objectupdate, pkg/objectupdate/envvar,
      pkg/loglevel.
    - Objects: pkg/objectstate, pkg/objectstate/merge, pkg/objectstate/compare.
      MergeSpec: theorems about merging.
    - Cluster: the client as an interface ([Client]), the laws its users rely on
      ([ClientLaws]), those of a cluster that takes every legitimate write
      ([WillingLaws]), and an in-memory cluster with faults that has them.
    - Apply: pkg/apply, proved against the interface.
    - Install: what applying owned objects leaves in the cluster; one object, then
      the shared objects of the exporter. WriteFrame: what writes leave alone. Willing:
      applying objects to a cluster that takes every legitimate write.

    The operator resource:
    - Trees: api/v1/helper/nodegroup (binding of groups to pools, reduction of
      the per-tree results). AlphaTrees: api/v1alpha1/helper/nodegroup.
    - RteUpdate: pkg/objectupdate/rte, pkg/numaresourcesoperator/objectupdate/rte,
      pkg/numaresourcesoperator/images. RteUpdateSpec: its theorems.
    - RteState: pkg/objectstate/rte, pkg/objectstate/api, pkg/hash.
    - Dangling: internal/dangling.
    - Controller: internal/controller/numaresourcesoperator_controller.go and
      pkg/images. Scenario: a concrete cluster. ControllerSpec (refused and paused
      instances), MachineConfigSpec, DaemonSetSpec, Rollout, Setup (the shared
      manifests set up twice), NoPanic, Steady (a reconciliation after one that is
      done) and Progress (a cluster that takes every legitimate write): theorems.

    The scheduler resource:
    - SchedParams: pkg/numaresourcesscheduler/manifests/schedparams.go and
      pkg/numaresourcesscheduler/objectupdate/sched, on JSON trees. SchedParamsSpec:
      its abstract specification and refinement.
    - SchedApi: api/v1 for the scheduler. SchedUpdate: pkg/objectupdate/sched,
      pkg/numaresourcesoperator/objectupdate/rbac. SchedState:
      pkg/numaresourcesscheduler/objectstate/sched. SchedController:
      internal/controller/numaresourcesscheduler_controller.go.
    - SchedCluster: its client, the laws on it, and a concrete cluster. SchedSpec,
      SchedDeploySpec, SchedInstall, SchedReconcileSpec and SchedTheorems: theorems.

    The rest of the operator:
    - Conversion: api/v1alpha1, its types, defaults and conversions, with theorems.
    - Kubelet: internal/controller/kubeletconfig_controller.go, pkg/kubeletconfig,
      rte/pkg/config, pkg/objectstate/cfg, internal/machineconfigpools. KubeletSpec:
      theorems.
    - Watches: SetupWithManager of the three controllers, with what the handlers of
      the framework (vendored) do with an event; theorems.
    - Loading: the manifests packages, their rendering, the SELinux policies,
      internal/platforminfo, and the part of cmd/main.go that uses them.
      LoadingSpec: theorems, with the repository's files as an instance.
    - Detect: pkg/numaresourcesoperator/platform, pkg/version (discovery of the
      cluster), pkg/images and pkg/iter (discovery of the image). Main: cmd/main.go
      from the command line to the manager, pkg/objectupdate/tls, the manifests of the
      topology API and of the metrics. MainSpec: theorems.

    Programs and helpers around it:
    - Nrovalidate: nrovalidate, internal/schedcache, internal/podlist,
      internal/nodegroups. NrovalidateSpec: theorems.
    - Resources: internal/resourcelist, internal/baseload,
      internal/noderesourcetopology, internal/wait/nrts.go. ResourcesSpec: theorems.
    - PfpSync: tools/pfpsyncchk and internal/mustgather, with theorems.
    - Waits: the other waits of internal/wait, internal/podlist,
      pkg/numaresourcesscheduler/controlplane.
    - Tools: tools/getdigests, tools/verify-commit, tools/buildhelper,
      internal/buildinfo, internal/api/features. ToolsSpec: theorems.
    - Programs: nrovalidate/main.go, rte/main.go, tools/make-job-foreach-ds,
      tools/catkubeletconfmap, tools/watchnrtattr, tools/lsplatform, internal/kloglevel.
      ProgramsSpec: theorems.
    - RemoteExec: internal/remoteexec, a step relation, with theorems.

    ** What the theorems show

    - Operator. A reconciliation returns, whatever fails, when the reads it
      dereferences without a check are answered. A refused specification changes
      the conditions of the instance and nothing else; a paused one changes
      nothing. When the shared objects are applied without error each is in the
      cluster, controlled by the instance, with the desired content, and no other
      object moved. No exporter is written while a pool of its tree waits for its
      machine config; when the reconciliation is done every pool has its exporter.
      Once it is done, reconciling the same request again on the cluster as it was left
      writes nothing but the deletions of unused objects, tried again, and reports the
      same. On a cluster that takes every legitimate write a reconciliation never fails:
      it waits for pools and daemon sets, and is done once they are up.
      Whoever deletes or changes a shared object of a watched type starts a reconciliation,
      which puts it back; what happens to the cluster-wide permissions, the service and the
      network policy starts none.
    - Scheduler. The manifests kept in memory stay well formed; a reconciliation
      writes its nine objects only, installs them, and on a cluster that takes
      every legitimate write it comes back until the deployment is available.
      Rendering the configuration refines an overlay of parameters; the deployment
      is a function of the specification; the replicas are bounded by the nodes.
    - Kubelet configurations. The config map decodes to the settings of the
      kubelet; a deletion is served once, and the queue holds deletions only.
    - API versions. Conversion preserves the effective configuration and
      round-trips, up to names it loses; the way back panics exactly when a group
      has no configuration.
    - Start-up and rendering. From complete files the manifests are what the
      theorems about the controllers assume; what the rendering namespace changes.
      Discovery gives the platform and the version the user or the cluster gave. The
      manager runs on OpenShift and HyperShift only, with reconcilers that agree and
      meet the invariants of their controllers, and it does start there.
    - Cluster validator. A report succeeds exactly when the cluster is as the
      validators asked for want it; two configurations of a node go unnoticed.
    - Apply and merge. Merging puts the desired content under the server-owned
      fields of the current object, and merging again after the result was stored
      finds no difference, whatever the merger: there is no update loop. The paths
      that lose an update or panic are stated as theorems too.
    - Removal. The loops delete the owned objects no current tree expects, and
      only them.
    - Exporter settings. Each flag of the exporter's command line, read back
      after the update, is what the configuration says; every other flag and
      container is as before; the container is hardened.
    - Codec. Printing and parsing round-trip; the key list and the map of a flag
      set stay in step under every operation.
    - Validation and trees. The validators accept exactly the lists described by
      a declarative predicate; the binding of groups to pools agrees with the
      matching used by the watches; the reduction of results is done, failed
      or ongoing exactly as its inputs say.
    - Conditions. Lists stay well formed, the changed flag is exact, and
      computing twice changes nothing.
    - Exporter program. When it serves, and with which arguments and lister.
    - Topologies and resources. When two topologies compare equal, what subtracting
      resources leaves, what the load of a node covers, and when a wait for topologies
      to settle ends.
    - Fingerprints. What the check of the fingerprints prints, and when it fails.
    - Tools. Digests are fetched for the tags of the versions asked for; a sign-off is
      accepted exactly when it is the author's; versions and branches agree; there is a
      job for every daemon set with the exporter, its pods spread over the hosts; a watch of
      topologies is never restarted.
    - Forwarded ports. However the function, its goroutine and the peer interleave,
      forwarding comes back, and closes what it opened.

    ** Parameters

    What is not in the repository is an interface or an argument: the label
    selector library ([SelectorLib]), the cluster ([Client], [SchedClient],
    [KubeletClient], [ValidatorClient], with [ClientLaws], [SchedClientLaws],
    [WillingLaws], [NROWillingLaws] and [NROSWillingLaws] where a theorem needs them), the YAML and JSON libraries
    ([YamlLib] with [YamlLaws], [KubeletLib] with [KubeletLaws], [ReportLib]),
    quantities ([QuantityLib], [Quantities] with [QuantityLaws]), the decoded embedded
    files and the libraries that read them ([Assets]), the clients of the discovery
    ([DetectLib]), the manager and what it starts ([MainLib]), the exporter's libraries
    ([rte.RteLib]), the files of a must-gather ([FileSystem]), the commands the tools run
    ([ToolsLib]), the execution in a pod ([ExecLib]), the flags libraries define
    ([library_flag], [library_takes]), SHA-256 ([sha256_hex]), the order of set and map
    elements ([UnsortedList], [range_map]) and the text of a node group
    ([show_node_group]). Theorems with laws as hypotheses are instantiated at the
    in-memory clusters and at concrete libraries.

    ** Not modelled

    Logging; what the manager does with the reconcilers (its cache, its work queue and its
    election); the exporter's own work, which is a vendored library; signals and the
    registration of schemes. Deep copies, which are generated and which values without
    sharing make the identity. The comparisons of whole statuses in pkg/status, which
    tell a nil list from an empty one and which only tests use. The logs of pods
    (internal/podlogs, tools/schedlogs), tools/envsubst and tools/lstopics, which are
    input and output; the objects built for tests (internal/objects). *)
From stdpp Require Export base gmap strings list sorting pretty.
From Stdlib Require Export Ascii ZArith Lia.

#[global] Open Scope string_scope.
#[global] Open Scope list_scope.
#[global] Set Default Goal Selector "!".

(** ** Results of Go code

    A Go function that may dereference a nil pointer, or fail a type
    assertion, either returns or panics. Errors are ordinary returned values
    (see GoErrors.v): only run-time panics use [go]. *)

Inductive panic_kind :=
| NilDereference (what : string)
| FailedTypeAssertion (what : string)
| IndexOutOfRange (what : string).

Inductive go (A : Type) :=
| Ret (a : A)
| Panic (why : panic_kind).
Arguments Ret {A} a.
Arguments Panic {A} why.

Declare Scope go_scope.
Delimit Scope go_scope with go.
#[global] Open Scope go_scope.

Definition go_bind {A B} (m : go A) (k : A -> go B) : go B :=
  match m with
  | Ret a => k a
  | Panic why => Panic why
  end.

Notation "'let!' x ':=' m 'in' k" := (go_bind m (fun x => k))
  (at level 10, x pattern, m at level 100, k at level 200) : go_scope.

(** Returning early with an error, or with whatever the right side holds. *)
Definition sum_bind {A B E} (m : A + E) (k : A -> B + E) : B + E :=
  match m with
  | inl a => k a
  | inr e => inr e
  end.

Notation "'let?' x ':=' m 'in' k" := (sum_bind m (fun x => k))
  (at level 10, x pattern, m at level 100, k at level 200) : go_scope.

(** [*p] for a pointer modelled as an option. *)
Definition deref {A} (what : string) (p : option A) : go A :=
  match p with
  | Some a => Ret a
  | None => Panic (NilDereference what)
  end.

(** A range loop whose body may panic, threading an accumulator. *)
Fixpoint go_fold {A B} (f : B -> A -> go B) (acc : B) (l : list A) : go B :=
  match l with
  | [] => Ret acc
  | x :: l' => let! acc' := f acc x in go_fold f acc' l'
  end.

Definition is_ret {A} (m : go A) : Prop := exists a, m = Ret a.

(** ** Strings, as the Go standard library handles them *)

(** [strings.Join] *)
Fixpoint str_join (sep : string) (l : list string) : string :=
  match l with
  | [] => ""
  | [s] => s
  | s :: l' => s +:+ sep +:+ str_join sep l'
  end.

(** [strings.SplitN(s, sep, 2)] for a one-byte separator: the text before the
    first separator and, when there is one, the text after it. *)
Fixpoint split2 (c : Ascii.ascii) (s : string) : string * option string :=
  match s with
  | EmptyString => (EmptyString, None)
  | String a s' =>
      if decide (a = c) then (EmptyString, Some s')
      else let '(h, t) := split2 c s' in (String a h, t)
  end.

Fixpoint str_mem (c : Ascii.ascii) (s : string) : bool :=
  match s with
  | EmptyString => false
  | String a s' => bool_decide (a = c) || str_mem c s'
  end.

(** [strings.Split] for a one-byte separator. *)
Fixpoint split_on (sep : Ascii.ascii) (s : string) : list string :=
  match s with
  | EmptyString => [""]
  | String c s' =>
      match split_on sep s' with
      | [] => [""]
      | w :: ws => if decide (c = sep) then "" :: w :: ws else String c w :: ws
      end
  end.

(** [strings.TrimSpace] on ASCII text. *)
Definition is_space (c : Ascii.ascii) : bool :=
  bool_decide (Ascii.nat_of_ascii c ∈ [9; 10; 11; 12; 13; 32]%nat).

Fixpoint trim_left (s : string) : string :=
  match s with
  | String c s' => if is_space c then trim_left s' else s
  | EmptyString => s
  end.

Definition str_rev (s : string) : string :=
  String.string_of_list_ascii (List.rev (String.list_ascii_of_string s)).

Definition TrimSpace (s : string) : string := str_rev (trim_left (str_rev (trim_left s))).

(** [strings.Contains] *)
Fixpoint str_contains (sub s : string) : bool :=
  String.prefix sub s || match s with
                         | EmptyString => false
                         | String _ s' => str_contains sub s'
                         end.

(** [strings.HasSuffix], [strings.TrimPrefix] and [strings.TrimSuffix] *)
Definition HasSuffix (s suffix : string) : bool :=
  let l := (String.length s - String.length suffix)%nat in
  (String.length suffix <=? String.length s)%nat && bool_decide (String.substring l (String.length suffix) s = suffix).

Definition TrimPrefix (s pre : string) : string :=
  if String.prefix pre s then String.substring (String.length pre) (String.length s - String.length pre) s else s.

Definition TrimSuffix (s suffix : string) : string :=
  if HasSuffix s suffix then String.substring 0 (String.length s - String.length suffix) s else s.

(** The text before and after the last occurrence of a character
    ([strings.LastIndex] and two slices). *)
Fixpoint split_last (c : Ascii.ascii) (s : string) : option (string * string) :=
  match s with
  | EmptyString => None
  | String a s' =>
      match split_last c s' with
      | Some (h, t) => Some (String a h, t)
      | None => if decide (a = c) then Some ("", s') else None
      end
  end.

(** [strings.FieldsFunc], splitting on one character. *)
Definition FieldsFunc (sep : Ascii.ascii) (s : string) : list string := filter (fun f => f <> "") (split_on sep s).

(** [strings.ToLower] on ASCII text. *)
Definition lower_char (c : Ascii.ascii) : Ascii.ascii :=
  let n := Ascii.nat_of_ascii c in
  if ((65 <=? n) && (n <=? 90))%nat then Ascii.ascii_of_nat (n + 32) else c.
Fixpoint ToLower (s : string) : string :=
  match s with
  | EmptyString => EmptyString
  | String c s' => String (lower_char c) (ToLower s')
  end.

(** [%q]: [strconv.Quote] on ASCII text; other bytes are taken as parts of
    printable characters and kept. *)
Definition hex_digit (n : nat) : Ascii.ascii :=
  Ascii.ascii_of_nat (if (n <? 10)%nat then 48 + n else 87 + n)%nat.

Definition quote_char (c : Ascii.ascii) : string :=
  let n := Ascii.nat_of_ascii c in
  let esc (k : nat) := String (Ascii.ascii_of_nat 92) (String (Ascii.ascii_of_nat k) EmptyString) in
  if (n =? 34)%nat || (n =? 92)%nat then esc n
  else if (n =? 7)%nat then esc 97%nat else if (n =? 8)%nat then esc 98%nat
  else if (n =? 12)%nat then esc 102%nat else if (n =? 10)%nat then esc 110%nat
  else if (n =? 13)%nat then esc 114%nat else if (n =? 9)%nat then esc 116%nat
  else if (n =? 11)%nat then esc 118%nat
  else if (n <? 32)%nat || (n =? 127)%nat
  then esc 120%nat +:+ String (hex_digit (n / 16)) (String (hex_digit (n mod 16)) EmptyString)
  else String c EmptyString.

Definition quote (s : string) : string :=
  let q := String (Ascii.ascii_of_nat 34) EmptyString in
  q +:+ foldr (fun c acc => quote_char c +:+ acc) "" (String.list_ascii_of_string s) +:+ q.

(** ** Automation *)

Create HintDb nro discriminated.

(** Case analysis on every [match] and [if] of the goal and the hypotheses,
    closing the branches whose equations clash. *)
Ltac split_matches :=
  repeat (case_match || case_decide || case_bool_decide; simplify_eq/=);
  try done.

(** Case analysis on the innermost scrutinee of the goal. *)
Ltac go_case :=
  match goal with
  | |- context [match ?m with _ => _ end] =>
      lazymatch m with
      | context [match _ with _ => _ end] => fail
      | _ => destruct m eqn:?; simplify_eq/=
      end
  end.

(** Resolve the [go_bind]s of a hypothesis of the form [_ = Ret _]. *)
Ltac go_inv H :=
  repeat match type of H with
  | go_bind ?m _ = Ret _ =>
      let E := fresh "E" in destruct m eqn:E; simpl in H; [|discriminate H]
  | Ret _ = Ret _ => injection H as H; subst
  end.

(** ** Generic lemmas *)

Section Go.
Context {A B : Type}.

Lemma go_bind_ret_inv (m : go A) (k : A -> go B) b :
  go_bind m k = Ret b <-> exists a, m = Ret a /\ k a = Ret b.
Proof. destruct m; simpl; split; [by eauto|by intros (? & [= ->] & ?)|done|by intros (? & ? & ?)]. Qed.

Lemma is_ret_bind (m : go A) (k : A -> go B) :
  is_ret m -> (forall a, m = Ret a -> is_ret (k a)) -> is_ret (go_bind m k).
Proof. intros [a ->] Hk. by apply Hk. Qed.

(** A loop whose body preserves an invariant and never panics under it
    returns, with the invariant. *)
Lemma go_fold_inv (f : B -> A -> go B) (I : B -> Prop) l acc :
  I acc ->
  (forall b x, I b -> x ∈ l -> exists b', f b x = Ret b' /\ I b') ->
  exists b', go_fold f acc l = Ret b' /\ I b'.
Proof.
  revert acc. induction l as [|x l IH]; intros acc Hacc Hf; simpl; [by eauto|].
  destruct (Hf acc x) as (b & Hb & HI); [done|by left|].
  rewrite Hb; simpl. apply IH; [done|]. intros b' y ? ?. apply Hf; [done|by right].
Qed.
End Go.

Section Lists.
Context {A B : Type}.

Lemma NoDup_fmap_filter (f : A -> B) (P : A -> Prop) `{!forall x, Decision (P x)} l :
  NoDup (f <$> l) -> NoDup (f <$> filter P l).
Proof.
  induction l as [|x l IH]; [done|].
  rewrite fmap_cons, NoDup_cons. intros [Hx Hl].
  rewrite filter_cons. case_decide; [|by auto].
  rewrite fmap_cons, NoDup_cons. split; [|by auto].
  intros (y & Hy & Hin)%list_elem_of_fmap. apply Hx. apply list_elem_of_fmap.
  exists y. split; [done|]. by apply list_elem_of_filter in Hin as [_ ?].
Qed.

Lemma NoDup_fmap_inj_in (f : A -> B) l x y :
  NoDup (f <$> l) -> x ∈ l -> y ∈ l -> f x = f y -> x = y.
Proof.
  induction l as [|z l IH]; [by intros _ ?%elem_of_nil|].
  rewrite fmap_cons, NoDup_cons. intros [Hz Hl].
  rewrite !elem_of_cons. intros [->|Hx] [->|Hy] Heq; auto.
  - exfalso. apply Hz. rewrite Heq. by apply list_elem_of_fmap_2.
  - exfalso. apply Hz. rewrite <-Heq. by apply list_elem_of_fmap_2.
Qed.
End Lists.

Lemma filter_nil_not_elem_of_length {A} `{EqDecision A} (l : list A) x :
  x ∉ l -> length (filter (.= x) l) = 0%nat.
Proof.
  induction l as [|y l IH]; [done|]. rewrite not_elem_of_cons. intros [Hne Hl].
  rewrite filter_cons_False by congruence. auto.
Qed.

(** Counting decides duplication. *)
Lemma NoDup_count {A} `{EqDecision A} (l : list A) :
  NoDup l <-> forall x, x ∈ l -> length (filter (.= x) l) = 1%nat.
Proof.
  induction l as [|y l IH]; [by split; [intros _ x ?%elem_of_nil|constructor]|].
  rewrite NoDup_cons, IH. split.
  - intros [Hy Hl] x [->|Hx]%elem_of_cons.
    + rewrite filter_cons_True by done; simpl. by rewrite filter_nil_not_elem_of_length.
    + rewrite filter_cons_False by (intros ->; done). auto.
  - intros Hall. assert (y ∉ l) as Hy.
    { specialize (Hall y ltac:(by left)). rewrite filter_cons_True in Hall by done; simpl in Hall.
      intros Hin. assert (y ∈ filter (.= y) l) as Hf by (by apply list_elem_of_filter).
      destruct (filter (.= y) l); [by apply elem_of_nil in Hf|]. simpl in Hall. lia. }
    split; [done|]. intros x Hx. specialize (Hall x ltac:(by right)).
    rewrite filter_cons_False in Hall by (intros ->; done). done.
Qed.

Lemma fold_left_ext {A B} (f g : B -> A -> B) (l : list A) b :
  (forall b x, f b x = g b x) -> fold_left f l b = fold_left g l b.
Proof. intros Hfg. revert b. induction l; intros b; simpl; [done|]. by rewrite Hfg. Qed.

Lemma foldr_min_elem (b : Z) (l : list Z) : foldr Z.min b l ∈ b :: l.
Proof.
  induction l as [|x l IH]; simpl; [by left|].
  destruct (Z.min_spec x (foldr Z.min b l)) as [[_ ->]|[_ ->]]; set_solver.
Qed.

Lemma foldr_min_le (b : Z) (l : list Z) x : x ∈ b :: l -> (foldr Z.min b l <= x)%Z.
Proof.
  induction l as [|y l IH]; simpl.
  - intros ->%list_elem_of_singleton. lia.
  - rewrite !elem_of_cons in *. intros [->|[->|?]].
    + assert (foldr Z.min b l <= b)%Z by auto. lia.
    + lia.
    + assert (foldr Z.min b l <= x)%Z by auto. lia.
Qed.

Lemma sum_bind_inl {A B E} (m : A + E) (k : A -> B + E) b :
  sum_bind m k = inl b <-> exists a, m = inl a /\ k a = inl b.
Proof. destruct m; simpl; naive_solver. Qed.

(** ** String lemmas *)

Lemma str_app_cons a (s t : string) : String a s +:+ t = String a (s +:+ t).
Proof. done. Qed.

Lemma str_app_nil_l (s : string) : "" +:+ s = s.
Proof. done. Qed.

Lemma str_app_assoc (s t u : string) : (s +:+ t) +:+ u = s +:+ t +:+ u.
Proof. induction s as [|a s IH]; [done|]. by rewrite !str_app_cons, IH. Qed.

Lemma str_app_nil_r (s : string) : s +:+ "" = s.
Proof. induction s as [|a s IH]; [done|]. by rewrite str_app_cons, IH. Qed.

Lemma split2_mem c s : snd (split2 c s) = None <-> str_mem c s = false.
Proof.
  induction s as [|a s IH]; simpl; [done|].
  case_decide; subst; simpl.
  - rewrite bool_decide_true by done. done.
  - rewrite bool_decide_false by done. destruct (split2 c s); simpl in *. by rewrite IH.
Qed.

Lemma split2_no_sep c s : str_mem c s = false -> split2 c s = (s, None).
Proof.
  induction s as [|a s IH]; simpl; [done|].
  case_decide; subst; simpl.
  - rewrite bool_decide_true by done. done.
  - rewrite bool_decide_false by done. intros Hs. by rewrite IH.
Qed.

Lemma split2_app c s1 s2 :
  str_mem c s1 = false -> split2 c (s1 +:+ String c s2) = (s1, Some s2).
Proof.
  induction s1 as [|a s1 IH]; simpl; intros H.
  - by rewrite decide_True.
  - apply orb_false_iff in H as [Ha Hs]. case_bool_decide; [done|].
    rewrite decide_False by done. by rewrite IH.
Qed.

Lemma split2_fst_mem c s : str_mem c (fst (split2 c s)) = false.
Proof.
  induction s as [|a s IH]; simpl; [done|].
  case_decide; simpl; [done|]. destruct (split2 c s); simpl in *.
  by rewrite bool_decide_false, IH.
Qed.

Lemma split2_Some c s t :
  snd (split2 c s) = Some t <-> exists h, s = h +:+ String c t /\ str_mem c h = false.
Proof.
  split.
  - intros Hs. exists (fst (split2 c s)). split; [|apply split2_fst_mem]. revert Hs.
    induction s as [|a s IH]; simpl; [done|]. case_decide as E; simpl.
    + intros [= ->]. by subst.
    + destruct (split2 c s) as [h o] eqn:Es; simpl in *. intros Ho. rewrite str_app_cons. f_equal. auto.
  - intros (h & -> & Hh). by rewrite split2_app.
Qed.

Lemma split_last_None c s : split_last c s = None <-> str_mem c s = false.
Proof.
  induction s as [|a s IH]; simpl; [done|].
  destruct (split_last c s) as [[h t]|] eqn:E.
  - split; [done|]. intros [_ Hs]%orb_false_iff. pose proof (proj2 IH Hs). congruence.
  - rewrite (proj1 IH eq_refl), orb_false_r. destruct (decide (a = c)); [rewrite bool_decide_true|rewrite bool_decide_false]; done.
Qed.

Lemma split_last_Some c s h t :
  split_last c s = Some (h, t) <-> s = h +:+ String c t /\ str_mem c t = false.
Proof.
  split.
  - revert h. induction s as [|a s IH]; intros h; simpl; [done|].
    destruct (split_last c s) as [[h' t']|] eqn:E.
    + intros [= <- <-]. destruct (IH h' eq_refl) as [-> ?]. by rewrite str_app_cons.
    + case_decide; [|done]. intros [= <- <-]. subst. split; [done|by apply split_last_None].
  - intros [-> Ht%split_last_None]. induction h as [|a h IH]; simpl.
    + by rewrite Ht, decide_True.
    + by rewrite IH.
Qed.

Lemma str_length_app s t : String.length (s +:+ t) = (String.length s + String.length t)%nat.
Proof. induction s as [|a s IH]; simpl; [done|]. by rewrite IH. Qed.

Lemma prefix_app s t : String.prefix s (s +:+ t) = true.
Proof. induction s as [|a s IH]; [by destruct t|]. rewrite str_app_cons. cbn. by destruct (Ascii.ascii_dec a a). Qed.

Lemma prefix_true s t : String.prefix s t = true <-> exists r, t = s +:+ r.
Proof.
  split; [|by intros [r ->]; apply prefix_app].
  revert t. induction s as [|a s IH]; intros t; simpl; [eauto|].
  destruct t as [|b t]; [done|]. cbn. destruct (Ascii.ascii_dec a b) as [<-|]; [|done].
  intros [r ->]%IH. by exists r.
Qed.

Lemma substring_full s : String.substring 0 (String.length s) s = s.
Proof. induction s as [|a s IH]; simpl; [done|]. by rewrite IH. Qed.

Lemma substring_skip s t n : String.substring (String.length s) n (s +:+ t) = String.substring 0 n t.
Proof. by induction s as [|a s IH]. Qed.

Lemma substring_head s t : String.substring 0 (String.length s) (s +:+ t) = s.
Proof. induction s as [|a s IH]; simpl; [by destruct t|]. by rewrite IH. Qed.

Lemma TrimPrefix_app pre s : TrimPrefix (pre +:+ s) pre = s.
Proof.
  unfold TrimPrefix. rewrite prefix_app, str_length_app, substring_skip.
  replace (_ + _ - _)%nat with (String.length s) by lia. apply substring_full.
Qed.

Lemma HasSuffix_app s suf : HasSuffix (s +:+ suf) suf = true.
Proof.
  unfold HasSuffix. rewrite str_length_app.
  replace (_ + _ - _)%nat with (String.length s) by lia.
  rewrite substring_skip, substring_full, bool_decide_true by done.
  rewrite andb_true_r. apply Nat.leb_le. lia.
Qed.

Lemma TrimSuffix_app s suf : TrimSuffix (s +:+ suf) suf = s.
Proof.
  unfold TrimSuffix. rewrite HasSuffix_app, str_length_app.
  replace (_ + _ - _)%nat with (String.length s) by lia. apply substring_head.
Qed.

Lemma str_mem_app c s t : str_mem c (s +:+ t) = str_mem c s || str_mem c t.
Proof. induction s as [|a s IH]; simpl; [done|]. by rewrite IH, orb_assoc. Qed.

#[export] Hint Resolve split2_fst_mem : nro.
#[export] Hint Rewrite @go_bind_ret_inv : nro.

(** ** Stable sorting

    [sort.SliceStable] and [sort.Strings] for a boolean "less or equal": the
    result of a stable sort is unique, so insertion sort stands for Go's. *)

Section StableSort.
Context {A : Type} (leb : A -> A -> bool).

Fixpoint insert_sorted (x : A) (l : list A) : list A :=
  match l with
  | [] => [x]
  | y :: l' => if leb x y then x :: y :: l' else y :: insert_sorted x l'
  end.

Definition stable_sort (l : list A) : list A := foldr insert_sorted [] l.

Lemma insert_sorted_perm x l : insert_sorted x l ≡ₚ x :: l.
Proof.
  induction l as [|y l IH]; simpl; [done|].
  case_match; [done|]. rewrite IH. by constructor.
Qed.

Lemma stable_sort_perm l : stable_sort l ≡ₚ l.
Proof. induction l as [|x l IH]; simpl; [done|]. by rewrite insert_sorted_perm, IH. Qed.

Context (leb_total : forall x y, leb x y = true \/ leb y x = true)
        (leb_trans : forall x y z, leb x y = true -> leb y z = true -> leb x z = true).

Lemma insert_sorted_StronglySorted x l :
  StronglySorted (fun a b => leb a b = true) l ->
  StronglySorted (fun a b => leb a b = true) (insert_sorted x l).
Proof.
  induction 1 as [|y l Hl IH Hy]; simpl; [by repeat constructor|].
  destruct (leb x y) eqn:E.
  - repeat constructor; [done..|]. eapply Forall_impl; [exact Hy|]. eauto.
  - constructor; [done|]. rewrite insert_sorted_perm. constructor; [|done].
    destruct (leb_total x y) as [?|?]; congruence.
Qed.

Lemma stable_sort_StronglySorted l :
  StronglySorted (fun a b => leb a b = true) (stable_sort l).
Proof.
  induction l as [|x l IH]; simpl; [constructor|]. by apply insert_sorted_StronglySorted.
Qed.

(** Elements that tie keep their relative order. *)
Definition ties (x y : A) : bool := leb x y && leb y x.

Lemma filter_insert_sorted z x l :
  StronglySorted (fun a b => leb a b = true) l ->
  filter (fun y => ties z y = true) (insert_sorted x l)
  = filter (fun y => ties z y = true) (x :: l).
Proof.
  induction 1 as [|y l Hl IH Hy]; simpl; [done|].
  destruct (leb x y) eqn:E; [done|].
  rewrite !filter_cons, IH, !filter_cons.
  destruct (decide (ties z y = true)) as [Hzy|Hzy], (decide (ties z x = true)) as [Hzx|Hzx]; try done.
  exfalso. unfold ties in Hzx, Hzy. apply andb_true_iff in Hzx as [??], Hzy as [??].
  assert (leb x y = true) by eauto. congruence.
Qed.

Lemma stable_sort_stable z l :
  filter (fun y => ties z y = true) (stable_sort l) = filter (fun y => ties z y = true) l.
Proof.
  induction l as [|x l IH]; simpl; [done|].
  rewrite filter_insert_sorted by apply stable_sort_StronglySorted.
  by rewrite !filter_cons, IH.
Qed.
End StableSort.
