(* ===== verification/GoErrors.v ===== *)
(** * Go errors

    The [error] values the operator builds and inspects: [errors.New] and
    [fmt.Errorf] values, values wrapped with [%w], [errors.Join], and the
    status errors of the Kubernetes API machinery. *)
From S2P Require Import Prelude.

(** ** Data *)

Inductive error :=
| ErrNew (msg : string)
    (** [errors.New], or [fmt.Errorf] without a [%w] verb *)
| ErrWrap (prefix : string) (inner : error)
    (** [fmt.Errorf("...: %w", err)]: the text before the verb *)
| ErrJoin (errs : list error)
    (** [errors.Join] *)
| ErrStatus (reason : string) (code : Z) (msg : string)
    (** a [StatusError] of the API machinery *).

(** [err.Error()] *)
Fixpoint Error (e : error) : string :=
  match e with
  | ErrNew msg => msg
  | ErrWrap prefix inner => prefix +:+ Error inner
  | ErrJoin errs =>
      let fix go l := match l with
                      | [] => ""
                      | [e'] => Error e'
                      | e' :: l' => Error e' +:+ String (Ascii.ascii_of_nat 10) (go l')
                      end in go errs
  | ErrStatus _ _ msg => msg
  end.

(** [errors.Unwrap]: only a [%w] wrapper has an [Unwrap() error] method. *)
Definition Unwrap (e : error) : option error :=
  match e with
  | ErrWrap _ inner => Some inner
  | _ => None
  end.

(** [errors.Join(err1, err2)]: nil values are dropped, all nil is nil. *)
Definition Join (e1 e2 : option error) : option error :=
  match e1, e2 with
  | None, None => None
  | _, _ => Some (ErrJoin (option_list e1 ++ option_list e2))
  end.

(** The depth-first search of [errors.As] for a status error. *)
Fixpoint as_status (e : error) : option (string * Z) :=
  match e with
  | ErrStatus reason code _ => Some (reason, code)
  | ErrWrap _ inner => as_status inner
  | ErrNew _ => None
  | ErrJoin errs =>
      let fix go l := match l with
                      | [] => None
                      | e' :: l' => match as_status e' with
                                    | Some r => Some r
                                    | None => go l'
                                    end
                      end in go errs
  end.

Definition StatusReasonNotFound : string := "NotFound".

Definition knownReasons : list string :=
  ["Unauthorized"; "Forbidden"; "NotFound"; "AlreadyExists"; "Conflict"; "Gone"; "Invalid";
   "ServerTimeout"; "StorageReadError"; "Timeout"; "TooManyRequests"; "BadRequest";
   "MethodNotAllowed"; "NotAcceptable"; "RequestEntityTooLarge"; "UnsupportedMediaType";
   "InternalError"; "Expired"; "ServiceUnavailable"].

(** [apierrors.IsNotFound] *)
Definition IsNotFound (e : error) : bool :=
  match as_status e with
  | None => false
  | Some (reason, code) =>
      bool_decide (reason = StatusReasonNotFound)
      || (negb (bool_decide (reason ∈ knownReasons)) && Z.eqb code 404)
  end.

Definition NewNotFound (what : string) : error :=
  ErrStatus StatusReasonNotFound 404 (what +:+ " not found").

(** ** Lemmas *)

Lemma Join_None e1 e2 : Join e1 e2 = None <-> e1 = None /\ e2 = None.
Proof. destruct e1, e2; naive_solver. Qed.

(** Accumulating errors over a loop stays nil exactly when no step reports. *)
Lemma fold_Join_None {A} (f : A -> option error) (l : list A) (acc : option error) :
  fold_left (fun e x => Join e (f x)) l acc = None <-> acc = None /\ Forall (fun x => f x = None) l.
Proof.
  revert acc. induction l as [|x l IH]; intros acc; simpl.
  - split; [by eauto|by intros [? _]].
  - rewrite IH, Join_None, Forall_cons. tauto.
Qed.

Lemma IsNotFound_wrap p e : IsNotFound (ErrWrap p e) = IsNotFound e.
Proof. done. Qed.

Lemma IsNotFound_NewNotFound w : IsNotFound (NewNotFound w) = true.
Proof. done. Qed.

#[export] Hint Resolve IsNotFound_NewNotFound : nro.
#[export] Hint Rewrite Join_None @fold_Join_None IsNotFound_wrap : nro.
