(* ===== verification/Meta.v ===== *)
(** * Kubernetes metadata and value types

    The API-machinery data the operator handles (conditions, label selectors,
    tolerations, owner references, object metadata), [time.Duration] printing,
    and the interface of the label-selector library. *)
From S2P Require Import Prelude GoErrors.

(** ** Names *)

Record NamespacedName := mkNamespacedName { nn_Namespace : string; nn_Name : string }.

#[global] Instance NamespacedName_eq_dec : EqDecision NamespacedName.
Proof. solve_decision. Defined.
#[global] Instance NamespacedName_countable : Countable NamespacedName.
Proof.
  refine (inj_countable' (fun k => (nn_Namespace k, nn_Name k))
            (fun p => mkNamespacedName (fst p) (snd p)) _). by intros [].
Defined.

(** [types.NamespacedName.String()] *)
Definition nn_String (k : NamespacedName) : string :=
  nn_Namespace k +:+ "/" +:+ nn_Name k.

(** ** Status conditions; times are nanoseconds since Go's zero time *)

Definition ConditionTrue : string := "True".
Definition ConditionFalse : string := "False".
Definition ConditionUnknown : string := "Unknown".

Record Condition := mkCondition {
  cond_Type : string;
  cond_Status : string;
  cond_ObservedGeneration : Z;
  cond_LastTransitionTime : Z;
  cond_Reason : string;
  cond_Message : string }.

#[global] Instance Condition_eq_dec : EqDecision Condition.
Proof. solve_decision. Defined.

(** ** Label selectors *)

Record LabelSelectorRequirement := mkLabelSelectorRequirement {
  lsr_Key : string; lsr_Operator : string; lsr_Values : list string }.

Record LabelSelector := mkLabelSelector {
  ls_MatchLabels : gmap string string;
  ls_MatchExpressions : list LabelSelectorRequirement }.

#[global] Instance LabelSelectorRequirement_eq_dec : EqDecision LabelSelectorRequirement.
Proof. solve_decision. Defined.
#[global] Instance LabelSelector_eq_dec : EqDecision LabelSelector.
Proof. solve_decision. Defined.

(** What the operator uses of the label-selector library: conversion of a
    [LabelSelector] into a matcher, which may be refused, and its text. *)
Class SelectorLib := {
  LabelSelectorAsSelector : LabelSelector -> (gmap string string -> bool) + error;
  LabelSelector_String : LabelSelector -> string;
}.

(** ** Tolerations *)

Record Toleration := mkToleration {
  tol_Key : string; tol_Operator : string; tol_Value : string;
  tol_Effect : string; tol_TolerationSeconds : option Z }.

#[global] Instance Toleration_eq_dec : EqDecision Toleration.
Proof. solve_decision. Defined.

(** ** Object metadata; a nil map is [None] *)

Record OwnerReference := mkOwnerReference {
  or_APIVersion : string; or_Kind : string; or_Name : string; or_UID : string;
  or_Controller : option bool; or_BlockOwnerDeletion : option bool }.

#[global] Instance OwnerReference_eq_dec : EqDecision OwnerReference.
Proof. solve_decision. Defined.

Record ObjectMeta := mkObjectMeta {
  om_Name : string;
  om_Namespace : string;
  om_SelfLink : string;
  om_UID : string;
  om_ResourceVersion : string;
  om_Generation : Z;
  om_CreationTimestamp : Z;
  om_Labels : option (gmap string string);
  om_Annotations : option (gmap string string);
  om_OwnerReferences : list OwnerReference;
  om_Finalizers : list string;
  om_ManagedFields : list string }.

#[global] Instance ObjectMeta_eq_dec : EqDecision ObjectMeta.
Proof. solve_decision. Defined.

Definition emptyMeta (name namespace : string) : ObjectMeta :=
  {| om_Name := name; om_Namespace := namespace; om_SelfLink := ""; om_UID := "";
     om_ResourceVersion := ""; om_Generation := 0; om_CreationTimestamp := 0;
     om_Labels := None; om_Annotations := None; om_OwnerReferences := [];
     om_Finalizers := []; om_ManagedFields := [] |}.

Definition om_key (m : ObjectMeta) : NamespacedName :=
  mkNamespacedName (om_Namespace m) (om_Name m).

(** Reading a possibly nil map. *)
Definition map_of (m : option (gmap string string)) : gmap string string := default ∅ m.

(** ** [time.Duration] *)

Module Duration.
Open Scope Z_scope.

Definition Nanosecond : Z := 1.
Definition Microsecond : Z := 1000 * Nanosecond.
Definition Millisecond : Z := 1000 * Microsecond.
Definition Second : Z := 1000 * Millisecond.
Definition Minute : Z := 60 * Second.

Definition digit (d : Z) : Ascii.ascii := Ascii.ascii_of_nat (48 + Z.to_nat d).

(** [fmtFrac]: the fraction of [v / 10^prec] without trailing zeros, written
    in front of [acc], and the integer part. *)
Fixpoint fmtFrac (prec : nat) (v : Z) (print : bool) (acc : string) : string * Z :=
  match prec with
  | O => (if print then String (Ascii.ascii_of_nat 46) acc else acc, v)
  | S prec' =>
      let d := v mod 10 in
      let print' := print || negb (d =? 0) in
      fmtFrac prec' (v / 10) print' (if print' then String (digit d) acc else acc)
  end.

Definition micro : string := String (Ascii.ascii_of_nat 194) (String (Ascii.ascii_of_nat 181) "s").

Definition small (u : Z) : string :=
  if u =? 0 then "0s"
  else if u <? Microsecond then pretty u +:+ "ns"
  else if u <? Millisecond then
    let '(frac, i) := fmtFrac 3 u false micro in pretty i +:+ frac
  else let '(frac, i) := fmtFrac 6 u false "ms" in pretty i +:+ frac.

Definition large (u : Z) : string :=
  let '(frac, secs) := fmtFrac 9 u false "s" in
  let s := pretty (secs mod 60) +:+ frac in
  let mins := secs / 60 in
  if 0 <? mins then
    let s := pretty (mins mod 60) +:+ "m" +:+ s in
    let hours := mins / 60 in
    if 0 <? hours then pretty hours +:+ "h" +:+ s else s
  else s.

(** [Duration.String()], on an int64 number of nanoseconds *)
Definition String (d : Z) : string :=
  let u := Z.abs d in
  let s := if u <? Second then small u else large u in
  if d <? 0 then "-" +:+ s else s.

Example String_10s : String (10 * Second) = "10s".
Proof. vm_compute. reflexivity. Qed.
Example String_90s : String (90 * Second) = "1m30s".
Proof. vm_compute. reflexivity. Qed.
Example String_1h : String (60 * Minute + 500 * Millisecond) = "1h0m0.5s".
Proof. vm_compute. reflexivity. Qed.
Example String_2500us : String (2500 * Microsecond) = "2.5ms".
Proof. vm_compute. reflexivity. Qed.
End Duration.
