(* ===== verification/Selectors.v ===== *)
(** * An executable label-selector library

    An instance of the [SelectorLib] interface that follows the API machinery
    (selector requirements, their validation, matching, and the text of a
    selector). The components are proved against the interface; this instance
    shows that the interface is inhabited and evaluates concrete selectors.
    The wording of a refusal is not reproduced. *)
From S2P Require Import Prelude GoErrors Meta.
From Stdlib Require Import Ascii.

Definition in_range (lo hi : nat) (c : ascii) : bool :=
  (lo <=? nat_of_ascii c)%nat && (nat_of_ascii c <=? hi)%nat.
Definition is_lower := in_range 97 122.
Definition is_upper := in_range 65 90.
Definition is_digit := in_range 48 57.
Definition is_alnum (c : ascii) : bool := is_lower c || is_upper c || is_digit c.
Definition is_lower_alnum (c : ascii) : bool := is_lower c || is_digit c.
Definition is_name_char (c : ascii) : bool :=
  is_alnum c || bool_decide (c ∈ ["-"; "_"; "."]%char).
Definition is_dns_char (c : ascii) : bool := is_lower_alnum c || bool_decide (c = "-"%char).

(** A non-empty word of [mid] characters that starts and ends with [edge] ones. *)
Definition word_ok (edge mid : ascii -> bool) (s : string) : bool :=
  let l := String.list_ascii_of_string s in
  match l with
  | [] => false
  | c :: _ => edge c && forallb mid l && edge (List.last l c)
  end.

Definition isDNS1123Subdomain (s : string) : bool :=
  (String.length s <=? 253)%nat && forallb (word_ok is_lower_alnum is_dns_char) (split_on "." s).

Definition isQualifiedName (s : string) : bool :=
  let name_ok n := (String.length n <=? 63)%nat && word_ok is_alnum is_name_char n in
  match split_on "/" s with
  | [n] => name_ok n
  | [p; n] => isDNS1123Subdomain p && name_ok n
  | _ => false
  end.

Definition isValidLabelValue (s : string) : bool :=
  (String.length s <=? 63)%nat && (bool_decide (s = "") || word_ok is_alnum is_name_char s).

Inductive SelOp := OpIn | OpNotIn | OpExists | OpDoesNotExist.

Definition parseOp (s : string) : option SelOp :=
  if decide (s = "In") then Some OpIn
  else if decide (s = "NotIn") then Some OpNotIn
  else if decide (s = "Exists") then Some OpExists
  else if decide (s = "DoesNotExist") then Some OpDoesNotExist
  else None.

Definition requirement_ok (r : LabelSelectorRequirement) : bool :=
  isQualifiedName (lsr_Key r) && forallb isValidLabelValue (lsr_Values r) &&
  match parseOp (lsr_Operator r) with
  | Some OpIn | Some OpNotIn => negb (bool_decide (lsr_Values r = []))
  | Some OpExists | Some OpDoesNotExist => bool_decide (lsr_Values r = [])
  | None => false
  end.

Definition requirement_matches (r : LabelSelectorRequirement) (ls : gmap string string) : bool :=
  match parseOp (lsr_Operator r), ls !! lsr_Key r with
  | Some OpIn, Some v => bool_decide (v ∈ lsr_Values r)
  | Some OpIn, None => false
  | Some OpNotIn, Some v => negb (bool_decide (v ∈ lsr_Values r))
  | Some OpNotIn, None => true
  | Some OpExists, o => bool_decide (is_Some o)
  | Some OpDoesNotExist, o => negb (bool_decide (is_Some o))
  | None, _ => false
  end.

(** The equality requirements of [MatchLabels] and the expressions. *)
Definition requirements (s : LabelSelector) : list LabelSelectorRequirement :=
  ((fun kv => mkLabelSelectorRequirement (fst kv) "In" [snd kv]) <$> map_to_list (ls_MatchLabels s))
  ++ ls_MatchExpressions s.

Definition go_strings (l : list string) : string := "[" +:+ str_join " " l +:+ "]".

Definition selector_string (s : LabelSelector) : string :=
  let req r := "LabelSelectorRequirement{Key:" +:+ lsr_Key r +:+ ",Operator:" +:+ lsr_Operator r
               +:+ ",Values:" +:+ go_strings (lsr_Values r) +:+ ",}," in
  let keys := stable_sort String.leb (elements (dom (ls_MatchLabels s))) in
  let labels := (fun k => k +:+ ": " +:+ default "" (ls_MatchLabels s !! k) +:+ ",") <$> keys in
  "&LabelSelector{MatchLabels:map[string]string{" +:+ str_join "" labels
  +:+ "},MatchExpressions:[]LabelSelectorRequirement{"
  +:+ str_join "" (req <$> ls_MatchExpressions s) +:+ "},}".

#[global] Instance k8s_selectors : SelectorLib := {|
  LabelSelectorAsSelector s :=
    if forallb requirement_ok (requirements s)
    then inl (fun ls => forallb (fun r => requirement_matches r ls) (requirements s))
    else inr (ErrNew "invalid label selector");
  LabelSelector_String := selector_string |}.

Definition match_label (k v : string) : LabelSelector := mkLabelSelector {[k := v]} [].

Example selector_matches :
  match LabelSelectorAsSelector (match_label "pools.operator.machineconfiguration.openshift.io/worker" "") with
  | inl M => M {["pools.operator.machineconfiguration.openshift.io/worker" := ""]}
  | inr _ => false
  end = true.
Proof. vm_compute. reflexivity. Qed.

Example selector_refused :
  match LabelSelectorAsSelector (mkLabelSelector ∅ [mkLabelSelectorRequirement "a" "In" []]) with
  | inl _ => false
  | inr _ => true
  end = true.
Proof. vm_compute. reflexivity. Qed.

Example selector_text :
  LabelSelector_String (match_label "test" "common")
  = "&LabelSelector{MatchLabels:map[string]string{test: common,},MatchExpressions:[]LabelSelectorRequirement{},}".
Proof. vm_compute. reflexivity. Qed.
