(* ===== verification/ApiV1.v ===== *)
(** * The operator API (api/v1), object names, annotations and platforms

    The [NUMAResourcesOperator] resource with its node groups, the defaulting
    and normalisation of node-group configurations, the names of generated
    objects, the annotations that switch behaviours, and the related objects
    reported in the status. *)
From S2P Require Import Prelude GoErrors Meta.

(** ** Platforms (pkg/numaresourcesoperator/platform) *)

Module platform.
Inductive Platform := Unknown | Kubernetes | OpenShift | HyperShift.

#[global] Instance Platform_eq_dec : EqDecision Platform.
Proof. solve_decision. Defined.
End platform.

Definition platform_String (p : platform.Platform) : string :=
  match p with
  | platform.Unknown => "Unknown"
  | platform.Kubernetes => "Kubernetes"
  | platform.OpenShift => "OpenShift"
  | platform.HyperShift => "HyperShift"
  end.

(** ** Generated names (pkg/objectnames) *)

Module objectnames.
Definition DefaultNUMAResourcesOperatorCrName : string := "numaresourcesoperator".
Definition DefaultNUMAResourcesSchedulerCrName : string := "numaresourcesscheduler".

Definition GetMachineConfigName (instanceName mcpName : string) : string :=
  "51-" +:+ instanceName +:+ "-" +:+ mcpName.

Definition GetComponentName (instanceName mcpName : string) : string :=
  instanceName +:+ "-" +:+ mcpName.

Lemma GetComponentName_inj i p1 p2 : GetComponentName i p1 = GetComponentName i p2 -> p1 = p2.
Proof.
  unfold GetComponentName. induction i as [|a i IH]; intros Heq.
  - by injection Heq.
  - rewrite !str_app_cons in Heq. injection Heq as Heq. by apply IH.
Qed.

Lemma GetMachineConfigName_inj i p1 p2 :
  GetMachineConfigName i p1 = GetMachineConfigName i p2 -> p1 = p2.
Proof. intros Heq. injection Heq as Heq. by apply (GetComponentName_inj i). Qed.
End objectnames.

(** ** Annotations (internal/api/annotations) *)

Module annotations.
Definition SELinuxPolicyConfigAnnotation : string := "config.node.openshift-kni.io/selinux-policy".
Definition SELinuxPolicyCustom : string := "custom".
Definition MultiplePoolsPerTreeAnnotation : string := "config.node.openshift-kni.io/multiple-pools-per-tree".
Definition MultiplePoolsPerTreeEnabled : string := "enabled".
Definition PauseReconciliationAnnotation : string := "config.numa-operator.openshift.io/pause-reconciliation".
Definition PauseReconciliationAnnotationEnabled : string := "enabled".
Definition NRTAPIDefinitionAnnotation : string := "config.numa-operator.openshift.io/nrt-api-definition".
Definition NRTAPIFromCluster : string := "cluster".
Definition SchedulerQOSRequestAnnotation : string := "config.numa-operator.openshift.io/scheduler-qos-request".
Definition SchedulerQOSRequestGuaranteed : string := "guaranteed".

Definition IsCustomPolicyEnabled (annot : gmap string string) : bool :=
  match annot !! SELinuxPolicyConfigAnnotation with
  | Some v => bool_decide (v = SELinuxPolicyCustom)
  | None => false
  end.

Definition IsMultiplePoolsPerTreeEnabled (annot : gmap string string) : bool :=
  match annot !! MultiplePoolsPerTreeAnnotation with
  | Some v => bool_decide (v = MultiplePoolsPerTreeEnabled)
  | None => false
  end.

Definition IsPauseReconciliationEnabled (annot : gmap string string) : bool :=
  match annot !! PauseReconciliationAnnotation with
  | Some v => bool_decide (v = PauseReconciliationAnnotationEnabled)
  | None => false
  end.

Definition IsNRTAPIDefinitionCluster (annot : gmap string string) : bool :=
  match annot !! NRTAPIDefinitionAnnotation with
  | Some v => bool_decide (v = NRTAPIFromCluster)
  | None => false
  end.

Definition IsSchedulerQOSRequestGuaranteed (annot : gmap string string) : bool :=
  match annot !! SchedulerQOSRequestAnnotation with
  | Some v => bool_decide (v = SchedulerQOSRequestGuaranteed)
  | None => false
  end.
End annotations.

(** ** The resource types (api/v1/numaresourcesoperator_types.go) *)

Definition PodsFingerprintingMode := string.
Definition PodsFingerprintingDisabled : PodsFingerprintingMode := "Disabled".
Definition PodsFingerprintingEnabled : PodsFingerprintingMode := "Enabled".
Definition PodsFingerprintingEnabledExclusiveResources : PodsFingerprintingMode :=
  "EnabledExclusiveResources".

Definition InfoRefreshPauseMode := string.
Definition InfoRefreshPauseDisabled : InfoRefreshPauseMode := "Disabled".
Definition InfoRefreshPauseEnabled : InfoRefreshPauseMode := "Enabled".

Definition NUMAPlacementMode := string.
Definition NUMAPlacementContainer : NUMAPlacementMode := "container".
Definition NUMAPlacementNone : NUMAPlacementMode := "none".

Definition InfoRefreshMode := string.
Definition InfoRefreshPeriodic : InfoRefreshMode := "Periodic".
Definition InfoRefreshEvents : InfoRefreshMode := "Events".
Definition InfoRefreshPeriodicAndEvents : InfoRefreshMode := "PeriodicAndEvents".

Record NodeGroupConfig := mkNodeGroupConfig {
  ngc_PodsFingerprinting : option PodsFingerprintingMode;
  ngc_InfoRefreshMode : option InfoRefreshMode;
  ngc_InfoRefreshPeriod : option Z;
  ngc_InfoRefreshPause : option InfoRefreshPauseMode;
  ngc_NUMAPlacement : option NUMAPlacementMode;
  ngc_Tolerations : list Toleration }.

#[global] Instance NodeGroupConfig_eq_dec : EqDecision NodeGroupConfig.
Proof. solve_decision. Defined.

Definition NodeGroupMaxAnnotations : nat := 8.

Record NodeGroup := mkNodeGroup {
  ng_MachineConfigPoolSelector : option LabelSelector;
  ng_Config : option NodeGroupConfig;
  ng_PoolName : option string;
  ng_Annotations : gmap string string }.

#[global] Instance NodeGroup_eq_dec : EqDecision NodeGroup.
Proof. solve_decision. Defined.

Definition ng_with_Config (ng : NodeGroup) (c : option NodeGroupConfig) : NodeGroup :=
  mkNodeGroup (ng_MachineConfigPoolSelector ng) c (ng_PoolName ng) (ng_Annotations ng).

Record NodeGroupStatus := mkNodeGroupStatus {
  ngs_DaemonSet : NamespacedName;
  ngs_Config : NodeGroupConfig;
  ngs_PoolName : string }.

(** A condition of an OpenShift machine config pool. *)
Record MachineConfigPoolCondition := mkMachineConfigPoolCondition {
  mcpc_Type : string; mcpc_Status : string; mcpc_Reason : string; mcpc_Message : string }.

#[global] Instance MachineConfigPoolCondition_eq_dec : EqDecision MachineConfigPoolCondition.
Proof. solve_decision. Defined.

(** [nropv1.MachineConfigPool], the per-pool status *)
Record NROMachineConfigPool := mkNROMachineConfigPool {
  nromcp_Name : string;
  nromcp_Conditions : list MachineConfigPoolCondition;
  nromcp_Config : option NodeGroupConfig }.

Record ObjectReference := mkObjectReference {
  ref_Group : string; ref_Resource : string; ref_Namespace : string; ref_Name : string }.

Record NUMAResourcesOperatorSpec := mkNROSpec {
  spec_NodeGroups : list NodeGroup;
  spec_ExporterImage : string;
  spec_LogLevel : string;
  spec_PodExcludes : list NamespacedName }.

Record NUMAResourcesOperatorStatus := mkNROStatus {
  st_DaemonSets : list NamespacedName;
  st_MachineConfigPools : list NROMachineConfigPool;
  st_NodeGroups : list NodeGroupStatus;
  st_Conditions : list Condition;
  st_RelatedObjects : list ObjectReference }.

Record NUMAResourcesOperator := mkNRO {
  nro_Meta : ObjectMeta;
  nro_Spec : NUMAResourcesOperatorSpec;
  nro_Status : NUMAResourcesOperatorStatus }.

Definition nro_Name (i : NUMAResourcesOperator) : string := om_Name (nro_Meta i).

Section Names.
Context `{SelectorLib}.

(** [NodeGroup.GetName] on a non-nil receiver *)
Definition GetName (ng : NodeGroup) : string :=
  match ng_PoolName ng with
  | Some p => p
  | None =>
      match ng_MachineConfigPoolSelector ng with
      | Some s => LabelSelector_String s
      | None => "<missingName>"
      end
  end.

Definition GetPoolName (ng : option NodeGroup) : string :=
  match ng with
  | None => "nil"
  | Some ng => default "<missing>" (ng_PoolName ng)
  end.

Definition GetMCPSelector (ng : option NodeGroup) : string :=
  match ng with
  | None => "nil"
  | Some ng => match ng_MachineConfigPoolSelector ng with
               | None => "<missing>"
               | Some s => LabelSelector_String s
               end
  end.
End Names.

(** [annsToString]: key=value pairs in key order *)
Definition annsToString (anns : gmap string string) : string :=
  let keys := stable_sort String.leb (elements (dom anns)) in
  str_join "," ((fun k => k +:+ "=" +:+ default "" (anns !! k)) <$> keys).

(** ** Defaults (api/v1/numaresourcesoperator_defaults.go) *)

Definition defaultPodsFingerprinting : option PodsFingerprintingMode :=
  Some PodsFingerprintingEnabledExclusiveResources.
Definition defaultInfoRefreshMode : option InfoRefreshMode := Some InfoRefreshPeriodic.
Definition defaultInfoRefreshPeriod : option Z := Some (10 * Duration.Second)%Z.
Definition defaultInfoRefreshPause : option InfoRefreshPauseMode := Some InfoRefreshPauseDisabled.
Definition defaultNUMAPlacement : option NUMAPlacementMode := Some NUMAPlacementContainer.

Definition SetDefaults (ngc : NodeGroupConfig) : NodeGroupConfig :=
  mkNodeGroupConfig
    (match ngc_PodsFingerprinting ngc with None => defaultPodsFingerprinting | p => p end)
    (match ngc_InfoRefreshMode ngc with None => defaultInfoRefreshMode | p => p end)
    (match ngc_InfoRefreshPeriod ngc with None => defaultInfoRefreshPeriod | p => p end)
    (match ngc_InfoRefreshPause ngc with None => defaultInfoRefreshPause | p => p end)
    (match ngc_NUMAPlacement ngc with None => defaultNUMAPlacement | p => p end)
    (ngc_Tolerations ngc).

Definition DefaultNodeGroupConfig : NodeGroupConfig :=
  SetDefaults (mkNodeGroupConfig None None None None None []).

(** ** Printing

    A configuration is printed with its defaults, which are filled in the value
    printed: the second component is what the receiver holds afterwards. *)
Section Printing.
Context `{SelectorLib} (show_tolerations : list Toleration -> string).

Definition NodeGroupConfig_ToString (ngc : option NodeGroupConfig) : string * option NodeGroupConfig :=
  match ngc with
  | None => ("nil", None)
  | Some ngc =>
      let ngc := SetDefaults ngc in
      ("PodsFingerprinting mode: " +:+ default "" (ngc_PodsFingerprinting ngc)
         +:+ " InfoRefreshMode: " +:+ default "" (ngc_InfoRefreshMode ngc)
         +:+ " InfoRefreshPeriod: " +:+ from_option Duration.String "" (ngc_InfoRefreshPeriod ngc)
         +:+ " InfoRefreshPause: " +:+ default "" (ngc_InfoRefreshPause ngc)
         +:+ " NUMAPlacement mode: " +:+ default "" (ngc_NUMAPlacement ngc)
         +:+ " Tolerations: " +:+ show_tolerations (ngc_Tolerations ngc), Some ngc)
  end.

Definition NodeGroup_ToString (ng : option NodeGroup) : string * option NodeGroup :=
  match ng with
  | None => ("nil", None)
  | Some g =>
      let '(config, conf) := NodeGroupConfig_ToString (ng_Config g) in
      ("PoolName: " +:+ GetPoolName ng +:+ " MCPSelector: " +:+ GetMCPSelector ng +:+ " Config: " +:+ config
         +:+ " Annotations: " +:+ annsToString (ng_Annotations g),
       Some (mkNodeGroup (ng_MachineConfigPoolSelector g) conf (ng_PoolName g) (ng_Annotations g)))
  end.
End Printing.

(** ** Normalisation (api/v1/numaresourcesoperator_normalize.go) *)

Definition CloneTolerations (tols : list Toleration) : list Toleration :=
  fold_left (fun ret tol => ret ++ [tol]) tols [].

Definition Merge (current updated : NodeGroupConfig) : NodeGroupConfig :=
  mkNodeGroupConfig
    (match ngc_PodsFingerprinting updated with None => ngc_PodsFingerprinting current | p => p end)
    (match ngc_InfoRefreshMode updated with None => ngc_InfoRefreshMode current | p => p end)
    (match ngc_InfoRefreshPeriod updated with None => ngc_InfoRefreshPeriod current | p => p end)
    (match ngc_InfoRefreshPause updated with None => ngc_InfoRefreshPause current | p => p end)
    (match ngc_NUMAPlacement updated with None => ngc_NUMAPlacement current | p => p end)
    (ngc_Tolerations current).

Definition NormalizeConfig (nodeGroup : NodeGroup) : NodeGroupConfig :=
  let conf := DefaultNodeGroupConfig in
  match ng_Config nodeGroup with
  | None => conf
  | Some c =>
      let conf := mkNodeGroupConfig (ngc_PodsFingerprinting conf) (ngc_InfoRefreshMode conf)
                    (ngc_InfoRefreshPeriod conf) (ngc_InfoRefreshPause conf)
                    (ngc_NUMAPlacement conf) (CloneTolerations (ngc_Tolerations c)) in
      Merge conf c
  end.

(** The comparison of [SortedTolerations]: key, operator, value, effect. *)
Definition tol_less (a b : Toleration) : bool :=
  if decide (tol_Key a <> tol_Key b) then String.ltb (tol_Key a) (tol_Key b)
  else if decide (tol_Operator a <> tol_Operator b) then String.ltb (tol_Operator a) (tol_Operator b)
  else if decide (tol_Value a <> tol_Value b) then String.ltb (tol_Value a) (tol_Value b)
  else String.ltb (tol_Effect a) (tol_Effect b).

(** [sort.SliceStable] orders by the negation of "the other is less". *)
Definition SortedTolerations (tols : list Toleration) : list Toleration :=
  stable_sort (fun a b => negb (tol_less b a)) (CloneTolerations tols).

(** ** Related objects (internal/relatedobjects) *)

Definition ResourceTopologyExporter (namespace : string) (dsStatuses : list NamespacedName)
  : list ObjectReference :=
  fold_left (fun ret ds => ret ++ [mkObjectReference "apps" "daemonsets" (nn_Namespace ds) (nn_Name ds)])
    dsStatuses
    [ mkObjectReference "" "namespaces" "" namespace;
      mkObjectReference "machineconfiguration.openshift.io" "kubeletconfigs" "" "";
      mkObjectReference "machineconfiguration.openshift.io" "machineconfigs" "" "";
      mkObjectReference "topology.node.k8s.io" "noderesourcetopologies" "" "" ].

(** ** Lemmas *)

Lemma fold_append {A B} (f : A -> B) l acc :
  fold_left (fun ret x => ret ++ [f x]) l acc = acc ++ (f <$> l).
Proof.
  revert acc. induction l as [|x l IH]; intros acc; simpl; [by rewrite app_nil_r|].
  rewrite IH. by rewrite <-app_assoc.
Qed.

Lemma CloneTolerations_id tols : CloneTolerations tols = tols.
Proof. unfold CloneTolerations. rewrite (fold_append (fun x => x)). by rewrite list_fmap_id. Qed.

(** A configuration every field of which is set: no consumer meets a nil. *)
Definition config_complete (c : NodeGroupConfig) : Prop :=
  is_Some (ngc_PodsFingerprinting c) /\ is_Some (ngc_InfoRefreshMode c) /\
  is_Some (ngc_InfoRefreshPeriod c) /\ is_Some (ngc_InfoRefreshPause c) /\
  is_Some (ngc_NUMAPlacement c).

Lemma SetDefaults_complete c : config_complete (SetDefaults c).
Proof. destruct c; unfold config_complete; simpl. repeat split; case_match; eauto. Qed.

Lemma Merge_complete cur upd : config_complete cur -> config_complete (Merge cur upd).
Proof. unfold config_complete; simpl. intros (?&?&?&?&?). repeat split; case_match; eauto. Qed.

Lemma NormalizeConfig_complete ng : config_complete (NormalizeConfig ng).
Proof.
  unfold NormalizeConfig. destruct (ng_Config ng); [apply Merge_complete|]; apply SetDefaults_complete.
Qed.

#[export] Hint Resolve SetDefaults_complete Merge_complete NormalizeConfig_complete : nro.

Lemma NormalizeConfig_eq ng :
  NormalizeConfig ng
  = match ng_Config ng with
    | None => DefaultNodeGroupConfig
    | Some c => SetDefaults c
    end.
Proof.
  unfold NormalizeConfig. destruct (ng_Config ng) as [[[] [] [] [] [] ?]|]; try done;
  by rewrite CloneTolerations_id.
Qed.

Lemma SetDefaults_idemp c : SetDefaults (SetDefaults c) = SetDefaults c.
Proof. by destruct c as [[] [] [] [] [] ?]. Qed.

(** [tol_less] through the lexicographic order of the four fields. *)
Lemma ltb_negb_leb (s t : string) : String.ltb s t = negb (String.leb t s).
Proof.
  unfold String.ltb, String.leb. rewrite String.compare_antisym.
  by destruct (String.compare t s).
Qed.

Lemma leb_refl (s : string) : String.leb s s = true.
Proof. by destruct (String.leb_total s s). Qed.

Lemma leb_trans (a b c : string) :
  String.leb a b = true -> String.leb b c = true -> String.leb a c = true.
Proof.
  intros Hab Hbc. apply Is_true_true.
  exact (transitivity (R := String.le) (proj2 (Is_true_true _) Hab) (proj2 (Is_true_true _) Hbc)).
Qed.

Definition tol_fields (t : Toleration) : list string :=
  [tol_Key t; tol_Operator t; tol_Value t; tol_Effect t].

Fixpoint lex_leb (l1 l2 : list string) : bool :=
  match l1, l2 with
  | [], _ => true
  | _ :: _, [] => false
  | a :: l1', b :: l2' =>
      if decide (a = b) then lex_leb l1' l2' else String.leb a b
  end.

Lemma tol_leb_lex a b : negb (tol_less b a) = lex_leb (tol_fields a) (tol_fields b).
Proof.
  unfold tol_less; simpl.
  repeat (case_decide; try congruence); rewrite ?ltb_negb_leb, ?negb_involutive; try congruence.
  by replace (tol_Effect b) with (tol_Effect a) by congruence; rewrite leb_refl.
Qed.

Lemma lex_leb_total l1 l2 : lex_leb l1 l2 = true \/ lex_leb l2 l1 = true.
Proof.
  revert l2. induction l1 as [|a l1 IH]; intros [|b l2]; simpl; auto.
  repeat case_decide; try congruence; auto using String.leb_total.
Qed.

Lemma lex_leb_trans l1 l2 l3 :
  lex_leb l1 l2 = true -> lex_leb l2 l3 = true -> lex_leb l1 l3 = true.
Proof.
  revert l2 l3. induction l1 as [|a l1 IH]; intros [|b l2] [|c l3]; simpl; auto; [done..|].
  repeat case_decide; subst; eauto using leb_trans; try congruence.
  intros H1 H2. exfalso. by pose proof (String.leb_antisym _ _ H1 H2).
Qed.

(** sorting tolerations returns a rearrangement of the input, ordered by
    key, operator, value and effect, and keeps the relative order of the
    tolerations that agree on all four. *)
Theorem SortedTolerations_spec tols :
  let leb a b := negb (tol_less b a) in
  SortedTolerations tols ≡ₚ tols /\
  StronglySorted (fun a b => leb a b = true) (SortedTolerations tols) /\
  forall t, filter (fun u => ties leb t u = true) (SortedTolerations tols)
            = filter (fun u => ties leb t u = true) tols.
Proof.
  intros leb. unfold SortedTolerations. rewrite CloneTolerations_id.
  assert (forall x y, leb x y = true \/ leb y x = true) as Htot.
  { intros x y. unfold leb. rewrite !tol_leb_lex. apply lex_leb_total. }
  assert (forall x y z, leb x y = true -> leb y z = true -> leb x z = true) as Htr.
  { intros x y z. unfold leb. rewrite !tol_leb_lex. apply lex_leb_trans. }
  split; [apply stable_sort_perm|]. split; [by apply stable_sort_StronglySorted|].
  intros t. by apply stable_sort_stable.
Qed.

(** the normalised configuration of a node group has every field set, takes
    each field the user set and the tolerations as they are, falls back to the
    default for the others, and normalising it again changes nothing. *)
Theorem NormalizeConfig_spec ng :
  let c := NormalizeConfig ng in
  let user := default (mkNodeGroupConfig None None None None None []) (ng_Config ng) in
  config_complete c /\
  ngc_PodsFingerprinting c = Some (default PodsFingerprintingEnabledExclusiveResources (ngc_PodsFingerprinting user)) /\
  ngc_InfoRefreshMode c = Some (default InfoRefreshPeriodic (ngc_InfoRefreshMode user)) /\
  ngc_InfoRefreshPeriod c = Some (default (10 * Duration.Second)%Z (ngc_InfoRefreshPeriod user)) /\
  ngc_InfoRefreshPause c = Some (default InfoRefreshPauseDisabled (ngc_InfoRefreshPause user)) /\
  ngc_NUMAPlacement c = Some (default NUMAPlacementContainer (ngc_NUMAPlacement user)) /\
  ngc_Tolerations c = ngc_Tolerations user /\
  NormalizeConfig (ng_with_Config ng (Some c)) = c.
Proof.
  intros c user. split; [apply NormalizeConfig_complete|].
  subst c user. rewrite !NormalizeConfig_eq.
  destruct (ng_Config ng) as [[[] [] [] [] [] ?]|]; done.
Qed.
