(* ===== verification/Conditions.v ===== *)
(** * Status conditions (pkg/status)

    The condition list of the operator's resources: the four base conditions,
    of which a change of one rewrites all, and the extra conditions each
    resource adds. [SetStatusCondition] and [FindStatusCondition] are the
    API-machinery helpers the package calls. Readings of the clock are
    arguments. *)
From S2P Require Import Prelude GoErrors Meta.

Module status.

Definition ConditionAvailable : string := "Available".
Definition ConditionProgressing : string := "Progressing".
Definition ConditionDegraded : string := "Degraded".
Definition ConditionUpgradeable : string := "Upgradeable".
Definition ConditionDedicatedInformerActive : string := "DedicatedInformerActive".
Definition ConditionMachineConfigPoolPaused : string := "MachineConfigPoolPaused".

Definition ReasonAsExpected : string := "AsExpected".
Definition ReasonInternalError : string := "InternalError".
Definition ReasonCustomUserImage : string := "CustomUserImage".
Definition ReasonInvalidSchedulerImage : string := "InvalidSchedulerImage".

Definition ConditionTypeIncorrectNUMAResourcesOperatorResourceName : string :=
  "IncorrectNUMAResourcesOperatorResourceName".
Definition ConditionTypeIncorrectNUMAResourcesSchedulerResourceName : string :=
  "IncorrectNUMAResourcesSchedulerResourceName".

(** ** The API-machinery helpers *)

Fixpoint FindStatusCondition (conditions : list Condition) (conditionType : string)
  : option Condition :=
  match conditions with
  | [] => None
  | c :: rest =>
      if decide (cond_Type c = conditionType) then Some c
      else FindStatusCondition rest conditionType
  end.

(** Writing through the pointer [FindStatusCondition] returns. *)
Fixpoint set_first (conditionType : string) (new : Condition) (conditions : list Condition)
  : list Condition :=
  match conditions with
  | [] => []
  | c :: rest =>
      if decide (cond_Type c = conditionType) then new :: rest
      else c :: set_first conditionType new rest
  end.

(** The field-by-field update of an existing condition, and whether any field
    changed. *)
Definition merge_condition (now : Z) (existing new : Condition) : Condition * bool :=
  let diff := bool_decide (cond_Status existing <> cond_Status new) in
  (mkCondition (cond_Type existing) (cond_Status new) (cond_ObservedGeneration new)
     (if diff
      then (if Z.eqb (cond_LastTransitionTime new) 0 then now else cond_LastTransitionTime new)
      else cond_LastTransitionTime existing)
     (cond_Reason new) (cond_Message new),
   diff
   || bool_decide (cond_Reason existing <> cond_Reason new)
   || bool_decide (cond_Message existing <> cond_Message new)
   || bool_decide (cond_ObservedGeneration existing <> cond_ObservedGeneration new)).

Definition SetStatusCondition (now : Z) (conditions : list Condition) (newCondition : Condition)
  : list Condition * bool :=
  match FindStatusCondition conditions (cond_Type newCondition) with
  | None =>
      let newCondition :=
        if Z.eqb (cond_LastTransitionTime newCondition) 0
        then mkCondition (cond_Type newCondition) (cond_Status newCondition)
               (cond_ObservedGeneration newCondition) now
               (cond_Reason newCondition) (cond_Message newCondition)
        else newCondition in
      (conditions ++ [newCondition], true)
  | Some existing =>
      let '(merged, changed) := merge_condition now existing newCondition in
      (set_first (cond_Type newCondition) merged conditions, changed)
  end.

(** ** pkg/status *)

Definition CloneConditions (conditions : list Condition) : list Condition := conditions.

Definition resetIncomparableConditionFields (conditions : list Condition) : list Condition :=
  (fun c => mkCondition (cond_Type c) (cond_Status c) (cond_ObservedGeneration c) 0
              (cond_Reason c) (cond_Message c)) <$> conditions.

Definition EqualConditions (current updated : list Condition) : bool :=
  let c := CloneConditions current in
  let u := CloneConditions updated in
  bool_decide (resetIncomparableConditionFields c = resetIncomparableConditionFields u).

Definition isBaseCondition (s : string) : bool :=
  bool_decide (s = ConditionAvailable) || bool_decide (s = ConditionUpgradeable)
  || bool_decide (s = ConditionProgressing) || bool_decide (s = ConditionDegraded).

Definition DefaultBaseConditions (timestamp : Z) : list Condition :=
  [ mkCondition ConditionAvailable ConditionFalse 0 timestamp ConditionAvailable "";
    mkCondition ConditionUpgradeable ConditionFalse 0 timestamp ConditionUpgradeable "";
    mkCondition ConditionProgressing ConditionFalse 0 timestamp ConditionProgressing "";
    mkCondition ConditionDegraded ConditionFalse 0 timestamp ConditionDegraded "" ].

Definition with_Status (s : string) (c : Condition) : Condition :=
  mkCondition (cond_Type c) s (cond_ObservedGeneration c) (cond_LastTransitionTime c)
    (cond_Reason c) (cond_Message c).
Definition with_ObservedGeneration (g : Z) (c : Condition) : Condition :=
  mkCondition (cond_Type c) (cond_Status c) g (cond_LastTransitionTime c)
    (cond_Reason c) (cond_Message c).
Definition with_Reason (r : string) (c : Condition) : Condition :=
  mkCondition (cond_Type c) (cond_Status c) (cond_ObservedGeneration c)
    (cond_LastTransitionTime c) r (cond_Message c).
Definition with_Message (m : string) (c : Condition) : Condition :=
  mkCondition (cond_Type c) (cond_Status c) (cond_ObservedGeneration c)
    (cond_LastTransitionTime c) (cond_Reason c) m.

(** The switch on the condition type updates the four conditions by index. *)
Definition NewBaseConditions (cond : Condition) (now : Z) : list Condition :=
  let conditions := DefaultBaseConditions now in
  if decide (cond_Type cond = ConditionAvailable) then
    alter (with_Status ConditionTrue ∘ with_ObservedGeneration (cond_ObservedGeneration cond)) 1%nat
      (alter (with_Message (cond_Message cond)
              ∘ with_ObservedGeneration (cond_ObservedGeneration cond)
              ∘ with_Status ConditionTrue) 0%nat conditions)
  else if decide (cond_Type cond = ConditionProgressing) then
    alter (with_ObservedGeneration (cond_ObservedGeneration cond)
           ∘ with_Message (cond_Message cond) ∘ with_Reason (cond_Reason cond)
           ∘ with_Status ConditionTrue) 2%nat conditions
  else if decide (cond_Type cond = ConditionDegraded) then
    alter (with_ObservedGeneration (cond_ObservedGeneration cond)
           ∘ with_Message (cond_Message cond) ∘ with_Reason (cond_Reason cond)
           ∘ with_Status ConditionTrue) 3%nat conditions
  else conditions.

(** The loop of [updateBaseCondition]. *)
Definition set_all (now : Z) (conds : list Condition) (news : list Condition)
  : list Condition * bool :=
  fold_left (fun '(conds, updated) new =>
               let '(conds', changed) := SetStatusCondition now conds new in
               (conds', updated || changed))
    news (conds, false).

Definition updateBaseCondition (now : Z) (conds : list Condition) (condition : Condition) (ts : Z)
  : list Condition * bool :=
  set_all now conds (NewBaseConditions condition ts).

(** [ts] is the caller's timestamp, [now] the clock the helpers read when a
    condition carries no transition time. *)
Definition ComputeConditions (now : Z) (conds : list Condition) (condition : Condition) (ts : Z)
  : list Condition * bool :=
  let newConds := CloneConditions conds in
  match FindStatusCondition newConds (cond_Type condition) with
  | None => (newConds, false)
  | Some _ =>
      if isBaseCondition (cond_Type condition)
      then updateBaseCondition now newConds condition ts
      else SetStatusCondition now newConds condition
  end.

Definition operatorExtraConditions (now : Z) : list Condition :=
  [ mkCondition ConditionMachineConfigPoolPaused ConditionUnknown 0 now
      ConditionMachineConfigPoolPaused "" ].

Definition NewNUMAResourcesOperatorConditions (now : Z) : list Condition :=
  DefaultBaseConditions now ++ operatorExtraConditions now.

Definition EnsureNUMAResourcesOperatorConditions (now : Z) (conditions : list Condition)
  : list Condition :=
  fold_left (fun conditions cond =>
               match FindStatusCondition conditions (cond_Type cond) with
               | None => conditions ++ [cond]
               | Some _ => conditions
               end)
    (operatorExtraConditions now) conditions.

Definition NewNUMAResourcesSchedulerBaseConditions (now : Z) : list Condition :=
  DefaultBaseConditions now
  ++ [ mkCondition ConditionDedicatedInformerActive ConditionUnknown 0 now
         ConditionDedicatedInformerActive "" ].

Definition ReasonFromError (err : option error) : string :=
  match err with
  | None => ReasonAsExpected
  | Some _ => ReasonInternalError
  end.

Definition MessageFromError (err : option error) : string :=
  match err with
  | None => ""
  | Some e => match Unwrap e with
              | None => Error e
              | Some unwErr => Error unwErr
              end
  end.

(** ** Lemmas *)

Lemma Find_type conds t c : FindStatusCondition conds t = Some c -> cond_Type c = t.
Proof. induction conds; simpl; [done|]. case_decide; naive_solver. Qed.

Lemma Find_app conds1 conds2 t :
  FindStatusCondition (conds1 ++ conds2) t
  = match FindStatusCondition conds1 t with
    | Some c => Some c
    | None => FindStatusCondition conds2 t
    end.
Proof. induction conds1; simpl; [done|]. by case_decide. Qed.

Lemma Find_set_first conds t t' new :
  cond_Type new = t ->
  FindStatusCondition (set_first t new conds) t'
  = if decide (t = t')
    then (fun _ => new) <$> FindStatusCondition conds t
    else FindStatusCondition conds t'.
Proof.
  intros Ht. induction conds as [|c conds IH]; simpl.
  - by case_decide.
  - repeat (case_decide; simplify_eq/=; try done); try rewrite decide_False in IH by done; done.
Qed.

Lemma set_first_types conds t new :
  cond_Type new = t -> cond_Type <$> set_first t new conds = cond_Type <$> conds.
Proof.
  intros Ht. induction conds as [|c conds IH]; simpl; [done|].
  case_decide; rewrite ?fmap_cons; [|by rewrite IH]. by f_equal; congruence.
Qed.

Lemma merge_condition_type now ex new :
  cond_Type (merge_condition now ex new).1 = cond_Type ex.
Proof. done. Qed.

(** [SetStatusCondition] seen through lookups by type. *)
Lemma Find_SetStatusCondition now conds new t :
  is_Some (FindStatusCondition conds (cond_Type new)) ->
  FindStatusCondition (SetStatusCondition now conds new).1 t
  = if decide (cond_Type new = t)
    then (fun ex => (merge_condition now ex new).1) <$> FindStatusCondition conds t
    else FindStatusCondition conds t.
Proof.
  intros [ex Hex]. unfold SetStatusCondition. rewrite Hex.
  destruct (merge_condition now ex new) as [m ch] eqn:Em; simpl.
  assert (m = (merge_condition now ex new).1) as -> by by rewrite Em.
  rewrite Find_set_first by (rewrite merge_condition_type; eauto using Find_type).
  case_decide; [|done]. subst. by rewrite Hex.
Qed.

Lemma SetStatusCondition_types now conds new :
  is_Some (FindStatusCondition conds (cond_Type new)) ->
  cond_Type <$> (SetStatusCondition now conds new).1 = cond_Type <$> conds.
Proof.
  intros [ex Hex]. unfold SetStatusCondition. rewrite Hex.
  destruct (merge_condition now ex new) as [m ch] eqn:Em; simpl.
  apply set_first_types. assert (m = (merge_condition now ex new).1) as -> by by rewrite Em.
  rewrite merge_condition_type; eauto using Find_type.
Qed.

Lemma Find_types_is_Some conds t :
  is_Some (FindStatusCondition conds t) <-> t ∈ cond_Type <$> conds.
Proof.
  induction conds as [|c conds IH]; simpl; [by split; [intros [? ?]|intros ?%elem_of_nil]|].
  rewrite elem_of_cons, <-IH. case_decide; naive_solver eauto.
Qed.

(** *** The loop over the new base conditions *)

Definition set_step (now : Z) (s : list Condition * bool) (new : Condition) : list Condition * bool :=
  ((SetStatusCondition now s.1 new).1, s.2 || (SetStatusCondition now s.1 new).2).

Lemma set_all_fold now conds news :
  set_all now conds news = fold_left (set_step now) news (conds, false).
Proof.
  unfold set_all. generalize false as b. revert conds.
  induction news as [|n news IH]; intros conds b; simpl; [done|].
  destruct (SetStatusCondition now conds n) eqn:E. unfold set_step at 2; simpl. rewrite E. apply IH.
Qed.

(** Every new condition has a counterpart in the list. *)
Definition covered (conds news : list Condition) : Prop :=
  Forall (fun n => cond_Type n ∈ cond_Type <$> conds) news.

Lemma fold_set_types now news s :
  covered s.1 news ->
  cond_Type <$> (fold_left (set_step now) news s).1 = cond_Type <$> s.1.
Proof.
  revert s. induction news as [|n news IH]; intros s Hc; simpl; [done|].
  apply Forall_cons in Hc as [Hn Hc]. apply Find_types_is_Some in Hn.
  pose proof (SetStatusCondition_types now _ _ Hn) as Ht.
  rewrite IH; unfold set_step; simpl; [done|]. unfold covered. by rewrite Ht.
Qed.

Lemma Find_fold_set now news s t :
  NoDup (cond_Type <$> news) -> covered s.1 news ->
  FindStatusCondition (fold_left (set_step now) news s).1 t
  = match FindStatusCondition news t with
    | Some new => (fun ex => (merge_condition now ex new).1) <$> FindStatusCondition s.1 t
    | None => FindStatusCondition s.1 t
    end.
Proof.
  revert s. induction news as [|n news IH]; intros s Hnd Hc; simpl; [done|].
  apply Forall_cons in Hc as [Hn Hc]. apply Find_types_is_Some in Hn.
  apply NoDup_cons in Hnd as [Hnin Hnd].
  pose proof (SetStatusCondition_types now _ _ Hn) as Ht.
  rewrite IH; [|done|unfold covered, set_step; simpl; by rewrite Ht].
  unfold set_step; simpl. rewrite Find_SetStatusCondition by done.
  case_decide; [|done].
  destruct (FindStatusCondition news t) eqn:E; [|done].
  exfalso. apply Hnin. apply Find_types_is_Some. subst. by rewrite E.
Qed.

Lemma set_first_id conds t c :
  FindStatusCondition conds t = Some c -> set_first t c conds = conds.
Proof. induction conds; simpl; [done|]. case_decide; [congruence|]. intros. f_equal. auto. Qed.

(** The flag of [SetStatusCondition] tells whether a comparable field moved;
    when it is off, nothing at all changed. *)
Lemma SetStatusCondition_unchanged now conds new :
  (SetStatusCondition now conds new).2 = false -> (SetStatusCondition now conds new).1 = conds.
Proof.
  unfold SetStatusCondition. destruct (FindStatusCondition conds (cond_Type new)) as [ex|] eqn:E; [|done].
  unfold merge_condition; simpl.
  rewrite !orb_false_iff, !bool_decide_eq_false. intros (((Hs & Hr) & Hm) & Hg).
  rewrite bool_decide_false by done. apply set_first_id.
  apply dec_stable in Hs, Hr, Hm, Hg. rewrite E. destruct ex; simpl in *. by subst.
Qed.

Lemma fold_set_unchanged now news s :
  (fold_left (set_step now) news s).2 = false ->
  s.2 = false /\ (fold_left (set_step now) news s).1 = s.1.
Proof.
  revert s. induction news as [|n news IH]; intros s; simpl; [done|].
  intros H. pose proof (IH _ H) as [H2 H1]. rewrite H1. unfold set_step in *; simpl in *.
  apply orb_false_iff in H2 as [H2 H3]. split; [done|]. by apply SetStatusCondition_unchanged.
Qed.

(** Two conditions that differ at most in their transition time. *)
Definition same_info (a b : Condition) : Prop :=
  cond_Type a = cond_Type b /\ cond_Status a = cond_Status b /\
  cond_ObservedGeneration a = cond_ObservedGeneration b /\
  cond_Reason a = cond_Reason b /\ cond_Message a = cond_Message b.

#[export] Instance same_info_equiv : Equivalence same_info.
Proof. unfold same_info. split; red; intros; intuition congruence. Qed.

Lemma EqualConditions_Forall2 a b : EqualConditions a b = true <-> Forall2 same_info a b.
Proof.
  unfold EqualConditions, CloneConditions. rewrite bool_decide_eq_true. revert b.
  induction a as [|x a IH]; intros [|y b]; unfold resetIncomparableConditionFields in *; simpl.
  - split; constructor.
  - split; [done|inversion 1].
  - split; [done|inversion 1].
  - rewrite Forall2_cons, <-IH. unfold same_info. destruct x, y; simpl. split.
    + intros Heq. injection Heq as -> -> -> -> -> Heq. by repeat split.
    + intros [(-> & -> & -> & -> & ->) Heq]. f_equal. exact Heq.
Qed.

Lemma Forall2_same_info_Find a b t :
  Forall2 same_info a b ->
  match FindStatusCondition a t, FindStatusCondition b t with
  | Some x, Some y => same_info x y
  | None, None => True
  | _, _ => False
  end.
Proof.
  induction 1 as [|x y a b Hxy H IH]; simpl; [done|].
  pose proof Hxy as (Ht & _). rewrite <-Ht. by case_decide.
Qed.

Lemma SetStatusCondition_changed now conds new ex :
  FindStatusCondition conds (cond_Type new) = Some ex ->
  (SetStatusCondition now conds new).2 = true ->
  ~ same_info ex (merge_condition now ex new).1.
Proof.
  intros E. unfold SetStatusCondition. rewrite E. unfold merge_condition, same_info; simpl.
  rewrite !orb_true_iff, !bool_decide_eq_true. naive_solver.
Qed.

Lemma fold_set_changed now news s :
  NoDup (cond_Type <$> news) -> covered s.1 news ->
  s.2 = false -> (fold_left (set_step now) news s).2 = true ->
  ~ Forall2 same_info s.1 (fold_left (set_step now) news s).1.
Proof.
  revert s. induction news as [|n news IH]; intros s Hnd Hc Hs; simpl; [congruence|].
  intros Hch Hall.
  pose proof Hc as Hc'. apply Forall_cons in Hc' as [Hn Hc'].
  pose proof Hn as Hn'. apply Find_types_is_Some in Hn'.
  pose proof Hnd as Hnd'. apply NoDup_cons in Hnd' as [Hnin Hnd'].
  pose proof (SetStatusCondition_types now _ _ Hn') as Ht.
  destruct ((SetStatusCondition now s.1 n).2) eqn:E2.
  - destruct Hn' as [ex Hex].
    apply (Forall2_same_info_Find _ _ (cond_Type n)) in Hall. rewrite Hex in Hall.
    rewrite (Find_fold_set now news) in Hall;
      [|done|unfold covered, set_step; simpl; by rewrite Ht].
    assert (FindStatusCondition news (cond_Type n) = None) as HN.
    { apply eq_None_not_Some. by rewrite Find_types_is_Some. }
    rewrite HN in Hall. unfold set_step in Hall; simpl in Hall.
    rewrite Find_SetStatusCondition, decide_True, Hex in Hall by eauto; simpl in Hall.
    by eapply SetStatusCondition_changed.
  - apply SetStatusCondition_unchanged in E2 as E1.
    assert (set_step now s n = s) as Hst.
    { destruct s; unfold set_step; simpl in *. by rewrite E1, E2, orb_false_r. }
    rewrite Hst in *. by apply (IH s).
Qed.

Lemma SetStatusCondition_noop now conds n ex :
  FindStatusCondition conds (cond_Type n) = Some ex -> same_info ex n ->
  SetStatusCondition now conds n = (conds, false).
Proof.
  intros E (Ht & Hs & Hg & Hr & Hm).
  assert ((SetStatusCondition now conds n).2 = false) as H2.
  { unfold SetStatusCondition. rewrite E. unfold merge_condition; simpl.
    by rewrite !bool_decide_false by (intros []; congruence). }
  pose proof (SetStatusCondition_unchanged now conds n H2) as H1.
  destruct (SetStatusCondition now conds n); simpl in *. by subst.
Qed.

Lemma fold_set_noop now news s :
  Forall (fun n => exists ex, FindStatusCondition s.1 (cond_Type n) = Some ex /\ same_info ex n) news ->
  fold_left (set_step now) news s = s.
Proof.
  induction 1 as [|n news (ex & Hex & Hsame) _ IH]; simpl; [done|].
  unfold set_step at 2. rewrite (SetStatusCondition_noop _ _ _ _ Hex Hsame); simpl.
  rewrite orb_false_r. by destruct s.
Qed.

Lemma merge_condition_same_info now ex n :
  cond_Type ex = cond_Type n -> same_info (merge_condition now ex n).1 n.
Proof. unfold same_info, merge_condition; simpl. auto. Qed.

Lemma Find_elem_of conds n :
  NoDup (cond_Type <$> conds) -> n ∈ conds -> FindStatusCondition conds (cond_Type n) = Some n.
Proof.
  induction conds as [|c conds IH]; simpl; [by intros _ ?%elem_of_nil|].
  rewrite NoDup_cons, elem_of_cons. intros [Hc Hnd] [->|Hn]; [by rewrite decide_True|].
  rewrite decide_False; [by auto|]. intros Heq. apply Hc. rewrite Heq. by apply list_elem_of_fmap_2.
Qed.

(** ** Well-formed condition lists and what [ComputeConditions] does to them *)

Definition baseTypes : list string :=
  [ConditionAvailable; ConditionUpgradeable; ConditionProgressing; ConditionDegraded].

(** No type twice, and the four base types present. *)
Definition wf_conditions (conds : list Condition) : Prop :=
  NoDup (cond_Type <$> conds) /\ Forall (fun t => t ∈ cond_Type <$> conds) baseTypes.

#[global] Instance wf_conditions_dec conds : Decision (wf_conditions conds).
Proof. apply _. Defined.

Lemma wf_base conds t : wf_conditions conds -> t ∈ baseTypes -> is_Some (FindStatusCondition conds t).
Proof. intros [_ Hb] Ht. apply Find_types_is_Some. rewrite Forall_forall in Hb. auto. Qed.

(** The base types that are True when [t] is the condition being set. *)
Definition trueTypes (t : string) : list string :=
  if decide (t = ConditionAvailable) then [ConditionAvailable; ConditionUpgradeable]
  else if decide (t = ConditionProgressing) then [ConditionProgressing]
  else if decide (t = ConditionDegraded) then [ConditionDegraded]
  else [].

Lemma isBaseCondition_spec t : isBaseCondition t = true <-> t ∈ baseTypes.
Proof.
  unfold isBaseCondition, baseTypes.
  rewrite !orb_true_iff, !bool_decide_eq_true, !elem_of_cons, elem_of_nil. tauto.
Qed.

Lemma NewBaseConditions_types c ts : cond_Type <$> NewBaseConditions c ts = baseTypes.
Proof. unfold NewBaseConditions. by repeat case_decide. Qed.

Lemma NewBaseConditions_same c ts1 ts2 :
  Forall2 same_info (NewBaseConditions c ts1) (NewBaseConditions c ts2).
Proof. unfold NewBaseConditions. repeat case_decide; simpl; repeat constructor. Qed.

Lemma baseTypes_NoDup : NoDup baseTypes.
Proof. apply (bool_decide_eq_true_1 (NoDup baseTypes)). vm_compute. reflexivity. Qed.

Lemma wf_covered conds c ts : wf_conditions conds -> covered conds (NewBaseConditions c ts).
Proof.
  intros Hwf. apply Forall_forall. intros n Hn. apply Find_types_is_Some, (wf_base _ _ Hwf).
  rewrite <-(NewBaseConditions_types c ts). by apply list_elem_of_fmap_2.
Qed.

Lemma NewBaseConditions_Find c ts t :
  t ∈ baseTypes ->
  exists new, FindStatusCondition (NewBaseConditions c ts) t = Some new /\
    cond_LastTransitionTime new = ts /\
    cond_Status new = (if decide (t ∈ trueTypes (cond_Type c)) then ConditionTrue else ConditionFalse) /\
    cond_Message new = (if decide (t ∈ trueTypes (cond_Type c) /\ t <> ConditionUpgradeable)
                        then cond_Message c else "").
Proof.
  unfold baseTypes. rewrite !elem_of_cons, elem_of_nil.
  unfold NewBaseConditions, trueTypes.
  intros Ht.
  destruct (decide (cond_Type c = ConditionAvailable)), (decide (cond_Type c = ConditionProgressing)),
    (decide (cond_Type c = ConditionDegraded));
  destruct Ht as [->|[->|[->|[->|[]]]]];
    eexists; (split; [reflexivity|]); split_and!; vm_compute; reflexivity.
Qed.

Lemma ComputeConditions_base_eq now conds c ts :
  wf_conditions conds -> cond_Type c ∈ baseTypes ->
  ComputeConditions now conds c ts
  = fold_left (set_step now) (NewBaseConditions c ts) (conds, false).
Proof.
  intros Hwf Ht. unfold ComputeConditions, CloneConditions.
  destruct (wf_base _ _ Hwf Ht) as [ex ->].
  apply isBaseCondition_spec in Ht. rewrite Ht. apply set_all_fold.
Qed.

Lemma ComputeConditions_types now conds c ts :
  wf_conditions conds ->
  cond_Type <$> (ComputeConditions now conds c ts).1 = cond_Type <$> conds.
Proof.
  intros Hwf. destruct (decide (cond_Type c ∈ baseTypes)) as [Ht|Ht].
  - rewrite ComputeConditions_base_eq by done. rewrite fold_set_types; [done|]. by apply wf_covered.
  - unfold ComputeConditions, CloneConditions.
    destruct (FindStatusCondition conds (cond_Type c)) eqn:E; [|done].
    destruct (isBaseCondition (cond_Type c)) eqn:Eb; [by apply isBaseCondition_spec in Eb|].
    apply SetStatusCondition_types. by rewrite E.
Qed.

Lemma ComputeConditions_wf now conds c ts :
  wf_conditions conds -> wf_conditions (ComputeConditions now conds c ts).1.
Proof. intros Hwf. unfold wf_conditions. by rewrite ComputeConditions_types. Qed.
#[export] Hint Resolve ComputeConditions_wf : nro.

Lemma Find_ComputeConditions_base now conds c ts t :
  wf_conditions conds -> cond_Type c ∈ baseTypes ->
  FindStatusCondition (ComputeConditions now conds c ts).1 t
  = match FindStatusCondition (NewBaseConditions c ts) t with
    | Some new => (fun ex => (merge_condition now ex new).1) <$> FindStatusCondition conds t
    | None => FindStatusCondition conds t
    end.
Proof.
  intros Hwf Ht. rewrite ComputeConditions_base_eq by done.
  rewrite Find_fold_set; [done| |by apply wf_covered].
  rewrite NewBaseConditions_types. apply baseTypes_NoDup.
Qed.

(** setting a base condition on a well-formed list keeps the condition types
    and their order, makes True exactly the base conditions that condition
    implies (Available brings Upgradeable) and False the other base ones, moves
    the transition time of a base condition to the caller's timestamp exactly
    when its status changes, and leaves every other condition alone. *)
Theorem ComputeConditions_base now conds c ts :
  wf_conditions conds -> cond_Type c ∈ baseTypes -> ts <> 0%Z ->
  let r := (ComputeConditions now conds c ts).1 in
  cond_Type <$> r = cond_Type <$> conds /\
  (forall t, t ∈ baseTypes ->
     exists ex new, FindStatusCondition conds t = Some ex /\ FindStatusCondition r t = Some new /\
       cond_Status new = (if decide (t ∈ trueTypes (cond_Type c)) then ConditionTrue else ConditionFalse) /\
       cond_LastTransitionTime new = (if decide (cond_Status ex = cond_Status new)
                                      then cond_LastTransitionTime ex else ts)) /\
  (forall t, t ∉ baseTypes -> FindStatusCondition r t = FindStatusCondition conds t).
Proof.
  intros Hwf Ht Hts r. split; [by apply ComputeConditions_types|]. split.
  - intros t Hbt. destruct (NewBaseConditions_Find c ts t Hbt) as (new & Hnew & Hltt & Hst & _).
    destruct (wf_base _ _ Hwf Hbt) as [ex Hex].
    exists ex, ((merge_condition now ex new).1). split; [done|]. split.
    { unfold r. rewrite Find_ComputeConditions_base, Hnew, Hex by done. done. }
    split; [done|]. unfold merge_condition; simpl. rewrite Hltt.
    replace (ts =? 0)%Z with false by (symmetry; by apply Z.eqb_neq).
    by repeat (case_bool_decide || case_decide).
  - intros t Hbt. unfold r. rewrite Find_ComputeConditions_base by done.
    destruct (FindStatusCondition (NewBaseConditions c ts) t) eqn:E; [|done].
    exfalso. apply Hbt. rewrite <-(NewBaseConditions_types c ts). apply Find_types_is_Some. by rewrite E.
Qed.

Lemma ComputeConditions_base_witness :
  let conds := NewNUMAResourcesOperatorConditions 5 in
  let c := mkCondition ConditionDegraded ConditionTrue 3 0 "InternalError" "boom" in
  wf_conditions conds /\
  (exists ex new, FindStatusCondition conds ConditionDegraded = Some ex /\
     FindStatusCondition (ComputeConditions 9 conds c 7).1 ConditionDegraded = Some new /\
     cond_Status new = ConditionTrue /\ cond_LastTransitionTime new = 7%Z).
Proof.
  intros conds c.
  assert (wf_conditions conds) as Hwf by by apply (bool_decide_eq_true_1 (wf_conditions conds)).
  split; [done|].
  assert (cond_Type c ∈ baseTypes) as Hin by by apply isBaseCondition_spec.
  destruct (ComputeConditions_base 9 conds c 7 Hwf Hin ltac:(done)) as (_ & Hb & _).
  destruct (Hb ConditionDegraded Hin) as (ex & new & Hex & Hnew & Hst & Hltt).
  exists ex, new. split; [done|]. split; [done|]. split; [done|].
  rewrite Hltt, Hst. vm_compute in Hex. injection Hex as <-. reflexivity.
Defined.

(** computing the same condition twice is the same as computing it once: the
    second run changes nothing, transition times included, and reports so. *)
Theorem ComputeConditions_idempotent now1 now2 conds c ts1 ts2 :
  wf_conditions conds ->
  let r := (ComputeConditions now1 conds c ts1).1 in
  ComputeConditions now2 r c ts2 = (r, false).
Proof.
  intros Hwf r. destruct (decide (cond_Type c ∈ baseTypes)) as [Ht|Ht].
  - rewrite ComputeConditions_base_eq by (unfold r; auto with nro).
    apply fold_set_noop, Forall_forall. intros n Hn; simpl.
    assert (NoDup (cond_Type <$> NewBaseConditions c ts2)) as Hnd
      by (rewrite NewBaseConditions_types; apply baseTypes_NoDup).
    pose proof (Find_elem_of _ _ Hnd Hn) as Hfn.
    pose proof (Forall2_same_info_Find _ _ (cond_Type n) (NewBaseConditions_same c ts1 ts2)) as Hs.
    rewrite Hfn in Hs. unfold r.
    assert (cond_Type n ∈ baseTypes) as Hbt
      by (rewrite <-(NewBaseConditions_types c ts2); by apply list_elem_of_fmap_2).
    destruct (wf_base _ _ Hwf Hbt) as [ex Hex].
    destruct (FindStatusCondition (NewBaseConditions c ts1) (cond_Type n)) as [n1|] eqn:E1; [|done].
    exists ((merge_condition now1 ex n1).1).
    rewrite Find_ComputeConditions_base, E1, Hex by done. split; [done|].
    etrans; [|exact Hs]. apply merge_condition_same_info.
    by rewrite (Find_type _ _ _ Hex), (Find_type _ _ _ E1).
  - unfold r, ComputeConditions, CloneConditions.
    destruct (FindStatusCondition conds (cond_Type c)) as [ex|] eqn:E; simpl; [|by rewrite E].
    destruct (isBaseCondition (cond_Type c)) eqn:Eb; [by apply isBaseCondition_spec in Eb|].
    rewrite Find_SetStatusCondition, decide_True, E by (rewrite ?E; eauto); simpl.
    apply (SetStatusCondition_noop _ _ _ ((merge_condition now1 ex c).1)).
    + by rewrite Find_SetStatusCondition, decide_True, E by (rewrite ?E; eauto).
    + apply merge_condition_same_info. eauto using Find_type.
Qed.

Lemma ComputeConditions_idempotent_witness :
  let conds := NewNUMAResourcesOperatorConditions 5 in
  let c := mkCondition ConditionProgressing ConditionTrue 3 0 "Progressing" "1/2 updating" in
  let r := (ComputeConditions 6 conds c 6).1 in
  wf_conditions conds /\ r <> conds /\ ComputeConditions 9 r c 9 = (r, false).
Proof.
  intros conds c r.
  assert (wf_conditions conds) as Hwf by by apply (bool_decide_eq_true_1 (wf_conditions conds)).
  split; [done|]. split; [by vm_compute|]. by apply (ComputeConditions_idempotent 6 9 conds c 6 9).
Defined.

(** the flag [ComputeConditions] returns tells exactly whether the result
    differs from the input up to transition times, in the sense of
    [EqualConditions]. *)
Theorem ComputeConditions_flag now conds c ts :
  wf_conditions conds ->
  (ComputeConditions now conds c ts).2
  = negb (EqualConditions conds (ComputeConditions now conds c ts).1).
Proof.
  intros Hwf.
  assert (forall x y : bool, (x = true -> ~ (y = true)) -> (x = false -> y = true) -> x = negb y) as Hb.
  { intros [] []; simpl; naive_solver. }
  assert (Forall2 same_info conds conds) as Hrefl
    by (clear; induction conds; constructor; [reflexivity|done]).
  apply Hb; rewrite EqualConditions_Forall2.
  - destruct (decide (cond_Type c ∈ baseTypes)) as [Ht|Ht].
    + rewrite ComputeConditions_base_eq by done. intros Hch.
      apply (fold_set_changed now _ (conds, false)); [|by apply wf_covered|done|done].
      rewrite NewBaseConditions_types. apply baseTypes_NoDup.
    + unfold ComputeConditions, CloneConditions.
      destruct (FindStatusCondition conds (cond_Type c)) as [ex|] eqn:E; [|done].
      destruct (isBaseCondition (cond_Type c)) eqn:Eb; [by apply isBaseCondition_spec in Eb|].
      intros Hch Hall. apply (Forall2_same_info_Find _ _ (cond_Type c)) in Hall.
      rewrite E, Find_SetStatusCondition, decide_True, E in Hall by (rewrite ?E; eauto); simpl in Hall.
      by eapply SetStatusCondition_changed.
  - intros Hch. destruct (decide (cond_Type c ∈ baseTypes)) as [Ht|Ht].
    + rewrite ComputeConditions_base_eq in * by done.
      by destruct (fold_set_unchanged _ _ _ Hch) as [_ ->].
    + unfold ComputeConditions, CloneConditions in *.
      destruct (FindStatusCondition conds (cond_Type c)) as [ex|] eqn:E; [|done].
      destruct (isBaseCondition (cond_Type c)) eqn:Eb; [by apply isBaseCondition_spec in Eb|].
      by rewrite SetStatusCondition_unchanged.
Qed.

Lemma ComputeConditions_flag_witness :
  let conds := NewNUMAResourcesOperatorConditions 5 in
  let c := mkCondition ConditionAvailable ConditionTrue 3 0 "AsExpected" "" in
  wf_conditions conds /\
  (ComputeConditions 6 conds c 6).2 = negb (EqualConditions conds (ComputeConditions 6 conds c 6).1) /\
  (ComputeConditions 6 conds c 6).2 = true.
Proof.
  intros conds c.
  assert (wf_conditions conds) as Hwf by by apply (bool_decide_eq_true_1 (wf_conditions conds)).
  split; [done|]. split; [by apply (ComputeConditions_flag 6 conds c 6)|]. by vm_compute.
Defined.

Lemma Ensure_wf now conds :
  wf_conditions conds ->
  let r := EnsureNUMAResourcesOperatorConditions now conds in
  wf_conditions (NewNUMAResourcesOperatorConditions now) /\
  wf_conditions r /\
  is_Some (FindStatusCondition r ConditionMachineConfigPoolPaused) /\
  (forall t c, FindStatusCondition conds t = Some c -> FindStatusCondition r t = Some c).
Proof.
  intros [Hnd Hb] r. split; [by apply (bool_decide_eq_true_1 (wf_conditions _))|].
  subst r. unfold EnsureNUMAResourcesOperatorConditions; simpl.
  destruct (FindStatusCondition conds ConditionMachineConfigPoolPaused) as [c|] eqn:E.
  - split; [done|]. split; [by eauto|done].
  - split; [split|split].
    + rewrite fmap_app. apply NoDup_app. split; [done|]. split; [|apply NoDup_singleton].
      intros t Ht Hs. apply list_elem_of_singleton in Hs. subst t.
      apply Find_types_is_Some in Ht as [? Ht]. simpl in Ht. congruence.
    + eapply Forall_impl; [exact Hb|]. intros t Ht. rewrite fmap_app. by apply elem_of_app; left.
    + rewrite Find_app, E. by eauto.
    + intros t c Hc. by rewrite Find_app, Hc.
Qed.

(** the condition lists the operator starts from are well formed, whether
    created anew or backfilled after an upgrade from a list that lacks the
    operator-specific condition, and backfilling keeps what was there. *)
Theorem EnsureNUMAResourcesOperatorConditions_wf now conds :
  wf_conditions conds ->
  let r := EnsureNUMAResourcesOperatorConditions now conds in
  wf_conditions (NewNUMAResourcesOperatorConditions now) /\
  wf_conditions r /\
  is_Some (FindStatusCondition r ConditionMachineConfigPoolPaused) /\
  (forall t c, FindStatusCondition conds t = Some c -> FindStatusCondition r t = Some c).
Proof. apply Ensure_wf. Qed.

Lemma EnsureNUMAResourcesOperatorConditions_wf_witness :
  wf_conditions (DefaultBaseConditions 5) /\
  is_Some (FindStatusCondition (EnsureNUMAResourcesOperatorConditions 8 (DefaultBaseConditions 5))
             ConditionMachineConfigPoolPaused).
Proof.
  assert (wf_conditions (DefaultBaseConditions 5)) as Hwf
    by by apply (bool_decide_eq_true_1 (wf_conditions _)).
  split; [done|]. by apply (EnsureNUMAResourcesOperatorConditions_wf 8 (DefaultBaseConditions 5) Hwf).
Defined.

End status.
