(* ===== verification/Steps.v ===== *)
(** * Condition infos and reconciliation steps
    (pkg/status/conditioninfo, internal/reconcile) *)
From S2P Require Import Prelude GoErrors Meta Conditions.

(** ** pkg/status/conditioninfo *)

Record ConditionInfo := mkConditionInfo {
  ci_Type : string; ci_Reason : string; ci_Message : string }.

Definition ci_WithReason (ci : ConditionInfo) (reason : string) : ConditionInfo :=
  if decide (ci_Reason ci = "")
  then mkConditionInfo (ci_Type ci) reason (ci_Message ci)
  else ci.

Definition ci_WithMessage (ci : ConditionInfo) (message : string) : ConditionInfo :=
  if decide (ci_Message ci = "")
  then mkConditionInfo (ci_Type ci) (ci_Reason ci) message
  else ci.

Definition PrependMessage (ci : ConditionInfo) (message : string) : ConditionInfo :=
  if decide (ci_Message ci <> "")
  then mkConditionInfo (ci_Type ci) (ci_Reason ci) (message +:+ "; " +:+ ci_Message ci)
  else mkConditionInfo (ci_Type ci) (ci_Reason ci) message.

Definition Available : ConditionInfo :=
  mkConditionInfo status.ConditionAvailable status.ReasonAsExpected "".

Definition Progressing : ConditionInfo :=
  mkConditionInfo status.ConditionProgressing status.ConditionProgressing "".

Definition DegradedFromError (err : option error) : ConditionInfo :=
  mkConditionInfo status.ConditionDegraded (status.ReasonFromError err) (status.MessageFromError err).

Definition ToMetav1Condition (ci : ConditionInfo) (gen : Z) : Condition :=
  mkCondition (ci_Type ci) ConditionTrue gen 0 (ci_Reason ci) (ci_Message ci).

(** ** internal/reconcile *)

(** [ctrl.Result] *)
Record Result := mkResult { RequeueAfter : Z }.

Record Step := mkStep {
  step_Result : Result;
  step_ConditionInfo : ConditionInfo;
  step_Error : option error }.

Definition Done (rs : Step) : bool :=
  bool_decide (ci_Type (step_ConditionInfo rs) = status.ConditionAvailable).

Definition EarlyStop (rs : Step) : bool :=
  bool_decide (ci_Type (step_ConditionInfo rs) <> status.ConditionAvailable).

Definition Ongoing (rs : Step) : bool :=
  bool_decide (ci_Type (step_ConditionInfo rs) = status.ConditionProgressing).

Definition Failed (rs : Step) : bool :=
  match step_Error rs with None => false | Some _ => true end.

Definition WithReason (rs : Step) (reason : string) : Step :=
  mkStep (step_Result rs) (ci_WithReason (step_ConditionInfo rs) reason) (step_Error rs).

Definition WithMessage (rs : Step) (message : string) : Step :=
  mkStep (step_Result rs) (ci_WithMessage (step_ConditionInfo rs) message) (step_Error rs).

Definition UpdateMessage (rs : Step) (message : string) : Step :=
  mkStep (step_Result rs) (PrependMessage (step_ConditionInfo rs) message) (step_Error rs).

Definition StepSuccess : Step := mkStep (mkResult 0) Available None.

Definition StepOngoing (after : Z) : Step := mkStep (mkResult after) Progressing None.

Definition StepFailed (err : error) : Step :=
  mkStep (mkResult 0) (DegradedFromError (Some err)) (Some err).

(** ** Lemmas *)

(** A step the code builds: successful, ongoing or failed, with a reason and
    a message that may have been refined. *)
Inductive step_kind := KDone | KOngoing | KFailed.

Definition kind (rs : Step) : option step_kind :=
  match step_Error rs with
  | Some _ => if decide (ci_Type (step_ConditionInfo rs) = status.ConditionDegraded) then Some KFailed else None
  | None => if decide (ci_Type (step_ConditionInfo rs) = status.ConditionAvailable) then Some KDone
            else if decide (ci_Type (step_ConditionInfo rs) = status.ConditionProgressing) then Some KOngoing
            else None
  end.

Definition valid_step (rs : Step) : Prop := is_Some (kind rs).

Lemma EarlyStop_negb_Done rs : EarlyStop rs = negb (Done rs).
Proof. unfold EarlyStop, Done. by repeat case_bool_decide. Qed.

Lemma kind_preds rs k :
  kind rs = Some k ->
  Done rs = match k with KDone => true | _ => false end /\
  Ongoing rs = match k with KOngoing => true | _ => false end /\
  Failed rs = match k with KFailed => true | _ => false end.
Proof.
  destruct rs as [r [t re m] [e|]]; unfold kind; simpl; repeat case_decide; intros [= <-]; by subst.
Qed.

Lemma ci_WithReason_type ci r : ci_Type (ci_WithReason ci r) = ci_Type ci.
Proof. unfold ci_WithReason. by case_decide. Qed.
Lemma ci_WithMessage_type ci m : ci_Type (ci_WithMessage ci m) = ci_Type ci.
Proof. unfold ci_WithMessage. by case_decide. Qed.
Lemma PrependMessage_type ci m : ci_Type (PrependMessage ci m) = ci_Type ci.
Proof. unfold PrependMessage. by case_decide. Qed.

Lemma kind_WithReason rs r : kind (WithReason rs r) = kind rs.
Proof. unfold kind; simpl. by rewrite ci_WithReason_type. Qed.
Lemma kind_WithMessage rs m : kind (WithMessage rs m) = kind rs.
Proof. unfold kind; simpl. by rewrite ci_WithMessage_type. Qed.
Lemma kind_UpdateMessage rs m : kind (UpdateMessage rs m) = kind rs.
Proof. unfold kind; simpl. by rewrite PrependMessage_type. Qed.

#[export] Hint Rewrite kind_WithReason kind_WithMessage kind_UpdateMessage : nro.

Lemma kind_StepSuccess : kind StepSuccess = Some KDone.
Proof. done. Qed.
Lemma kind_StepOngoing after : kind (StepOngoing after) = Some KOngoing.
Proof. done. Qed.
Lemma kind_StepFailed e : kind (StepFailed e) = Some KFailed.
Proof. done. Qed.

Lemma valid_StepSuccess : valid_step StepSuccess.
Proof. by eexists. Qed.
Lemma valid_StepFailed e : valid_step (StepFailed e).
Proof. by eexists. Qed.
Lemma valid_StepOngoing a : valid_step (StepOngoing a).
Proof. by eexists. Qed.
Lemma valid_StepOngoing_with a r m : valid_step (WithMessage (WithReason (StepOngoing a) r) m).
Proof. unfold valid_step. by rewrite kind_WithMessage, kind_WithReason. Qed.

Lemma Done_waiting a r m : Done (WithMessage (WithReason (StepOngoing a) r) m) = false.
Proof. apply (kind_preds _ KOngoing). by rewrite kind_WithMessage, kind_WithReason. Qed.

#[export] Hint Resolve valid_StepSuccess valid_StepFailed valid_StepOngoing valid_StepOngoing_with : nro.

(** the specific reasons the reconciler gives to a waiting step
    ("MachineConfigPoolIsUpdating", "DaemonSetIsUpdating") never reach the
    status: a waiting step already carries a reason, which [WithReason] keeps,
    so the step is unchanged for every reason given. *)
Theorem WithReason_StepOngoing after reason :
  WithReason (StepOngoing after) reason = StepOngoing after.
Proof. done. Qed.
