(* ===== verification/Trees.v ===== *)
(** * Node-group trees and per-tree results (api/v1/helper/nodegroup)

    A tree binds a node group of the specification to the machine config pools
    it selects. The node group of a tree is a pointer into the specification:
    it is modelled by the element's value and its index. *)
From S2P Require Import Prelude GoErrors Meta Selectors ApiV1 Conditions Steps.

(** ** OpenShift machine config pools *)

Record MachineConfigPool := mkMachineConfigPool {
  mcp_Name : string;
  mcp_Labels : gmap string string;
  mcp_Paused : bool;
  mcp_MachineConfigSelector : option LabelSelector;
  mcp_NodeSelector : option LabelSelector;
  mcp_Conditions : list MachineConfigPoolCondition;
  mcp_ConfigurationSource : list string }.

#[global] Instance MachineConfigPool_eq_dec : EqDecision MachineConfigPool.
Proof. solve_decision. Defined.

(** ** Trees *)

Record Tree := mkTree {
  tree_NodeGroup : option NodeGroup;
  tree_Index : nat;
  tree_MachineConfigPools : option (list MachineConfigPool) }.

(** Ranging over a possibly nil slice. *)
Definition tree_MCPs (t : Tree) : list MachineConfigPool := default [] (tree_MachineConfigPools t).

Definition tree_Name (ttr : Tree) : string :=
  match tree_NodeGroup ttr with
  | None => "<nil>"
  | Some ng => default "<unknown>" (ng_PoolName ng)
  end.

(** [Tree.Clone]: a deep copy, in which a nil slice becomes an empty one. *)
Definition tree_Clone (ttr : Tree) : Tree :=
  mkTree (tree_NodeGroup ttr) (tree_Index ttr)
    (Some (fold_left (fun ret mcp => ret ++ [mcp]) (tree_MCPs ttr) [])).

Section Find.
Context `{SelectorLib}.

(** The text of a [%+v] of a node group: it holds addresses. *)
Variable show_node_group : NodeGroup -> string.

(** The loop that stops at the first pool with the wanted name. *)
Fixpoint find_by_name (items : list MachineConfigPool) (name : string) : list MachineConfigPool :=
  match items with
  | [] => []
  | mcp :: rest => if decide (mcp_Name mcp = name) then [mcp] else find_by_name rest name
  end.

(** The body of the loop of [FindTreesOpenshift] for one node group: [None]
    when a selector is refused and the group is skipped. *)
Definition node_group_mcps (mcps : list MachineConfigPool) (nodeGroup : NodeGroup)
  : option (list MachineConfigPool) :=
  let byName := match ng_PoolName nodeGroup with
                | Some name => find_by_name mcps name
                | None => []
                end in
  match ng_MachineConfigPoolSelector nodeGroup with
  | None => Some byName
  | Some sel =>
      match LabelSelectorAsSelector sel with
      | inr _ => None
      | inl Matches =>
          Some (byName ++ filter (fun mcp => Matches (mcp_Labels mcp) = true) mcps)
      end
  end.

Fixpoint find_trees_from (mcps : list MachineConfigPool) (idx : nat) (nodeGroups : list NodeGroup)
  (result : list Tree) : list Tree + error :=
  match nodeGroups with
  | [] => inl result
  | nodeGroup :: rest =>
      match node_group_mcps mcps nodeGroup with
      | None => find_trees_from mcps (S idx) rest result
      | Some [] =>
          inr (ErrNew ("failed to find MachineConfigPool for the node group "
                         +:+ show_node_group nodeGroup))
      | Some treeMCPs =>
          find_trees_from mcps (S idx) rest
            (result ++ [mkTree (Some nodeGroup) idx (Some treeMCPs)])
      end
  end.

Definition FindTreesOpenshift (mcps : list MachineConfigPool) (nodeGroups : list NodeGroup)
  : list Tree + error :=
  find_trees_from mcps 0 nodeGroups [].

Definition FindTrees := FindTreesOpenshift.

Definition flattenTrees (trees : list Tree) : list MachineConfigPool :=
  fold_left (fun result tree => result ++ tree_MCPs tree) trees [].

Definition FindMachineConfigPools (mcps : list MachineConfigPool) (nodeGroups : list NodeGroup)
  : list MachineConfigPool + error :=
  match FindTreesOpenshift mcps nodeGroups with
  | inr err => inr err
  | inl trees => inl (flattenTrees trees)
  end.
End Find.

Definition FindTreesHypershift (nodeGroups : list NodeGroup) : list Tree :=
  imap (fun i ng => mkTree (Some ng) i None) nodeGroups.

Definition GetTreePoolsNames (tree : Tree) : list string :=
  match tree_NodeGroup tree with
  | None => []
  | Some ng =>
      match tree_MachineConfigPools tree with
      | None => match ng_PoolName ng with None => [] | Some p => [p] end
      | Some mcps => fold_left (fun names mcp => names ++ [mcp_Name mcp]) mcps []
      end
  end.

(** ** Per-tree results (result.go) *)

Record PoolDaemonSet := mkPoolDaemonSet {
  pds_PoolName : string; pds_DaemonSet : NamespacedName }.

Definition CollectDaemonSets (dsInfos : list PoolDaemonSet) : list NamespacedName :=
  fold_left (fun dss dsInfo => dss ++ [pds_DaemonSet dsInfo]) dsInfos [].

Record PerTreeResult := mkPerTreeResult {
  ptr_DSInfo : list PoolDaemonSet;
  ptr_NROMCPs : list NROMachineConfigPool;
  ptr_PausedMCPNames : gset string;
  ptr_Step : Step }.

Definition ShouldReplaceStep (current candidate : Step) : bool :=
  if Done current then true
  else if Failed candidate && negb (Failed current) then true
  else if Ongoing candidate && Ongoing current then
    let cand := RequeueAfter (step_Result candidate) in
    let cur := RequeueAfter (step_Result current) in
    if negb (Z.eqb cand cur) then Z.ltb 0 cand && Z.ltb cand cur
    else
      let candMsg := ci_Message (step_ConditionInfo candidate) in
      let curMsg := ci_Message (step_ConditionInfo current) in
      bool_decide (candMsg <> "") && bool_decide (candMsg <> curMsg)
  else false.

Definition treeSummaryMessage (total errors ongoing : Z) : string :=
  let done_ := (total - errors - ongoing)%Z in
  let part (n : Z) (what : string) :=
    if Z.ltb 0 n then [pretty n +:+ "/" +:+ pretty total +:+ what] else [] in
  str_join ", " (part done_ " completed" ++ part ongoing " updating" ++ part errors " failed").

(** The accumulator of the reduction loop. *)
Record ReduceAcc := mkReduceAcc {
  ra_res : PerTreeResult; ra_errorCount : Z; ra_ongoingCount : Z }.

Definition reduce_step (acc : ReduceAcc) (result : PerTreeResult) : ReduceAcc :=
  let res := ra_res acc in
  let nroMCPs := ptr_NROMCPs res ++ ptr_NROMCPs result in
  let paused := ptr_PausedMCPNames res ∪ ptr_PausedMCPNames result in
  let st := ptr_Step result in
  if Done st then
    mkReduceAcc (mkPerTreeResult (ptr_DSInfo res ++ ptr_DSInfo result) nroMCPs paused (ptr_Step res))
      (ra_errorCount acc) (ra_ongoingCount acc)
  else
    mkReduceAcc
      (mkPerTreeResult (ptr_DSInfo res) nroMCPs paused
         (if ShouldReplaceStep (ptr_Step res) st then st else ptr_Step res))
      (if Failed st then ra_errorCount acc + 1 else ra_errorCount acc)%Z
      (if negb (Failed st) && Ongoing st then ra_ongoingCount acc + 1 else ra_ongoingCount acc)%Z.

Definition ReducePerTreeResults (results : list PerTreeResult) : PerTreeResult :=
  let acc := fold_left reduce_step results
               (mkReduceAcc (mkPerTreeResult [] [] ∅ StepSuccess) 0 0) in
  let res := ra_res acc in
  if negb (Done (ptr_Step res)) then
    mkPerTreeResult (ptr_DSInfo res) (ptr_NROMCPs res) (ptr_PausedMCPNames res)
      (UpdateMessage (ptr_Step res)
         (treeSummaryMessage (Z.of_nat (length results)) (ra_errorCount acc) (ra_ongoingCount acc)))
  else res.

Example summary_mixed : treeSummaryMessage 3 1 1 = "1/3 completed, 1/3 updating, 1/3 failed".
Proof. vm_compute. reflexivity. Qed.

(** ** The reduction of per-tree results *)

Definition next_step (cur cand : Step) : Step :=
  if Done cand then cur else if ShouldReplaceStep cur cand then cand else cur.

Lemma reduce_step_step acc r :
  ptr_Step (ra_res (reduce_step acc r)) = next_step (ptr_Step (ra_res acc)) (ptr_Step r).
Proof. unfold reduce_step, next_step. by destruct (Done (ptr_Step r)). Qed.

#[global] Instance step_kind_eq_dec : EqDecision step_kind.
Proof. solve_decision. Defined.

Definition join_kind (a b : step_kind) : step_kind :=
  match a, b with
  | KFailed, _ | _, KFailed => KFailed
  | KOngoing, _ | _, KOngoing => KOngoing
  | KDone, KDone => KDone
  end.

Lemma next_step_kind cur cand a b :
  kind cur = Some a -> kind cand = Some b -> kind (next_step cur cand) = Some (join_kind a b).
Proof.
  intros Ha Hb. destruct (kind_preds _ _ Ha) as (Da & Oa & Fa), (kind_preds _ _ Hb) as (Db & Ob & Fb).
  unfold next_step, ShouldReplaceStep. rewrite Da, Db, Oa, Ob, Fa, Fb.
  destruct a, b; simpl; try done; by repeat case_match.
Qed.

Lemma fold_reduce_parts results acc :
  let r := ra_res (fold_left reduce_step results acc) in
  ptr_NROMCPs r = ptr_NROMCPs (ra_res acc) ++ concat (ptr_NROMCPs <$> results) /\
  ptr_PausedMCPNames r = ptr_PausedMCPNames (ra_res acc) ∪ ⋃ (ptr_PausedMCPNames <$> results) /\
  ptr_DSInfo r = ptr_DSInfo (ra_res acc)
                 ++ concat (ptr_DSInfo <$> filter (fun x => Done (ptr_Step x) = true) results) /\
  ptr_Step r = fold_left next_step (ptr_Step <$> results) (ptr_Step (ra_res acc)).
Proof.
  revert acc. induction results as [|x results IH]; intros acc; simpl.
  - rewrite !app_nil_r. split_and!; [done|set_solver|done|done].
  - destruct (IH (reduce_step acc x)) as (-> & -> & -> & ->). rewrite reduce_step_step.
    rewrite filter_cons. unfold reduce_step.
    destruct (Done (ptr_Step x)); simpl; rewrite ?decide_True, ?decide_False by done; simpl;
      rewrite <-?app_assoc; split_and!; try done; set_solver.
Qed.

Lemma fold_next_kind steps cur a ks :
  kind cur = Some a -> Forall2 (fun s k => kind s = Some k) steps ks ->
  kind (fold_left next_step steps cur) = Some (fold_left join_kind ks a).
Proof.
  intros Ha Hall. revert cur a Ha. induction Hall as [|s k steps ks Hs _ IH]; intros cur a Ha; simpl; [done|].
  apply IH. by apply next_step_kind.
Qed.

Lemma fold_join_kind ks a :
  fold_left join_kind ks a
  = if decide (KFailed ∈ a :: ks) then KFailed
    else if decide (KOngoing ∈ a :: ks) then KOngoing else KDone.
Proof.
  revert a. induction ks as [|k ks IH]; intros a; simpl.
  - destruct a; by repeat case_decide; set_solver.
  - rewrite IH. destruct a, k; repeat case_decide; try done; set_solver.
Qed.

Lemma ReducePerTreeResults_unfold results :
  ReducePerTreeResults results
  = let acc := fold_left reduce_step results (mkReduceAcc (mkPerTreeResult [] [] ∅ StepSuccess) 0 0) in
    let res := ra_res acc in
    mkPerTreeResult (ptr_DSInfo res) (ptr_NROMCPs res) (ptr_PausedMCPNames res)
      (if Done (ptr_Step res) then ptr_Step res
       else UpdateMessage (ptr_Step res)
         (treeSummaryMessage (Z.of_nat (length results)) (ra_errorCount acc) (ra_ongoingCount acc))).
Proof.
  unfold ReducePerTreeResults. destruct (fold_left _ _ _) as [[] ? ?]; simpl. by destruct (Done _).
Qed.

Definition overall_kind (ks : list step_kind) : step_kind :=
  if decide (KFailed ∈ ks) then KFailed else if decide (KOngoing ∈ ks) then KOngoing else KDone.

Lemma ReducePerTreeResults_kind results ks :
  Forall2 (fun r k => kind (ptr_Step r) = Some k) results ks ->
  kind (ptr_Step (ReducePerTreeResults results)) = Some (overall_kind ks).
Proof.
  intros Hall. rewrite ReducePerTreeResults_unfold; simpl.
  destruct (fold_reduce_parts results (mkReduceAcc (mkPerTreeResult [] [] ∅ StepSuccess) 0 0))
    as (_ & _ & _ & Hst); simpl in Hst.
  assert (kind (fold_left next_step (ptr_Step <$> results) StepSuccess) = Some (overall_kind ks)) as Hk.
  { rewrite (fold_next_kind _ _ KDone ks); [|done|by apply Forall2_fmap_l].
    rewrite fold_join_kind. unfold overall_kind. repeat case_decide; try done; set_solver. }
  rewrite <-Hst in Hk. by case_match; rewrite ?kind_UpdateMessage.
Qed.

Lemma Forall_Exists_kinds results :
  Forall (fun r => valid_step (ptr_Step r)) results ->
  exists ks, Forall2 (fun r k => kind (ptr_Step r) = Some k) results ks /\
    (Forall (fun r => Done (ptr_Step r) = true) results <-> Forall (fun k => k = KDone) ks) /\
    (Exists (fun r => Failed (ptr_Step r) = true) results <-> KFailed ∈ ks).
Proof.
  induction 1 as [|r results [k Hk] _ (ks & Hks & HD & HF)].
  - exists []. split_and!; [constructor|done|]. rewrite Exists_nil. set_solver.
  - exists (k :: ks). destruct (kind_preds _ _ Hk) as (Dk & _ & Fk).
    rewrite !Forall_cons, Exists_cons, elem_of_cons, Dk, Fk, HD, HF.
    split; [by constructor|]. destruct k; naive_solver.
Qed.

Lemma ReducePerTreeResults_parts results :
  Forall (fun r => valid_step (ptr_Step r)) results ->
  let res := ReducePerTreeResults results in
  ptr_NROMCPs res = concat (ptr_NROMCPs <$> results) /\
  ptr_PausedMCPNames res = ⋃ (ptr_PausedMCPNames <$> results) /\
  ptr_DSInfo res = concat (ptr_DSInfo <$> filter (fun r => Done (ptr_Step r) = true) results) /\
  valid_step (ptr_Step res) /\
  (Done (ptr_Step res) = true <-> Forall (fun r => Done (ptr_Step r) = true) results) /\
  (Failed (ptr_Step res) = true <-> Exists (fun r => Failed (ptr_Step r) = true) results).
Proof.
  intros Hv res.
  destruct (fold_reduce_parts results (mkReduceAcc (mkPerTreeResult [] [] ∅ StepSuccess) 0 0))
    as (H1 & H2 & H3 & _); simpl in *.
  apply Forall_Exists_kinds in Hv as (ks & Hks & HD & HF).
  pose proof (ReducePerTreeResults_kind _ _ Hks) as Hk.
  destruct (kind_preds _ _ Hk) as (Dk & _ & Fk).
  subst res. split_and!; [..|by exists (overall_kind ks)| |].
  - by rewrite ReducePerTreeResults_unfold; simpl.
  - rewrite ReducePerTreeResults_unfold; simpl. rewrite H2. set_solver.
  - by rewrite ReducePerTreeResults_unfold; simpl.
  - rewrite Dk, HD, Forall_forall. unfold overall_kind.
    destruct (decide (KFailed ∈ ks)) as [H4|H4]; [by split; [|intros Hd; specialize (Hd _ H4)]|].
    destruct (decide (KOngoing ∈ ks)) as [H5|H5]; [by split; [|intros Hd; specialize (Hd _ H5)]|].
    by split; [intros _ []|].
  - rewrite Fk, HF. unfold overall_kind. by repeat case_decide.
Qed.

(** C31: reducing the per-tree results keeps every pool status and every paused
    pool, collects the daemon sets of the completed trees only, and completes
    exactly when every tree completed, fails exactly when some tree failed, and
    is otherwise ongoing. *)
Theorem ReducePerTreeResults_spec results :
  Forall (fun r => valid_step (ptr_Step r)) results ->
  let res := ReducePerTreeResults results in
  ptr_NROMCPs res = concat (ptr_NROMCPs <$> results) /\
  ptr_PausedMCPNames res = ⋃ (ptr_PausedMCPNames <$> results) /\
  ptr_DSInfo res = concat (ptr_DSInfo <$> filter (fun r => Done (ptr_Step r) = true) results) /\
  valid_step (ptr_Step res) /\
  (Done (ptr_Step res) = true <-> Forall (fun r => Done (ptr_Step r) = true) results) /\
  (Failed (ptr_Step res) = true <-> Exists (fun r => Failed (ptr_Step r) = true) results).
Proof. apply ReducePerTreeResults_parts. Qed.

Lemma ReducePerTreeResults_spec_witness :
  let ok := mkPerTreeResult [mkPoolDaemonSet "w" (mkNamespacedName "ns" "ds-w")] [] ∅ StepSuccess in
  let wait := mkPerTreeResult [mkPoolDaemonSet "x" (mkNamespacedName "ns" "ds-x")] [] {["x"]}
                (StepOngoing 0) in
  Forall (fun r => valid_step (ptr_Step r)) [ok; wait] /\
  ptr_DSInfo (ReducePerTreeResults [ok; wait]) = [mkPoolDaemonSet "w" (mkNamespacedName "ns" "ds-w")] /\
  Done (ptr_Step (ReducePerTreeResults [ok; wait])) = false.
Proof.
  intros ok wait.
  assert (Forall (fun r => valid_step (ptr_Step r)) [ok; wait]) as Hv by (repeat constructor; by eexists).
  split; [done|].
  destruct (ReducePerTreeResults_spec [ok; wait] Hv) as (_ & _ & -> & _ & Hd & _).
  split; [by vm_compute|]. apply not_true_is_false. rewrite Hd.
  intros HF. by apply Forall_cons in HF as [_ [HF _]%Forall_cons].
Defined.

(** ** When to come back *)

(** The delay of a step that waits. *)
Definition delay (s : Step) : Z := RequeueAfter (step_Result s).

Lemma next_step_delay cur cand :
  kind cur = Some KOngoing -> kind cand = Some KOngoing ->
  (0 < delay cur)%Z -> (0 < delay cand)%Z ->
  delay (next_step cur cand) = Z.min (delay cur) (delay cand).
Proof.
  intros Ha Hb Hcur Hcand.
  destruct (kind_preds _ _ Ha) as (Da & Oa & Fa), (kind_preds _ _ Hb) as (Db & Ob & Fb).
  unfold next_step, ShouldReplaceStep, delay in *. rewrite Da, Db, Oa, Ob, Fa, Fb; simpl.
  destruct (Z.eqb_spec (RequeueAfter (step_Result cand)) (RequeueAfter (step_Result cur))); simpl.
  - case_match; lia.
  - destruct (Z.ltb_spec 0 (RequeueAfter (step_Result cand))); [simpl|lia].
    destruct (Z.ltb_spec (RequeueAfter (step_Result cand)) (RequeueAfter (step_Result cur))); lia.
Qed.

(** Steps that completed, or wait for a positive time. *)
Definition timed (s : Step) : Prop :=
  kind s = Some KDone \/ (kind s = Some KOngoing /\ (0 < delay s)%Z).

Lemma fold_next_delay steps cur :
  kind cur = Some KOngoing -> (0 < delay cur)%Z -> Forall timed steps ->
  let waiting := filter (fun s => kind s = Some KOngoing) steps in
  delay (fold_left next_step steps cur) = foldr Z.min (delay cur) (delay <$> waiting).
Proof.
  intros Hc Hpos Hall. revert cur Hc Hpos.
  induction Hall as [|s steps Hs _ IH]; intros cur Hc Hpos; simpl; [done|].
  rewrite filter_cons. destruct Hs as [Hd|[Ho Hds]].
  - rewrite decide_False by congruence. unfold next_step at 2.
    destruct (kind_preds _ _ Hd) as (-> & _). by apply IH.
  - rewrite decide_True by done. rewrite fmap_cons; simpl.
    rewrite IH, next_step_delay; [|done..| |].
    + generalize (delay <$> filter (fun s => kind s = Some KOngoing) steps) as l.
      induction l as [|x l IHl]; simpl; lia.
    + by rewrite (next_step_kind _ _ KOngoing KOngoing).
    + rewrite next_step_delay by done. lia.
Qed.

(** when some tree waits and every tree either completed or waits for a
    positive time, the operator comes back after the shortest of these times. *)
Theorem ReducePerTreeResults_requeue results r0 :
  Forall (fun r => timed (ptr_Step r)) results ->
  r0 ∈ results -> kind (ptr_Step r0) = Some KOngoing ->
  let d := delay (ptr_Step (ReducePerTreeResults results)) in
  (exists r, r ∈ results /\ kind (ptr_Step r) = Some KOngoing /\ d = delay (ptr_Step r)) /\
  (forall r, r ∈ results -> kind (ptr_Step r) = Some KOngoing -> (d <= delay (ptr_Step r))%Z).
Proof.
  intros Hall Hr0 Hk0 d.
  assert (d = delay (fold_left next_step (ptr_Step <$> results) StepSuccess)) as ->.
  { unfold d. rewrite ReducePerTreeResults_unfold; simpl.
    destruct (fold_reduce_parts results (mkReduceAcc (mkPerTreeResult [] [] ∅ StepSuccess) 0 0))
      as (_ & _ & _ & ->); simpl. by case_match. }
  induction Hall as [|r results Hr Hall IH]; [by apply elem_of_nil in Hr0|]; simpl.
  destruct Hr as [Hd|[Ho Hds]].
  - assert (next_step StepSuccess (ptr_Step r) = StepSuccess) as ->.
    { unfold next_step. by destruct (kind_preds _ _ Hd) as (-> & _). }
    destruct IH as [(r' & ? & ? & ?) Hmin]; [set_solver|].
    split; [exists r'; set_solver|]. intros r'' [->|?]%elem_of_cons ?; [congruence|by apply Hmin].
  - assert (next_step StepSuccess (ptr_Step r) = ptr_Step r) as ->.
    { unfold next_step. by destruct (kind_preds _ _ Ho) as (-> & _). }
    rewrite fold_next_delay; [|done..|by apply Forall_fmap].
    set (l := delay <$> filter (fun s => kind s = Some KOngoing) (ptr_Step <$> results)).
    assert (forall z, z ∈ delay (ptr_Step r) :: l <->
      exists r', r' ∈ r :: results /\ kind (ptr_Step r') = Some KOngoing /\ z = delay (ptr_Step r')) as Hl.
    { intros z. unfold l. rewrite elem_of_cons, list_elem_of_fmap.
      setoid_rewrite list_elem_of_filter. setoid_rewrite list_elem_of_fmap.
      setoid_rewrite elem_of_cons. naive_solver. }
    split; [by apply Hl, foldr_min_elem|].
    intros r' Hr' Hk'. apply foldr_min_le, Hl. by exists r'.
Qed.

Lemma ReducePerTreeResults_requeue_witness :
  let t d := mkPerTreeResult [] [] ∅ (StepOngoing d) in
  let rs := [t 60%Z; mkPerTreeResult [] [] ∅ StepSuccess; t 5%Z] in
  Forall (fun r => timed (ptr_Step r)) rs /\
  (delay (ptr_Step (ReducePerTreeResults rs)) <= 5)%Z.
Proof.
  intros t rs.
  assert (Forall (fun r => timed (ptr_Step r)) rs) as Hall.
  { unfold rs. rewrite !Forall_cons. split_and!; [by right|by left|by right|constructor]. }
  split; [done|].
  assert (t 5%Z ∈ rs) as Hin by set_solver.
  exact (proj2 (ReducePerTreeResults_requeue rs (t 5%Z) Hall Hin eq_refl) (t 5%Z) Hin eq_refl).
Defined.

(** with a tree that waits without a timer (its pool is paused) the delay
    depends on the order of the trees: after it, a tree that asked to be polled
    is not, and before it, it is. *)
Theorem ReducePerTreeResults_requeue_order d paused :
  (0 < d)%Z ->
  let wait := mkPerTreeResult [] [] ∅ (StepOngoing d) in
  let pause := mkPerTreeResult [] [] {[paused]} (StepOngoing 0) in
  delay (ptr_Step (ReducePerTreeResults [wait; pause])) = d /\
  delay (ptr_Step (ReducePerTreeResults [pause; wait])) = 0%Z.
Proof.
  intros Hd wait pause. destruct d as [|d|d]; [lia| |lia]. by split.
Qed.

Lemma ReducePerTreeResults_requeue_order_witness :
  delay (ptr_Step (ReducePerTreeResults
    [mkPerTreeResult [] [] {["infra"]} (StepOngoing 0);
     mkPerTreeResult [] [] ∅ (StepOngoing (5 * Duration.Second))])) = 0%Z.
Proof.
  apply (ReducePerTreeResults_requeue_order (5 * Duration.Second)%Z "infra"). reflexivity.
Defined.

(** ** Which pools a node group selects *)

Section Select.
Context `{SelectorLib}.

(** [nodeGroupMatchesMCP] of the controller: whether a change of a pool
    concerns a node group. *)
Definition nodeGroupMatchesMCP (nodeGroup : NodeGroup) (mcpName : string)
  (mcpLabels : gmap string string) : bool :=
  match ng_PoolName nodeGroup with
  | Some p => bool_decide (mcpName = p)
  | None =>
      match ng_MachineConfigPoolSelector nodeGroup with
      | None => false
      | Some sel =>
          match LabelSelectorAsSelector sel with
          | inr _ => false
          | inl Matches => Matches mcpLabels
          end
      end
  end.

(** A node group names its pools in exactly one way. *)
Definition single_specifier (ng : NodeGroup) : Prop :=
  is_Some (ng_PoolName ng) <-> ng_MachineConfigPoolSelector ng = None.

(** The selector of the node group, if any, is accepted. *)
Definition selector_ok (ng : NodeGroup) : Prop :=
  match ng_MachineConfigPoolSelector ng with
  | Some sel => exists M, LabelSelectorAsSelector sel = inl M
  | None => True
  end.

Lemma elem_of_find_by_name mcps name mcp :
  NoDup (mcp_Name <$> mcps) ->
  mcp ∈ find_by_name mcps name <-> mcp ∈ mcps /\ mcp_Name mcp = name.
Proof.
  induction mcps as [|m mcps IH]; simpl; [set_solver|].
  rewrite NoDup_cons, elem_of_cons. intros [Hm Hnd]. case_decide as E.
  - rewrite list_elem_of_singleton. split; [intros ->; auto|].
    intros [[->|Hin] Hn]; [done|]. exfalso. apply Hm. rewrite E, <-Hn. by apply list_elem_of_fmap_2.
  - rewrite IH by done. naive_solver.
Qed.

Lemma elem_of_node_group_mcps mcps ng mcp :
  NoDup (mcp_Name <$> mcps) -> single_specifier ng ->
  (exists l, node_group_mcps mcps ng = Some l /\ mcp ∈ l)
  <-> mcp ∈ mcps /\ nodeGroupMatchesMCP ng (mcp_Name mcp) (mcp_Labels mcp) = true.
Proof.
  intros Hnd Hss. unfold node_group_mcps, nodeGroupMatchesMCP.
  destruct (ng_PoolName ng) as [p|] eqn:Ep, (ng_MachineConfigPoolSelector ng) as [sel|] eqn:Es;
    unfold single_specifier in Hss; rewrite Ep, Es in Hss.
  - destruct Hss as [Hss _]. by discriminate Hss.
  - rewrite bool_decide_eq_true, <-elem_of_find_by_name by done. naive_solver.
  - destruct (LabelSelectorAsSelector sel) as [M|e]; [|naive_solver].
    simpl. split.
    + intros (l & [= <-] & Hin). apply list_elem_of_filter in Hin. naive_solver.
    + intros [Hin HM]. eexists. split; [done|]. by apply list_elem_of_filter.
  - destruct Hss as [_ Hss]. by destruct (Hss eq_refl).
Qed.

Lemma node_group_mcps_skipped mcps ng : node_group_mcps mcps ng <> None <-> selector_ok ng.
Proof.
  unfold node_group_mcps, selector_ok. destruct (ng_MachineConfigPoolSelector ng) as [sel|]; [|done].
  destruct (LabelSelectorAsSelector sel); naive_solver.
Qed.
End Select.

Section FindTreesSpec.
Context `{SelectorLib} (show : NodeGroup -> string).

(** The trees of the node groups, refused groups left out. *)
Definition trees_from (mcps : list MachineConfigPool) (idx : nat) (ngs : list NodeGroup) : list Tree :=
  omap id (imap (fun i ng => (fun l => mkTree (Some ng) (idx + i) (Some l)) <$> node_group_mcps mcps ng) ngs).

Lemma trees_from_cons mcps idx ng ngs :
  trees_from mcps idx (ng :: ngs)
  = option_list ((fun l => mkTree (Some ng) idx (Some l)) <$> node_group_mcps mcps ng)
    ++ trees_from mcps (S idx) ngs.
Proof.
  unfold trees_from. rewrite imap_cons, Nat.add_0_r; simpl.
  replace (imap _ ngs) with
    (imap (fun i ng => (fun l => mkTree (Some ng) (S idx + i) (Some l)) <$> node_group_mcps mcps ng) ngs).
  - by destruct (node_group_mcps mcps ng).
  - apply imap_ext. intros i x _; simpl. by rewrite Nat.add_succ_r.
Qed.

Lemma find_trees_from_spec mcps idx ngs result :
  find_trees_from show mcps idx ngs result
  = match list_find (fun ng => node_group_mcps mcps ng = Some []) ngs with
    | Some (_, ng) => inr (ErrNew ("failed to find MachineConfigPool for the node group " +:+ show ng))
    | None => inl (result ++ trees_from mcps idx ngs)
    end.
Proof.
  revert idx result. induction ngs as [|ng ngs IH]; intros idx result; simpl.
  - by rewrite app_nil_r.
  - rewrite trees_from_cons. destruct (node_group_mcps mcps ng) as [[|m l]|] eqn:E.
    + by rewrite decide_True.
    + rewrite decide_False by congruence. rewrite IH.
      destruct (list_find _ ngs) as [[]|]; simpl; [done|]. by rewrite <-app_assoc.
    + rewrite decide_False by congruence. rewrite IH. by destruct (list_find _ ngs) as [[]|].
Qed.

Lemma elem_of_trees_from mcps idx ngs t :
  t ∈ trees_from mcps idx ngs <->
  exists i ng l, ngs !! i = Some ng /\ node_group_mcps mcps ng = Some l /\
                 t = mkTree (Some ng) (idx + i) (Some l).
Proof.
  unfold trees_from. rewrite list_elem_of_omap. setoid_rewrite elem_of_lookup_imap.
  split.
  - intros (o & (i & ng & -> & Hi) & Ho). apply fmap_Some in Ho as (l & Hl & ->). eauto 10.
  - intros (i & ng & l & Hi & Hl & ->). eexists. split; [exists i, ng; split; [done|done]|].
    by rewrite Hl.
Qed.
End FindTreesSpec.

Section FindTreesClaims.
Context `{SelectorLib} (show : NodeGroup -> string).

(** binding node groups to pools, when it succeeds, agrees with the test
    the watch handlers use: for node groups with one pool specifier and pools
    with distinct names, a pool belongs to the tree of a node group exactly when
    the node group matches it, and no tree is without pools. *)
Theorem FindTreesOpenshift_sound mcps ngs trees :
  NoDup (mcp_Name <$> mcps) -> Forall single_specifier ngs ->
  FindTreesOpenshift show mcps ngs = inl trees ->
  Forall (fun t => tree_MCPs t <> []) trees /\
  (forall i ng mcp, ngs !! i = Some ng ->
     ((exists t, t ∈ trees /\ tree_NodeGroup t = Some ng /\ tree_Index t = i /\ mcp ∈ tree_MCPs t)
      <-> mcp ∈ mcps /\ nodeGroupMatchesMCP ng (mcp_Name mcp) (mcp_Labels mcp) = true)).
Proof.
  intros Hnd Hss Hf. unfold FindTreesOpenshift in Hf. rewrite find_trees_from_spec in Hf.
  destruct (list_find _ ngs) as [[]|] eqn:El; [done|]. injection Hf as <-. simpl.
  apply list_find_None in El. split.
  - apply Forall_forall. intros t (i & ng & l & Hi & Hl & ->)%elem_of_trees_from Hnil.
    unfold tree_MCPs in Hnil; simpl in Hnil; subst l.
    rewrite Forall_forall in El. by apply (El ng); [apply list_elem_of_lookup_2 in Hi|].
  - intros i ng mcp Hi.
    rewrite <-elem_of_node_group_mcps; [|done|by eapply Forall_lookup_1]. split.
    + intros (t & Ht & _ & Hix & Hin). apply elem_of_trees_from in Ht as (j & ng' & l & Hj & Hl & ->).
      simpl in Hix; subst j. simplify_eq. by exists l.
    + intros (l & Hl & Hin). exists (mkTree (Some ng) i (Some l)). split_and!; try done.
      apply elem_of_trees_from. by exists i, ng, l.
Qed.

(** binding fails exactly when some node group whose selector is accepted
    selects none of the pools; it never fails because of a refused selector,
    whose node group is left out. *)
Theorem FindTreesOpenshift_fails mcps ngs :
  NoDup (mcp_Name <$> mcps) -> Forall single_specifier ngs ->
  (exists err, FindTreesOpenshift show mcps ngs = inr err)
  <-> exists ng, ng ∈ ngs /\ selector_ok ng /\
        forall mcp, mcp ∈ mcps -> nodeGroupMatchesMCP ng (mcp_Name mcp) (mcp_Labels mcp) = false.
Proof.
  intros Hnd Hss. unfold FindTreesOpenshift. rewrite find_trees_from_spec.
  assert (forall ng, ng ∈ ngs -> node_group_mcps mcps ng = Some [] <-> selector_ok ng /\
    forall mcp, mcp ∈ mcps -> nodeGroupMatchesMCP ng (mcp_Name mcp) (mcp_Labels mcp) = false) as Hiff.
  { intros ng Hng. rewrite <-(node_group_mcps_skipped mcps). rewrite Forall_forall in Hss.
    pose proof (fun m => elem_of_node_group_mcps mcps ng m Hnd (Hss _ Hng)) as He. split.
    - intros Hn. split; [congruence|]. intros m Hm. apply not_true_is_false. intros HM.
      destruct (proj2 (He m) (conj Hm HM)) as (l & Hl & Hin). rewrite Hn in Hl.
      injection Hl as <-. by apply elem_of_nil in Hin.
    - intros [Hns Hno]. destruct (node_group_mcps mcps ng) as [[|m l]|] eqn:E; [done| |done].
      destruct (proj1 (He m)) as [Hm HM]; [exists (m :: l); split; [done|by left]|].
      by rewrite Hno in HM. }
  destruct (list_find _ ngs) as [[i ng]|] eqn:El; simpl.
  - apply list_find_Some in El as (Hi & Hn & _). apply list_elem_of_lookup_2 in Hi.
    split; [|by eauto]. intros _. exists ng. split; [done|]. by apply Hiff.
  - apply list_find_None in El. rewrite Forall_forall in El. split; [by intros [? ?]|].
    intros (ng & Hng & Hok). by apply Hiff in Hok; [apply (El ng) in Hng|].
Qed.
End FindTreesClaims.

(** Example pools, for the witnesses. *)
Definition mk_pool (name : string) (labels : gmap string string) : MachineConfigPool :=
  mkMachineConfigPool name labels false (Some (match_label "machineconfiguration.openshift.io/role" name))
    (Some (match_label "node-role.kubernetes.io/worker" "")) [] [].

Definition example_pools : list MachineConfigPool :=
  [mk_pool "worker" {["pool" := "w"]}; mk_pool "infra" {["pool" := "i"]}].
Definition example_groups : list NodeGroup :=
  [mkNodeGroup (Some (match_label "pool" "w")) None None ∅; mkNodeGroup None None (Some "infra") ∅].

Lemma example_groups_single : Forall single_specifier example_groups.
Proof. repeat constructor; simpl; try done; by intros [? ?]. Qed.

Lemma example_pools_NoDup : NoDup (mcp_Name <$> example_pools).
Proof. by apply (bool_decide_eq_true_1 (NoDup _)). Qed.

Lemma FindTreesOpenshift_sound_witness :
  exists trees, FindTreesOpenshift (fun _ => "") example_pools example_groups = inl trees /\
    Forall (fun t => tree_MCPs t <> []) trees /\ length trees = 2%nat.
Proof.
  eexists. split; [reflexivity|]. split; [|reflexivity].
  by apply (FindTreesOpenshift_sound (fun _ => "") example_pools example_groups _
              example_pools_NoDup example_groups_single).
Defined.

Lemma FindTreesOpenshift_fails_witness :
  exists err, FindTreesOpenshift (fun _ => "") [mk_pool "worker" {["pool" := "w"]}] example_groups = inr err.
Proof.
  apply (FindTreesOpenshift_fails (fun _ => "") [mk_pool "worker" {["pool" := "w"]}] example_groups).
  - apply NoDup_singleton.
  - apply example_groups_single.
  - exists (mkNodeGroup None None (Some "infra") ∅). split; [by right; left|]. split; [done|].
    intros mcp ->%list_elem_of_singleton. reflexivity.
Defined.
