(* ===== verification/Validation.v ===== *)
(** * Validation of the specification (pkg/validation, internal/api/scheduler)

    Node-group validation, platform by platform, the checks on the trees bound
    to the node groups, and the trust check of scheduler images. Where the code
    ranges over a Go map, whose order is unspecified, the model ranges over the
    map's elements in some order; no theorem depends on which. *)
From S2P Require Import Prelude GoErrors Meta Selectors ApiV1 Steps Trees.

Definition NodeGroupsError : string := "ValidationErrorUnderNodeGroups".

Record TolerableError := mkTolerableError { te_Error : error; te_Reason : string }.

(** Counting occurrences in a Go map: [m[k] += 1]. *)
Definition count_all (keys : list string) : gmap string nat :=
  fold_left (fun m k => <[k := S (default 0%nat (m !! k))]> m) keys ∅.

(** The loop that reports the keys counted more than once. *)
Definition report_duplicates (msg : string -> string) (duplicates : gmap string nat) : option error :=
  fold_left (fun errs '(name, count) =>
               if (1 <? count)%nat then Join errs (Some (ErrNew (msg name))) else errs)
    (map_to_list duplicates) None.

Section Validation.
Context `{SelectorLib}.

Definition MCPsDuplicates (trees : list Tree) : option error :=
  report_duplicates
    (fun mcpName => "the MachineConfigPool " +:+ quote mcpName +:+ " selected by at least two node groups")
    (count_all (concat ((fun tree => mcp_Name <$> tree_MCPs tree) <$> trees))).

Definition MultipleMCPsPerTree (annot : gmap string string) (trees : list Tree) : option error :=
  if annotations.IsMultiplePoolsPerTreeEnabled annot then None
  else
    fold_left (fun err tree =>
      if (1 <? length (tree_MCPs tree))%nat then
        let name := match tree_NodeGroup tree with Some ng => GetName ng | None => "nil" end in
        Join err (Some (ErrNew ("found multiple pools matches for node group " +:+ name
               +:+ " but expected one. Pools found " +:+ go_strings (GetTreePoolsNames tree))))
      else err) trees None.

Definition nodeGroupForHypershift (nodeGroups : list NodeGroup) : option error :=
  let fix go (idx : Z) l :=
    match l with
    | [] => None
    | ng :: rest =>
        if bool_decide (is_Some (ng_MachineConfigPoolSelector ng))
        then Some (ErrNew ("node group " +:+ pretty idx +:+ " specifies MachineConfigPoolSelector on Hypershift platform; Should specify PoolName only"))
        else if bool_decide (ng_PoolName ng = None)
        then Some (ErrNew ("node group " +:+ pretty idx +:+ " must specify PoolName on Hypershift platform"))
        else go (idx + 1)%Z rest
    end in go 0%Z nodeGroups.

Definition nodeGroupsSpecifier (nodeGroups : list NodeGroup) : option error :=
  let fix go (idx : Z) l :=
    match l with
    | [] => None
    | ng :: rest =>
        if bool_decide (ng_MachineConfigPoolSelector ng = None) && bool_decide (ng_PoolName ng = None)
        then Some (ErrNew ("node group " +:+ pretty idx +:+ " missing any pool specifier"))
        else if bool_decide (is_Some (ng_MachineConfigPoolSelector ng)) && bool_decide (is_Some (ng_PoolName ng))
        then Some (ErrNew ("node group " +:+ pretty idx +:+ " must have only a single specifier set: either PoolName or MachineConfigPoolSelector"))
        else go (idx + 1)%Z rest
    end in go 0%Z nodeGroups.

Definition nodeGroupsValidPoolName (nodeGroups : list NodeGroup) : option error :=
  fold_left (fun err '(idx, ng) =>
      match ng_PoolName ng with
      | None => err
      | Some p =>
          if bool_decide (p <> "") then err
          else Join err (Some (ErrNew ("pool name for pool #" +:+ pretty (Z.of_nat idx) +:+ " cannot be empty")))
      end)
    (imap pair nodeGroups) None.

Definition nodeGroupsDuplicatesByMCPSelector (nodeGroups : list NodeGroup) : option error :=
  report_duplicates
    (fun selector => "the node group with the machineConfigPoolSelector " +:+ quote selector +:+ " has duplicates")
    (count_all (omap (fun ng => LabelSelector_String <$> ng_MachineConfigPoolSelector ng) nodeGroups)).

Definition nodeGroupsDuplicatesByPoolName (nodeGroups : list NodeGroup) : option error :=
  report_duplicates (fun name => "the pool name " +:+ quote name +:+ " has duplicates")
    (count_all (omap ng_PoolName nodeGroups)).

Definition nodeGroupsValidMachineConfigPoolSelector (nodeGroups : list NodeGroup) : option error :=
  fold_left (fun errs ng =>
      match ng_MachineConfigPoolSelector ng with
      | None => errs
      | Some sel => match LabelSelectorAsSelector sel with
                    | inl _ => errs
                    | inr err => Join errs (Some err)
                    end
      end) nodeGroups None.

Definition nodeGroupsAnnotations (nodeGroups : list NodeGroup) : option error :=
  fold_left (fun err '(idx, ng) =>
      if (size (ng_Annotations ng) <=? NodeGroupMaxAnnotations)%nat then err
      else Join err (Some (ErrNew ("pool #" +:+ pretty (Z.of_nat idx) +:+ " has too many annotations "
             +:+ pretty (Z.of_nat (size (ng_Annotations ng))) +:+ " max "
             +:+ pretty (Z.of_nat NodeGroupMaxAnnotations)))))
    (imap pair nodeGroups) None.

(** The validators run in order; the first error is returned. *)
Fixpoint run_validators (fs : list (list NodeGroup -> option error)) (nodeGroups : list NodeGroup)
  : option error :=
  match fs with
  | [] => None
  | f :: fs' => match f nodeGroups with
                | Some err => Some err
                | None => run_validators fs' nodeGroups
                end
  end.

Definition NodeGroups (nodeGroups : list NodeGroup) (platf : platform.Platform) : option error :=
  let validatorFuncs :=
    [nodeGroupsSpecifier; nodeGroupsValidPoolName; nodeGroupsDuplicatesByPoolName; nodeGroupsAnnotations] in
  let validatorFuncs :=
    if decide (platf = platform.HyperShift) then validatorFuncs ++ [nodeGroupForHypershift]
    else validatorFuncs in
  let validatorFuncs :=
    if decide (platf = platform.OpenShift)
    then validatorFuncs ++ [nodeGroupsDuplicatesByMCPSelector; nodeGroupsValidMachineConfigPoolSelector]
    else validatorFuncs in
  run_validators validatorFuncs nodeGroups.

Definition NodeGroupsTree (annot : gmap string string) (trees : list Tree) (platf : platform.Platform)
  : option TolerableError * option error :=
  if decide (platf = platform.HyperShift) then (None, None)
  else
    let tolErr := match MultipleMCPsPerTree annot trees with
                  | Some e => Some (mkTolerableError e NodeGroupsError)
                  | None => None
                  end in
    (tolErr, MCPsDuplicates trees).

End Validation.

(** ** Scheduler images *)

Module schedulerapi.
Definition CustomSchedulerDigestsEnvVar : string := "SCHEDULER_IMAGE_DIGESTS".

Definition is_hex (c : Ascii.ascii) : bool :=
  let n := Ascii.nat_of_ascii c in
  ((97 <=? n) && (n <=? 102) || (48 <=? n) && (n <=? 57))%nat.

(** The regular expression [^sha256:[a-f0-9]{64}$]. *)
Definition IsValidDigest (digest : string) : bool :=
  let hex := String.list_ascii_of_string (String.substring 7 (String.length digest - 7) digest) in
  String.prefix "sha256:" digest && (length hex =? 64)%nat && forallb is_hex hex.

Definition parseCustomSchedulerDigests (customList : string) : list string :=
  fold_left (fun ret d =>
      let d := TrimSpace d in
      if decide (d = "") then ret
      else if negb (IsValidDigest d) then ret
      else ret ++ [d])
    (split_on ","%char (TrimSpace customList)) [].

(** [getUserImageDigests], with the value of the environment variable. *)
Definition getUserImageDigests (env : option string) : list string :=
  match env with
  | None => []
  | Some val => parseCustomSchedulerDigests val
  end.

Record Digests := mkDigests {
  CurrentChannel : list string; PreviousChannelLast : string; EUSChannelLast : string }.

(** [loadDigests] on the embedded data, once decoded. *)
Definition loadDigests (d : Digests) (env : option string) : gset string :=
  let digests : gset string := list_to_set (CurrentChannel d) in
  let digests := digests ∪ {[PreviousChannelLast d]} in
  let digests := if decide (EUSChannelLast d <> "") then digests ∪ {[EUSChannelLast d]} else digests in
  digests ∪ list_to_set (getUserImageDigests env).

Record ImageValidation := mkImageValidation { Enabled : bool; iv_Digests : gset string }.

Definition GetImageValidationData (d : Digests) (validation digests : option string) : ImageValidation :=
  if decide (validation = Some "false") then mkImageValidation false ∅
  else mkImageValidation true (loadDigests d digests).
End schedulerapi.

Definition SchedulerImage (image : string) (digests : gset string) : option error :=
  match snd (split2 "@"%char image) with
  | None => Some (ErrNew ("image " +:+ quote image +:+ " must be referenced by digest, not by tag"))
  | Some digest =>
      if negb (schedulerapi.IsValidDigest digest)
      then Some (ErrNew ("image " +:+ quote image +:+ " has malformed digest " +:+ quote digest
                         +:+ ": expected sha256:<64 hex chars>"))
      else if bool_decide (digest ∉ digests)
      then Some (ErrNew ("image " +:+ quote image +:+ " digest " +:+ quote digest
             +:+ " is not in the trusted list. To extend the list, update the environment variable "
             +:+ quote schedulerapi.CustomSchedulerDigestsEnvVar +:+ " with comma separated list of digests"))
      else None
  end.

(** ** Lemmas *)


(** The map holds the number of occurrences of every key that occurs. *)
Lemma count_all_lookup keys k :
  count_all keys !! k = (if decide (k ∈ keys) then Some (length (filter (.= k) keys)) else None).
Proof.
  unfold count_all. induction keys as [|x keys IH] using rev_ind; [done|].
  rewrite fold_left_app; simpl. rewrite filter_app, length_app.
  destruct (decide (x = k)) as [->|Hne].
  - rewrite lookup_insert_eq, IH. rewrite filter_cons_True by done; simpl.
    rewrite (decide_True (P := k ∈ keys ++ [k])) by set_solver. f_equal.
    case_decide as Hin; simpl; [lia|].
    rewrite (filter_nil_not_elem_of_length keys k Hin). done.
  - rewrite lookup_insert_ne, IH by done. rewrite filter_cons_False by done. simpl.
    rewrite Nat.add_0_r. repeat case_decide; set_solver.
Qed.

Lemma fold_report_None {A} (bad : A -> bool) (msg : A -> option error) (l : list A) acc :
  (forall x, bad x = true -> msg x <> None) ->
  fold_left (fun errs x => if bad x then Join errs (msg x) else errs) l acc = None
  <-> acc = None /\ Forall (fun x => bad x = false) l.
Proof.
  intros Hm. revert acc. induction l as [|x l IH]; intros acc; simpl.
  - split; [by eauto|by intros [? _]].
  - rewrite IH, Forall_cons. destruct (bad x) eqn:E; [|tauto]. rewrite Join_None.
    pose proof (Hm x E). naive_solver.
Qed.

Lemma report_duplicates_None msg keys :
  report_duplicates msg (count_all keys) = None <-> NoDup keys.
Proof.
  unfold report_duplicates.
  rewrite (fold_left_ext _ (fun errs p => if (1 <? snd p)%nat then Join errs (Some (ErrNew (msg (fst p)))) else errs))
    by (by intros ? []).
  rewrite (fold_report_None (fun p => (1 <? snd p)%nat) (fun p => Some (ErrNew (msg (fst p))))) by done.
  rewrite NoDup_count, Forall_forall. split.
  - intros [_ Hall] x Hx. pose proof (count_all_lookup keys x) as Hl. rewrite decide_True in Hl by done.
    apply elem_of_map_to_list, Hall in Hl. simpl in Hl. apply Nat.ltb_ge in Hl.
    assert (x ∈ filter (.= x) keys) as Hf by (by apply list_elem_of_filter).
    destruct (filter (.= x) keys); [by apply elem_of_nil in Hf|]. simpl in *. lia.
  - intros Hall. split; [done|]. intros [k n] Hkn%elem_of_map_to_list. simpl.
    rewrite count_all_lookup in Hkn. case_decide; [|done]. injection Hkn as <-.
    rewrite Hall by done. done.
Qed.

Lemma MCPsDuplicates_None trees :
  MCPsDuplicates trees = None <-> NoDup (mcp_Name <$> flattenTrees trees).
Proof.
  unfold MCPsDuplicates. rewrite report_duplicates_None.
  assert (mcp_Name <$> flattenTrees trees = concat ((fun tree => mcp_Name <$> tree_MCPs tree) <$> trees)) as ->; [|done].
  unfold flattenTrees. assert (forall acc, mcp_Name <$> fold_left (fun result tree => result ++ tree_MCPs tree) trees acc
    = (mcp_Name <$> acc) ++ concat ((fun tree => mcp_Name <$> tree_MCPs tree) <$> trees)) as Hg.
  { induction trees as [|t trees IH]; intros acc; simpl; [by rewrite app_nil_r|].
    by rewrite IH, fmap_app, app_assoc. }
  by rewrite Hg.
Qed.

(** the duplicate check accepts the trees exactly when no machine config
    pool is bound twice, by one node group or by two. *)
Theorem MCPsDuplicates_spec trees :
  MCPsDuplicates trees = None <-> NoDup (mcp_Name <$> flattenTrees trees).
Proof. apply MCPsDuplicates_None. Qed.

Section ValidationSpec.
Context `{SelectorLib}.

Lemma nodeGroupForHypershift_None ngs :
  nodeGroupForHypershift ngs = None
  <-> Forall (fun ng => ng_MachineConfigPoolSelector ng = None /\ is_Some (ng_PoolName ng)) ngs.
Proof.
  unfold nodeGroupForHypershift. generalize 0%Z as idx.
  induction ngs as [|ng ngs IH]; intros idx; [by split|].
  rewrite Forall_cons, <-(IH (idx + 1)%Z). simpl.
  destruct (ng_MachineConfigPoolSelector ng), (ng_PoolName ng); repeat case_bool_decide; naive_solver eauto.
Qed.

Lemma nodeGroupsSpecifier_None ngs :
  nodeGroupsSpecifier ngs = None <-> Forall single_specifier ngs.
Proof.
  unfold nodeGroupsSpecifier. generalize 0%Z as idx.
  induction ngs as [|ng ngs IH]; intros idx; [by split|].
  rewrite Forall_cons, <-(IH (idx + 1)%Z). unfold single_specifier. simpl.
  destruct (ng_MachineConfigPoolSelector ng), (ng_PoolName ng); repeat case_bool_decide; simpl; naive_solver eauto.
Qed.

Lemma Forall_imap_pair {A} (P : A -> Prop) (l : list A) :
  Forall (fun p => P (snd p)) (imap pair l) <-> Forall P l.
Proof.
  rewrite !Forall_lookup. setoid_rewrite list_lookup_imap. split.
  - intros Hall i x Hi. apply (Hall i (i, x)). by rewrite Hi.
  - intros Hall i [j x] Hi. destruct (l !! i) eqn:E; simplify_eq/=. eauto.
Qed.

Lemma nodeGroupsValidPoolName_None ngs :
  nodeGroupsValidPoolName ngs = None <-> Forall (fun ng => ng_PoolName ng <> Some "") ngs.
Proof.
  unfold nodeGroupsValidPoolName.
  rewrite (fold_left_ext _ (fun errs p => if bool_decide (ng_PoolName (snd p) = Some "") then
    Join errs (Some (ErrNew ("pool name for pool #" +:+ pretty (Z.of_nat (fst p)) +:+ " cannot be empty")))
    else errs)).
  2: { intros e [i ng]; simpl. destruct (ng_PoolName ng); repeat case_bool_decide; naive_solver. }
  rewrite (fold_report_None (fun p => bool_decide (ng_PoolName (snd p) = Some ""))
    (fun p => Some (ErrNew ("pool name for pool #" +:+ pretty (Z.of_nat (fst p)) +:+ " cannot be empty")))) by done.
  setoid_rewrite bool_decide_eq_false.
  rewrite (Forall_imap_pair (fun ng => ng_PoolName ng <> Some "")). tauto.
Qed.

Lemma nodeGroupsAnnotations_None ngs :
  nodeGroupsAnnotations ngs = None
  <-> Forall (fun ng => (size (ng_Annotations ng) <= NodeGroupMaxAnnotations)%nat) ngs.
Proof.
  unfold nodeGroupsAnnotations.
  set (msg := fun p : nat * NodeGroup => Some (ErrNew ("pool #" +:+ pretty (Z.of_nat (fst p)) +:+ " has too many annotations "
             +:+ pretty (Z.of_nat (size (ng_Annotations (snd p)))) +:+ " max "
             +:+ pretty (Z.of_nat NodeGroupMaxAnnotations)))).
  rewrite (fold_left_ext _ (fun errs p => if negb (size (ng_Annotations (snd p)) <=? NodeGroupMaxAnnotations)%nat
    then Join errs (msg p) else errs)).
  2: { intros e [i ng]; simpl. by destruct (size (ng_Annotations ng) <=? _)%nat. }
  rewrite (fold_report_None (fun p => negb (size (ng_Annotations (snd p)) <=? NodeGroupMaxAnnotations)%nat) msg) by done.
  setoid_rewrite negb_false_iff. setoid_rewrite Nat.leb_le.
  rewrite (Forall_imap_pair (fun ng => (size (ng_Annotations ng) <= NodeGroupMaxAnnotations)%nat)). tauto.
Qed.

Lemma nodeGroupsValidMachineConfigPoolSelector_None ngs :
  nodeGroupsValidMachineConfigPoolSelector ngs = None <-> Forall selector_ok ngs.
Proof.
  unfold nodeGroupsValidMachineConfigPoolSelector.
  set (msg := fun ng => match ng_MachineConfigPoolSelector ng with
    | None => None
    | Some sel => match LabelSelectorAsSelector sel with inl _ => None | inr err => Some err end end).
  rewrite (fold_left_ext _ (fun errs ng => if bool_decide (is_Some (msg ng)) then Join errs (msg ng) else errs)).
  2: { intros e ng. unfold msg.
       destruct (ng_MachineConfigPoolSelector ng) as [sel|]; [destruct (LabelSelectorAsSelector sel)|];
         first [rewrite bool_decide_true by eauto|rewrite bool_decide_false by (by intros [? ?])]; done. }
  rewrite (fold_report_None (fun ng => bool_decide (is_Some (msg ng))) msg).
  2: { intros ng Hb. apply bool_decide_eq_true in Hb as [? ->]. done. }
  setoid_rewrite bool_decide_eq_false.
  assert (forall ng, ~ is_Some (msg ng) <-> selector_ok ng) as Hiff.
  { intros ng. rewrite <-eq_None_not_Some. unfold msg, selector_ok.
    destruct (ng_MachineConfigPoolSelector ng) as [sel|]; [|done].
    destruct (LabelSelectorAsSelector sel); naive_solver. }
  setoid_rewrite Hiff. tauto.
Qed.

Lemma run_validators_None fs ngs :
  run_validators fs ngs = None <-> Forall (fun f => f ngs = None) fs.
Proof.
  induction fs as [|f fs IH]; simpl; [by split|]. rewrite Forall_cons, <-IH.
  destruct (f ngs); naive_solver.
Qed.

(** What a node-group list must satisfy on a platform. *)
Record valid_node_groups (platf : platform.Platform) (ngs : list NodeGroup) : Prop := {
  vng_specifier : Forall single_specifier ngs;
  vng_names : Forall (fun ng => ng_PoolName ng <> Some "") ngs;
  vng_distinct : NoDup (omap ng_PoolName ngs);
  vng_annotations : Forall (fun ng => (size (ng_Annotations ng) <= NodeGroupMaxAnnotations)%nat) ngs;
  vng_hypershift : platf = platform.HyperShift ->
    Forall (fun ng => ng_MachineConfigPoolSelector ng = None /\ is_Some (ng_PoolName ng)) ngs;
  vng_selectors : platf = platform.OpenShift ->
    NoDup (omap (fun ng => LabelSelector_String <$> ng_MachineConfigPoolSelector ng) ngs) /\
    Forall selector_ok ngs }.

Lemma NodeGroups_valid ngs platf :
  NodeGroups ngs platf = None <-> valid_node_groups platf ngs.
Proof.
  unfold NodeGroups. rewrite run_validators_None.
  assert (nodeGroupsDuplicatesByPoolName ngs = None <-> NoDup (omap ng_PoolName ngs)) as Hd
    by apply report_duplicates_None.
  assert (nodeGroupsDuplicatesByMCPSelector ngs = None
    <-> NoDup (omap (fun ng => LabelSelector_String <$> ng_MachineConfigPoolSelector ng) ngs)) as Hs
    by apply report_duplicates_None.
  destruct platf; simpl; rewrite !Forall_cons, Forall_nil,
    nodeGroupsSpecifier_None, nodeGroupsValidPoolName_None, nodeGroupsAnnotations_None, Hd,
    ?nodeGroupForHypershift_None, ?Hs, ?nodeGroupsValidMachineConfigPoolSelector_None;
    (split; [intros; destruct_and!; by constructor|intros []; naive_solver]).
Qed.

(** C32: the node-group validation accepts exactly the lists in which each group
    has one pool specifier, pool names are not empty and distinct, annotations
    stay within the limit, and, on HyperShift, every group is a pool name, or, on
    OpenShift, selectors are accepted and have distinct texts. *)
Theorem NodeGroups_spec ngs platf :
  NodeGroups ngs platf = None <-> valid_node_groups platf ngs.
Proof. apply NodeGroups_valid. Qed.
End ValidationSpec.

Lemma elem_of_parseCustomSchedulerDigests l d :
  d ∈ schedulerapi.parseCustomSchedulerDigests l
  <-> schedulerapi.IsValidDigest d = true /\ d ∈ TrimSpace <$> split_on ","%char (TrimSpace l).
Proof.
  unfold schedulerapi.parseCustomSchedulerDigests.
  assert (forall ws acc, d ∈ fold_left (fun ret d =>
      let d := TrimSpace d in
      if decide (d = "") then ret else if negb (schedulerapi.IsValidDigest d) then ret else ret ++ [d]) ws acc
    <-> d ∈ acc \/ schedulerapi.IsValidDigest d = true /\ d ∈ TrimSpace <$> ws) as Hg.
  { induction ws as [|w ws IH]; intros acc; simpl; [set_solver|].
    rewrite IH, elem_of_cons. case_decide as E.
    - rewrite E. split; [tauto|]. by intros [?|[Hv [->|?]]]; [tauto| |tauto].
    - destruct (schedulerapi.IsValidDigest (TrimSpace w)) eqn:Ev; simpl.
      + rewrite elem_of_app, list_elem_of_singleton. split; [|tauto].
        intros [[?| ->]|?]; tauto.
      + split; [tauto|]. intros [?|[Hv [->|?]]]; [tauto|congruence|tauto]. }
  rewrite Hg. set_solver.
Qed.

(** The digests the operator trusts. *)
Definition trusted (d : schedulerapi.Digests) (env : option string) (digest : string) : Prop :=
  digest ∈ schedulerapi.CurrentChannel d \/ digest = schedulerapi.PreviousChannelLast d \/
  digest = schedulerapi.EUSChannelLast d \/
  exists val, env = Some val /\ digest ∈ TrimSpace <$> split_on ","%char (TrimSpace val).

Lemma SchedulerImage_None image digests :
  SchedulerImage image digests = None <->
  exists repo digest, image = repo +:+ String "@" digest /\ str_mem "@" repo = false /\
    schedulerapi.IsValidDigest digest = true /\ digest ∈ digests.
Proof.
  unfold SchedulerImage. destruct (snd (split2 "@" image)) as [g|] eqn:E.
  - assert (forall repo' g', image = repo' +:+ String "@" g' -> str_mem "@" repo' = false -> g' = g) as Hu.
    { intros repo' g' -> Hr'. rewrite split2_app in E by done. by injection E. }
    apply split2_Some in E as (repo & Heq & Hr).
    assert ((exists repo digest, image = repo +:+ String "@" digest /\ str_mem "@" repo = false /\
      schedulerapi.IsValidDigest digest = true /\ digest ∈ digests)
      <-> schedulerapi.IsValidDigest g = true /\ g ∈ digests) as ->.
    { split; [|by eauto 10]. intros (r & g' & He & Hr' & ?). by rewrite <-(Hu _ _ He Hr'). }
    destruct (schedulerapi.IsValidDigest g); simpl; [case_bool_decide as Hin|].
    + by split; [|intros []].
    + by split.
    + by split; [|intros []].
  - split; [done|]. intros (repo & g & -> & Hr & _). by rewrite split2_app in E.
Qed.

(** with image validation on, a scheduler image is accepted exactly when it
    is pinned by a well-formed digest that belongs to the embedded channels or to
    the fields of the administrator's comma-separated list. *)
Theorem SchedulerImage_spec d validation env image :
  validation <> Some "false" ->
  let iv := schedulerapi.GetImageValidationData d validation env in
  schedulerapi.Enabled iv = true /\
  (SchedulerImage image (schedulerapi.iv_Digests iv) = None <->
   exists repo digest, image = repo +:+ String "@" digest /\ str_mem "@" repo = false /\
     schedulerapi.IsValidDigest digest = true /\ trusted d env digest).
Proof.
  intros Hv iv. subst iv. unfold schedulerapi.GetImageValidationData.
  rewrite decide_False by done. simpl. split; [done|].
  assert (forall g, schedulerapi.IsValidDigest g = true ->
    g ∈ schedulerapi.loadDigests d env <-> trusted d env g) as Ht.
  { intros g Hg. unfold schedulerapi.loadDigests, trusted, schedulerapi.getUserImageDigests.
    assert (g <> "") by (by intros ->).
    rewrite elem_of_union, elem_of_list_to_set.
    assert (g ∈ match env with Some v => schedulerapi.parseCustomSchedulerDigests v | None => [] end
      <-> exists val, env = Some val /\ g ∈ TrimSpace <$> split_on ","%char (TrimSpace val)) as ->.
    { destruct env as [v|]; [rewrite elem_of_parseCustomSchedulerDigests|]; set_solver. }
    case_decide as He; rewrite ?elem_of_union, ?elem_of_singleton, elem_of_list_to_set; [tauto|].
    rewrite He. tauto. }
  rewrite SchedulerImage_None.
  split; intros (repo & g & ? & ? & Hg & Hin); exists repo, g; split_and!; try done; by apply (Ht g Hg).
Qed.

Lemma SchedulerImage_spec_witness :
  let digest := "sha256:0123456789abcdef0123456789abcdef0123456789abcdef0123456789abcdef" in
  let d := schedulerapi.mkDigests [] "" "" in
  let env := Some (" " +:+ digest +:+ ",sha256:bad") in
  SchedulerImage ("quay.io/sched@" +:+ digest)
    (schedulerapi.iv_Digests (schedulerapi.GetImageValidationData d None env)) = None.
Proof.
  intros digest d env.
  apply (SchedulerImage_spec d None env ("quay.io/sched@" +:+ digest)); [done|].
  exists "quay.io/sched", digest. split_and!; [reflexivity..|].
  right; right; right. eexists. split; [reflexivity|].
  apply (bool_decide_eq_true_1 (_ ∈ _)). vm_compute. reflexivity.
Defined.
