(* ===== verification/FlagCodec.v ===== *)
(** * Command-line manipulation (pkg/numaresourcesoperator/flagcodec)

    The flags of a foreign command line: a map from flag names to values and
    the list of names in order of first appearance. *)
From S2P Require Import Prelude GoErrors.

Inductive FlagKind := FlagToggle | FlagOption.

Record Val := mkVal { val_Kind : FlagKind; val_Data : string }.

Record Flags := mkFlags {
  fl_command : string;
  fl_args : gmap string Val;
  fl_keys : list string;
  fl_processFlagName : string -> string }.

Definition normalizeFlagName (v : string) : string :=
  match v with
  | String "-" (String "-" (String c EmptyString)) => String "-" (String c EmptyString)
  | _ => v
  end.

Definition Option_ := Flags -> Flags.

Definition WithFlagNormalization : Option_ := fun fl =>
  mkFlags (fl_command fl) (fl_args fl) (fl_keys fl) normalizeFlagName.

Definition WithCommand (command : string) : Option_ := fun fl =>
  mkFlags command (fl_args fl) (fl_keys fl) (fl_processFlagName fl).

Definition recordFlag (fl : Flags) (name : string) : Flags :=
  match fl_args fl !! name with
  | None => mkFlags (fl_command fl) (fl_args fl) (fl_keys fl ++ [name]) (fl_processFlagName fl)
  | Some _ => fl
  end.

Definition forgetFlag (fl : Flags) (name : string) : Flags :=
  let keys := fold_left (fun keys k => if decide (k = name) then keys else keys ++ [k]) (fl_keys fl) [] in
  mkFlags (fl_command fl) (fl_args fl) keys (fl_processFlagName fl).

Definition set_val (fl : Flags) (name : string) (v : Val) : Flags :=
  mkFlags (fl_command fl) (<[name := v]> (fl_args fl)) (fl_keys fl) (fl_processFlagName fl).

Definition SetToggle (fl : Flags) (name : string) : Flags :=
  let name := fl_processFlagName fl name in
  let fl := recordFlag fl name in
  set_val fl name (mkVal FlagToggle "").

Definition SetOption (fl : Flags) (name data : string) : Flags :=
  let name := fl_processFlagName fl name in
  let fl := recordFlag fl name in
  set_val fl name (mkVal FlagOption data).

Definition Delete (fl : Flags) (name : string) : Flags :=
  let name := fl_processFlagName fl name in
  let fl := forgetFlag fl name in
  mkFlags (fl_command fl) (delete name (fl_args fl)) (fl_keys fl) (fl_processFlagName fl).

Definition toString (name : string) (val : Val) : string :=
  match val_Kind val with
  | FlagToggle => name
  | FlagOption => name +:+ "=" +:+ val_Data val
  end.

(** A missing key reads as the zero [Val], a toggle. *)
Definition Args (fl : Flags) : list string :=
  fold_left (fun args name =>
               args ++ [toString name (default (mkVal FlagToggle "") (fl_args fl !! name))])
    (fl_keys fl) [].

Definition Argv (fl : Flags) : list string :=
  let args := Args fl in
  if decide (fl_command fl = "") then args else [fl_command fl] ++ args.

Definition GetFlag (fl : Flags) (name : string) : option Val :=
  fl_args fl !! fl_processFlagName fl name.

(** One argument of the parsing loop. *)
Definition parse_arg (ret : Flags) (arg : string) : Flags :=
  match split2 "=" arg with
  | (name, None) => SetToggle ret name
  | (name, Some data) => SetOption ret name data
  end.

Definition ParseArgvKeyValue (args : list string) (opts : list Option_) : Flags :=
  let ret := mkFlags "" ∅ [] (fun v => v) in
  let ret := fold_left (fun ret opt => opt ret) opts ret in
  fold_left parse_arg args ret.

Definition ParseArgvKeyValueWithCommand (command : string) (args : list string) : Flags :=
  ParseArgvKeyValue args [WithCommand command].

(** ** The representation invariant *)

(** The names of the list are those of the map, once each; they are in
    canonical form, and no name holds the separator. *)
Record wf_flags (fl : Flags) : Prop := {
  wf_NoDup : NoDup (fl_keys fl);
  wf_dom : forall k, k ∈ fl_keys fl <-> is_Some (fl_args fl !! k);
  wf_canon : forall k, k ∈ fl_keys fl -> fl_processFlagName fl k = k;
  wf_nosep : forall k, k ∈ fl_keys fl -> str_mem "=" k = false;
  wf_toggle : forall k v, fl_args fl !! k = Some v -> val_Kind v = FlagToggle -> val_Data v = "" }.

(** What the two name-processing functions have in common. *)
Record good_process (f : string -> string) : Prop := {
  gp_idem : forall s, f (f s) = f s;
  gp_nosep : forall s, str_mem "=" s = false -> str_mem "=" (f s) = false }.

Lemma good_process_id : good_process (fun v => v).
Proof. by split. Qed.

(** The only shape [normalizeFlagName] changes. *)
Lemma normalizeFlagName_cases v :
  (exists c, v = String "-" (String "-" (String c "")) /\ normalizeFlagName v = String "-" (String c ""))
  \/ normalizeFlagName v = v.
Proof. unfold normalizeFlagName. repeat (case_match; try (by right)). subst. left. by eexists. Qed.

Lemma good_process_normalize : good_process normalizeFlagName.
Proof.
  split; intros s.
  - destruct (normalizeFlagName_cases s) as [(c & -> & ->)|E]; [|by rewrite !E].
    destruct (normalizeFlagName_cases (String "-" (String c ""))) as [(? & [=] & _)| ->]. done.
  - destruct (normalizeFlagName_cases s) as [(c & -> & ->)| ->]; simpl; [|done].
    rewrite !orb_false_iff. tauto.
Qed.

Lemma recordFlag_keys fl name :
  fl_keys (recordFlag fl name)
  = (if decide (is_Some (fl_args fl !! name)) then fl_keys fl else fl_keys fl ++ [name]).
Proof. unfold recordFlag. destruct (fl_args fl !! name); case_decide as E; try done; by destruct E. Qed.

Lemma recordFlag_args fl name : fl_args (recordFlag fl name) = fl_args fl.
Proof. unfold recordFlag. by case_match. Qed.
Lemma recordFlag_process fl name : fl_processFlagName (recordFlag fl name) = fl_processFlagName fl.
Proof. unfold recordFlag. by case_match. Qed.
Lemma recordFlag_command fl name : fl_command (recordFlag fl name) = fl_command fl.
Proof. unfold recordFlag. by case_match. Qed.

#[export] Hint Rewrite recordFlag_keys recordFlag_args recordFlag_process recordFlag_command : flags.

Lemma set_val_wf fl name v :
  wf_flags fl -> fl_processFlagName fl name = name -> str_mem "=" name = false ->
  (val_Kind v = FlagToggle -> val_Data v = "") ->
  wf_flags (set_val (recordFlag fl name) name v).
Proof.
  intros [Hnd Hdom Hcan Hsep Htog] Hp Hs Ht. split; simpl; autorewrite with flags; try done.
  - case_decide as E; [done|]. apply NoDup_app. split; [done|]. split; [|apply NoDup_singleton].
    intros k Hk Hs'. apply list_elem_of_singleton in Hs'. subst k. by apply E, Hdom.
  - intros k. destruct (decide (k = name)) as [->|Hne].
    + rewrite lookup_insert_eq. case_decide; [rewrite Hdom; by split; eauto|set_solver].
    + rewrite lookup_insert_ne by done. case_decide; rewrite <-(Hdom k); set_solver.
  - intros k. case_decide; [by auto|]. rewrite elem_of_app, list_elem_of_singleton. naive_solver.
  - intros k. case_decide; [by auto|]. rewrite elem_of_app, list_elem_of_singleton. naive_solver.
  - intros k w. rewrite lookup_insert. case_decide; naive_solver.
Qed.

Lemma SetToggle_wf fl name :
  good_process (fl_processFlagName fl) -> wf_flags fl -> str_mem "=" name = false ->
  wf_flags (SetToggle fl name).
Proof. intros [Hi Hn] Hwf Hs. apply set_val_wf; auto. Qed.

Lemma SetOption_wf fl name data :
  good_process (fl_processFlagName fl) -> wf_flags fl -> str_mem "=" name = false ->
  wf_flags (SetOption fl name data).
Proof. intros [Hi Hn] Hwf Hs. apply set_val_wf; auto. done. Qed.

Lemma forgetFlag_keys fl name : fl_keys (forgetFlag fl name) = filter (.≠ name) (fl_keys fl).
Proof.
  unfold forgetFlag; simpl. assert (forall l acc,
    fold_left (fun keys k => if decide (k = name) then keys else keys ++ [k]) l acc
    = acc ++ filter (.≠ name) l) as Hg; [|by rewrite Hg].
  induction l as [|k l IH]; intros acc; simpl; [by rewrite app_nil_r|].
  rewrite filter_cons. destruct (decide (k = name)) as [->|Hne].
  - rewrite IH. by rewrite decide_False by (intros Hx; by apply Hx).
  - rewrite IH, (decide_True (P := k ≠ name)) by done. by rewrite <-app_assoc.
Qed.

Lemma Delete_wf fl name : wf_flags fl -> wf_flags (Delete fl name).
Proof.
  intros [Hnd Hdom Hcan Hsep Htog]. unfold Delete. set (n := fl_processFlagName fl name).
  pose proof (forgetFlag_keys fl n) as Hk. unfold forgetFlag in *; simpl in *.
  split; simpl; rewrite ?Hk.
  - by apply NoDup_filter.
  - intros k. rewrite list_elem_of_filter, Hdom. destruct (decide (k = n)) as [->|Hne].
    + rewrite lookup_delete_eq. split; [by intros [? _]|by intros [? ?]].
    + rewrite lookup_delete_ne by done. tauto.
  - intros k [_ ?]%list_elem_of_filter. auto.
  - intros k [_ ?]%list_elem_of_filter. auto.
  - intros k v [_ ?]%lookup_delete_Some. eauto.
Qed.

Lemma parse_arg_wf fl arg :
  good_process (fl_processFlagName fl) -> wf_flags fl ->
  wf_flags (parse_arg fl arg) /\ fl_processFlagName (parse_arg fl arg) = fl_processFlagName fl
  /\ fl_command (parse_arg fl arg) = fl_command fl.
Proof.
  intros Hg Hwf. unfold parse_arg. pose proof (split2_fst_mem "=" arg) as Hs.
  destruct (split2 "=" arg) as [n [d|]]; simpl in Hs; (split; [|split]).
  1: by apply SetOption_wf. 3: by apply SetToggle_wf.
  all: unfold SetOption, SetToggle; simpl; by autorewrite with flags.
Qed.

Lemma fold_parse_wf args fl :
  good_process (fl_processFlagName fl) -> wf_flags fl ->
  wf_flags (fold_left parse_arg args fl)
  /\ fl_processFlagName (fold_left parse_arg args fl) = fl_processFlagName fl
  /\ fl_command (fold_left parse_arg args fl) = fl_command fl.
Proof.
  revert fl. induction args as [|a args IH]; intros fl Hg Hwf; simpl; [done|].
  destruct (parse_arg_wf fl a Hg Hwf) as (H1 & H2 & H3).
  destruct (IH (parse_arg fl a)) as (H4 & H5 & H6); [by rewrite H2|done|].
  split; [done|]. by rewrite H5, H6.
Qed.

Lemma empty_wf c f : wf_flags (mkFlags c ∅ [] f).
Proof.
  split; simpl.
  - constructor.
  - intros k. rewrite lookup_empty. split; [by intros ?%elem_of_nil|by intros [? ?]].
  - by intros k ?%elem_of_nil.
  - by intros k ?%elem_of_nil.
  - intros k v. by rewrite lookup_empty.
Qed.

(** ** Reachable flags *)

(** The flag sets the operator can build: parsed from an argument list, with or
    without normalisation and a command, then edited. *)
Inductive reachable : Flags -> Prop :=
| reach_parse args opts :
    Forall (fun o => o = WithFlagNormalization \/ exists c, o = WithCommand c) opts ->
    reachable (ParseArgvKeyValue args opts)
| reach_toggle fl name : reachable fl -> str_mem "=" name = false -> reachable (SetToggle fl name)
| reach_option fl name data : reachable fl -> str_mem "=" name = false -> reachable (SetOption fl name data)
| reach_delete fl name : reachable fl -> reachable (Delete fl name).

Lemma opts_good opts fl :
  Forall (fun o => o = WithFlagNormalization \/ exists c, o = WithCommand c) opts ->
  good_process (fl_processFlagName fl) -> fl_args fl = ∅ -> fl_keys fl = [] ->
  let fl' := fold_left (fun (ret : Flags) (opt : Option_) => opt ret) opts fl in
  good_process (fl_processFlagName fl') /\ fl_args fl' = ∅ /\ fl_keys fl' = [].
Proof.
  intros Hall. revert fl.
  induction Hall as [|o opts Ho _ IH]; intros fl Hg Ha Hk; simpl; [done|].
  destruct Ho as [->|[c ->]]; apply IH; simpl; auto using good_process_normalize.
Qed.

Lemma reachable_wf fl : reachable fl -> wf_flags fl /\ good_process (fl_processFlagName fl).
Proof.
  induction 1 as [args opts Hopts|fl name _ [Hwf Hg] Hs|fl name data _ [Hwf Hg] Hs|fl name _ [Hwf Hg]].
  - destruct (opts_good opts (mkFlags "" ∅ [] (fun v => v)) Hopts good_process_id eq_refl eq_refl)
      as (Hg & Ha & Hk).
    set (fl0 := fold_left _ opts _) in *.
    destruct (fold_parse_wf args fl0) as (H1 & H2 & _); [done| |].
    { destruct fl0 as [c m ks f]; simpl in *; subst. apply empty_wf. }
    change (ParseArgvKeyValue args opts) with (fold_left parse_arg args fl0). by rewrite H2.
  - split; [by apply SetToggle_wf|]. unfold SetToggle; simpl. by autorewrite with flags.
  - split; [by apply SetOption_wf|]. unfold SetOption; simpl. by autorewrite with flags.
  - split; [by apply Delete_wf|done].
Qed.

(** C34: every flag set the operator can build keeps its name list and its map
    in step: names appear once, in canonical form and without the separator, and
    are exactly the keys of the map. *)
Theorem reachable_invariant fl :
  reachable fl ->
  NoDup (fl_keys fl) /\
  (forall k, k ∈ fl_keys fl <-> is_Some (fl_args fl !! k)) /\
  (forall k, k ∈ fl_keys fl -> fl_processFlagName fl k = k /\ str_mem "=" k = false).
Proof. intros [[] _]%reachable_wf. auto. Qed.

Definition example_args : list string := ["--v=4"; "--toggle"; "-v=2"; "--opt=a=b"].

Lemma example_reachable : reachable (ParseArgvKeyValue example_args [WithFlagNormalization]).
Proof. apply reach_parse. repeat constructor. Qed.

Lemma reachable_invariant_witness :
  NoDup (fl_keys (ParseArgvKeyValue example_args [WithFlagNormalization])) /\
  fl_keys (ParseArgvKeyValue example_args [WithFlagNormalization]) = ["-v"; "--toggle"; "--opt"].
Proof. split; [apply (reachable_invariant _ example_reachable)|reflexivity]. Defined.

(** ** Reading back what was written *)

Lemma GetFlag_SetOption fl name data n :
  GetFlag (SetOption fl name data) n
  = if decide (fl_processFlagName fl name = fl_processFlagName fl n)
    then Some (mkVal FlagOption data) else GetFlag fl n.
Proof. unfold GetFlag at 1, SetOption. simpl. autorewrite with flags. by rewrite lookup_insert. Qed.
Lemma GetFlag_SetToggle fl name n :
  GetFlag (SetToggle fl name) n
  = if decide (fl_processFlagName fl name = fl_processFlagName fl n)
    then Some (mkVal FlagToggle "") else GetFlag fl n.
Proof. unfold GetFlag at 1, SetToggle. simpl. autorewrite with flags. by rewrite lookup_insert. Qed.
Lemma GetFlag_Delete fl name n :
  GetFlag (Delete fl name) n
  = if decide (fl_processFlagName fl name = fl_processFlagName fl n) then None else GetFlag fl n.
Proof. unfold GetFlag, Delete. simpl. by rewrite lookup_delete. Qed.
Lemma process_SetOption fl name data : fl_processFlagName (SetOption fl name data) = fl_processFlagName fl.
Proof. unfold SetOption. simpl. by autorewrite with flags. Qed.
Lemma process_SetToggle fl name : fl_processFlagName (SetToggle fl name) = fl_processFlagName fl.
Proof. unfold SetToggle. simpl. by autorewrite with flags. Qed.
Lemma process_Delete fl name : fl_processFlagName (Delete fl name) = fl_processFlagName fl.
Proof. done. Qed.

#[export] Hint Rewrite GetFlag_SetOption GetFlag_SetToggle GetFlag_Delete
  process_SetOption process_SetToggle process_Delete : getflag.

(** setting an option makes it readable under every spelling of its name,
    leaves the other flags alone and keeps the position of a flag that was there;
    deleting it removes it, and only it. *)
Theorem SetOption_Delete_spec fl name data :
  reachable fl -> str_mem "=" name = false ->
  let p := fl_processFlagName fl in
  (forall n, GetFlag (SetOption fl name data) n
     = if decide (p name = p n) then Some (mkVal FlagOption data) else GetFlag fl n) /\
  fl_keys (SetOption fl name data)
     = (if decide (p name ∈ fl_keys fl) then fl_keys fl else fl_keys fl ++ [p name]) /\
  (forall n, GetFlag (Delete fl name) n
     = if decide (p name = p n) then None else GetFlag fl n) /\
  fl_keys (Delete fl name) = filter (.≠ p name) (fl_keys fl).
Proof.
  intros [Hwf Hg]%reachable_wf Hs p. split_and!.
  - intros n. apply GetFlag_SetOption.
  - unfold SetOption; simpl. rewrite recordFlag_keys. unfold p.
    pose proof (wf_dom _ Hwf (fl_processFlagName fl name)). repeat case_decide; tauto.
  - intros n. apply GetFlag_Delete.
  - unfold Delete. simpl. apply (forgetFlag_keys fl (fl_processFlagName fl name)).
Qed.

Lemma SetOption_Delete_spec_witness :
  let fl := ParseArgvKeyValue example_args [WithFlagNormalization] in
  GetFlag (SetOption fl "--v" "9") "-v" = Some (mkVal FlagOption "9") /\
  fl_keys (Delete fl "--toggle") = ["-v"; "--opt"].
Proof.
  intros fl. split.
  - destruct (SetOption_Delete_spec fl "--v" "9" example_reachable eq_refl) as (Hget & _).
    rewrite Hget. reflexivity.
  - destruct (SetOption_Delete_spec fl "--toggle" "" example_reachable eq_refl) as (_ & _ & _ & ->).
    reflexivity.
Defined.

(** ** Round trip *)

Lemma parse_arg_toString fl k v :
  str_mem "=" k = false -> fl_processFlagName fl k = k ->
  (val_Kind v = FlagToggle -> val_Data v = "") ->
  parse_arg fl (toString k v) = set_val (recordFlag fl k) k v.
Proof.
  intros Hs Hp Ht. unfold parse_arg, toString. destruct v as [[] d]; simpl in *.
  - rewrite split2_no_sep by done. unfold SetToggle. by rewrite Hp, Ht.
  - change ("=" +:+ d) with (String "=" d). rewrite split2_app by done. unfold SetOption. by rewrite Hp.
Qed.

Lemma fold_parse_toString (args : gmap string Val) l c (m : gmap string Val) ks f :
  NoDup l -> (forall k, k ∈ l -> m !! k = None) ->
  (forall k, k ∈ l -> str_mem "=" k = false /\ f k = k) ->
  (forall k v, args !! k = Some v -> val_Kind v = FlagToggle -> val_Data v = "") ->
  fold_left parse_arg ((fun k => toString k (default (mkVal FlagToggle "") (args !! k))) <$> l)
    (mkFlags c m ks f)
  = mkFlags c (fold_left (fun m k => <[k := default (mkVal FlagToggle "") (args !! k)]> m) l m) (ks ++ l) f.
Proof.
  revert m ks. induction l as [|k l IH]; intros m ks Hnd Hm Hk Ht; simpl; [by rewrite app_nil_r|].
  apply NoDup_cons in Hnd as [Hkl Hnd]. destruct (Hk k ltac:(by left)) as [Hs Hp].
  rewrite parse_arg_toString; [|done|done|].
  - unfold recordFlag; simpl. rewrite (Hm k) by (by left). unfold set_val; simpl.
    rewrite IH; [by rewrite <-app_assoc|done| |by intros; apply Hk; right|done].
    intros k' Hk'. rewrite lookup_insert_ne by (intros ->; done). apply Hm. by right.
  - intros Hkind. destruct (args !! k) eqn:E; simpl in *; eauto.
Qed.

Lemma fold_insert_lookup (args m : gmap string Val) l k :
  NoDup l ->
  fold_left (fun m k => <[k := default (mkVal FlagToggle "") (args !! k)]> m) l m !! k
  = if decide (k ∈ l) then Some (default (mkVal FlagToggle "") (args !! k)) else m !! k.
Proof.
  revert m. induction l as [|x l IH]; intros m Hnd; simpl; [done|].
  apply NoDup_cons in Hnd as [Hx Hnd]. rewrite IH by done.
  destruct (decide (k ∈ l)); [by rewrite decide_True by set_solver|].
  destruct (decide (x = k)) as [->|Hne].
  - rewrite lookup_insert_eq. by rewrite decide_True by set_solver.
  - rewrite lookup_insert_ne by done. by rewrite decide_False by set_solver.
Qed.

Lemma Args_fmap fl :
  Args fl = (fun k => toString k (default (mkVal FlagToggle "") (fl_args fl !! k))) <$> fl_keys fl.
Proof.
  unfold Args. set (f := fun k => toString k (default (mkVal FlagToggle "") (fl_args fl !! k))).
  assert (forall l acc, fold_left (fun args name => args ++ [f name]) l acc = acc ++ (f <$> l)) as Hg;
    [|by apply Hg].
  induction l as [|k l IH]; intros acc; simpl; [by rewrite app_nil_r|]. by rewrite IH, <-app_assoc.
Qed.

Lemma Args_parse fl :
  wf_flags fl ->
  fold_left parse_arg (Args fl) (mkFlags (fl_command fl) ∅ [] (fl_processFlagName fl)) = fl.
Proof.
  intros [Hnd Hdom Hcan Hsep Htog]. rewrite Args_fmap.
  rewrite fold_parse_toString; [|done|done|by auto|done].
  destruct fl as [c m ks f]; simpl in *. f_equal. apply map_eq. intros k.
  rewrite fold_insert_lookup by done. case_decide as Hk.
  - apply Hdom in Hk as [v ->]. done.
  - rewrite lookup_empty. symmetry. apply eq_None_not_Some. by rewrite <-Hdom.
Qed.

(** C35: printing a flag set and parsing the result gives the flag set back,
    names, order and values, so a rewritten command line means what was set. *)
Theorem Args_roundtrip fl :
  reachable fl ->
  fold_left parse_arg (Args fl) (mkFlags (fl_command fl) ∅ [] (fl_processFlagName fl)) = fl.
Proof. intros [Hwf _]%reachable_wf. by apply Args_parse. Qed.

Lemma Args_roundtrip_witness :
  let fl := ParseArgvKeyValue example_args [WithFlagNormalization] in
  fold_left parse_arg (Args fl) (mkFlags (fl_command fl) ∅ [] (fl_processFlagName fl)) = fl /\
  Args fl = ["-v=2"; "--toggle"; "--opt=a=b"].
Proof. intros fl. split; [apply (Args_roundtrip fl example_reachable)|reflexivity]. Defined.
