(* ===== verification/Workload.v ===== *)
(** * Pods, containers and daemon sets

    The parts of the workload objects the operator reads and writes, the
    finders of pkg/numaresourcesoperator/objectupdate, the environment-variable
    helpers of pkg/objectupdate/envvar, the container iterator of pkg/iter and
    the log-level update of pkg/loglevel. Fields the code only carries along are
    kept in opaque [*_other] fields. A pointer to an element of a slice is its
    index, and a write through it an [alter] at that index. *)
From S2P Require Import Prelude GoErrors Meta FlagCodec.

(** ** Data *)

Record EnvVar := mkEnvVar { env_Name : string; env_Value : string; env_other : string }.

Record ContainerPort := mkContainerPort { cp_Name : string; cp_ContainerPort : Z; cp_other : string }.

Record VolumeMount := mkVolumeMount {
  vm_Name : string; vm_MountPath : string; vm_ReadOnly : bool; vm_other : string }.

Inductive VolumeSource :=
| VSEmptyDir (medium : string) (sizeLimit : Z)
| VSSecret (secretName : string)
| VSConfigMap (name : string) (optional : option bool)
| VSHostPath (path : string) (type : string)
| VSOther (rest : string).

Record Volume := mkVolume { vol_Name : string; vol_Source : VolumeSource }.

Record Capabilities := mkCapabilities { cap_Add : list string; cap_Drop : list string }.

Record SELinuxOptions := mkSELinuxOptions {
  se_User : string; se_Role : string; se_Type : string; se_Level : string }.

Record SecurityContext := mkSecurityContext {
  sc_Capabilities : option Capabilities;
  sc_Privileged : option bool;
  sc_SELinuxOptions : option SELinuxOptions;
  sc_RunAsUser : option Z;
  sc_RunAsGroup : option Z;
  sc_AllowPrivilegeEscalation : option bool;
  sc_other : string }.

Definition emptySecurityContext : SecurityContext :=
  mkSecurityContext None None None None None None "".

(** Quantities are their canonical text. *)
Record ResourceRequirements := mkResourceRequirements {
  rr_Requests : gmap string string; rr_Limits : gmap string string }.

Definition emptyResources : ResourceRequirements := mkResourceRequirements ∅ ∅.

Record Container := mkContainer {
  cnt_Name : string;
  cnt_Image : string;
  cnt_ImagePullPolicy : string;
  cnt_Command : list string;
  cnt_Args : list string;
  cnt_Env : list EnvVar;
  cnt_Ports : list ContainerPort;
  cnt_VolumeMounts : list VolumeMount;
  cnt_SecurityContext : option SecurityContext;
  cnt_TerminationMessagePolicy : string;
  cnt_Resources : ResourceRequirements;
  cnt_other : string }.

(** The pod anti-affinity the operator sets, or some other affinity. *)
Inductive Affinity :=
| PodAntiAffinityOnHost (matchLabels : gmap string string) (topologyKey : string)
| AffinityOther (rest : string).

(** The constraint the operator sets, or some other constraint. *)
Inductive TopologySpreadConstraint :=
| SpreadOnHost (matchLabels : gmap string string) (maxSkew : Z) (topologyKey whenUnsatisfiable : string)
    (matchLabelKeys : list string)
| SpreadOther (rest : string).

Record PodSpec := mkPodSpec {
  ps_NodeSelector : option (gmap string string);
  ps_InitContainers : list Container;
  ps_Containers : list Container;
  ps_Volumes : list Volume;
  ps_Affinity : option Affinity;
  ps_Tolerations : list Toleration;
  ps_PriorityClassName : string;
  ps_TopologySpreadConstraints : list TopologySpreadConstraint;
  ps_ServiceAccountName : string;
  ps_other : string }.

Record PodTemplateSpec := mkPodTemplateSpec {
  pt_Labels : option (gmap string string);
  pt_Annotations : option (gmap string string);
  pt_Spec : PodSpec }.

Record UpdateStrategy := mkUpdateStrategy {
  us_Type : string; us_MaxUnavailable : option string; us_other : string }.

Record DaemonSetStatus := mkDaemonSetStatus {
  dss_DesiredNumberScheduled : Z; dss_CurrentNumberScheduled : Z; dss_NumberReady : Z;
  dss_other : string }.

Record DaemonSetSpec := mkDaemonSetSpec {
  dsp_UpdateStrategy : UpdateStrategy; dsp_Template : PodTemplateSpec; dsp_other : string }.

Record DaemonSet := mkDaemonSet {
  ds_Meta : ObjectMeta; ds_Spec : DaemonSetSpec; ds_Status : DaemonSetStatus }.

#[global] Instance EnvVar_eq_dec : EqDecision EnvVar. Proof. solve_decision. Defined.
#[global] Instance ContainerPort_eq_dec : EqDecision ContainerPort. Proof. solve_decision. Defined.
#[global] Instance VolumeMount_eq_dec : EqDecision VolumeMount. Proof. solve_decision. Defined.
#[global] Instance VolumeSource_eq_dec : EqDecision VolumeSource. Proof. solve_decision. Defined.
#[global] Instance Volume_eq_dec : EqDecision Volume. Proof. solve_decision. Defined.
#[global] Instance Capabilities_eq_dec : EqDecision Capabilities. Proof. solve_decision. Defined.
#[global] Instance SELinuxOptions_eq_dec : EqDecision SELinuxOptions. Proof. solve_decision. Defined.
#[global] Instance SecurityContext_eq_dec : EqDecision SecurityContext. Proof. solve_decision. Defined.
#[global] Instance ResourceRequirements_eq_dec : EqDecision ResourceRequirements. Proof. solve_decision. Defined.
#[global] Instance Container_eq_dec : EqDecision Container. Proof. solve_decision. Defined.
#[global] Instance Affinity_eq_dec : EqDecision Affinity. Proof. solve_decision. Defined.
#[global] Instance TopologySpreadConstraint_eq_dec : EqDecision TopologySpreadConstraint. Proof. solve_decision. Defined.
#[global] Instance PodSpec_eq_dec : EqDecision PodSpec. Proof. solve_decision. Defined.
#[global] Instance PodTemplateSpec_eq_dec : EqDecision PodTemplateSpec. Proof. solve_decision. Defined.
#[global] Instance UpdateStrategy_eq_dec : EqDecision UpdateStrategy. Proof. solve_decision. Defined.
#[global] Instance DaemonSetStatus_eq_dec : EqDecision DaemonSetStatus. Proof. solve_decision. Defined.
#[global] Instance DaemonSetSpec_eq_dec : EqDecision DaemonSetSpec. Proof. solve_decision. Defined.
#[global] Instance DaemonSet_eq_dec : EqDecision DaemonSet. Proof. solve_decision. Defined.

(** ** Field updates *)

Definition cnt_set_Image (image policy : string) (c : Container) : Container :=
  mkContainer (cnt_Name c) image policy (cnt_Command c) (cnt_Args c) (cnt_Env c) (cnt_Ports c)
    (cnt_VolumeMounts c) (cnt_SecurityContext c) (cnt_TerminationMessagePolicy c) (cnt_Resources c) (cnt_other c).
Definition cnt_set_Command (cmd args : list string) (c : Container) : Container :=
  mkContainer (cnt_Name c) (cnt_Image c) (cnt_ImagePullPolicy c) cmd args (cnt_Env c) (cnt_Ports c)
    (cnt_VolumeMounts c) (cnt_SecurityContext c) (cnt_TerminationMessagePolicy c) (cnt_Resources c) (cnt_other c).
Definition cnt_set_Args (args : list string) (c : Container) : Container :=
  cnt_set_Command (cnt_Command c) args c.
Definition cnt_set_Env (env : list EnvVar) (c : Container) : Container :=
  mkContainer (cnt_Name c) (cnt_Image c) (cnt_ImagePullPolicy c) (cnt_Command c) (cnt_Args c) env
    (cnt_Ports c) (cnt_VolumeMounts c) (cnt_SecurityContext c) (cnt_TerminationMessagePolicy c) (cnt_Resources c) (cnt_other c).
Definition cnt_set_Ports (ports : list ContainerPort) (c : Container) : Container :=
  mkContainer (cnt_Name c) (cnt_Image c) (cnt_ImagePullPolicy c) (cnt_Command c) (cnt_Args c) (cnt_Env c)
    ports (cnt_VolumeMounts c) (cnt_SecurityContext c) (cnt_TerminationMessagePolicy c) (cnt_Resources c) (cnt_other c).
Definition cnt_set_VolumeMounts (vms : list VolumeMount) (c : Container) : Container :=
  mkContainer (cnt_Name c) (cnt_Image c) (cnt_ImagePullPolicy c) (cnt_Command c) (cnt_Args c) (cnt_Env c)
    (cnt_Ports c) vms (cnt_SecurityContext c) (cnt_TerminationMessagePolicy c) (cnt_Resources c) (cnt_other c).
Definition cnt_set_SecurityContext (sc : option SecurityContext) (c : Container) : Container :=
  mkContainer (cnt_Name c) (cnt_Image c) (cnt_ImagePullPolicy c) (cnt_Command c) (cnt_Args c) (cnt_Env c)
    (cnt_Ports c) (cnt_VolumeMounts c) sc (cnt_TerminationMessagePolicy c) (cnt_Resources c) (cnt_other c).
Definition cnt_set_TerminationMessagePolicy (p : string) (c : Container) : Container :=
  mkContainer (cnt_Name c) (cnt_Image c) (cnt_ImagePullPolicy c) (cnt_Command c) (cnt_Args c) (cnt_Env c)
    (cnt_Ports c) (cnt_VolumeMounts c) (cnt_SecurityContext c) p (cnt_Resources c) (cnt_other c).
Definition cnt_set_Resources (rr : ResourceRequirements) (c : Container) : Container :=
  mkContainer (cnt_Name c) (cnt_Image c) (cnt_ImagePullPolicy c) (cnt_Command c) (cnt_Args c) (cnt_Env c)
    (cnt_Ports c) (cnt_VolumeMounts c) (cnt_SecurityContext c) (cnt_TerminationMessagePolicy c) rr (cnt_other c).

Definition ps_set_Containers (cs : list Container) (p : PodSpec) : PodSpec :=
  mkPodSpec (ps_NodeSelector p) (ps_InitContainers p) cs (ps_Volumes p) (ps_Affinity p)
    (ps_Tolerations p) (ps_PriorityClassName p) (ps_TopologySpreadConstraints p) (ps_ServiceAccountName p) (ps_other p).
Definition ps_set_Volumes (vs : list Volume) (p : PodSpec) : PodSpec :=
  mkPodSpec (ps_NodeSelector p) (ps_InitContainers p) (ps_Containers p) vs (ps_Affinity p)
    (ps_Tolerations p) (ps_PriorityClassName p) (ps_TopologySpreadConstraints p) (ps_ServiceAccountName p) (ps_other p).
Definition ps_set_Affinity (a : option Affinity) (p : PodSpec) : PodSpec :=
  mkPodSpec (ps_NodeSelector p) (ps_InitContainers p) (ps_Containers p) (ps_Volumes p) a
    (ps_Tolerations p) (ps_PriorityClassName p) (ps_TopologySpreadConstraints p) (ps_ServiceAccountName p) (ps_other p).
Definition ps_set_Tolerations (ts : list Toleration) (p : PodSpec) : PodSpec :=
  mkPodSpec (ps_NodeSelector p) (ps_InitContainers p) (ps_Containers p) (ps_Volumes p) (ps_Affinity p)
    ts (ps_PriorityClassName p) (ps_TopologySpreadConstraints p) (ps_ServiceAccountName p) (ps_other p).
Definition ps_set_NodeSelector (s : option (gmap string string)) (p : PodSpec) : PodSpec :=
  mkPodSpec s (ps_InitContainers p) (ps_Containers p) (ps_Volumes p) (ps_Affinity p)
    (ps_Tolerations p) (ps_PriorityClassName p) (ps_TopologySpreadConstraints p) (ps_ServiceAccountName p) (ps_other p).

Definition ps_set_PriorityClassName (n : string) (p : PodSpec) : PodSpec :=
  mkPodSpec (ps_NodeSelector p) (ps_InitContainers p) (ps_Containers p) (ps_Volumes p) (ps_Affinity p)
    (ps_Tolerations p) n (ps_TopologySpreadConstraints p) (ps_ServiceAccountName p) (ps_other p).
Definition ps_set_TopologySpreadConstraints (cs : list TopologySpreadConstraint) (p : PodSpec) : PodSpec :=
  mkPodSpec (ps_NodeSelector p) (ps_InitContainers p) (ps_Containers p) (ps_Volumes p) (ps_Affinity p)
    (ps_Tolerations p) (ps_PriorityClassName p) cs (ps_ServiceAccountName p) (ps_other p).
Definition ps_set_ServiceAccountName (n : string) (p : PodSpec) : PodSpec :=
  mkPodSpec (ps_NodeSelector p) (ps_InitContainers p) (ps_Containers p) (ps_Volumes p) (ps_Affinity p)
    (ps_Tolerations p) (ps_PriorityClassName p) (ps_TopologySpreadConstraints p) n (ps_other p).

Definition ds_PodSpec (ds : DaemonSet) : PodSpec := pt_Spec (dsp_Template (ds_Spec ds)).
Definition ds_Containers (ds : DaemonSet) : list Container := ps_Containers (ds_PodSpec ds).

Definition ds_set_Template (t : PodTemplateSpec) (ds : DaemonSet) : DaemonSet :=
  mkDaemonSet (ds_Meta ds)
    (mkDaemonSetSpec (dsp_UpdateStrategy (ds_Spec ds)) t (dsp_other (ds_Spec ds))) (ds_Status ds).
Definition ds_map_PodSpec (f : PodSpec -> PodSpec) (ds : DaemonSet) : DaemonSet :=
  let t := dsp_Template (ds_Spec ds) in
  ds_set_Template (mkPodTemplateSpec (pt_Labels t) (pt_Annotations t) (f (pt_Spec t))) ds.
Definition ds_map_Annotations (f : option (gmap string string) -> option (gmap string string))
  (ds : DaemonSet) : DaemonSet :=
  let t := dsp_Template (ds_Spec ds) in
  ds_set_Template (mkPodTemplateSpec (pt_Labels t) (f (pt_Annotations t)) (pt_Spec t)) ds.
Definition ds_set_UpdateStrategy (u : UpdateStrategy) (ds : DaemonSet) : DaemonSet :=
  mkDaemonSet (ds_Meta ds) (mkDaemonSetSpec u (dsp_Template (ds_Spec ds)) (dsp_other (ds_Spec ds))) (ds_Status ds).
Definition ds_set_Name (name : string) (ds : DaemonSet) : DaemonSet :=
  let m := ds_Meta ds in
  mkDaemonSet (mkObjectMeta name (om_Namespace m) (om_SelfLink m) (om_UID m) (om_ResourceVersion m)
                 (om_Generation m) (om_CreationTimestamp m) (om_Labels m) (om_Annotations m)
                 (om_OwnerReferences m) (om_Finalizers m) (om_ManagedFields m))
    (ds_Spec ds) (ds_Status ds).

(** Writing through the pointer to container [i]. *)
Definition ps_alter (i : nat) (f : Container -> Container) (p : PodSpec) : PodSpec :=
  ps_set_Containers (alter f i (ps_Containers p)) p.
Definition ds_alter (i : nat) (f : Container -> Container) (ds : DaemonSet) : DaemonSet :=
  ds_map_PodSpec (ps_alter i f) ds.

(** ** Finders (pkg/numaresourcesoperator/objectupdate/find.go) *)

Fixpoint find_index {A} (P : A -> Prop) `{!forall x, Decision (P x)} (l : list A) : option nat :=
  match l with
  | [] => None
  | x :: l' => if decide (P x) then Some 0%nat else S <$> find_index P l'
  end.

Definition FindContainerByName (conts : list Container) (name : string) : option nat :=
  find_index (fun c => cnt_Name c = name) conts.

Definition FindContainerEnvVarByName (envs : list EnvVar) (name : string) : option nat :=
  find_index (fun e => env_Name e = name) envs.

Definition FindContainerPortByName (ports : list ContainerPort) (name : string) : option nat :=
  find_index (fun p => cp_Name p = name) ports.

(** ** Environment variables (pkg/objectupdate/envvar) *)

Module envvar.
Definition PFPStatusDump : string := "PFP_STATUS_DUMP".
Definition PFPStatusDirDefault : string := "/run/pfpstatus".

Definition FindByName (envs : list EnvVar) (name : string) : option nat :=
  find_index (fun e => env_Name e = name) envs.

Definition SetForContainer (cnt : Container) (name value : string) : Container :=
  match FindByName (cnt_Env cnt) name with
  | Some i =>
      cnt_set_Env (alter (fun e => mkEnvVar (env_Name e) value (env_other e)) i (cnt_Env cnt)) cnt
  | None => cnt_set_Env (cnt_Env cnt ++ [mkEnvVar name value ""]) cnt
  end.

Definition DeleteFromContainer (cnt : Container) (name : string) : Container :=
  cnt_set_Env
    (fold_left (fun envs env => if decide (env_Name env = name) then envs else envs ++ [env])
       (cnt_Env cnt) []) cnt.
End envvar.

(** ** Log levels (pkg/loglevel) *)

Module loglevel.
Definition ToKlog (level : string) : Z :=
  if decide (level = "Normal") then 2
  else if decide (level = "Debug") then 4
  else if decide (level = "Trace") then 6
  else if decide (level = "TraceAll") then 8
  else 2%Z.

(** The first container when no name is given; it is looked at in any case. *)
Definition UpdatePodSpec (podSpec : PodSpec) (cntName level : string) : go (PodSpec * option error) :=
  match ps_Containers podSpec with
  | [] => Panic (IndexOutOfRange "podSpec.Containers")
  | _ =>
      match (if decide (cntName = "") then Some 0%nat else FindContainerByName (ps_Containers podSpec) cntName) with
      | None => Ret (podSpec, Some (ErrNew ("cannot find container data for " +:+ quote cntName)))
      | Some i =>
          let kLog := ToKlog level in
          Ret (ps_alter i (fun cnt =>
             let flags := ParseArgvKeyValue (cnt_Args cnt) [WithFlagNormalization] in
             cnt_set_Args (Argv (SetOption flags "-v" (pretty kLog))) cnt) podSpec, None)
      end
  end.
End loglevel.

(** ** Lemmas *)

Lemma find_index_Some {A} (P : A -> Prop) `{!forall x, Decision (P x)} (l : list A) i :
  find_index P l = Some i ->
  exists x, l !! i = Some x /\ P x /\ forall j y, (j < i)%nat -> l !! j = Some y -> ~ P y.
Proof.
  revert i. induction l as [|x l IH]; intros i; simpl; [done|]. case_decide as HP.
  - intros [= <-]. exists x. split; [done|]. split; [done|]. intros. lia.
  - intros (j & Hj & ->)%fmap_Some. destruct (IH _ Hj) as (y & Hy & HPy & Hlt).
    exists y. split; [done|]. split; [done|]. intros [|k] z Hk Hz; simpl in Hz; [congruence|].
    apply (Hlt k); [lia|done].
Qed.

Lemma find_index_None {A} (P : A -> Prop) `{!forall x, Decision (P x)} (l : list A) :
  find_index P l = None <-> Forall (fun x => ~ P x) l.
Proof.
  induction l as [|x l IH]; simpl; [by split|]. rewrite Forall_cons, <-IH.
  case_decide; [naive_solver|]. destruct (find_index P l); naive_solver.
Qed.

(** Replacing the element a finder pointed at by one that still matches leaves
    the finder where it was. *)
Lemma find_index_alter {A} (P : A -> Prop) `{!forall x, Decision (P x)} (f : A -> A) (l : list A) i j :
  (forall x, P (f x) <-> P x) ->
  find_index P (alter f j l) = Some i <-> find_index P l = Some i.
Proof.
  intros Hf. enough (find_index P (alter f j l) = find_index P l) as -> by done.
  revert j. induction l as [|x l IH]; intros [|j]; simpl; [done..| |].
  - specialize (Hf x). repeat case_decide; tauto.
  - case_decide; [done|]. rewrite <-(IH j). done.
Qed.

Lemma find_index_snoc {A} (P : A -> Prop) `{!forall x, Decision (P x)} (l : list A) x :
  Forall (fun y => ~ P y) l -> P x -> find_index P (l ++ [x]) = Some (length l).
Proof.
  induction 1 as [|y l Hy _ IH]; intros HP; simpl; [by rewrite decide_True|].
  rewrite decide_False by done. by rewrite IH.
Qed.

Lemma alter_alter {A} (f g : A -> A) i (l : list A) : alter f i (alter g i l) = alter (f ∘ g) i l.
Proof. apply list_alter_alter_eq. Qed.

Lemma alter_at {A} (f g : A -> A) i (l : list A) x :
  l !! i = Some x -> f x = g x -> alter f i l = alter g i l.
Proof. intros Hx Hfg. apply list_alter_ext; [|done]. intros y Hy. simplify_eq. done. Qed.

Lemma ds_Containers_alter i f ds : ds_Containers (ds_alter i f ds) = alter f i (ds_Containers ds).
Proof. done. Qed.
