(* ===== verification/RteUpdate.v ===== *)
(** * Updates of the exporter daemon set
    (pkg/objectupdate/rte, pkg/numaresourcesoperator/objectupdate/rte)

    Each function writes the daemon set in place; the model returns the new
    daemon set together with the error, if any. *)
From S2P Require Import Prelude GoErrors Meta ApiV1 FlagCodec Workload.

Definition MainContainerName : string := "resource-topology-exporter".
Definition HelperContainerName : string := "shared-pool-container".
Definition pfpStatusMountName : string := "run-pfpstatus".
Definition pfpStatusDir : string := "/run/pfpstatus".
Definition ConfigMapAnnotation : string := "configmap.hash".

Module selinux.
Definition RTEContextType : string := "container_device_plugin_t".
Definition RTEContextTypeLegacy : string := "rte.process".
Definition RTEContextLevel : string := "s0".
End selinux.

(** [objtls.Settings] *)
Record Settings := mkSettings {
  tls_MinVersion : string; tls_CipherSuites : string; tls_CurvePreferences : string }.

Definition err_no_container (name : string) : error :=
  ErrNew ("cannot find container data for " +:+ quote name).

(** ** Security context, image, helper container *)

Definition hardened (sc : option SecurityContext) : SecurityContext :=
  let sc := default emptySecurityContext sc in
  mkSecurityContext (Some (mkCapabilities [] ["ALL"])) (Some false) (sc_SELinuxOptions sc)
    (Some 0%Z) (Some 0%Z) (Some false) (sc_other sc).

Definition DaemonSetSecurityContext (ds : DaemonSet) : DaemonSet * option error :=
  match FindContainerByName (ds_Containers ds) MainContainerName with
  | None => (ds, Some (err_no_container MainContainerName))
  | Some i =>
      (ds_alter i (fun cnt => cnt_set_SecurityContext (Some (hardened (cnt_SecurityContext cnt))) cnt) ds, None)
  end.

Definition DaemonSetUserImageSettings (ds : DaemonSet) (userImageSpec builtinImageSpec builtinPullPolicy : string)
  : DaemonSet * option error :=
  match FindContainerByName (ds_Containers ds) MainContainerName with
  | None => (ds, Some (err_no_container MainContainerName))
  | Some i =>
      let finish ds :=
        let '(ds, err) := DaemonSetSecurityContext ds in
        match err with
        | Some err => (ds, Some (ErrWrap "error while changing container security context: " err))
        | None => (ds, None)
        end in
      if decide (userImageSpec <> "")
      then finish (ds_alter i (fun cnt => cnt_set_Image userImageSpec (cnt_ImagePullPolicy cnt) cnt) ds)
      else if decide (builtinImageSpec = "")
      then (ds, Some (ErrNew "missing built-in image spec, no user image provided"))
      else finish (ds_alter i (cnt_set_Image builtinImageSpec builtinPullPolicy) ds)
  end.

Definition DaemonSetPauseContainerSettings (ds : DaemonSet) : DaemonSet * option error :=
  match FindContainerByName (ds_Containers ds) MainContainerName with
  | None => (ds, Some (err_no_container MainContainerName))
  | Some rte =>
      match FindContainerByName (ds_Containers ds) HelperContainerName, ds_Containers ds !! rte with
      | Some i, Some rteCnt =>
          (ds_alter i (fun cnt =>
             cnt_set_Command ["/bin/sh"; "-c"; "--"] ["while true; do sleep 30s; done"]
               (cnt_set_Image (cnt_Image rteCnt) (cnt_ImagePullPolicy rteCnt) cnt)) ds, None)
      | _, _ => (ds, Some (err_no_container HelperContainerName))
      end
  end.

Definition DaemonSetAffinitySettings (ds : DaemonSet) (labels : gmap string string)
  : DaemonSet * option error :=
  if decide (labels = ∅) then (ds, Some (ErrNew "no labels provided for PodAffinity"))
  else (ds_map_PodSpec (ps_set_Affinity (Some (PodAntiAffinityOnHost labels "kubernetes.io/hostname"))) ds, None).

Definition DaemonSetRolloutSettings (ds : DaemonSet) : DaemonSet :=
  ds_set_UpdateStrategy
    (mkUpdateStrategy "RollingUpdate" (Some "25%") "") ds.

Definition DaemonSetHashAnnotation (ds : DaemonSet) (cmHash : string) : DaemonSet :=
  ds_map_Annotations (fun a => Some (<[ConfigMapAnnotation := cmHash]> (map_of a))) ds.

Definition DaemonSetTolerations (ds : DaemonSet) (userTolerations : list Toleration) : DaemonSet :=
  if decide (userTolerations = []) then ds
  else ds_map_PodSpec (ps_set_Tolerations (CloneTolerations userTolerations)) ds.

Definition AllContainersTerminationMessagePolicy (ds : DaemonSet) : DaemonSet :=
  ds_map_PodSpec (fun p =>
    ps_set_Containers (cnt_set_TerminationMessagePolicy "FallbackToLogsOnError" <$> ps_Containers p) p) ds.

(** ** Reading the node-group configuration *)

Definition isPodFingerprintEnabled (conf : NodeGroupConfig) : bool * string :=
  let mode := default PodsFingerprintingEnabledExclusiveResources (ngc_PodsFingerprinting conf) in
  if decide (mode = PodsFingerprintingEnabledExclusiveResources)
  then (true, "with-exclusive-resources")
  else (bool_decide (mode = PodsFingerprintingEnabled), "all").

Definition isNotifyFileEnabled (conf : NodeGroupConfig) : bool :=
  bool_decide (default InfoRefreshPeriodic (ngc_InfoRefreshMode conf) <> InfoRefreshPeriodic).

Definition isPeriodicUpdateRequired (conf : NodeGroupConfig) : bool :=
  bool_decide (default InfoRefreshPeriodic (ngc_InfoRefreshMode conf) <> InfoRefreshEvents).

Definition findRefreshPeriod (conf : NodeGroupConfig) : string :=
  Duration.String (default (10 * Duration.Second)%Z (ngc_InfoRefreshPeriod conf)).

Definition isInfoRefreshPauseEnabled (conf : NodeGroupConfig) : bool :=
  bool_decide (default InfoRefreshPauseDisabled (ngc_InfoRefreshPause conf) = InfoRefreshPauseEnabled).

Definition getNUMAPlacementMode (conf : NodeGroupConfig) : NUMAPlacementMode :=
  default NUMAPlacementContainer (ngc_NUMAPlacement conf).

(** ** Arguments *)

(** Set when the value is not empty, delete otherwise. *)
Definition set_or_delete (flags : Flags) (name value : string) : Flags :=
  if decide (value <> "") then SetOption flags name value else Delete flags name.

(** The edits [DaemonSetArgs] makes to the parsed command line. *)
Definition daemonSetFlags (conf : NodeGroupConfig) (metricsTLS : Settings) (flags : Flags) : Flags :=
  let flags := SetOption flags "--metrics-mode" "httptls" in
  let flags := set_or_delete flags "--metrics-tls-min-version" (tls_MinVersion metricsTLS) in
  let flags := set_or_delete flags "--metrics-tls-cipher-suites" (tls_CipherSuites metricsTLS) in
  let flags := set_or_delete flags "--metrics-tls-curve-preferences" (tls_CurvePreferences metricsTLS) in
  let flags := if isInfoRefreshPauseEnabled conf
               then SetToggle flags "--no-publish" else Delete flags "--no-publish" in
  let flags := SetToggle flags "--refresh-node-resources" in
  let flags := if isNotifyFileEnabled conf
               then SetOption flags "--notify-file" "/run/rte/notify" else Delete flags "--notify-file" in
  let flags := if isPeriodicUpdateRequired conf
               then SetOption flags "--sleep-interval" (findRefreshPeriod conf) else flags in
  let '(pfpEnabled, pfpMethod) := isPodFingerprintEnabled conf in
  let flags := if pfpEnabled
               then SetOption (SetToggle flags "--pods-fingerprint") "--pods-fingerprint-method" pfpMethod
               else flags in
  let flags := SetOption flags "--add-nrt-owner" "false" in
  SetOption flags "--numa-placement" (getNUMAPlacementMode conf).

Definition MiB : Z := 1024 * 1024.

(** [AddVolumeMountMemory]: the mounts go to the container, the volumes to the pod. *)
Definition memory_mounts (mountName dirName : string) : list VolumeMount :=
  [mkVolumeMount mountName dirName false "";
   mkVolumeMount "rte-metrics-service-cert" "/etc/secrets/rte/" true ""].
Definition memory_volumes (mountName : string) (sizeMiB : Z) : list Volume :=
  [mkVolume mountName (VSEmptyDir "Memory" sizeMiB);
   mkVolume "rte-metrics-service-cert" (VSSecret "rte-metrics-service-cert")].

Definition AddVolumeMountMemory (podSpec : PodSpec) (i : nat) (mountName dirName : string) (sizeMiB : Z)
  : PodSpec :=
  let podSpec := ps_alter i (fun cnt =>
    cnt_set_VolumeMounts (cnt_VolumeMounts cnt ++ memory_mounts mountName dirName) cnt) podSpec in
  ps_set_Volumes (ps_Volumes podSpec ++ memory_volumes mountName sizeMiB) podSpec.

Definition DaemonSetArgs (ds : DaemonSet) (conf : NodeGroupConfig) (metricsTLS : Settings)
  : DaemonSet * option error :=
  match FindContainerByName (ds_Containers ds) MainContainerName with
  | None => (ds, Some (err_no_container MainContainerName))
  | Some i =>
      let flags := default (mkFlags "" ∅ [] normalizeFlagName)
        ((fun cnt => daemonSetFlags conf metricsTLS (ParseArgvKeyValue (cnt_Args cnt) [WithFlagNormalization]))
           <$> ds_Containers ds !! i) in
      let ds :=
        if fst (isPodFingerprintEnabled conf) then
          ds_alter i (fun cnt => envvar.SetForContainer cnt envvar.PFPStatusDump envvar.PFPStatusDirDefault)
            (ds_map_PodSpec (fun p => AddVolumeMountMemory p i pfpStatusMountName pfpStatusDir (8 * MiB)%Z) ds)
        else ds_alter i (fun cnt => envvar.DeleteFromContainer cnt envvar.PFPStatusDump) ds in
      (ds_alter i (cnt_set_Args (Argv flags)) ds, None)
  end.

(** ** Container configuration and SELinux options
    (pkg/numaresourcesoperator/objectupdate/rte) *)

Definition rteConfigMountName : string := "rte-config-volume".
Definition rteConfigMountPathLegacy : string := "/etc/resource-topology-exporter/".
Definition sccAnnotation : string := "openshift.io/required-scc".

Definition manifests_ContainerConfig (podSpec : PodSpec) (i : nat) (configMapName : string) : PodSpec :=
  let podSpec := ps_alter i (fun cnt =>
    cnt_set_VolumeMounts
      (cnt_VolumeMounts cnt ++ [mkVolumeMount rteConfigMountName rteConfigMountPathLegacy false ""]) cnt) podSpec in
  ps_set_Volumes (ps_Volumes podSpec ++ [mkVolume rteConfigMountName (VSConfigMap configMapName (Some true))]) podSpec.

Definition ContainerConfig (ds : DaemonSet) (name : string) : DaemonSet * option error :=
  match FindContainerByName (ds_Containers ds) MainContainerName with
  | None => (ds, Some (err_no_container MainContainerName))
  | Some i => (ds_map_PodSpec (fun p => manifests_ContainerConfig p i name) ds, None)
  end.

Record SecurityContextOptions := mkSecurityContextOptions {
  sco_SELinuxContextType : string; sco_SecurityContextName : string }.

(** [securityContextForContainer], whose error the caller drops. *)
Definition securityContextForContainer (ds : DaemonSet) (i : nat) (opts : SecurityContextOptions)
  : DaemonSet * option error :=
  if decide (sco_SELinuxContextType opts = "")
  then (ds, Some (ErrNew "missing SELinuxContextType"))
  else
    let ds := ds_alter i (fun cnt =>
      let sc := default emptySecurityContext (cnt_SecurityContext cnt) in
      cnt_set_SecurityContext (Some (mkSecurityContext (sc_Capabilities sc) (sc_Privileged sc)
        (Some (mkSELinuxOptions "" "" (sco_SELinuxContextType opts) selinux.RTEContextLevel))
        (sc_RunAsUser sc) (sc_RunAsGroup sc) (sc_AllowPrivilegeEscalation sc) (sc_other sc))) cnt) ds in
    let ds := if decide (sco_SecurityContextName opts <> "")
              then ds_map_Annotations (fun a => Some (<[sccAnnotation := sco_SecurityContextName opts]> (map_of a))) ds
              else ds in
    (ds, None).

Definition SecurityContextWithOpts (ds : DaemonSet) (opts : SecurityContextOptions) : DaemonSet :=
  match FindContainerByName (ds_Containers ds) MainContainerName with
  | None => ds
  | Some i => fst (securityContextForContainer ds i opts)
  end.

(** ** Rendering the daemon set (pkg/numaresourcesoperator/objectupdate/rte)

    [getImage] is the environment lookup the image override reads. *)

Definition metricsPort : Z := 2112.
Definition metricsPortEnvVarName : string := "METRICS_PORT".
Definition metricsPortContainerPortName : string := "metrics-port".
Definition rteNotifierVolumeName : string := "host-run-rte".
Definition rteKubeletDirVolumeName : string := "host-var-lib-kubelet".
Definition rteNotifierFileName : string := "notify".
Definition hostNotifierDir : string := "/run/rte".
Definition kubeletDataDir : string := "/var/lib/kubelet".

Module images.
Definition ResourceTopologyExporterDefaultImageTag : string :=
  "quay.io/k8stopologyawareschedwg/resource-topology-exporter:v0.19.3".
Definition ResourceTopologyExporterDefaultImageSHA : string :=
  "quay.io/k8stopologyawareschedwg/resource-topology-exporter@sha256:6e9b01d6b18a38909d523082a06f1a626161f58c72fd0a8f17db2dae9f5e14c3".

Definition Defaults (useSHA : bool) : string :=
  if useSHA then ResourceTopologyExporterDefaultImageSHA else ResourceTopologyExporterDefaultImageTag.

Definition GetWithFunc (useSHA : bool) (getImage : string -> option string) : string :=
  default (Defaults useSHA) (getImage "TAS_RESOURCE_EXPORTER_IMAGE").

Definition Get (lookupEnv : string -> option string) : string :=
  GetWithFunc (bool_decide (is_Some (lookupEnv "TAS_IMAGES_USE_SHA"))) lookupEnv.
End images.

(** [options.DaemonSet], less the fields this code does not read; the node
    selector is given by its match labels. *)
Record DaemonSetOptions := mkDaemonSetOptions {
  dso_Verbose : Z; dso_PullIfNotPresent : bool; dso_PFPEnable : bool; dso_NotificationEnable : bool;
  dso_NodeSelector : option (option (gmap string string)); dso_UpdateInterval : Z }.

Definition metricsPortForContainer (portNum : Z) (cnt : Container) : Container :=
  let env :=
    match FindContainerEnvVarByName (cnt_Env cnt) metricsPortEnvVarName with
    | Some i => alter (fun e => mkEnvVar (env_Name e) (pretty portNum) (env_other e)) i (cnt_Env cnt)
    | None => cnt_Env cnt ++ [mkEnvVar metricsPortEnvVarName (pretty portNum) ""]
    end in
  let ports :=
    match FindContainerPortByName (cnt_Ports cnt) metricsPortContainerPortName with
    | Some i => alter (fun p => mkContainerPort (cp_Name p) portNum (cp_other p)) i (cnt_Ports cnt)
    | None => cnt_Ports cnt ++ [mkContainerPort metricsPortContainerPortName portNum ""]
    end in
  cnt_set_Ports ports (cnt_set_Env env cnt).

(** The command-line part of [daemonSetContainerConfig]. *)
Definition containerConfigFlags (plat : platform.Platform) (opts : DaemonSetOptions) (flags : Flags) : Flags :=
  let flags := SetOption flags "-v" (pretty (dso_Verbose opts)) in
  let flags := if decide (0 < dso_UpdateInterval opts)%Z
               then SetOption flags "--sleep-interval" (Duration.String (dso_UpdateInterval opts))
               else Delete flags "--sleep-interval" in
  let flags := if dso_NotificationEnable opts
               then SetOption flags "--notify-file"
                      ("/" +:+ rteNotifierVolumeName +:+ "/" +:+ rteNotifierFileName)
               else flags in
  let flags := SetOption flags "--pods-fingerprint" (if dso_PFPEnable opts then "true" else "false") in
  if decide (plat = platform.Kubernetes)
  then SetOption flags "--kubelet-config-file" ("/" +:+ rteKubeletDirVolumeName +:+ "/config.yaml")
  else flags.

Definition daemonSetContainerConfig (lookupEnv : string -> option string) (podSpec : PodSpec) (i : nat)
  (plat : platform.Platform) (configMapName : string) (opts : DaemonSetOptions) : PodSpec :=
  let podSpec := ps_alter i (metricsPortForContainer metricsPort) podSpec in
  let podSpec := ps_alter i (cnt_set_Image (images.Get lookupEnv)
                   (if dso_PullIfNotPresent opts then "IfNotPresent" else "Always")) podSpec in
  let podSpec := if decide (configMapName <> "")
                 then manifests_ContainerConfig podSpec i configMapName else podSpec in
  let '(vols, mounts) :=
    if dso_NotificationEnable opts
    then ([mkVolume rteNotifierVolumeName (VSHostPath hostNotifierDir "DirectoryOrCreate")],
          [mkVolumeMount rteNotifierVolumeName ("/" +:+ rteNotifierVolumeName) false ""])
    else ([], []) in
  let '(vols, mounts) :=
    if decide (plat = platform.Kubernetes)
    then (vols ++ [mkVolume rteKubeletDirVolumeName (VSHostPath kubeletDataDir "Directory")],
          mounts ++ [mkVolumeMount rteKubeletDirVolumeName ("/" +:+ rteKubeletDirVolumeName) true ""])
    else (vols, mounts) in
  let podSpec := ps_alter i (fun cnt =>
    cnt_set_Args (Argv (containerConfigFlags plat opts
      (ParseArgvKeyValue (cnt_Args cnt) [WithFlagNormalization]))) cnt) podSpec in
  let podSpec := ps_alter i (fun cnt => cnt_set_VolumeMounts (cnt_VolumeMounts cnt ++ mounts) cnt) podSpec in
  ps_set_Volumes (ps_Volumes podSpec ++ vols) podSpec.

(** [DaemonSet] of the renderer. *)
Definition manifests_DaemonSet (lookupEnv : string -> option string) (ds : DaemonSet)
  (plat : platform.Platform) (configMapName : string) (opts : DaemonSetOptions) : DaemonSet :=
  let ds := match dso_NodeSelector opts with
            | Some labels => ds_map_PodSpec (ps_set_NodeSelector labels) ds
            | None => ds
            end in
  match FindContainerByName (ds_Containers ds) MainContainerName with
  | None => ds
  | Some i => ds_map_PodSpec (fun p => daemonSetContainerConfig lookupEnv p i plat configMapName opts) ds
  end.

(** ** Security context constraints *)

Record SecurityContextConstraints := mkSecurityContextConstraints {
  scc_Meta : ObjectMeta; scc_SELinuxType : string; scc_SELinuxOptions : option SELinuxOptions;
  scc_Users : list string; scc_other : string }.

(** The options are dereferenced without a check. *)
Definition SecurityContextConstraint (scc : SecurityContextConstraints) (legacyRTEContext : bool)
  : go SecurityContextConstraints :=
  let! opts := deref "SELinuxContext.SELinuxOptions" (scc_SELinuxOptions scc) in
  let type := if legacyRTEContext then selinux.RTEContextTypeLegacy else selinux.RTEContextType in
  Ret (mkSecurityContextConstraints (scc_Meta scc) (scc_SELinuxType scc)
         (Some (mkSELinuxOptions (se_User opts) (se_Role opts) type (se_Level opts))) (scc_Users scc) (scc_other scc)).
