(* ===== verification/RteUpdateSpec.v ===== *)
(** * What the exporter daemon set ends up with

    Theorems about RteUpdate.v: the arguments the exporter is started with as a
    function of the node-group configuration, the hardening of its container,
    and the parts of the daemon set each update leaves alone. *)
From S2P Require Import Prelude GoErrors Meta ApiV1 FlagCodec Workload RteUpdate.

(** ** What the exporter is told *)

(** The arguments a configuration stands for: [None] where the flag is left as
    it was found, [Some None] where it must be absent. *)
Definition configured_flag (conf : NodeGroupConfig) (tls : Settings) (name : string) : option (option Val) :=
  let opt s := Some (Some (mkVal FlagOption s)) in
  let opt_if s := if decide (s = "") then Some None else opt s in
  let toggle := Some (Some (mkVal FlagToggle "")) in
  let pfp := default PodsFingerprintingEnabledExclusiveResources (ngc_PodsFingerprinting conf) in
  let mode := default InfoRefreshPeriodic (ngc_InfoRefreshMode conf) in
  if decide (name = "--metrics-mode") then opt "httptls"
  else if decide (name = "--metrics-tls-min-version") then opt_if (tls_MinVersion tls)
  else if decide (name = "--metrics-tls-cipher-suites") then opt_if (tls_CipherSuites tls)
  else if decide (name = "--metrics-tls-curve-preferences") then opt_if (tls_CurvePreferences tls)
  else if decide (name = "--no-publish") then
    if decide (ngc_InfoRefreshPause conf = Some InfoRefreshPauseEnabled) then toggle else Some None
  else if decide (name = "--refresh-node-resources") then toggle
  else if decide (name = "--notify-file") then
    if decide (mode = InfoRefreshPeriodic) then Some None else opt "/run/rte/notify"
  else if decide (name = "--sleep-interval") then
    if decide (mode = InfoRefreshEvents) then None
    else opt (Duration.String (default (10 * Duration.Second)%Z (ngc_InfoRefreshPeriod conf)))
  else if decide (name = "--pods-fingerprint") then
    if decide (pfp = PodsFingerprintingEnabledExclusiveResources \/ pfp = PodsFingerprintingEnabled)
    then toggle else None
  else if decide (name = "--pods-fingerprint-method") then
    if decide (pfp = PodsFingerprintingEnabledExclusiveResources) then opt "with-exclusive-resources"
    else if decide (pfp = PodsFingerprintingEnabled) then opt "all"
    else None
  else if decide (name = "--add-nrt-owner") then opt "false"
  else if decide (name = "--numa-placement") then
    opt (default NUMAPlacementContainer (ngc_NUMAPlacement conf))
  else None.

(** The flag sets parsed from a container's arguments, and what edits make of them. *)
Definition container_flags (fl : Flags) : Prop :=
  reachable fl /\ fl_processFlagName fl = normalizeFlagName /\ fl_command fl = "".

Section container_flags.
Implicit Types (fl : Flags) (b : bool).

Lemma cf_parse args : container_flags (ParseArgvKeyValue args [WithFlagNormalization]).
Proof.
  split; [apply reach_parse; repeat constructor|].
  apply (fold_parse_wf args (mkFlags "" ∅ [] normalizeFlagName));
    [apply good_process_normalize|apply empty_wf].
Qed.

Lemma cf_option fl name data :
  container_flags fl -> str_mem "=" name = false -> container_flags (SetOption fl name data).
Proof.
  intros (H1 & H2 & H3) Hs. split; [by apply reach_option|].
  unfold SetOption. simpl. by autorewrite with flags.
Qed.

Lemma cf_toggle fl name :
  container_flags fl -> str_mem "=" name = false -> container_flags (SetToggle fl name).
Proof.
  intros (H1 & H2 & H3) Hs. split; [by apply reach_toggle|].
  unfold SetToggle. simpl. by autorewrite with flags.
Qed.

Lemma cf_delete fl name : container_flags fl -> container_flags (Delete fl name).
Proof. intros (H1 & H2 & H3). split; [by apply reach_delete|done]. Qed.

Lemma cf_set_or_delete fl name data :
  container_flags fl -> str_mem "=" name = false -> container_flags (set_or_delete fl name data).
Proof. intros. unfold set_or_delete. case_decide; [by apply cf_option|by apply cf_delete]. Qed.

Lemma cf_if b fl1 fl2 : container_flags fl1 -> container_flags fl2 -> container_flags (if b then fl1 else fl2).
Proof. by destruct b. Qed.

(** Printing the flags and parsing the arguments again. *)
Lemma Argv_parse fl :
  container_flags fl -> ParseArgvKeyValue (Argv fl) [WithFlagNormalization] = fl.
Proof.
  intros ([Hwf _]%reachable_wf & Hp & Hc). unfold Argv. rewrite Hc, decide_True by done.
  rewrite <-(Args_parse fl Hwf) at 2. by rewrite Hp, Hc.
Qed.
End container_flags.

#[export] Hint Resolve cf_parse cf_option cf_toggle cf_delete cf_set_or_delete cf_if : flags.

Lemma daemonSetFlags_cf conf tls fl : container_flags fl -> container_flags (daemonSetFlags conf tls fl).
Proof.
  intros H. unfold daemonSetFlags. destruct (isPodFingerprintEnabled conf) as [pfp m].
  auto 20 with flags.
Qed.

(** [fl] normalises names and reads [v] under the name [n]; each edit below
    says how the value read changes. *)
Definition reads (n : string) (fl : Flags) (v : option Val) : Prop :=
  fl_processFlagName fl = normalizeFlagName /\ GetFlag fl n = v.

Section reads.
Context (n : string).
Implicit Types (fl : Flags) (v : option Val) (b : bool).

Lemma reads_option fl v k d :
  reads n fl v -> reads n (SetOption fl k d)
    (if decide (normalizeFlagName n = normalizeFlagName k) then Some (mkVal FlagOption d) else v).
Proof.
  intros [Hp <-]. split; [by rewrite process_SetOption|]. rewrite GetFlag_SetOption, Hp.
  repeat case_decide; congruence.
Qed.

Lemma reads_toggle fl v k :
  reads n fl v -> reads n (SetToggle fl k)
    (if decide (normalizeFlagName n = normalizeFlagName k) then Some (mkVal FlagToggle "") else v).
Proof.
  intros [Hp <-]. split; [by rewrite process_SetToggle|]. rewrite GetFlag_SetToggle, Hp.
  repeat case_decide; congruence.
Qed.

Lemma reads_delete fl v k :
  reads n fl v -> reads n (Delete fl k)
    (if decide (normalizeFlagName n = normalizeFlagName k) then None else v).
Proof.
  intros [Hp <-]. split; [done|]. rewrite GetFlag_Delete, Hp. repeat case_decide; congruence.
Qed.

Lemma reads_set_or_delete fl v k d :
  reads n fl v -> reads n (set_or_delete fl k d)
    (if decide (normalizeFlagName n = normalizeFlagName k)
     then (if decide (d = "") then None else Some (mkVal FlagOption d)) else v).
Proof.
  intros H. unfold set_or_delete. destruct (decide (d <> "")) as [Hd|Hd].
  - rewrite (decide_False (P := d = "")) by done. by apply reads_option.
  - rewrite (decide_True (P := d = "")) by (by apply dec_stable). by apply reads_delete.
Qed.

Lemma reads_if b fl1 fl2 v1 v2 :
  reads n fl1 v1 -> reads n fl2 v2 -> reads n (if b then fl1 else fl2) (if b then v1 else v2).
Proof. by destruct b. Qed.

(** Two branches that edit the same flag. *)
Lemma reads_if_at b fl1 fl2 k v1 v2 v :
  reads n fl1 (if decide (normalizeFlagName n = normalizeFlagName k) then v1 else v) ->
  reads n fl2 (if decide (normalizeFlagName n = normalizeFlagName k) then v2 else v) ->
  reads n (if b then fl1 else fl2)
    (if decide (normalizeFlagName n = normalizeFlagName k) then (if b then v1 else v2) else v).
Proof. by destruct b. Qed.

Lemma reads_keep fl k v :
  reads n fl v -> reads n fl (if decide (normalizeFlagName n = normalizeFlagName k) then v else v).
Proof. by case_decide. Qed.
End reads.

(** Runs the first edit of a sequence and forgets how the flags came about. *)
Ltac read_edit :=
  match goal with
  | H : reads ?n ?fl ?v |- GetFlag (let x := ?a in @?b x) ?n = ?r =>
      let H' := fresh in
      eassert (reads n a _) as H' by (first
        [ apply reads_if_at; [first [apply reads_option | apply reads_toggle]; exact H
                             |first [apply reads_delete | apply reads_keep]; exact H]
        | repeat first [exact H | apply reads_set_or_delete | apply reads_if
          | apply reads_option | apply reads_toggle | apply reads_delete]]);
      let t := eval cbv beta in (b a) in
      change (GetFlag t n = r);
      generalize dependent a; clear H; intros ? ?
  end.

Lemma isPodFingerprintEnabled_spec conf :
  let pfp := default PodsFingerprintingEnabledExclusiveResources (ngc_PodsFingerprinting conf) in
  isPodFingerprintEnabled conf
  = if decide (pfp = PodsFingerprintingEnabledExclusiveResources) then (true, "with-exclusive-resources")
    else if decide (pfp = PodsFingerprintingEnabled) then (true, "all") else (false, "all").
Proof.
  unfold isPodFingerprintEnabled. simpl. case_decide; [done|].
  case_decide as E; [by rewrite E|]. by rewrite bool_decide_false.
Qed.

Lemma isInfoRefreshPauseEnabled_spec conf :
  isInfoRefreshPauseEnabled conf = bool_decide (ngc_InfoRefreshPause conf = Some InfoRefreshPauseEnabled).
Proof.
  unfold isInfoRefreshPauseEnabled. apply bool_decide_ext.
  destruct (ngc_InfoRefreshPause conf); simpl; [split; congruence|split; [by intros [=]|by intros [=]]].
Qed.



(** With the name fixed, only the branch the configuration selects is left. *)
Ltac case_flags :=
  repeat match goal with
  | |- context [decide (String ?a ?s = String ?b ?u)] =>
      rewrite (decide_False (P := String a s = String b u)) by discriminate
  end;
  repeat case_decide; simplify_eq; naive_solver.

Lemma daemonSetFlags_get conf tls flags n :
  fl_processFlagName flags = normalizeFlagName ->
  GetFlag (daemonSetFlags conf tls flags) n
  = match configured_flag conf tls (normalizeFlagName n) with
    | Some v => v
    | None => GetFlag flags n
    end.
Proof.
  intros Hp. assert (reads n flags (GetFlag flags n)) as H by done. revert H. clear Hp.
  generalize (GetFlag flags n). intros v0 H. cbv beta delta [daemonSetFlags].
  do 8 read_edit.
  destruct (isPodFingerprintEnabled conf) as [pfpEnabled pfpMethod] eqn:Epfp.
  do 2 read_edit.
  match goal with H : reads _ _ _ |- _ => apply (reads_option _ _ _ "--numa-placement"
    (getNUMAPlacementMode conf)) in H as [_ ->] end.
  rewrite isInfoRefreshPauseEnabled_spec. rewrite isPodFingerprintEnabled_spec in Epfp.
  unfold isNotifyFileEnabled, isPeriodicUpdateRequired, findRefreshPeriod, getNUMAPlacementMode, configured_flag.
  simpl (normalizeFlagName (String _ _)).
  generalize (normalizeFlagName n). intros m. rewrite !bool_decide_not. unfold bool_decide.
  revert Epfp.
  set (pfp := default PodsFingerprintingEnabledExclusiveResources (ngc_PodsFingerprinting conf)).
  set (mode := default InfoRefreshPeriodic (ngc_InfoRefreshMode conf)). clearbody pfp mode.
  intros Epfp.
  repeat lazymatch goal with
  | |- context [decide (m = ?k)] => destruct (decide (m = k)) as [->|]; [solve [case_flags]|]
  end.
  by repeat case_match.
Qed.

(** What [DaemonSetArgs] does to the main container. *)
Definition args_container (conf : NodeGroupConfig) (tls : Settings) (cnt : Container) : Container :=
  let flags := daemonSetFlags conf tls (ParseArgvKeyValue (cnt_Args cnt) [WithFlagNormalization]) in
  let cnt :=
    if fst (isPodFingerprintEnabled conf) then
      envvar.SetForContainer
        (cnt_set_VolumeMounts (cnt_VolumeMounts cnt ++ memory_mounts pfpStatusMountName pfpStatusDir) cnt)
        envvar.PFPStatusDump envvar.PFPStatusDirDefault
    else envvar.DeleteFromContainer cnt envvar.PFPStatusDump in
  cnt_set_Args (Argv flags) cnt.

Lemma DaemonSetArgs_containers ds conf tls i :
  FindContainerByName (ds_Containers ds) MainContainerName = Some i ->
  ds_Containers (fst (DaemonSetArgs ds conf tls)) = alter (args_container conf tls) i (ds_Containers ds)
  /\ snd (DaemonSetArgs ds conf tls) = None.
Proof.
  intros Hi. destruct (find_index_Some _ _ _ Hi) as (c & Hc & _).
  unfold DaemonSetArgs. rewrite Hi, Hc. simpl. split; [|done].
  unfold ds_alter, ds_Containers in *. simpl. destruct (fst (isPodFingerprintEnabled conf)) eqn:E; simpl;
    rewrite !alter_alter; apply (alter_at _ _ _ _ c Hc); simpl; unfold args_container; rewrite E; reflexivity.
Qed.

Lemma SetForContainer_find cnt name value :
  exists k e, envvar.FindByName (cnt_Env (envvar.SetForContainer cnt name value)) name = Some k
    /\ cnt_Env (envvar.SetForContainer cnt name value) !! k = Some e /\ env_Value e = value.
Proof.
  unfold envvar.SetForContainer, envvar.FindByName.
  destruct (find_index _ (cnt_Env cnt)) as [k|] eqn:E; simpl.
  - destruct (find_index_Some _ _ _ E) as (e & He & _). exists k. eexists. split_and!.
    + by apply find_index_alter.
    + rewrite list_lookup_alter_eq, He. done.
    + done.
  - apply find_index_None in E. exists (length (cnt_Env cnt)). eexists. split_and!.
    + by apply find_index_snoc.
    + by apply list_lookup_middle.
    + done.
Qed.

Lemma DeleteFromContainer_env cnt name :
  cnt_Env (envvar.DeleteFromContainer cnt name) = filter (fun e => env_Name e <> name) (cnt_Env cnt).
Proof.
  unfold envvar.DeleteFromContainer. simpl. assert (forall l acc,
    fold_left (fun envs env => if decide (env_Name env = name) then envs else envs ++ [env]) l acc
    = acc ++ filter (fun e => env_Name e <> name) l) as Hg; [|by rewrite Hg].
  induction l as [|e l IH]; intros acc; simpl; [by rewrite app_nil_r|]. rewrite filter_cons, IH.
  repeat case_decide; try done. by rewrite <-app_assoc.
Qed.

Lemma args_container_args conf tls c n :
  let parse c := ParseArgvKeyValue (cnt_Args c) [WithFlagNormalization] in
  GetFlag (parse (args_container conf tls c)) n
  = match configured_flag conf tls (normalizeFlagName n) with
    | Some v => v
    | None => GetFlag (parse c) n
    end.
Proof.
  intros parse. pose proof (cf_parse (cnt_Args c)) as Hp.
  unfold parse. simpl (cnt_Args (args_container _ _ _)).
  rewrite Argv_parse by (by apply daemonSetFlags_cf). apply daemonSetFlags_get, Hp.
Qed.

Lemma args_container_env conf tls c :
  let env := cnt_Env (args_container conf tls c) in
  if fst (isPodFingerprintEnabled conf)
  then exists k e, envvar.FindByName env envvar.PFPStatusDump = Some k /\ env !! k = Some e
         /\ env_Value e = envvar.PFPStatusDirDefault
  else envvar.FindByName env envvar.PFPStatusDump = None.
Proof.
  unfold args_container. destruct (fst (isPodFingerprintEnabled conf)); simpl.
  - apply SetForContainer_find.
  - apply find_index_None. apply Forall_forall. intros e He.
    pose proof (DeleteFromContainer_env c envvar.PFPStatusDump) as E. simpl in E. rewrite E in He.
    by apply list_elem_of_filter in He as [? _].
Qed.

(** C30: after a successful argument update the exporter's command line reads,
    flag by flag, as the node-group configuration and the TLS settings say;
    flags the configuration does not speak of keep their value; the fingerprint
    status variable is set exactly when fingerprinting is on; no other container
    is touched. A daemon set without the exporter container is left alone and
    the error names the container. *)
Theorem DaemonSetArgs_spec ds conf tls :
  let '(ds', err) := DaemonSetArgs ds conf tls in
  match FindContainerByName (ds_Containers ds) MainContainerName with
  | None => ds' = ds /\ err = Some (err_no_container MainContainerName)
  | Some i => exists c c',
      ds_Containers ds !! i = Some c /\ ds_Containers ds' !! i = Some c' /\ err = None /\
      (forall n, GetFlag (ParseArgvKeyValue (cnt_Args c') [WithFlagNormalization]) n
         = match configured_flag conf tls (normalizeFlagName n) with
           | Some v => v
           | None => GetFlag (ParseArgvKeyValue (cnt_Args c) [WithFlagNormalization]) n
           end) /\
      (envvar.FindByName (cnt_Env c') envvar.PFPStatusDump = None
         <-> fst (isPodFingerprintEnabled conf) = false) /\
      (forall j, j <> i -> ds_Containers ds' !! j = ds_Containers ds !! j)
  end.
Proof.
  destruct (FindContainerByName (ds_Containers ds) MainContainerName) as [i|] eqn:Hi.
  - destruct (DaemonSetArgs_containers ds conf tls i Hi) as [Hds Herr].
    destruct (find_index_Some _ _ _ Hi) as (c & Hc & _).
    destruct (DaemonSetArgs ds conf tls) as [ds' err]; simpl in *. subst err. rewrite Hds.
    exists c, (args_container conf tls c). rewrite list_lookup_alter_eq, Hc. split_and!; try done.
    + intros n. apply args_container_args.
    + pose proof (args_container_env conf tls c) as He. cbv zeta in He.
      destruct (fst (isPodFingerprintEnabled conf)); [|by split].
      destruct He as (k & e & -> & _). split; discriminate.
    + intros j Hj. by apply list_lookup_alter_ne.
  - unfold DaemonSetArgs. by rewrite Hi.
Qed.

(** ** Image and hardening *)

Lemma hardened_selinux sc : sc_SELinuxOptions (hardened sc) = sc ≫= sc_SELinuxOptions.
Proof. by destruct sc. Qed.

Lemma DaemonSetSecurityContext_found ds i :
  FindContainerByName (ds_Containers ds) MainContainerName = Some i ->
  DaemonSetSecurityContext ds
  = (ds_alter i (fun c => cnt_set_SecurityContext (Some (hardened (cnt_SecurityContext c))) c) ds, None).
Proof. intros Hi. unfold DaemonSetSecurityContext. by rewrite Hi. Qed.

Lemma find_main_alter ds i j f :
  (forall c, cnt_Name (f c) = cnt_Name c) ->
  FindContainerByName (ds_Containers ds) MainContainerName = Some i ->
  FindContainerByName (ds_Containers (ds_alter j f ds)) MainContainerName = Some i.
Proof.
  intros Hf Hi. rewrite ds_Containers_alter. apply find_index_alter; [|done]. intros x. by rewrite Hf.
Qed.

(** Image and pull policy the exporter must run: the user's image under the
    policy it already had, else the built-in pair; [None] when there is neither. *)
Definition wanted_image (user builtin policy oldPolicy : string) : option (string * string) :=
  if decide (user = "") then (if decide (builtin = "") then None else Some (builtin, policy))
  else Some (user, oldPolicy).

(** the image settings either fail leaving the daemon set alone (no
    exporter container, or no image at all) or leave the exporter with the wanted
    image, all capabilities dropped, no privilege and no escalation, user and
    group 0, its SELinux options untouched, and every other container as it was. *)
Theorem DaemonSetUserImageSettings_spec ds user builtin policy :
  let '(ds', err) := DaemonSetUserImageSettings ds user builtin policy in
  (err <> None /\ ds' = ds /\
     (FindContainerByName (ds_Containers ds) MainContainerName = None \/ (user = "" /\ builtin = ""))) \/
  (err = None /\ exists i c c' sc,
     FindContainerByName (ds_Containers ds) MainContainerName = Some i /\
     ds_Containers ds !! i = Some c /\ ds_Containers ds' !! i = Some c' /\
     wanted_image user builtin policy (cnt_ImagePullPolicy c) = Some (cnt_Image c', cnt_ImagePullPolicy c') /\
     cnt_SecurityContext c' = Some sc /\
     sc_Capabilities sc = Some (mkCapabilities [] ["ALL"]) /\
     sc_Privileged sc = Some false /\ sc_AllowPrivilegeEscalation sc = Some false /\
     sc_RunAsUser sc = Some 0%Z /\ sc_RunAsGroup sc = Some 0%Z /\
     sc_SELinuxOptions sc = cnt_SecurityContext c ≫= sc_SELinuxOptions /\
     cnt_Args c' = cnt_Args c /\ cnt_Name c' = MainContainerName /\
     forall j, j <> i -> ds_Containers ds' !! j = ds_Containers ds !! j).
Proof.
  unfold DaemonSetUserImageSettings, wanted_image.
  destruct (FindContainerByName (ds_Containers ds) MainContainerName) as [i|] eqn:Hi; [|by left; auto].
  destruct (find_index_Some _ _ _ Hi) as (c & Hc & Hname & _).
  destruct (decide (user = "")) as [->|Hu].
  - rewrite (decide_False (P := "" <> "")) by (intros Hx; by apply Hx).
    case_decide as Hb; cbv zeta iota beta; [by left; auto|].
    rewrite (DaemonSetSecurityContext_found _ i) by (by apply find_main_alter). right. split; [done|].
    exists i, c. do 2 eexists. rewrite !ds_Containers_alter, list_lookup_alter_eq, list_lookup_alter_eq, Hc.
    split_and!; try done; [by rewrite hardened_selinux|]. intros j Hj. by rewrite !list_lookup_alter_ne.
  - rewrite (decide_True (P := user <> "")) by done. cbv zeta beta.
    rewrite (DaemonSetSecurityContext_found _ i) by (by apply find_main_alter). right. split; [done|].
    exists i, c. do 2 eexists. rewrite !ds_Containers_alter, list_lookup_alter_eq, list_lookup_alter_eq, Hc.
    split_and!; try done; [by rewrite hardened_selinux|]. intros j Hj. by rewrite !list_lookup_alter_ne.
Qed.
