(* ===== verification/Objects.v ===== *)
(** * Cluster objects, their merge and their comparison
    (pkg/objectstate, pkg/objectstate/merge, pkg/objectstate/compare)

    A [client.Object] is an interface value: nil, a typed nil pointer, or a
    pointer to an object. The merge functions write both objects they are given
    (the metadata maps of the current object are extended in place and then
    shared with the updated one), so the model returns both. *)
From S2P Require Import Prelude GoErrors Meta Workload.

(** ** Data *)

(** The Go types behind the interface. *)
Inductive gotype :=
| TDaemonSet | TDeployment | TService | TServiceAccount | TCustomResourceDefinition
| TRole | TRoleBinding | TClusterRole | TClusterRoleBinding | TNetworkPolicy
| TSecurityContextConstraints | TMachineConfig | TConfigMap.

Record ServiceSpec := mkServiceSpec {
  svc_ClusterIP : string;
  svc_ClusterIPs : option (list string);
  svc_IPFamilies : option (list string);
  svc_IPFamilyPolicy : option string;
  svc_other : string }.

Record DeploymentSpec := mkDeploymentSpec {
  dps_Replicas : option Z; dps_Template : PodTemplateSpec; dps_other : string }.

Record PolicyRule := mkPolicyRule {
  pr_APIGroups : list string; pr_Resources : list string; pr_ResourceNames : list string; pr_other : string }.

Record Subject := mkSubject { sub_Name : string; sub_Namespace : string; sub_other : string }.

Record DeploymentCondition := mkDeploymentCondition { dpc_Type : string; dpc_Status : string; dpc_other : string }.
Record DeploymentStatus := mkDeploymentStatus { dpst_Conditions : list DeploymentCondition; dpst_other : string }.

(** What an object holds besides its type and metadata; parts the operator only
    carries along are opaque strings. *)
Inductive Body :=
| BDaemonSet (spec : DaemonSetSpec) (status : DaemonSetStatus)
| BDeployment (spec : DeploymentSpec) (status : DeploymentStatus)
| BService (spec : ServiceSpec) (status : string)
| BServiceAccount (secrets imagePullSecrets : list string) (rest : string)
| BCustomResourceDefinition (spec status : string)
| BRole (rules : list PolicyRule) (rest : string)
| BRoleBinding (subjects : list Subject) (rest : string)
| BClusterRole (rest : string)
| BClusterRoleBinding (subjects : list Subject) (rest : string)
| BNetworkPolicy (rest : string)
| BSecurityContextConstraints (strategy : string) (selinux : option SELinuxOptions) (users : list string) (rest : string)
| BMachineConfig (config rest : string)
| BConfigMap (data : option (gmap string string)) (binaryData : option (gmap string (list Z))).

Record Object := mkObject {
  obj_APIVersion : string; obj_Kind : string; obj_Meta : ObjectMeta; obj_Body : Body }.

#[global] Instance gotype_eq_dec : EqDecision gotype. Proof. solve_decision. Defined.
#[global] Instance ServiceSpec_eq_dec : EqDecision ServiceSpec. Proof. solve_decision. Defined.
#[global] Instance DeploymentSpec_eq_dec : EqDecision DeploymentSpec. Proof. solve_decision. Defined.
#[global] Instance PolicyRule_eq_dec : EqDecision PolicyRule. Proof. solve_decision. Defined.
#[global] Instance Subject_eq_dec : EqDecision Subject. Proof. solve_decision. Defined.
#[global] Instance DeploymentCondition_eq_dec : EqDecision DeploymentCondition. Proof. solve_decision. Defined.
#[global] Instance DeploymentStatus_eq_dec : EqDecision DeploymentStatus. Proof. solve_decision. Defined.
#[global] Instance Body_eq_dec : EqDecision Body. Proof. solve_decision. Defined.
#[global] Instance Object_eq_dec : EqDecision Object. Proof. solve_decision. Defined.

(** [reflect.TypeOf] *)
Definition body_type (b : Body) : gotype :=
  match b with
  | BDaemonSet _ _ => TDaemonSet
  | BDeployment _ _ => TDeployment
  | BService _ _ => TService
  | BServiceAccount _ _ _ => TServiceAccount
  | BCustomResourceDefinition _ _ => TCustomResourceDefinition
  | BRole _ _ => TRole
  | BRoleBinding _ _ => TRoleBinding
  | BClusterRole _ => TClusterRole
  | BClusterRoleBinding _ _ => TClusterRoleBinding
  | BNetworkPolicy _ => TNetworkPolicy
  | BSecurityContextConstraints _ _ _ _ => TSecurityContextConstraints
  | BMachineConfig _ _ => TMachineConfig
  | BConfigMap _ _ => TConfigMap
  end.

Definition obj_type (o : Object) : gotype := body_type (obj_Body o).

Definition obj_Name (o : Object) : string := om_Name (obj_Meta o).
Definition obj_Namespace (o : Object) : string := om_Namespace (obj_Meta o).
Definition obj_key (o : Object) : NamespacedName := om_key (obj_Meta o).

Definition obj_with_Meta (m : ObjectMeta) (o : Object) : Object :=
  mkObject (obj_APIVersion o) (obj_Kind o) m (obj_Body o).
Definition obj_with_Body (b : Body) (o : Object) : Object :=
  mkObject (obj_APIVersion o) (obj_Kind o) (obj_Meta o) b.

(** A typed config map, and the object it is. *)
Record ConfigMap := mkConfigMap {
  cm_Meta : ObjectMeta;
  cm_Data : option (gmap string string);
  cm_BinaryData : option (gmap string (list Z)) }.

Definition cm_object (cm : ConfigMap) : Object :=
  mkObject "v1" "ConfigMap" (cm_Meta cm) (BConfigMap (cm_Data cm) (cm_BinaryData cm)).

Definition object_cm (o : Object) : option ConfigMap :=
  match obj_Body o with
  | BConfigMap data binaryData => Some (mkConfigMap (obj_Meta o) data binaryData)
  | _ => None
  end.

(** A [client.Object] value. *)
Inductive iface :=
| INil
| ITypedNil (t : gotype)
| IObj (o : Object).

(** Storing a possibly nil pointer into an interface never gives a nil interface. *)
Definition iface_of_ptr (t : gotype) (p : option Object) : iface :=
  match p with
  | Some o => IObj o
  | None => ITypedNil t
  end.

(** Calling a metadata method: it dereferences the receiver. *)
Definition iface_deref (i : iface) : go Object :=
  match i with
  | IObj o => Ret o
  | INil | ITypedNil _ => Panic (NilDereference "client.Object")
  end.

Definition iface_is_nil (i : iface) : bool :=
  match i with INil => true | _ => false end.

(** ** Metadata updates *)

Definition om_set_Labels (l : option (gmap string string)) (m : ObjectMeta) : ObjectMeta :=
  mkObjectMeta (om_Name m) (om_Namespace m) (om_SelfLink m) (om_UID m) (om_ResourceVersion m)
    (om_Generation m) (om_CreationTimestamp m) l (om_Annotations m) (om_OwnerReferences m)
    (om_Finalizers m) (om_ManagedFields m).
Definition om_set_Annotations (a : option (gmap string string)) (m : ObjectMeta) : ObjectMeta :=
  mkObjectMeta (om_Name m) (om_Namespace m) (om_SelfLink m) (om_UID m) (om_ResourceVersion m)
    (om_Generation m) (om_CreationTimestamp m) (om_Labels m) a (om_OwnerReferences m)
    (om_Finalizers m) (om_ManagedFields m).
Definition om_set_OwnerReferences (rs : list OwnerReference) (m : ObjectMeta) : ObjectMeta :=
  mkObjectMeta (om_Name m) (om_Namespace m) (om_SelfLink m) (om_UID m) (om_ResourceVersion m)
    (om_Generation m) (om_CreationTimestamp m) (om_Labels m) (om_Annotations m) rs
    (om_Finalizers m) (om_ManagedFields m).

(** The server-owned fields [MetadataForUpdate] copies from the current object. *)
Definition om_copy_server (current updated : ObjectMeta) : ObjectMeta :=
  mkObjectMeta (om_Name updated) (om_Namespace updated) (om_SelfLink current) (om_UID current)
    (om_ResourceVersion current) (om_Generation current) (om_CreationTimestamp current)
    (om_Labels updated) (om_Annotations updated) (om_OwnerReferences updated)
    (om_Finalizers current) (om_ManagedFields current).

(** ** Merging *)

Definition ErrWrongObjectType : error := ErrNew "given object does not match the merger".
Definition ErrMismatchingObjects : error := ErrNew "given objects have mismatching types".

(** The result of a merger: both arguments as it leaves them, and the error.
    Without error the object returned is the updated one. *)
Record merge_result := mkMergeResult {
  mr_current : iface; mr_updated : iface; mr_err : option error }.

Definition isSameKind (a b : iface) : go bool :=
  if iface_is_nil a || iface_is_nil b then Ret false
  else
    let! a := iface_deref a in
    let! b := iface_deref b in
    if decide (obj_Kind a <> "" /\ obj_Kind b <> "")
    then Ret (bool_decide (obj_APIVersion a = obj_APIVersion b /\ obj_Kind a = obj_Kind b))
    else Ret (bool_decide (obj_type a = obj_type b)).

(** The loop over the updated map, which writes the current one: the current
    object's own map if it has one, a new map otherwise. The first component is
    what the current object then holds, the second what the updated one does. *)
Definition merge_maps (cur upd : option (gmap string string))
  : option (gmap string string) * option (gmap string string) :=
  let merged := map_of upd ∪ map_of cur in
  (match cur with Some _ => Some merged | None => None end,
   if decide (merged = ∅) then upd else Some merged).

Definition Annotations (current updated : Object) : Object * Object :=
  let '(c, u) := merge_maps (om_Annotations (obj_Meta current)) (om_Annotations (obj_Meta updated)) in
  (obj_with_Meta (om_set_Annotations c (obj_Meta current)) current,
   obj_with_Meta (om_set_Annotations u (obj_Meta updated)) updated).

Definition Labels (current updated : Object) : Object * Object :=
  let '(c, u) := merge_maps (om_Labels (obj_Meta current)) (om_Labels (obj_Meta updated)) in
  (obj_with_Meta (om_set_Labels c (obj_Meta current)) current,
   obj_with_Meta (om_set_Labels u (obj_Meta updated)) updated).

Definition MetadataForUpdate (current updated : iface) : go merge_result :=
  let! same := isSameKind current updated in
  if negb same then Ret (mkMergeResult current updated (Some ErrMismatchingObjects))
  else
    let! cur := iface_deref current in
    let! upd := iface_deref updated in
    let upd := obj_with_Meta (om_copy_server (obj_Meta cur) (obj_Meta upd)) upd in
    let '(cur, upd) := Annotations cur upd in
    let '(cur, upd) := Labels cur upd in
    Ret (mkMergeResult (IObj cur) (IObj upd) None).

(** The type assertions on the updated object panic on another type. *)
Definition StatusForUpdate (current updated : iface) : go merge_result :=
  match current with
  | INil => Ret (mkMergeResult current updated None)
  | ITypedNil TDaemonSet | ITypedNil TDeployment | ITypedNil TService
  | ITypedNil TCustomResourceDefinition => Panic (NilDereference "current.Status")
  | ITypedNil _ => Ret (mkMergeResult current updated None)
  | IObj cur =>
      let set b := let! upd := iface_deref updated in
                   Ret (mkMergeResult current (IObj (obj_with_Body b upd)) None) in
      match obj_Body cur, updated with
      | BDeployment _ st, IObj (mkObject _ _ _ (BDeployment spec _)) => set (BDeployment spec st)
      | BDaemonSet _ st, IObj (mkObject _ _ _ (BDaemonSet spec _)) => set (BDaemonSet spec st)
      | BService _ st, IObj (mkObject _ _ _ (BService spec _)) => set (BService spec st)
      | BCustomResourceDefinition _ st, IObj (mkObject _ _ _ (BCustomResourceDefinition spec _)) =>
          set (BCustomResourceDefinition spec st)
      | BDeployment _ _, _ | BDaemonSet _ _, _ | BService _ _, _ | BCustomResourceDefinition _ _, _ =>
          Panic (FailedTypeAssertion "updated")
      | _, _ => Ret (mkMergeResult current updated None)
      end
  end.

Definition ObjectForUpdate (current updated : iface) : go merge_result :=
  let! r := MetadataForUpdate current updated in
  match mr_err r with
  | Some err => Ret r
  | None => StatusForUpdate (mr_current r) (mr_updated r)
  end.

(** Pull secrets the updated account lacks are appended in the original order;
    the membership set is the one of the updated account before the loop. *)
Definition preserveServiceAccountPullSecrets (origSecrets origPull mutPull : list string)
  : list string * list string :=
  (origSecrets,
   fold_left (fun acc s => if decide (s ∈ mutPull) then acc else acc ++ [s]) origPull mutPull).

Definition ServiceAccountForUpdate (current updated : iface) : go merge_result :=
  match current, updated with
  | IObj (mkObject _ _ _ (BServiceAccount secrets pull _)),
    IObj (mkObject _ _ _ (BServiceAccount _ pull' rest) as upd) =>
      let '(secrets, pull) := preserveServiceAccountPullSecrets secrets pull pull' in
      ObjectForUpdate current (IObj (obj_with_Body (BServiceAccount secrets pull rest) upd))
  | IObj (mkObject _ _ _ (BServiceAccount _ _ _)), ITypedNil TServiceAccount
  | ITypedNil TServiceAccount, IObj (mkObject _ _ _ (BServiceAccount _ _ _))
  | ITypedNil TServiceAccount, ITypedNil TServiceAccount => Panic (NilDereference "ServiceAccount")
  | IObj (mkObject _ _ _ (BServiceAccount _ _ _)), _ | ITypedNil TServiceAccount, _ =>
      Ret (mkMergeResult current updated (Some ErrMismatchingObjects))
  | _, _ => Ret (mkMergeResult current updated (Some ErrWrongObjectType))
  end.

Definition preserveIPConfigurations (original mutated : ServiceSpec) : ServiceSpec :=
  mkServiceSpec
    (if decide (svc_ClusterIP mutated = "") then svc_ClusterIP original else svc_ClusterIP mutated)
    (match svc_ClusterIPs mutated with None => svc_ClusterIPs original | x => x end)
    (match svc_IPFamilies mutated with None => svc_IPFamilies original | x => x end)
    (match svc_IPFamilyPolicy mutated with None => svc_IPFamilyPolicy original | x => x end)
    (svc_other mutated).

Definition ServiceForUpdate (current updated : iface) : go merge_result :=
  match current, updated with
  | IObj (mkObject _ _ _ (BService spec _)), IObj (mkObject _ _ _ (BService spec' st') as upd) =>
      ObjectForUpdate current (IObj (obj_with_Body (BService (preserveIPConfigurations spec spec') st') upd))
  | IObj (mkObject _ _ _ (BService _ _)), ITypedNil TService
  | ITypedNil TService, IObj (mkObject _ _ _ (BService _ _))
  | ITypedNil TService, ITypedNil TService => Panic (NilDereference "Service")
  | IObj (mkObject _ _ _ (BService _ _)), _ | ITypedNil TService, _ =>
      Ret (mkMergeResult current updated (Some ErrMismatchingObjects))
  | _, _ => Ret (mkMergeResult current updated (Some ErrWrongObjectType))
  end.

(** ** Comparing

    [equality.Semantic.DeepEqual] identifies a nil map or slice with an empty
    one: both objects are put in a form with no nil map or slice first. *)

Definition canon_map (m : option (gmap string string)) : option (gmap string string) := Some (map_of m).

Definition canon_meta (m : ObjectMeta) : ObjectMeta :=
  om_set_Annotations (canon_map (om_Annotations m)) (om_set_Labels (canon_map (om_Labels m)) m).

Definition canon_template (t : PodTemplateSpec) : PodTemplateSpec :=
  mkPodTemplateSpec (canon_map (pt_Labels t)) (canon_map (pt_Annotations t))
    (ps_set_NodeSelector (canon_map (ps_NodeSelector (pt_Spec t))) (pt_Spec t)).

Definition canon_body (b : Body) : Body :=
  match b with
  | BDaemonSet spec st =>
      BDaemonSet (mkDaemonSetSpec (dsp_UpdateStrategy spec) (canon_template (dsp_Template spec)) (dsp_other spec)) st
  | BDeployment spec st =>
      BDeployment (mkDeploymentSpec (dps_Replicas spec) (canon_template (dps_Template spec)) (dps_other spec)) st
  | BService spec st =>
      BService (mkServiceSpec (svc_ClusterIP spec) (Some (default [] (svc_ClusterIPs spec)))
                  (Some (default [] (svc_IPFamilies spec))) (svc_IPFamilyPolicy spec) (svc_other spec)) st
  | b => b
  end.

Definition canon (o : Object) : Object :=
  mkObject (obj_APIVersion o) (obj_Kind o) (canon_meta (obj_Meta o)) (canon_body (obj_Body o)).

(** Equal up to nil maps and slices. *)
Definition sem_eq (a b : Object) : Prop := canon a = canon b.
#[global] Instance sem_eq_dec a b : Decision (sem_eq a b).
Proof. unfold sem_eq. apply _. Defined.

#[global] Instance sem_eq_equivalence : Equivalence sem_eq.
Proof.
  split.
  - by intros a.
  - intros a b H. by symmetry.
  - intros a b c H1 H2. unfold sem_eq in *. congruence.
Qed.

Definition Semantic_DeepEqual (a b : iface) : bool :=
  match a, b with
  | INil, INil => true
  | ITypedNil t, ITypedNil t' => bool_decide (t = t')
  | IObj a, IObj b => bool_decide (sem_eq a b)
  | _, _ => false
  end.

(** [compare.Object] *)
Definition compare_Object (existing obj : iface) : bool * option error :=
  (Semantic_DeepEqual existing obj, None).

(** ** Object states *)

(** A nil function value is [None]: calling it panics. *)
Record ObjectState := mkObjectState {
  os_Existing : iface;
  os_Desired : iface;
  os_Error : option error;
  os_UpdateError : option error;
  os_Compare : option (iface -> iface -> bool * option error);
  os_Merge : option (iface -> iface -> go merge_result) }.

Definition os_with_Desired (d : iface) (s : ObjectState) : ObjectState :=
  mkObjectState (os_Existing s) d (os_Error s) (os_UpdateError s) (os_Compare s) (os_Merge s).

Definition IsNotFoundError (obst : ObjectState) : bool :=
  match os_Error obst with
  | None => false
  | Some err => IsNotFound err
  end.

Definition IsCreateOrUpdate (obst : ObjectState) : bool :=
  match os_Desired obst with
  | INil | ITypedNil _ => false
  | IObj _ => true
  end.

(** ** Lemmas *)

#[global] Instance canon_proper : Proper (sem_eq ==> eq) canon.
Proof. by intros a b H. Qed.

Lemma map_of_canon m : map_of (canon_map m) = map_of m.
Proof. done. Qed.

Lemma canon_body_type b : body_type (canon_body b) = body_type b.
Proof. by destruct b. Qed.

Lemma canon_idem o : canon (canon o) = canon o.
Proof. destruct o as [av k m b]. unfold canon; simpl. f_equal. by destruct b. Qed.

Lemma sem_eq_canon o : sem_eq (canon o) o.
Proof. apply canon_idem. Qed.

#[global] Instance obj_type_proper : Proper (sem_eq ==> eq) obj_type.
Proof.
  intros a b H. unfold obj_type. rewrite <-(canon_body_type (obj_Body a)), <-(canon_body_type (obj_Body b)).
  change (obj_type (canon a) = obj_type (canon b)). by rewrite H.
Qed.

#[global] Instance obj_key_proper : Proper (sem_eq ==> eq) obj_key.
Proof. intros a b H. change (obj_key (canon a) = obj_key (canon b)). by rewrite H. Qed.
