(* ===== verification/MergeSpec.v ===== *)
(** * What merging promises

    Theorems about Objects.v: the merged object carries the desired content
    under the server-owned fields of the current one, and merging again after
    the merged object was stored finds nothing to change. *)
From S2P Require Import Prelude GoErrors Meta Workload Objects.

(** ** The parts of a body *)

(** The status, for the types whose status is carried over. *)
Definition body_status (b : Body) : option (DaemonSetStatus + (DeploymentStatus + string)) :=
  match b with
  | BDaemonSet _ st => Some (inl st)
  | BDeployment _ st => Some (inr (inl st))
  | BService _ st | BCustomResourceDefinition _ st => Some (inr (inr st))
  | _ => None
  end.

(** The body with the status of another one, when the types agree. *)
Definition with_status_of (cur upd : Body) : Body :=
  match cur, upd with
  | BDaemonSet _ st, BDaemonSet spec _ => BDaemonSet spec st
  | BDeployment _ st, BDeployment spec _ => BDeployment spec st
  | BService _ st, BService spec _ => BService spec st
  | BCustomResourceDefinition _ st, BCustomResourceDefinition spec _ => BCustomResourceDefinition spec st
  | _, _ => upd
  end.

(** Same desired content: equal once the status is forgotten. *)
Definition same_spec (a b : Body) : Prop := with_status_of b a = b.

(** ** The merge as a function *)

Definition merged_map (cur upd : option (gmap string string)) : gmap string string :=
  map_of upd ∪ map_of cur.

Definition merged_meta (cur upd : ObjectMeta) : ObjectMeta :=
  om_set_Labels (snd (merge_maps (om_Labels cur) (om_Labels upd)))
    (om_set_Annotations (snd (merge_maps (om_Annotations cur) (om_Annotations upd)))
       (om_copy_server cur upd)).

(** What the merge leaves in the current object's metadata. *)
Definition left_meta (cur upd : ObjectMeta) : ObjectMeta :=
  om_set_Labels (fst (merge_maps (om_Labels cur) (om_Labels upd)))
    (om_set_Annotations (fst (merge_maps (om_Annotations cur) (om_Annotations upd))) cur).

Definition merged (cur upd : Object) : Object :=
  mkObject (obj_APIVersion upd) (obj_Kind upd) (merged_meta (obj_Meta cur) (obj_Meta upd))
    (with_status_of (obj_Body cur) (obj_Body upd)).

Definition left_behind (cur upd : Object) : Object := obj_with_Meta (left_meta (obj_Meta cur) (obj_Meta upd)) cur.

(** Objects the mergers accept: same kind and same Go type. *)
Definition mergeable (cur upd : Object) : Prop :=
  obj_type cur = obj_type upd /\
  (obj_Kind cur = "" \/ obj_Kind upd = "" \/
   (obj_APIVersion cur = obj_APIVersion upd /\ obj_Kind cur = obj_Kind upd)).

Lemma isSameKind_mergeable cur upd : mergeable cur upd -> isSameKind (IObj cur) (IObj upd) = Ret true.
Proof.
  intros [Ht Hk]. unfold isSameKind. simpl. case_decide as E; f_equal; apply bool_decide_true; [|done].
  destruct E as [E1 E2]. naive_solver.
Qed.

Lemma MetadataForUpdate_ok cur upd :
  mergeable cur upd ->
  MetadataForUpdate (IObj cur) (IObj upd)
  = Ret (mkMergeResult (IObj (left_behind cur upd))
           (IObj (obj_with_Meta (merged_meta (obj_Meta cur) (obj_Meta upd)) upd)) None).
Proof. intros H. unfold MetadataForUpdate. rewrite isSameKind_mergeable by done. reflexivity. Qed.

Lemma ObjectForUpdate_ok cur upd :
  mergeable cur upd ->
  ObjectForUpdate (IObj cur) (IObj upd)
  = Ret (mkMergeResult (IObj (left_behind cur upd)) (IObj (merged cur upd)) None).
Proof.
  intros H. unfold ObjectForUpdate. rewrite MetadataForUpdate_ok by done. simpl.
  destruct H as [Ht _]. unfold obj_type in Ht. unfold merged.
  destruct cur as [? ? ? bc], upd as [? ? ? bu]. simpl in *. by destruct bc, bu.
Qed.

Lemma map_of_merged cur upd : map_of (snd (merge_maps cur upd)) = merged_map cur upd.
Proof.
  unfold merge_maps, merged_map. simpl. case_decide as E; [|done]. rewrite E.
  by apply map_positive_l in E as ->.
Qed.

Lemma map_of_left cur upd :
  map_of (fst (merge_maps cur upd)) = match cur with Some _ => merged_map cur upd | None => ∅ end.
Proof. by destruct cur. Qed.

(** merging a desired object into the current one of the same kind never
    fails or panics. The result keeps the desired name, owners and content; its
    labels and annotations are the desired ones over the current ones; the
    server-owned fields and the status are the current ones. *)
Theorem ObjectForUpdate_spec cur upd :
  mergeable cur upd ->
  exists cur' m, ObjectForUpdate (IObj cur) (IObj upd) = Ret (mkMergeResult (IObj cur') (IObj m) None) /\
    obj_key m = obj_key upd /\
    om_OwnerReferences (obj_Meta m) = om_OwnerReferences (obj_Meta upd) /\
    map_of (om_Labels (obj_Meta m)) = map_of (om_Labels (obj_Meta upd)) ∪ map_of (om_Labels (obj_Meta cur)) /\
    map_of (om_Annotations (obj_Meta m))
      = map_of (om_Annotations (obj_Meta upd)) ∪ map_of (om_Annotations (obj_Meta cur)) /\
    om_UID (obj_Meta m) = om_UID (obj_Meta cur) /\
    om_ResourceVersion (obj_Meta m) = om_ResourceVersion (obj_Meta cur) /\
    om_Generation (obj_Meta m) = om_Generation (obj_Meta cur) /\
    om_CreationTimestamp (obj_Meta m) = om_CreationTimestamp (obj_Meta cur) /\
    om_Finalizers (obj_Meta m) = om_Finalizers (obj_Meta cur) /\
    same_spec (obj_Body upd) (obj_Body m) /\
    body_status (obj_Body m) = body_status (obj_Body cur).
Proof.
  intros H. exists (left_behind cur upd), (merged cur upd). split; [by apply ObjectForUpdate_ok|].
  destruct H as [Ht _]. unfold obj_type in Ht. split_and!; try done.
  - apply map_of_merged.
  - apply map_of_merged.
  - simpl. destruct (obj_Body cur), (obj_Body upd); try done.
  - simpl. destruct (obj_Body cur), (obj_Body upd); done.
Qed.

Definition example_meta (labels : option (gmap string string)) : ObjectMeta :=
  om_set_Labels labels (emptyMeta "rte" "numaresources").
Definition example_sa (labels : option (gmap string string)) (pull : list string) : Object :=
  mkObject "v1" "ServiceAccount" (example_meta labels) (BServiceAccount ["token"] pull "").

Lemma ObjectForUpdate_spec_witness :
  let cur := example_sa (Some {["a" := "1"; "b" := "2"]}) [] in
  let upd := example_sa (Some {["b" := "3"]}) [] in
  mergeable cur upd /\
  exists cur' m, ObjectForUpdate (IObj cur) (IObj upd) = Ret (mkMergeResult (IObj cur') (IObj m) None) /\
    map_of (om_Labels (obj_Meta m)) = {["a" := "1"; "b" := "3"]}.
Proof.
  intros cur upd. assert (mergeable cur upd) as H by (split; [done|by right; right]).
  split; [done|]. destruct (ObjectForUpdate_spec cur upd H) as (cur' & m & E & _ & _ & Hl & _).
  exists cur', m. split; [done|]. rewrite Hl. vm_compute. reflexivity.
Defined.

(** ** Convergence *)

(** What the server gives back for a stored object: the object, up to the
    server-owned metadata and the status. *)
Definition stored_as (e m : Object) : Prop :=
  sem_eq e (mkObject (obj_APIVersion m) (obj_Kind m) (om_copy_server (obj_Meta e) (obj_Meta m))
              (with_status_of (obj_Body e) (obj_Body m))).

Lemma stored_as_refl o : stored_as o o.
Proof. destruct o as [? ? m b]. unfold stored_as, sem_eq. f_equal. by destruct m, b. Qed.

(** How a merger completes the desired body from the current one. *)
Definition complete_plain (cur upd : Body) : Body := upd.

Definition complete_account (cur upd : Body) : Body :=
  match cur, upd with
  | BServiceAccount secrets pull _, BServiceAccount _ pull' rest =>
      let '(s, p) := preserveServiceAccountPullSecrets secrets pull pull' in BServiceAccount s p rest
  | _, _ => upd
  end.

Definition complete_service (cur upd : Body) : Body :=
  match cur, upd with
  | BService spec _, BService spec' st' => BService (preserveIPConfigurations spec spec') st'
  | _, _ => upd
  end.

(** The mergers, what they complete, and the types each is used on. *)
Inductive merger_for : (iface -> iface -> go merge_result) -> (Body -> Body -> Body) -> gotype -> Prop :=
| mf_object t : merger_for ObjectForUpdate complete_plain t
| mf_metadata t :
    t ∈ [TRole; TRoleBinding; TClusterRole; TClusterRoleBinding; TNetworkPolicy;
         TSecurityContextConstraints; TMachineConfig; TConfigMap] ->
    merger_for MetadataForUpdate complete_plain t
| mf_service_account : merger_for ServiceAccountForUpdate complete_account TServiceAccount
| mf_service : merger_for ServiceForUpdate complete_service TService.

Definition completed (f : Body -> Body -> Body) (cur upd : Object) : Object :=
  obj_with_Body (f (obj_Body cur) (obj_Body upd)) upd.

Lemma complete_type M f t cur upd :
  merger_for M f t -> obj_type (completed f cur upd) = obj_type upd.
Proof. unfold obj_type. destruct 1; simpl; try done; by destruct (obj_Body cur), (obj_Body upd). Qed.

Lemma mergeable_completed M f t cur upd :
  merger_for M f t -> mergeable cur upd -> mergeable cur (completed f cur upd).
Proof. intros HM [Ht Hk]. split; [by rewrite (complete_type M f t)|done]. Qed.

(** Every merger is the common merge of the completed object. *)
Lemma merger_ok M f t cur upd :
  merger_for M f t -> mergeable cur upd -> obj_type upd = t ->
  M (IObj cur) (IObj upd)
  = Ret (mkMergeResult (IObj (left_behind cur upd)) (IObj (merged cur (completed f cur upd))) None).
Proof.
  intros HM Hm Ht. pose proof (mergeable_completed _ _ _ _ _ HM Hm) as Hc.
  pose proof (ObjectForUpdate_ok _ _ Hc) as Hok. destruct Hm as [Hty _].
  destruct cur as [? ? ? bc], upd as [? ? ? bu]. unfold obj_type in *. simpl in *.
  destruct HM as [t|t Hin| |].
  - apply Hok.
  - rewrite MetadataForUpdate_ok by (exact Hc). unfold merged, completed. simpl.
    destruct bc, bu; try done; exfalso; simpl in *; subst t; set_solver.
  - by destruct bc, bu.
  - by destruct bc, bu.
Qed.

Lemma pull_secrets_filter s p p' :
  preserveServiceAccountPullSecrets s p p' = (s, p' ++ filter (.∉ p') p).
Proof.
  unfold preserveServiceAccountPullSecrets. f_equal.
  assert (forall l acc, fold_left (fun acc s => if decide (s ∈ p') then acc else acc ++ [s]) l acc
          = acc ++ filter (.∉ p') l) as Hg; [|apply Hg].
  induction l as [|x l IH]; intros acc; simpl; [by rewrite app_nil_r|]. rewrite IH, filter_cons.
  repeat case_decide; try done. by rewrite <-app_assoc.
Qed.

Lemma pull_secrets_self (p : list string) : filter (.∉ p) p = [].
Proof.
  assert (forall l, (forall x, x ∈ l -> x ∈ p) -> filter (.∉ p) l = []) as Hn; [|by apply Hn].
  induction l as [|x l IH]; intros Hl; [done|]. rewrite filter_cons_False, IH; [done| |].
  - intros y Hy. apply Hl. by right.
  - intros Hx. apply Hx, Hl. by left.
Qed.

Lemma pull_secrets_again (p p' : list string) : filter (.∉ p') (p' ++ filter (.∉ p') p) = filter (.∉ p') p.
Proof.
  rewrite filter_app, list_filter_filter_l by done. by rewrite pull_secrets_self.
Qed.

(** Completing from the stored object changes nothing but, possibly, the status. *)
Lemma complete_again M f t c d e :
  merger_for M f t -> body_type c = body_type d -> body_type d = t ->
  canon_body e = canon_body (with_status_of e (f c d)) ->
  canon_body (with_status_of e (f e d)) = canon_body e.
Proof.
  intros HM Hcd Ht He. destruct HM as [t|t Hin| |].
  - by rewrite He.
  - by rewrite He.
  - destruct c, d; try done. unfold complete_account in *. rewrite pull_secrets_filter in He.
    destruct e; simpl in He; try done. injection He as -> -> ->.
    by rewrite pull_secrets_filter, pull_secrets_again.
  - destruct c as [| |cs cst| | | | | | | | | |], d as [| |ds dst| | | | | | | | | |]; try done.
    simpl in He. destruct e as [| |es est| | | | | | | | | |]; simpl in He; try done.
    injection He as H1 H2 H3 H4 H5. simpl. do 2 f_equal.
    + rewrite H1. by case_decide.
    + by destruct (svc_ClusterIPs ds); simpl in *; congruence.
    + by destruct (svc_IPFamilies ds); simpl in *; congruence.
    + rewrite H4. by destruct (svc_IPFamilyPolicy ds).
    + done.
Qed.

Lemma merged_map_again cur upd e :
  map_of e = merged_map cur upd -> merged_map e upd = map_of e.
Proof.
  unfold merged_map. intros He. rewrite He. rewrite (assoc_L (∪)). by rewrite (idemp_L (∪)).
Qed.

Lemma left_map_stored cur upd e :
  map_of e = merged_map cur upd -> map_of (fst (merge_maps e upd)) = map_of e.
Proof.
  intros He. rewrite map_of_left. destruct e; [|done]. by apply (merged_map_again cur).
Qed.

Lemma canon_meta_eq m1 m2 :
  map_of (om_Labels m1) = map_of (om_Labels m2) ->
  map_of (om_Annotations m1) = map_of (om_Annotations m2) ->
  om_set_Labels None (om_set_Annotations None m1) = om_set_Labels None (om_set_Annotations None m2) ->
  canon_meta m1 = canon_meta m2.
Proof.
  destruct m1, m2. unfold canon_meta, canon_map. simpl. intros -> -> [= -> -> -> -> -> -> -> -> -> ->]. done.
Qed.

Lemma stored_as_fields e m :
  stored_as e m ->
  obj_APIVersion e = obj_APIVersion m /\ obj_Kind e = obj_Kind m /\
  map_of (om_Labels (obj_Meta e)) = map_of (om_Labels (obj_Meta m)) /\
  map_of (om_Annotations (obj_Meta e)) = map_of (om_Annotations (obj_Meta m)) /\
  om_Name (obj_Meta e) = om_Name (obj_Meta m) /\ om_Namespace (obj_Meta e) = om_Namespace (obj_Meta m) /\
  om_OwnerReferences (obj_Meta e) = om_OwnerReferences (obj_Meta m) /\
  canon_body (obj_Body e) = canon_body (with_status_of (obj_Body e) (obj_Body m)).
Proof.
  unfold stored_as, sem_eq, canon. simpl. intros [= H1 H2 H3 H4]. split_and!; try done.
  all: first [ apply (f_equal om_Labels) in H3; by injection H3
             | apply (f_equal om_Annotations) in H3; by injection H3
             | apply (f_equal om_Name) in H3; done
             | apply (f_equal om_Namespace) in H3; done
             | apply (f_equal om_OwnerReferences) in H3; done ].
Qed.

Lemma with_status_twice e c u :
  body_type e = body_type u -> with_status_of e (with_status_of c u) = with_status_of e u.
Proof. destruct e, u; intros Ht; try discriminate Ht; by destruct c. Qed.

Lemma with_status_type c u : body_type (with_status_of c u) = body_type u.
Proof. by destruct c, u. Qed.

Lemma stored_mergeable e m upd :
  stored_as e m -> obj_type m = obj_type upd -> obj_APIVersion m = obj_APIVersion upd ->
  obj_Kind m = obj_Kind upd -> mergeable e upd.
Proof.
  intros (Hav & Hk & _ & _ & _ & _ & _ & Hb)%stored_as_fields Ht Ha Hkd. split.
  - rewrite <-Ht. unfold obj_type. rewrite <-canon_body_type, Hb, canon_body_type. apply with_status_type.
  - right. right. split; congruence.
Qed.

Lemma merged_stored_sem_eq M f t cur d e :
  merger_for M f t -> mergeable cur d -> obj_type d = t ->
  stored_as e (merged cur (completed f cur d)) ->
  sem_eq (left_behind e d) (merged e (completed f e d)).
Proof.
  intros HM [Htcd Hkd] Ht He. pose proof (stored_as_fields _ _ He) as (Hav & Hk & Hl & Ha & Hn & Hns & Ho & Hb).
  apply (fun H => eq_trans H (map_of_merged (om_Labels (obj_Meta cur)) (om_Labels (obj_Meta d)))) in Hl.
  apply (fun H => eq_trans H (map_of_merged (om_Annotations (obj_Meta cur)) (om_Annotations (obj_Meta d)))) in Ha.
  simpl in Hav, Hk, Hn, Hns, Ho, Hb.
  unfold sem_eq, canon. f_equal; [done|done| |]; cbn [obj_Meta obj_Body left_behind merged obj_with_Meta].
  - apply canon_meta_eq; cbn [om_Labels om_Annotations left_meta merged_meta om_set_Labels om_set_Annotations].
    + rewrite map_of_merged, (left_map_stored _ _ _ Hl). symmetry. by apply (merged_map_again _ _ _ Hl).
    + rewrite map_of_merged, (left_map_stored _ _ _ Ha). symmetry. by apply (merged_map_again _ _ _ Ha).
    + unfold om_set_Labels, om_set_Annotations. simpl. by rewrite Hn, Hns, Ho.
  - assert (body_type (obj_Body e) = body_type (f (obj_Body cur) (obj_Body d))) as Hte.
    { rewrite <-canon_body_type, Hb, canon_body_type, !with_status_type. done. }
    rewrite with_status_twice in Hb by done. symmetry. by eapply complete_again.
Qed.

(** C29: whatever merger was used, once the merged object is stored the next
    reconciliation merges the same desired object into it without error and
    compares equal: no update is sent, so the operator does not update forever. *)
Theorem merge_converges M f t cur d c m e :
  merger_for M f t -> mergeable cur d -> obj_type d = t ->
  M (IObj cur) (IObj d) = Ret (mkMergeResult c (IObj m) None) ->
  stored_as e m ->
  exists e' n, M (IObj e) (IObj d) = Ret (mkMergeResult (IObj e') (IObj n) None) /\
    compare_Object (IObj e') (IObj n) = (true, None).
Proof.
  intros HM Hm Ht HMd He. rewrite (merger_ok _ _ _ _ _ HM Hm Ht) in HMd. injection HMd as _ <-.
  assert (mergeable e d) as Hmd.
  { apply (stored_mergeable e _ d He); [|done|done]. simpl. unfold obj_type, merged. simpl.
    rewrite with_status_type. apply (complete_type M f t cur d HM). }
  do 2 eexists. split; [by apply (merger_ok M f t)|].
  unfold compare_Object, Semantic_DeepEqual. rewrite bool_decide_true; [done|].
  by apply (merged_stored_sem_eq M f t cur).
Qed.

Definition example_stored : Object :=
  mkObject "v1" "ServiceAccount"
    (mkObjectMeta "rte" "numaresources" "" "uid-1" "7" 2 5 (Some {["a" := "1"]}) None [] [] ["manager"])
    (BServiceAccount ["token"] ["mine"; "injected"] "").

Lemma merge_converges_witness :
  exists e' n, ServiceAccountForUpdate (IObj example_stored) (IObj (example_sa None ["mine"]))
      = Ret (mkMergeResult (IObj e') (IObj n) None) /\
    compare_Object (IObj e') (IObj n) = (true, None).
Proof.
  eapply (merge_converges ServiceAccountForUpdate complete_account TServiceAccount
            (example_sa (Some {["a" := "1"]}) ["injected"])).
  - constructor.
  - split; [done|by right; right].
  - done.
  - vm_compute. reflexivity.
  - vm_compute. reflexivity.
Defined.

Lemma mergeable_refl d : mergeable d d.
Proof. split; [done|by right; right]. Qed.

Lemma merge_maps_self m : snd (merge_maps m m) = m.
Proof.
  unfold merge_maps. simpl. case_decide as E; [done|]. destruct m as [m|]; [|done].
  by rewrite (idemp_L (∪)).
Qed.

(** An object merged into itself is itself. *)
Lemma merged_self M f t d : merger_for M f t -> merged d (completed f d d) = d.
Proof.
  intros HM. destruct d as [av k m b]. unfold merged, completed, merged_meta. cbn [obj_Meta obj_with_Body obj_Body
    obj_APIVersion obj_Kind]. rewrite !merge_maps_self. f_equal; [by destruct m|].
  destruct HM, b as [| |[ip ips fam pol o] st|s p r| | | | | | | | |]; try done.
  - unfold complete_account. rewrite pull_secrets_filter. simpl.
    by rewrite pull_secrets_self, app_nil_r.
  - simpl. unfold preserveIPConfigurations. simpl. repeat f_equal.
    + by case_decide.
    + by destruct ips.
    + by destruct fam.
    + by destruct pol.
Qed.

(** ** Metadata drift *)

(** When the current object already has a label map and an annotation map,
    a desired object that differs from it in labels and annotations only compares
    equal after the merge: the current object's maps were extended in place before
    the comparison, so the difference is not seen and no update is sent. *)
Lemma ObjectForUpdate_hides_metadata_drift cur upd lc ac :
  mergeable cur upd ->
  om_Labels (obj_Meta cur) = Some lc -> om_Annotations (obj_Meta cur) = Some ac ->
  sem_eq (obj_with_Meta (om_set_Labels None (om_set_Annotations None (om_copy_server (obj_Meta cur) (obj_Meta upd))))
            (obj_with_Body (with_status_of (obj_Body cur) (obj_Body upd)) upd))
         (obj_with_Meta (om_set_Labels None (om_set_Annotations None (obj_Meta cur))) cur) ->
  exists cur' m, ObjectForUpdate (IObj cur) (IObj upd) = Ret (mkMergeResult (IObj cur') (IObj m) None) /\
    compare_Object (IObj cur') (IObj m) = (true, None) /\
    map_of (om_Labels (obj_Meta m)) = map_of (om_Labels (obj_Meta upd)) ∪ lc.
Proof.
  intros Hm Hl Ha Heq. do 2 eexists. split; [by apply ObjectForUpdate_ok|].
  split; [|apply (eq_trans (map_of_merged _ _)); unfold merged_map; by rewrite Hl].
  unfold compare_Object, Semantic_DeepEqual. rewrite bool_decide_true; [done|].
  unfold sem_eq, canon in *.
  pose proof (f_equal obj_APIVersion Heq) as H1. pose proof (f_equal obj_Kind Heq) as H2.
  pose proof (f_equal obj_Meta Heq) as H3. pose proof (f_equal obj_Body Heq) as H4. simpl in H1, H2, H3, H4.
  f_equal; [done|done| |done]. cbn [obj_Meta left_behind merged obj_with_Meta].
  apply canon_meta_eq; cbn [om_Labels om_Annotations left_meta merged_meta om_set_Labels om_set_Annotations].
  - by rewrite map_of_merged, Hl, map_of_left.
  - by rewrite map_of_merged, Ha, map_of_left.
  - unfold canon_meta, canon_map in H3. unfold om_set_Labels, om_set_Annotations in *. simpl in *. congruence.
Qed.
