(* ===== verification/Cluster.v ===== *)
(** * The cluster client

    The operations of the Kubernetes client the operator calls, as an interface
    over a type of clusters [W], the documented laws its users rely on, and an
    in-memory cluster that has them. *)
From S2P Require Import Prelude GoErrors Meta Selectors ApiV1 Conditions Steps Trees Workload Objects MergeSpec.

(** ** The interface *)

(** Reads do not change the cluster; writes return the cluster they leave and
    the error, if any. *)
Class Client (W : Type) := {
  cli_Get : W -> gotype -> NamespacedName -> Object + error;
  cli_List : W -> gotype -> option string -> list Object + error;
  cli_Create : W -> Object -> W * option error;
  cli_Update : W -> Object -> W * option error;
  cli_Delete : W -> Object -> W * option error;
  cli_GetNRO : W -> NamespacedName -> NUMAResourcesOperator + error;
  cli_ListNRO : W -> list NUMAResourcesOperator + error;
  cli_GetMCP : W -> NamespacedName -> MachineConfigPool + error;
  cli_ListMCP : W -> list MachineConfigPool + error;
  cli_PatchStatus : W -> NUMAResourcesOperator -> NUMAResourcesOperator -> W * option error;
}.

(** What an object is stored under. *)
Definition obj_id (o : Object) : gotype * NamespacedName := (obj_type o, obj_key o).

(** The group, version and kind each type is served under. *)
Definition gvk_of (t : gotype) : string * string :=
  match t with
  | TDaemonSet => ("apps/v1", "DaemonSet")
  | TDeployment => ("apps/v1", "Deployment")
  | TService => ("v1", "Service")
  | TServiceAccount => ("v1", "ServiceAccount")
  | TCustomResourceDefinition => ("apiextensions.k8s.io/v1", "CustomResourceDefinition")
  | TRole => ("rbac.authorization.k8s.io/v1", "Role")
  | TRoleBinding => ("rbac.authorization.k8s.io/v1", "RoleBinding")
  | TClusterRole => ("rbac.authorization.k8s.io/v1", "ClusterRole")
  | TClusterRoleBinding => ("rbac.authorization.k8s.io/v1", "ClusterRoleBinding")
  | TNetworkPolicy => ("networking.k8s.io/v1", "NetworkPolicy")
  | TSecurityContextConstraints => ("security.openshift.io/v1", "SecurityContextConstraints")
  | TMachineConfig => ("machineconfiguration.openshift.io/v1", "MachineConfig")
  | TConfigMap => ("v1", "ConfigMap")
  end.

(** The type metadata of a typed object: absent, or that of its type. *)
Definition kind_ok (o : Object) : Prop :=
  obj_Kind o = "" \/ (obj_APIVersion o, obj_Kind o) = gvk_of (obj_type o).
#[global] Instance kind_ok_dec o : Decision (kind_ok o).
Proof. unfold kind_ok. apply _. Defined.

(** The laws, for a cluster that answers reads ([healthy]): a read gives an
    object of the type, kind and name asked for, a listing objects of the type; a write that succeeds is seen by the
    next read of that object, up to server-owned fields and status; no write
    touches another object; a write that fails changes nothing; patching the
    status of the instance touches no other object. *)
Class ClientLaws (W : Type) `{!Client W} (healthy : W -> Prop) := {
  law_get_id w t k o : healthy w -> cli_Get w t k = inl o -> obj_id o = (t, k);
  law_get_kind w t k o : healthy w -> cli_Get w t k = inl o -> kind_ok o;
  law_list_type w t ns l : healthy w -> cli_List w t ns = inl l -> Forall (fun o => obj_type o = t) l;
  law_create_get w o w' : healthy w -> cli_Create w o = (w', None) ->
    exists o', cli_Get w' (obj_type o) (obj_key o) = inl o' /\ stored_as o' o;
  law_update_get w o w' : healthy w -> cli_Update w o = (w', None) ->
    exists o', cli_Get w' (obj_type o) (obj_key o) = inl o' /\ stored_as o' o;
  law_delete_get w o w' : healthy w -> cli_Delete w o = (w', None) ->
    exists e, cli_Get w' (obj_type o) (obj_key o) = inr e /\ IsNotFound e = true;
  law_write w o w' err :
    cli_Create w o = (w', err) \/ cli_Update w o = (w', err) \/ cli_Delete w o = (w', err) ->
    (healthy w -> healthy w') /\
    (forall t k, (t, k) <> obj_id o -> cli_Get w' t k = cli_Get w t k) /\
    (err <> None -> w' = w);
  law_patch w i i' t k : cli_Get (fst (cli_PatchStatus w i i')) t k = cli_Get w t k;
}.

(** One write, whatever its outcome. *)
Definition one_write `{!Client W} (w w' : W) : Prop :=
  exists o, w' = fst (cli_Create w o) \/ w' = fst (cli_Update w o) \/ w' = fst (cli_Delete w o).

(** A cluster that takes every legitimate write ([willing]): it answers reads, or
    tells that the object is absent; it creates what is absent, updates what is
    there, whose status a write that repeats it keeps, and deletes what is there;
    it goes on doing so. *)
Class WillingLaws (W : Type) `{!Client W} (healthy willing : W -> Prop) := {
  law_willing_healthy w : willing w -> healthy w;
  law_willing_absent w t k e : willing w -> cli_Get w t k = inr e -> IsNotFound e = true;
  law_willing_write w w' : willing w -> one_write w w' -> willing w';
  law_willing_create w o e : willing w -> kind_ok o -> cli_Get w (obj_type o) (obj_key o) = inr e ->
    snd (cli_Create w o) = None;
  law_willing_update w o cur : willing w -> kind_ok o -> cli_Get w (obj_type o) (obj_key o) = inl cur ->
    snd (cli_Update w o) = None /\
    (with_status_of (obj_Body cur) (obj_Body o) = obj_Body o ->
     exists o', cli_Get (fst (cli_Update w o)) (obj_type o) (obj_key o) = inl o' /\
       with_status_of (obj_Body cur) (obj_Body o') = obj_Body o');
  law_willing_delete w o cur : willing w -> cli_Get w (obj_type o) (obj_key o) = inl cur -> snd (cli_Delete w o) = None }.

(** Such a cluster has the operator's instances too: writing an object leaves them
    alone, and the status of one it has, stored under its name, can be patched. *)
Class NROWillingLaws (W : Type) `{!Client W} (willing : W -> Prop) := {
  law_write_nro w w' k : one_write w w' -> cli_GetNRO w' k = cli_GetNRO w k;
  law_willing_patch_nro w req i i' : willing w -> cli_GetNRO w req = inl i -> nro_Meta i' = nro_Meta i ->
    exists w', cli_PatchStatus w i i' = (w', None) /\ willing w' }.

(** Typed objects of one type can be merged. *)
Lemma kinds_mergeable o d : obj_type o = obj_type d -> kind_ok o -> kind_ok d -> mergeable o d.
Proof.
  intros Ht Hk Hd. split; [done|]. unfold kind_ok in *. rewrite Ht in Hk.
  destruct Hk as [?|Hk]; [by left|]. destruct Hd as [?|Hd]; [by right; left|]. right; right.
  rewrite <-Hd in Hk. by injection Hk.
Qed.

(** An object read under the name of a desired one can be merged with it. *)
Lemma read_mergeable `{!Client W} healthy `{!ClientLaws W healthy} w d o :
  healthy w -> kind_ok d -> cli_Get w (obj_type d) (obj_key d) = inl o -> mergeable o d.
Proof.
  intros Hh Hd Hg. apply kinds_mergeable; [|by apply (law_get_kind _ _ _ _ Hh Hg)|done].
  exact (f_equal fst (law_get_id _ _ _ _ Hh Hg)).
Qed.

(** ** An in-memory cluster

    It refuses objects of another kind than their type. *)

#[global] Instance gotype_countable : Countable gotype.
Proof.
  refine (inj_countable'
    (fun t => match t with
     | TDaemonSet => 0 | TDeployment => 1 | TService => 2 | TServiceAccount => 3
     | TCustomResourceDefinition => 4 | TRole => 5 | TRoleBinding => 6 | TClusterRole => 7
     | TClusterRoleBinding => 8 | TNetworkPolicy => 9 | TSecurityContextConstraints => 10
     | TMachineConfig => 11 | TConfigMap => 12 end%nat)
    (fun n => match n with
     | 0 => TDaemonSet | 1 => TDeployment | 2 => TService | 3 => TServiceAccount
     | 4 => TCustomResourceDefinition | 5 => TRole | 6 => TRoleBinding | 7 => TClusterRole
     | 8 => TClusterRoleBinding | 9 => TNetworkPolicy | 10 => TSecurityContextConstraints
     | 11 => TMachineConfig | _ => TConfigMap end%nat) _).
  by intros [].
Defined.

(** [st_fault] injects failures, by verb and object type. *)
Inductive verb := VGet | VList | VCreate | VUpdate | VDelete | VPatch.

Record Store := mkStore {
  st_objects : gmap (gotype * NamespacedName) Object;
  st_nros : gmap NamespacedName NUMAResourcesOperator;
  st_mcps : list MachineConfigPool;
  st_fault : verb -> gotype -> option error }.

Definition st_with_objects (m : gmap (gotype * NamespacedName) Object) (s : Store) : Store :=
  mkStore m (st_nros s) (st_mcps s) (st_fault s).

Definition store_get (s : Store) (t : gotype) (k : NamespacedName) : Object + error :=
  match st_fault s VGet t with
  | Some e => inr e
  | None => match st_objects s !! (t, k) with
            | Some o => inl o
            | None => inr (NewNotFound (nn_String k))
            end
  end.

Definition store_list (s : Store) (t : gotype) (ns : option string) : list Object + error :=
  match st_fault s VList t with
  | Some e => inr e
  | None =>
      inl (filter (fun o => obj_type o = t /\ default (obj_Namespace o) ns = obj_Namespace o)
             (snd <$> map_to_list (st_objects s)))
  end.

Definition store_create (s : Store) (o : Object) : Store * option error :=
  match st_fault s VCreate (obj_type o), st_objects s !! obj_id o with
  | Some e, _ => (s, Some e)
  | None, Some _ => (s, Some (ErrStatus "AlreadyExists" 409 "already exists"))
  | None, None =>
      if decide (kind_ok o) then (st_with_objects (<[obj_id o := o]> (st_objects s)) s, None)
      else (s, Some (ErrStatus "BadRequest" 400 "wrong kind"))
  end.

Definition store_update (s : Store) (o : Object) : Store * option error :=
  match st_fault s VUpdate (obj_type o), st_objects s !! obj_id o with
  | Some e, _ => (s, Some e)
  | None, None => (s, Some (NewNotFound (nn_String (obj_key o))))
  | None, Some _ =>
      if decide (kind_ok o) then (st_with_objects (<[obj_id o := o]> (st_objects s)) s, None)
      else (s, Some (ErrStatus "BadRequest" 400 "wrong kind"))
  end.

Definition store_delete (s : Store) (o : Object) : Store * option error :=
  match st_fault s VDelete (obj_type o), st_objects s !! obj_id o with
  | Some e, _ => (s, Some e)
  | None, None => (s, Some (NewNotFound (nn_String (obj_key o))))
  | None, Some _ => (st_with_objects (delete (obj_id o) (st_objects s)) s, None)
  end.

Definition store_get_nro (s : Store) (k : NamespacedName) : NUMAResourcesOperator + error :=
  match st_nros s !! k with
  | Some i => inl i
  | None => inr (NewNotFound (nn_String k))
  end.

Definition store_get_mcp (s : Store) (k : NamespacedName) : MachineConfigPool + error :=
  match filter (fun m => mcp_Name m = nn_Name k) (st_mcps s) with
  | m :: _ => inl m
  | [] => inr (NewNotFound (nn_String k))
  end.

(** The status subresource: the stored object gets the new status. *)
Definition store_patch (s : Store) (initial instance : NUMAResourcesOperator) : Store * option error :=
  let k := om_key (nro_Meta instance) in
  match st_nros s !! k with
  | Some i =>
      (mkStore (st_objects s) (<[k := mkNRO (nro_Meta i) (nro_Spec i) (nro_Status instance)]> (st_nros s))
         (st_mcps s) (st_fault s), None)
  | None => (s, Some (NewNotFound (nn_String k)))
  end.

#[global] Instance store_client : Client Store := {|
  cli_Get := store_get;
  cli_List := store_list;
  cli_Create := store_create;
  cli_Update := store_update;
  cli_Delete := store_delete;
  cli_GetNRO := store_get_nro;
  cli_ListNRO s := inl (snd <$> map_to_list (st_nros s));
  cli_GetMCP := store_get_mcp;
  cli_ListMCP s := inl (st_mcps s);
  cli_PatchStatus := store_patch;
|}.

Definition answers_reads (s : Store) : Prop :=
  (forall t, st_fault s VGet t = None) /\ map_Forall (fun id o => obj_id o = id /\ kind_ok o) (st_objects s).

Lemma answers_reads_check s :
  (forall t, st_fault s VGet t = None) ->
  forallb (fun '(id, o) => bool_decide (obj_id o = id /\ kind_ok o)) (map_to_list (st_objects s)) = true -> answers_reads s.
Proof.
  intros Hf Hm. split; [done|]. intros id o Ho.
  rewrite forallb_forall in Hm. apply elem_of_map_to_list, list_elem_of_In, Hm in Ho.
  by apply bool_decide_eq_true in Ho.
Qed.

Lemma store_get_insert s o :
  answers_reads s ->
  store_get (st_with_objects (<[obj_id o := o]> (st_objects s)) s) (obj_type o) (obj_key o) = inl o.
Proof. intros [H _]. unfold store_get. simpl. rewrite H. unfold obj_id. by rewrite lookup_insert_eq. Qed.

Lemma store_write_objects s o s' err :
  store_create s o = (s', err) \/ store_update s o = (s', err) \/ store_delete s o = (s', err) ->
  (s' = s \/ err = None /\
     (kind_ok o /\ s' = st_with_objects (<[obj_id o := o]> (st_objects s)) s
      \/ s' = st_with_objects (delete (obj_id o) (st_objects s)) s)).
Proof.
  unfold store_create, store_update, store_delete.
  intros [H|[H|H]]; repeat case_match; simplify_eq; auto.
Qed.

#[global] Instance store_laws : ClientLaws Store answers_reads.
Proof.
  split; simpl.
  - intros s t k o [Hf Hm] E. unfold store_get in E. rewrite Hf in E.
    destruct (st_objects s !! (t, k)) eqn:Ho; simplify_eq. by apply Hm.
  - intros s t k o [Hf Hm] E. unfold store_get in E. rewrite Hf in E.
    destruct (st_objects s !! (t, k)) eqn:Ho; simplify_eq. by apply (Hm _ _ Ho).
  - intros s t ns l _ E. unfold store_list in E. destruct (st_fault s VList t); [done|]. injection E as <-.
    apply Forall_forall. by intros o [[? _] _]%list_elem_of_filter.
  - intros s o s' H E. unfold store_create in E. repeat case_match; simplify_eq.
    exists o. split; [by apply store_get_insert|apply stored_as_refl].
  - intros s o s' H E. unfold store_update in E. repeat case_match; simplify_eq.
    exists o. split; [by apply store_get_insert|apply stored_as_refl].
  - intros s o s' [H _] E. unfold store_delete in E. repeat case_match; simplify_eq.
    eexists. unfold store_get. simpl. rewrite H. unfold obj_id. rewrite lookup_delete_eq. auto with nro.
  - intros s o s' err [->|[-> [[Hko ->]| ->]]]%store_write_objects; [by auto| |].
    all: split; [intros [Hf Hm]; split; [done|]|split; [|done]; intros t k Hk; unfold store_get; simpl].
    + by apply map_Forall_insert_2.
    + by rewrite lookup_insert_ne.
    + by apply map_Forall_delete.
    + by rewrite lookup_delete_ne.
  - intros s i i' t k. unfold store_patch. by case_match.
Qed.

(** A write changes the objects at most. *)
Lemma store_one_write s s' : one_write s s' -> exists m, s' = st_with_objects m s.
Proof.
  intros [o Ho].
  assert (exists err, store_create s o = (s', err) \/ store_update s o = (s', err) \/ store_delete s o = (s', err)) as [err E].
  { destruct Ho as [->|[->| ->]]; eexists; [left|right; left|right; right]; apply surjective_pairing. }
  apply store_write_objects in E as [->|[_ [[_ ->]| ->]]]; [exists (st_objects s); by destruct s|by eexists..].
Qed.

(** No failure is injected. *)
Definition takes_objects (s : Store) : Prop := answers_reads s /\ forall v t, st_fault s v t = None.

Lemma store_write_reads s s' : takes_objects s -> one_write s s' -> takes_objects s'.
Proof.
  intros [Hr Hf] Hw. destruct (store_one_write s s' Hw) as [m E]. split; [|by rewrite E]. clear E. destruct Hw as [o Ho].
  destruct Ho as [->|[->| ->]];
    [pose proof (law_write s o _ _ (or_introl (surjective_pairing (cli_Create s o)))) as Hl
    |pose proof (law_write s o _ _ (or_intror (or_introl (surjective_pairing (cli_Update s o))))) as Hl
    |pose proof (law_write s o _ _ (or_intror (or_intror (surjective_pairing (cli_Delete s o))))) as Hl]; by apply Hl.
Qed.

#[global] Instance store_takes_objects : WillingLaws Store answers_reads takes_objects.
Proof.
  split.
  - by intros s [H _].
  - intros s t k e (_ & Hf) E. simpl in E. unfold store_get in E. rewrite Hf in E. case_match; simplify_eq.
    apply IsNotFound_NewNotFound.
  - exact store_write_reads.
  - intros s o e (Hr & Hf) Hk E. simpl in *. unfold store_get in E. unfold store_create, obj_id. rewrite Hf in *.
    destruct (st_objects s !! (obj_type o, obj_key o)); [done|]. by rewrite decide_True.
  - intros s o cur (Hr & Hf) Hk E. simpl in *. unfold store_get in E. unfold store_update. rewrite Hf in *.
    change (obj_type o, obj_key o) with (obj_id o) in E. destruct (st_objects s !! obj_id o) as [o1|]; [|done].
    rewrite decide_True by done. split; [done|]. intros Hst. exists o. split; [by apply store_get_insert|done].
  - intros s o cur (Hr & Hf) E. simpl in *. unfold store_get in E. unfold store_delete. rewrite Hf in *.
    change (obj_type o, obj_key o) with (obj_id o) in E. by destruct (st_objects s !! obj_id o).
Qed.

(** The laws survive a further requirement that no write affects. *)
Lemma willing_strengthen `{!Client W} healthy willing (P : W -> Prop) :
  WillingLaws W healthy willing -> (forall w w', one_write w w' -> P w -> P w') ->
  WillingLaws W healthy (fun w => willing w /\ P w).
Proof.
  intros H HP. split.
  - intros w [Hw _]. by apply law_willing_healthy.
  - intros w t k e [Hw _]. by apply law_willing_absent.
  - intros w w' [Hw Hp] Ho. split; [by apply (law_willing_write w)|by apply (HP w)].
  - intros w o e [Hw _]. by apply law_willing_create.
  - intros w o cur [Hw _]. by apply law_willing_update.
  - intros w o cur [Hw _]. by apply law_willing_delete.
Qed.

(** The instances are stored under their names. *)
Definition takes_writes (s : Store) : Prop :=
  takes_objects s /\ map_Forall (fun k i => om_key (nro_Meta i) = k) (st_nros s).

#[global] Instance store_willing : WillingLaws Store answers_reads takes_writes.
Proof. apply willing_strengthen; [apply _|]. intros s s' Hw Hi. by destruct (store_one_write s s' Hw) as [m ->]. Qed.

#[global] Instance store_nro_willing : NROWillingLaws Store takes_writes.
Proof.
  split.
  - intros s s' k Hw. by destruct (store_one_write s s' Hw) as [m ->].
  - intros s req i i' [[Hr Hf] Hi] E Hm. simpl in *. unfold store_get_nro in E. unfold store_patch.
    destruct (st_nros s !! req) as [i1|] eqn:Ei; [|done]. injection E as ->.
    assert (om_key (nro_Meta i') = req) as -> by (rewrite Hm; by apply (Hi req i)).
    rewrite Ei. eexists. split; [reflexivity|]. split; [by split|]. simpl.
    apply map_Forall_insert_2; [by apply (Hi req i)|done].
Qed.
