(* ===== verification/Apply.v ===== *)
(** * Applying object states to the cluster (pkg/apply)

    [ApplyObject] creates an object that was not found and updates one whose
    merge with the desired object differs from it; [ApplyState] also deletes. *)
From S2P Require Import Prelude GoErrors Meta ApiV1 Workload Objects MergeSpec Cluster.

(** [schema.GroupVersionKind.String()], from the type metadata. *)
Definition gvk_String (o : Object) : string :=
  match split2 "/" (obj_APIVersion o) with
  | (v, None) => "/" +:+ v +:+ ", Kind=" +:+ obj_Kind o
  | (g, Some v) => g +:+ "/" +:+ v +:+ ", Kind=" +:+ obj_Kind o
  end.

Definition ErrDescribeNil : error := ErrNew "cannot describe nil object".

Definition describeObject (obj : iface) : go (string * option error) :=
  if iface_is_nil obj then Ret ("", Some ErrDescribeNil)
  else
    let! o := iface_deref obj in
    if decide (obj_Name o = "")
    then Ret ("", Some (ErrNew ("Object " +:+ gvk_String o +:+ " has no name")))
    else Ret ("(" +:+ gvk_String o +:+ ") " +:+ obj_Namespace o +:+ "/" +:+ obj_Name o, None).

Section Apply.
Context {W : Type} `{!Client W}.

(** A write through the client dereferences the object. *)
Definition write (f : W -> Object -> W * option error) (w : W) (obj : iface) : go (W * option error) :=
  let! o := iface_deref obj in Ret (f w o).

Definition ApplyObject (w : W) (objState : ObjectState) : go (W * (iface * bool * option error)) :=
  let! (objDesc, _) := describeObject (os_Desired objState) in
  if IsNotFoundError objState then
    let! (w, err) := write cli_Create w (os_Desired objState) in
    match err with
    | Some err => Ret (w, (INil, false, Some (ErrWrap ("could not create object " +:+ objDesc +:+ ": ") err)))
    | None => Ret (w, (os_Desired objState, true, None))
    end
  else
    let! merge := deref "Merge" (os_Merge objState) in
    let! r := merge (os_Existing objState) (os_Desired objState) in
    match mr_err r with
    | Some err =>
        Ret (w, (INil, false, Some (ErrWrap ("could not merge object " +:+ objDesc +:+ " with existing: ") err)))
    | None =>
        let merged := mr_updated r in
        let! compare := deref "Compare" (os_Compare objState) in
        match compare (mr_current r) merged with
        | (_, Some err) =>
            Ret (w, (INil, false,
                     Some (ErrWrap ("could not compare object " +:+ objDesc +:+ " with existing: ") err)))
        | (true, None) => Ret (w, (merged, false, None))
        | (false, None) =>
            let! (w, err) := write cli_Update w merged in
            match err with
            | Some err =>
                Ret (w, (INil, false, Some (ErrWrap ("could not update object " +:+ objDesc +:+ ": ") err)))
            | None => Ret (w, (merged, true, None))
            end
        end
    end.

Definition ApplyState (w : W) (objState : ObjectState) : go (W * (iface * bool * option error)) :=
  if negb (IsCreateOrUpdate objState) then
    if IsNotFoundError objState then Ret (w, (INil, false, None))
    else if iface_is_nil (os_Existing objState) then
      Ret (w, (INil, false, Some (ErrNew "inconsistent internal state: delete desired, but nil existing object")))
    else
      let! (objDesc, _) := describeObject (os_Existing objState) in
      let! (w, err) := write cli_Delete w (os_Existing objState) in
      match err with
      | Some err => Ret (w, (INil, false, Some (ErrWrap ("could not delete object " +:+ objDesc +:+ ": ") err)))
      | None => Ret (w, (os_Existing objState, true, None))
      end
  else ApplyObject w objState.

(** ** Loading a state *)

(** A [Get] into a new object, kept only when it succeeds. *)
Definition load (w : W) (t : gotype) (k : NamespacedName) : option Object * option error :=
  match cli_Get w t k with
  | inl o => (Some o, None)
  | inr e => (None, Some e)
  end.

(** The state every per-object entry of the state tables has. *)
Definition state_of (w : W) (t : gotype) (desired : Object) (merge : iface -> iface -> go merge_result)
  : ObjectState :=
  let '(existing, err) := load w t (obj_key desired) in
  mkObjectState (iface_of_ptr t existing) (IObj desired) err None (Some compare_Object) (Some merge).

(** ** Theorems *)

Lemma describe_obj o : exists d, describeObject (IObj o) = Ret d.
Proof. unfold describeObject. simpl. case_decide; eauto. Qed.

Lemma ApplyObject_create w s d e :
  os_Desired s = IObj d -> os_Error s = Some e -> IsNotFound e = true ->
  exists r, ApplyObject w s = Ret (fst (cli_Create w d), r) /\
    (snd (cli_Create w d) = None -> r = (IObj d, true, None)) /\
    (snd r = None -> snd (cli_Create w d) = None).
Proof.
  intros Hd He Hn. unfold ApplyObject, IsNotFoundError. rewrite Hd, He, Hn.
  destruct (describe_obj d) as [[ds de] ->]. simpl. destruct (cli_Create w d) as [w' [err|]]; simpl;
    (eexists; split; [done|]); split; done.
Qed.

Lemma ApplyObject_merge w s d o m c :
  os_Desired s = IObj d -> os_Error s = None -> os_Existing s = IObj o ->
  os_Compare s = Some compare_Object ->
  os_Merge s ≫= (fun f => Some (f (IObj o) (IObj d))) = Some (Ret (mkMergeResult (IObj c) (IObj m) None)) ->
  exists r, ApplyObject w s = Ret (if decide (sem_eq c m) then w else fst (cli_Update w m), r) /\
    (sem_eq c m -> r = (IObj m, false, None)) /\
    (~ sem_eq c m -> snd (cli_Update w m) = None -> r = (IObj m, true, None)) /\
    (~ sem_eq c m -> snd r = None -> snd (cli_Update w m) = None).
Proof.
  intros Hd He Ho Hc Hm. unfold ApplyObject, IsNotFoundError. rewrite Hd, He, Ho, Hc.
  destruct (describe_obj d) as [[ds de] ->]. destruct (os_Merge s) as [f|]; [|done]. simpl in Hm |- *.
  injection Hm as ->. simpl.
  destruct (decide (sem_eq c m)) as [E|E];
    [rewrite (bool_decide_eq_true_2 _ E)|rewrite (bool_decide_eq_false_2 _ E)].
  - eexists. split; [done|]. split; [done|]. split; intros Hn; by destruct Hn.
  - destruct (cli_Update w m) as [w' [err|]]; simpl; eexists;
      (split; [done|split; [done|]]); split; done.
Qed.

Lemma state_of_found w t d merge o :
  cli_Get w t (obj_key d) = inl o ->
  state_of w t d merge
  = mkObjectState (IObj o) (IObj d) None None (Some compare_Object) (Some merge).
Proof. intros Hg. unfold state_of, load. by rewrite Hg. Qed.

Lemma state_of_missing w t d merge e :
  cli_Get w t (obj_key d) = inr e ->
  state_of w t d merge
  = mkObjectState (ITypedNil t) (IObj d) (Some e) None (Some compare_Object) (Some merge).
Proof. intros Hg. unfold state_of, load. by rewrite Hg. Qed.

(** a state whose object was not found is created as desired, and nothing
    else is written; the result reports the change. *)
Theorem ApplyObject_creates w t d merge e :
  cli_Get w t (obj_key d) = inr e -> IsNotFound e = true ->
  exists r, ApplyObject w (state_of w t d merge) = Ret (fst (cli_Create w d), r) /\
    (snd (cli_Create w d) = None -> r = (IObj d, true, None)) /\
    (snd r = None -> snd (cli_Create w d) = None).
Proof.
  intros Hg Hn. rewrite (state_of_missing _ _ _ _ _ Hg). by apply (ApplyObject_create _ _ _ e).
Qed.

Lemma ApplyObject_found w t d M f o :
  merger_for M f t -> mergeable o d -> obj_type d = t ->
  cli_Get w t (obj_key d) = inl o ->
  exists r,
    ApplyObject w (state_of w t d M)
    = Ret (if decide (sem_eq (left_behind o d) (merged o (completed f o d))) then w
           else fst (cli_Update w (merged o (completed f o d))), r) /\
    (sem_eq (left_behind o d) (merged o (completed f o d)) ->
       r = (IObj (merged o (completed f o d)), false, None)) /\
    (~ sem_eq (left_behind o d) (merged o (completed f o d)) ->
       snd (cli_Update w (merged o (completed f o d))) = None ->
       r = (IObj (merged o (completed f o d)), true, None)) /\
    (~ sem_eq (left_behind o d) (merged o (completed f o d)) ->
       snd r = None -> snd (cli_Update w (merged o (completed f o d))) = None).
Proof.
  intros HM Hm Ht Hg. rewrite (state_of_found _ _ _ _ _ Hg).
  apply (ApplyObject_merge _ _ d o); try done. simpl. by rewrite (merger_ok _ _ _ _ _ HM Hm Ht).
Qed.

Context (healthy : W -> Prop) `{!ClientLaws W healthy}.

(** Under the name of [d] the cluster holds an object that merging with [d] does not
    change: there is no update to make. *)
Definition kept (f : Body -> Body -> Body) (w : W) (d : Object) : Prop :=
  exists e, cli_Get w (obj_type d) (obj_key d) = inl e /\ mergeable e d /\
    sem_eq (left_behind e d) (merged e (completed f e d)).

Lemma kept_frame f w w' d :
  cli_Get w' (obj_type d) (obj_key d) = cli_Get w (obj_type d) (obj_key d) -> kept f w d -> kept f w' d.
Proof. intros E (e & Hg & H). exists e. by rewrite E. Qed.

(** Applying such an object writes nothing. *)
Lemma kept_noop w d M f :
  merger_for M f (obj_type d) -> kept f w d ->
  exists m, ApplyObject w (state_of w (obj_type d) d M) = Ret (w, (m, false, None)).
Proof.
  intros HM (e & Hg & Hm & Hs). destruct (ApplyObject_found w _ d M f e HM Hm eq_refl Hg) as (r & -> & Hr & _).
  rewrite decide_True by done. rewrite Hr by done. by eexists.
Qed.

(** An object that is stored is kept. *)
Lemma stored_kept w d M f cur e :
  merger_for M f (obj_type d) -> mergeable cur d ->
  cli_Get w (obj_type d) (obj_key d) = inl e -> stored_as e (merged cur (completed f cur d)) -> kept f w d.
Proof.
  intros HM Hm Hg He. exists e. split; [done|]. split; [|by apply (merged_stored_sem_eq M f (obj_type d) cur)].
  apply (stored_mergeable e _ d He); [|done|done]. unfold obj_type, merged. simpl.
  rewrite with_status_type. apply (complete_type M f _ cur d HM).
Qed.

(** A successful application leaves the object kept. *)
Lemma ApplyObject_kept w w1 o1 ch d M f :
  healthy w -> merger_for M f (obj_type d) ->
  match cli_Get w (obj_type d) (obj_key d) with
  | inl o => mergeable o d
  | inr e => IsNotFound e = true
  end ->
  ApplyObject w (state_of w (obj_type d) d M) = Ret (w1, (o1, ch, None)) ->
  kept f w1 d.
Proof.
  intros Hh HM Hread Happ. destruct (cli_Get w (obj_type d) (obj_key d)) as [o|e] eqn:Hg.
  - destruct (ApplyObject_found w _ d M f o HM Hread eq_refl Hg) as (r & Hr & _ & _ & Hok).
    rewrite Hr in Happ. injection Happ as Hw Hrv. rewrite Hrv in Hok. case_decide as Hs.
    + subst w1. by exists o.
    + specialize (Hok Hs eq_refl). destruct (cli_Update _ _) as [w' err] eqn:Hu. simpl in *. subst.
      destruct (law_update_get _ _ _ Hh Hu) as (o' & Hg' & Hst).
      apply (stored_kept w1 d M f o o'); [done|done| |done].
      rewrite <-Hg'. f_equal. unfold obj_type, merged. simpl. rewrite with_status_type.
      symmetry. apply (complete_type M f _ o d HM).
  - rewrite (state_of_missing _ _ _ _ _ Hg) in Happ.
    destruct (ApplyObject_create w (mkObjectState (ITypedNil (obj_type d)) (IObj d) (Some e) None
                (Some compare_Object) (Some M)) d e eq_refl eq_refl Hread) as (r & Hr & _ & Hok).
    rewrite Hr in Happ. injection Happ as Hw Hrv. rewrite Hrv in Hok. specialize (Hok eq_refl).
    destruct (cli_Create w d) as [w' err] eqn:Hc. simpl in *. subst.
    destruct (law_create_get _ _ _ Hh Hc) as (o' & Hg' & Hst).
    apply (stored_kept w1 d M f d o'); [done|apply mergeable_refl|done|].
    by rewrite (merged_self M f (obj_type d)).
Qed.

(** applying the same desired object twice, reading the cluster before
    each application, settles: whether the first one created the object, updated
    it or left it alone, when it succeeded the second one writes nothing and
    reports no change. *)
Theorem ApplyObject_settles w w1 o1 ch t d M f :
  healthy w -> merger_for M f t -> obj_type d = t ->
  match cli_Get w t (obj_key d) with
  | inl o => mergeable o d
  | inr e => IsNotFound e = true
  end ->
  ApplyObject w (state_of w t d M) = Ret (w1, (o1, ch, None)) ->
  exists o2, ApplyObject w1 (state_of w1 t d M) = Ret (w1, (o2, false, None)).
Proof.
  intros Hh HM <- Hread Happ. apply (kept_noop w1 d M f HM). by apply (ApplyObject_kept w w1 o1 ch d M f Hh HM Hread).
Qed.

End Apply.

(** ** Deletion, and the loads that fail

    The remaining claims and the witnesses run on the in-memory cluster. *)

Section Failures.
Context {W : Type} `{!Client W}.

(** The state that asks for the deletion of an object read from the cluster. *)
Definition delete_state (w : W) (t : gotype) (k : NamespacedName) : ObjectState :=
  let '(existing, err) := load w t k in
  mkObjectState (iface_of_ptr t existing) INil err None None None.

(** Asking for a deletion deletes exactly the object that was read, does
    nothing when the object was not found, and panics on a nil pointer when the
    read failed for any other reason: the existing object is then a typed nil
    pointer, which the check for a nil interface lets through. *)
Lemma ApplyState_delete w t k :
  match cli_Get w t k with
  | inl o => exists r, ApplyState w (delete_state w t k) = Ret (fst (cli_Delete w o), r) /\
               (snd (cli_Delete w o) = None <-> r = (IObj o, true, None))
  | inr e => ApplyState w (delete_state w t k)
             = if IsNotFound e then Ret (w, (INil, false, None)) else Panic (NilDereference "client.Object")
  end.
Proof.
  unfold delete_state, load. destruct (cli_Get w t k) as [o|e]; simpl.
  - unfold ApplyState. simpl. destruct (describe_obj o) as [[ds de] ->]. simpl.
    destruct (cli_Delete w o) as [w' [err|]]; simpl; eexists; (split; [done|]); split; congruence.
  - unfold ApplyState, IsNotFoundError. simpl. by destruct (IsNotFound e).
Qed.

Lemma ApplyObject_failed_read w t d e :
  cli_Get w t (obj_key d) = inr e -> IsNotFound e = false ->
  ApplyObject w (state_of w t d ObjectForUpdate) = Panic (NilDereference "client.Object").
Proof.
  intros Hg Hn. rewrite (state_of_missing _ _ _ _ _ Hg). unfold ApplyObject, IsNotFoundError. simpl.
  rewrite Hn. by destruct (describe_obj d) as [[ds de] ->].
Qed.

(** a create-or-update state whose object could not be read, for a reason
    other than its absence, does not return the read error but panics: the merge
    dereferences the typed nil pointer left by the failed read. *)
Theorem ApplyObject_load_error_panics w t d e :
  cli_Get w t (obj_key d) = inr e -> IsNotFound e = false ->
  ApplyObject w (state_of w t d ObjectForUpdate) = Panic (NilDereference "client.Object").
Proof. apply ApplyObject_failed_read. Qed.

(** a desired object that differs from the one in the cluster only by labels
    and annotations is not written, although the labels the merge computed are
    not those of the cluster: the merge extended the maps of the object it is
    compared with. *)
Theorem ApplyObject_misses_metadata_drift w t d o lc ac :
  cli_Get w t (obj_key d) = inl o -> mergeable o d ->
  om_Labels (obj_Meta o) = Some lc -> om_Annotations (obj_Meta o) = Some ac ->
  sem_eq (obj_with_Meta (om_set_Labels None (om_set_Annotations None (om_copy_server (obj_Meta o) (obj_Meta d))))
            (obj_with_Body (with_status_of (obj_Body o) (obj_Body d)) d))
         (obj_with_Meta (om_set_Labels None (om_set_Annotations None (obj_Meta o))) o) ->
  exists m, ApplyObject w (state_of w t d ObjectForUpdate) = Ret (w, (IObj m, false, None)) /\
    map_of (om_Labels (obj_Meta m)) = map_of (om_Labels (obj_Meta d)) ∪ lc.
Proof.
  intros Hg Hm Hl Ha Heq. rewrite (state_of_found _ _ _ _ _ Hg).
  destruct (ObjectForUpdate_hides_metadata_drift o d lc ac Hm Hl Ha Heq) as (c & m & E & Hc & Hml).
  exists m. split; [|done]. unfold ApplyObject, IsNotFoundError. simpl.
  injection Hc as Hc. simpl in Hc. destruct (describe_obj d) as [[ds de] ->]. simpl. rewrite E. simpl. by rewrite Hc.
Qed.

End Failures.

(** ** Witnesses *)

Definition example_role (labels : option (gmap string string)) : Object :=
  mkObject "rbac.authorization.k8s.io/v1" "Role"
    (om_set_Annotations (Some ∅) (example_meta labels)) (BRole [] "rules").

Definition no_faults (v : verb) (t : gotype) : option error := None.
Definition timeouts (v : verb) (t : gotype) : option error :=
  match v with VGet => Some (ErrStatus "Timeout" 504 "timed out") | _ => None end.

Definition store_with (os : list Object) (fault : verb -> gotype -> option error) : Store :=
  mkStore (list_to_map ((fun o => (obj_id o, o)) <$> os)) ∅ [] fault.

Lemma ApplyObject_creates_witness :
  exists r, ApplyObject (store_with [] no_faults)
      (state_of (store_with [] no_faults) TServiceAccount (example_sa None []) ServiceAccountForUpdate)
    = Ret (store_with [example_sa None []] no_faults, r) /\ snd r = None.
Proof.
  destruct (ApplyObject_creates (store_with [] no_faults) TServiceAccount (example_sa None [])
              ServiceAccountForUpdate (NewNotFound "numaresources/rte")) as (r & Hr & Hok & _).
  - reflexivity.
  - reflexivity.
  - exists r. split; [exact Hr|]. rewrite Hok; reflexivity.
Defined.

(** Whether an application reported a change, and its error. *)
Definition outcome {W} (r : go (W * (iface * bool * option error))) : option (bool * option error) :=
  match r with
  | Ret (_, (_, ch, err)) => Some (ch, err)
  | Panic _ => None
  end.

Lemma ApplyObject_settles_witness :
  let w := store_with [example_sa None ["injected"]] no_faults in
  let d := example_sa (Some {["a" := "1"]}) ["mine"] in
  exists w1 o1 ch o2,
    ApplyObject w (state_of w TServiceAccount d ServiceAccountForUpdate) = Ret (w1, (o1, ch, None)) /\
    ch = true /\
    ApplyObject w1 (state_of w1 TServiceAccount d ServiceAccountForUpdate) = Ret (w1, (o2, false, None)).
Proof.
  intros w d.
  assert (outcome (ApplyObject w (state_of w TServiceAccount d ServiceAccountForUpdate)) = Some (true, None))
    as Hout by (vm_compute; reflexivity).
  destruct (ApplyObject w (state_of w TServiceAccount d ServiceAccountForUpdate))
    as [[w1 [[o1 ch] err]]|] eqn:E; [|discriminate]. injection Hout as -> ->.
  destruct (ApplyObject_settles answers_reads w w1 o1 true TServiceAccount d ServiceAccountForUpdate
              complete_account) as (o2 & H2).
  - by apply answers_reads_check.
  - constructor.
  - reflexivity.
  - assert (cli_Get w TServiceAccount (obj_key d) = inl (example_sa None ["injected"])) as ->
      by (vm_compute; reflexivity).
    split; [reflexivity|right; right; split; reflexivity].
  - exact E.
  - exists w1, o1, true, o2. auto.
Defined.

Lemma ApplyObject_load_error_panics_witness :
  let w := store_with [] timeouts in
  ApplyObject w (state_of w TCustomResourceDefinition
    (mkObject "apiextensions.k8s.io/v1" "CustomResourceDefinition" (emptyMeta "nrt" "")
       (BCustomResourceDefinition "spec" "")) ObjectForUpdate) = Panic (NilDereference "client.Object").
Proof. apply (ApplyObject_load_error_panics _ _ _ (ErrStatus "Timeout" 504 "timed out")); reflexivity. Defined.

Lemma ApplyObject_misses_metadata_drift_witness :
  let o := example_role (Some {["team" := "old"]}) in
  let d := example_role (Some {["team" := "new"]}) in
  let w := store_with [o] no_faults in
  exists m, ApplyObject w (state_of w TRole d ObjectForUpdate) = Ret (w, (IObj m, false, None)) /\
    map_of (om_Labels (obj_Meta m)) = {["team" := "new"]} /\
    map_of (om_Labels (obj_Meta o)) = {["team" := "old"]}.
Proof.
  intros o d w.
  destruct (ApplyObject_misses_metadata_drift w TRole d o {["team" := "old"]} ∅) as (m & H1 & H2).
  - reflexivity.
  - split; [reflexivity|right; right; split; reflexivity].
  - reflexivity.
  - reflexivity.
  - reflexivity.
  - exists m. split; [exact H1|]. split; [rewrite H2; vm_compute; reflexivity|reflexivity].
Defined.
