(* ===== verification/RteState.v ===== *)
(** * The exporter's object states (pkg/objectstate/rte, pkg/objectstate/api, pkg/hash)

    What is loaded from the cluster, and the states built from it: the shared
    objects, the daemon sets of a tree, and the machine configs of a tree. *)
From S2P Require Import Prelude GoErrors Meta Selectors ApiV1 Conditions Steps Trees Workload.
From S2P Require Import RteUpdate Objects MergeSpec Cluster Apply.

(** ** Objects of the typed manifests *)

Definition ds_object (ds : DaemonSet) : Object :=
  mkObject "apps/v1" "DaemonSet" (ds_Meta ds) (BDaemonSet (ds_Spec ds) (ds_Status ds)).

Definition object_ds (o : Object) : option DaemonSet :=
  match obj_Body o with
  | BDaemonSet spec st => Some (mkDaemonSet (obj_Meta o) spec st)
  | _ => None
  end.

Definition scc_object (scc : SecurityContextConstraints) : Object :=
  mkObject "security.openshift.io/v1" "SecurityContextConstraints" (scc_Meta scc)
    (BSecurityContextConstraints (scc_SELinuxType scc) (scc_SELinuxOptions scc) (scc_Users scc) (scc_other scc)).

(** [rtestate.Manifests]: the rendered objects; those only some platforms have
    are optional. *)
Record Manifests := mkManifests {
  mf_ServiceAccount : Object;
  mf_Role : Object;
  mf_RoleBinding : Object;
  mf_ClusterRole : Object;
  mf_ClusterRoleBinding : Object;
  mf_DaemonSet : DaemonSet;
  mf_DefaultNetworkPolicy : Object;
  mf_APIServerNetworkPolicy : Object;
  mf_MetricsServerNetworkPolicy : Object;
  mf_MachineConfig : option Object;
  mf_SCC : option SecurityContextConstraints;
  mf_SCCv2 : option SecurityContextConstraints;
  mf_MetricsService : Object }.

Definition mf_with_DaemonSet (ds : DaemonSet) (mf : Manifests) : Manifests :=
  mkManifests (mf_ServiceAccount mf) (mf_Role mf) (mf_RoleBinding mf) (mf_ClusterRole mf)
    (mf_ClusterRoleBinding mf) ds (mf_DefaultNetworkPolicy mf) (mf_APIServerNetworkPolicy mf)
    (mf_MetricsServerNetworkPolicy mf) (mf_MachineConfig mf) (mf_SCC mf) (mf_SCCv2 mf) (mf_MetricsService mf).
Definition mf_with_SCC (scc : option SecurityContextConstraints) (mf : Manifests) : Manifests :=
  mkManifests (mf_ServiceAccount mf) (mf_Role mf) (mf_RoleBinding mf) (mf_ClusterRole mf)
    (mf_ClusterRoleBinding mf) (mf_DaemonSet mf) (mf_DefaultNetworkPolicy mf) (mf_APIServerNetworkPolicy mf)
    (mf_MetricsServerNetworkPolicy mf) (mf_MachineConfig mf) scc (mf_SCCv2 mf) (mf_MetricsService mf).

Definition securityContextOptions (mf : Manifests) (legacyMode : bool) : go SecurityContextOptions :=
  if legacyMode then
    let! scc := deref "SecurityContextConstraint" (mf_SCC mf) in
    Ret (mkSecurityContextOptions selinux.RTEContextTypeLegacy (om_Name (scc_Meta scc)))
  else
    let! scc := deref "SecurityContextConstraintV2" (mf_SCCv2 mf) in
    Ret (mkSecurityContextOptions selinux.RTEContextType (om_Name (scc_Meta scc))).

(** ** Config map hash *)

Section Hash.
(** Hexadecimal SHA-256 of a byte string. *)
Variable sha256_hex : string -> string.

(** [fmt.Sprintf("%v", m)] of a map: keys in order. *)
Definition sprint_map {A} (show : A -> string) (m : gmap string A) : string :=
  let keys := stable_sort String.leb (elements (dom m)) in
  "map[" +:+ str_join " " ((fun k => k +:+ ":" +:+ from_option show "" (m !! k)) <$> keys) +:+ "]".

Definition ConfigMapData (data : option (gmap string string)) (binaryData : option (gmap string (list Z)))
  : string :=
  let s := from_option (sprint_map (fun v => v)) "" data in
  let s := s +:+ from_option (sprint_map (fun v => go_strings (pretty <$> v))) "" binaryData in
  "SHA256:" +:+ sha256_hex s.
End Hash.

(** ** Loaded state *)

(** The shared objects, by their place in the manifests. *)
Inductive slot :=
| SServiceAccount | SRole | SRoleBinding | SClusterRole | SClusterRoleBinding
| SAPIServerNetworkPolicy | SMetricsServerNetworkPolicy | SDefaultNetworkPolicy
| SSCC | SSCCv2 | SMetricsService.

#[global] Instance slot_eq_dec : EqDecision slot. Proof. solve_decision. Defined.

Definition slot_type (s : slot) : gotype :=
  match s with
  | SServiceAccount => TServiceAccount
  | SRole => TRole
  | SRoleBinding => TRoleBinding
  | SClusterRole => TClusterRole
  | SClusterRoleBinding => TClusterRoleBinding
  | SAPIServerNetworkPolicy | SMetricsServerNetworkPolicy | SDefaultNetworkPolicy => TNetworkPolicy
  | SSCC | SSCCv2 => TSecurityContextConstraints
  | SMetricsService => TService
  end.

Definition slot_object (mf : Manifests) (s : slot) : option Object :=
  match s with
  | SServiceAccount => Some (mf_ServiceAccount mf)
  | SRole => Some (mf_Role mf)
  | SRoleBinding => Some (mf_RoleBinding mf)
  | SClusterRole => Some (mf_ClusterRole mf)
  | SClusterRoleBinding => Some (mf_ClusterRoleBinding mf)
  | SAPIServerNetworkPolicy => Some (mf_APIServerNetworkPolicy mf)
  | SMetricsServerNetworkPolicy => Some (mf_MetricsServerNetworkPolicy mf)
  | SDefaultNetworkPolicy => Some (mf_DefaultNetworkPolicy mf)
  | SSCC => scc_object <$> mf_SCC mf
  | SSCCv2 => scc_object <$> mf_SCCv2 mf
  | SMetricsService => Some (mf_MetricsService mf)
  end.

Record daemonSetManifest := mkDaemonSetManifest {
  dsm_daemonSet : option Object; dsm_daemonSetError : option error; dsm_rteConfigHash : string }.

Record machineConfigManifest := mkMachineConfigManifest {
  mcm_machineConfig : option Object; mcm_machineConfigError : option error }.

(** [GeneratedDesiredManifest], less the config map, which no one fills. *)
Record GeneratedDesiredManifest := mkGeneratedDesiredManifest {
  gdm_ClusterPlatform : platform.Platform;
  gdm_MachineConfigPool : option MachineConfigPool;
  gdm_NodeGroup : NodeGroup;
  gdm_SecOpts : SecurityContextOptions;
  gdm_DaemonSet : DaemonSet;
  gdm_RTEConfigHash : string }.

(** An updater writes the daemon set and a variable it captures, the daemon
    sets it has seen. *)
Definition Updater :=
  list PoolDaemonSet -> string -> GeneratedDesiredManifest ->
  go (list PoolDaemonSet * DaemonSet * option error).

Definition SkipManifestUpdate : Updater := fun seen _ gdm => Ret (seen, gdm_DaemonSet gdm, None).

Inductive rteHelper := machineConfigPoolFinder | nodeGroupFinder.

Definition helper_Name (h : rteHelper) : string :=
  match h with
  | machineConfigPoolFinder => "machineConfigPool"
  | nodeGroupFinder => "nodeGroup"
  end.

Record ExistingManifests := mkExistingManifests {
  em_existing : slot -> option Object * option error;
  em_daemonSets : gmap string daemonSetManifest;
  em_machineConfigs : gmap string machineConfigManifest;
  em_plat : platform.Platform;
  em_instanceName : string;
  em_namespace : string;
  em_updater : Updater;
  em_helper : rteHelper }.

Definition WithManifestsUpdater (em : ExistingManifests) (updater : Updater) : ExistingManifests :=
  mkExistingManifests (em_existing em) (em_daemonSets em) (em_machineConfigs em) (em_plat em)
    (em_instanceName em) (em_namespace em) updater (em_helper em).

Definition helper_for (plat : platform.Platform) : rteHelper :=
  if decide (plat = platform.OpenShift) then machineConfigPoolFinder else nodeGroupFinder.

Section Load.
Context {W : Type} `{!Client W}.
Variable sha256_hex : string -> string.

(** [FromClientTreeAgnostic]: the keys of the security context constraints are
    read from pointers that must not be nil outside Kubernetes. *)
Definition FromClientTreeAgnostic (w : W) (plat : platform.Platform) (mf : Manifests)
  (instanceName namespace : string) : go ExistingManifests :=
  let unloaded : option Object * option error := (None, None) in
  let get s := match slot_object mf s with
               | Some o => load w (slot_type s) (obj_key o)
               | None => unloaded
               end in
  let! scc := if decide (plat <> platform.Kubernetes)
              then let! _ := deref "SecurityContextConstraint" (mf_SCC mf) in
                   let! _ := deref "SecurityContextConstraintV2" (mf_SCCv2 mf) in Ret true
              else Ret false in
  Ret (mkExistingManifests
         (fun s => if negb scc && bool_decide (slot_type s = TSecurityContextConstraints)
                   then unloaded else get s)
         ∅ ∅ plat instanceName namespace SkipManifestUpdate (helper_for plat)).

Definition getDaemonSetManifest (w : W) (namespace name : string) : daemonSetManifest :=
  let key := mkNamespacedName namespace name in
  let '(ds, err) := load w TDaemonSet key in
  let h := match cli_Get w TConfigMap key with
           | inl (mkObject _ _ _ (BConfigMap data bin)) => ConfigMapData sha256_hex data bin
           | _ => ""
           end in
  mkDaemonSetManifest ds err h.

(** One pool of the OpenShift finder's [UpdateFromClient]. *)
Definition update_from_pool (w : W) (em : ExistingManifests) (mcp : MachineConfigPool) : ExistingManifests :=
  let generatedName := objectnames.GetComponentName (em_instanceName em) (mcp_Name mcp) in
  let mcName := objectnames.GetMachineConfigName (em_instanceName em) (mcp_Name mcp) in
  let '(mc, err) := load w TMachineConfig (mkNamespacedName "" mcName) in
  mkExistingManifests (em_existing em)
    (<[generatedName := getDaemonSetManifest w (em_namespace em) generatedName]> (em_daemonSets em))
    (<[mcName := mkMachineConfigManifest mc err]> (em_machineConfigs em))
    (em_plat em) (em_instanceName em) (em_namespace em) (em_updater em) (em_helper em).

Definition UpdateFromClient (w : W) (em : ExistingManifests) (tree : Tree) : go ExistingManifests :=
  match em_helper em with
  | machineConfigPoolFinder => Ret (fold_left (update_from_pool w) (tree_MCPs tree) em)
  | nodeGroupFinder =>
      let! ng := deref "tree.NodeGroup" (tree_NodeGroup tree) in
      let! poolName := deref "PoolName" (ng_PoolName ng) in
      let generatedName := objectnames.GetComponentName (em_instanceName em) poolName in
      Ret (mkExistingManifests (em_existing em)
             (<[generatedName := getDaemonSetManifest w (em_namespace em) generatedName]> (em_daemonSets em))
             (em_machineConfigs em) (em_plat em) (em_instanceName em) (em_namespace em) (em_updater em)
             (em_helper em))
  end.

(** [PerTree]: the tree-specific maps start empty. *)
Definition PerTree (w : W) (em : ExistingManifests) (tree : Tree) : go ExistingManifests :=
  UpdateFromClient w
    (mkExistingManifests (em_existing em) ∅ ∅ (em_plat em) (em_instanceName em) (em_namespace em)
       (em_updater em) (helper_for (em_plat em))) tree.
End Load.

(** ** States of the shared objects *)

Definition shared_state (em : ExistingManifests) (s : slot) (desired : Object)
  (merge : iface -> iface -> go merge_result) : ObjectState :=
  let '(existing, err) := em_existing em s in
  mkObjectState (iface_of_ptr (slot_type s) existing) (IObj desired) err None
    (Some compare_Object) (Some merge).

(** [TreeAgnostic]. *)
Definition TreeAgnostic (em : ExistingManifests) (mf : Manifests) : list ObjectState :=
  [ shared_state em SServiceAccount (mf_ServiceAccount mf) ServiceAccountForUpdate;
    shared_state em SRole (mf_Role mf) ObjectForUpdate;
    shared_state em SRoleBinding (mf_RoleBinding mf) ObjectForUpdate;
    shared_state em SClusterRole (mf_ClusterRole mf) ObjectForUpdate;
    shared_state em SClusterRoleBinding (mf_ClusterRoleBinding mf) ObjectForUpdate;
    shared_state em SAPIServerNetworkPolicy (mf_APIServerNetworkPolicy mf) MetadataForUpdate;
    shared_state em SMetricsServerNetworkPolicy (mf_MetricsServerNetworkPolicy mf) MetadataForUpdate;
    shared_state em SDefaultNetworkPolicy (mf_DefaultNetworkPolicy mf) MetadataForUpdate ]
  ++ (match mf_SCC mf with
      | Some scc => [shared_state em SSCC (scc_object scc) ObjectForUpdate]
      | None => []
      end)
  ++ (match mf_SCCv2 mf with
      | Some scc => [shared_state em SSCCv2 (scc_object scc) ObjectForUpdate]
      | None => []
      end)
  ++ [shared_state em SMetricsService (mf_MetricsService mf) ServiceForUpdate].

(** ** States of the daemon sets *)

Definition MachineConfigLabelKey : string := "machineconfiguration.openshift.io/role".
Definition HyperShiftNodePoolLabel : string := "hypershift.openshift.io/nodePool".

(** The entry of the loaded daemon sets: the interface value, the load error
    and the hash. *)
Definition loaded_daemonset (em : ExistingManifests) (mf : Manifests) (generatedName : string)
  : iface * option error * string :=
  match em_daemonSets em !! generatedName with
  | Some dsm => (iface_of_ptr TDaemonSet (dsm_daemonSet dsm), dsm_daemonSetError dsm, dsm_rteConfigHash dsm)
  | None =>
      let m := ds_Meta (mf_DaemonSet mf) in
      (INil, Some (ErrNew ("failed to find daemon set " +:+ om_Namespace m +:+ "/" +:+ om_Name m)), "")
  end.

(** The state of one pool's daemon set; [what] names the pool in the error. *)
Definition daemonset_state (em : ExistingManifests) (mf : Manifests) (tree : Tree)
  (mcp : option MachineConfigPool) (poolName what : string)
  (nodeSelector : option (gmap string string)) (updateError : option error)
  (seen : list PoolDaemonSet) : go (list PoolDaemonSet * ObjectState) :=
  let generatedName := objectnames.GetComponentName (em_instanceName em) poolName in
  let '(existingDs, loadError, rteConfigHash) := loaded_daemonset em mf generatedName in
  let desired := ds_set_Name generatedName (mf_DaemonSet mf) in
  let desired := match nodeSelector with
                 | Some _ => ds_map_PodSpec (ps_set_NodeSelector nodeSelector) desired
                 | None => desired
                 end in
  let! ng := deref "tree.NodeGroup" (tree_NodeGroup tree) in
  let! secOpts := securityContextOptions mf (annotations.IsCustomPolicyEnabled (ng_Annotations ng)) in
  let gdm := mkGeneratedDesiredManifest (em_plat em) mcp ng secOpts desired rteConfigHash in
  let! (seen, desired, err) := em_updater em seen poolName gdm in
  let updateError :=
    match err with
    | Some err => Some (ErrWrap ("daemonset for " +:+ what +:+ " " +:+ quote poolName +:+ ": update failed: ") err)
    | None => updateError
    end in
  Ret (seen, mkObjectState existingDs (IObj (ds_object desired)) loadError updateError
               (Some compare_Object) (Some ObjectForUpdate)).

(** [FindState] of both helpers. *)
Definition FindState (em : ExistingManifests) (mf : Manifests) (tree : Tree) (seen : list PoolDaemonSet)
  : go (list PoolDaemonSet * list ObjectState) :=
  match em_helper em with
  | machineConfigPoolFinder =>
      go_fold (fun '(seen, ret) mcp =>
        let updateError :=
          match mcp_NodeSelector mcp with
          | Some _ => None
          | None => Some (ErrNew ("the machine config pool " +:+ quote (mcp_Name mcp) +:+ " does not have node selector"))
          end in
        let! (seen, st) := daemonset_state em mf tree (Some mcp) (mcp_Name mcp) "MCP"
                             (ls_MatchLabels <$> mcp_NodeSelector mcp) updateError seen in
        Ret (seen, ret ++ [st])) (seen, []) (tree_MCPs tree)
  | nodeGroupFinder =>
      let! ng := deref "tree.NodeGroup" (tree_NodeGroup tree) in
      let! poolName := deref "PoolName" (ng_PoolName ng) in
      let! (seen, st) := daemonset_state em mf tree None poolName "pool"
                           (Some {[HyperShiftNodePoolLabel := poolName]}) None seen in
      Ret (seen, [st])
  end.

Definition PerTreeState := FindState.

(** ** States of the machine configs *)

Definition ConditionUpdated : string := "Updated".

Fixpoint MatchMachineConfigPoolCondition (conditions : list MachineConfigPoolCondition)
  (conditionType status : string) : bool :=
  match conditions with
  | [] => false
  | c :: conditions' =>
      if decide (mcpc_Type c = conditionType) then bool_decide (mcpc_Status c = status)
      else MatchMachineConfigPoolCondition conditions' conditionType status
  end.

Definition existsMachineConfig (instanceName : string) (mcp : MachineConfigPool) : bool :=
  let mcName := objectnames.GetMachineConfigName instanceName (mcp_Name mcp) in
  existsb (fun s => bool_decide (s = mcName)) (mcp_ConfigurationSource mcp).

Definition IsMachineConfigPoolUpdated (instanceName : string) (mcp : MachineConfigPool) : bool :=
  if negb (existsMachineConfig instanceName mcp) then false
  else negb (MatchMachineConfigPoolCondition (mcp_Conditions mcp) ConditionUpdated ConditionFalse).

Definition IsMachineConfigPoolUpdatedAfterDeletion (instanceName : string) (mcp : MachineConfigPool) : bool :=
  if existsMachineConfig instanceName mcp then false
  else negb (MatchMachineConfigPoolCondition (mcp_Conditions mcp) ConditionUpdated ConditionFalse).

Definition GetMachineConfigLabel (name : string) (selector : LabelSelector) : gmap string string :=
  if decide (ls_MatchLabels selector <> ∅) then ls_MatchLabels selector
  else {[MachineConfigLabelKey := name]}.

Definition MCPWaitForUpdatedFunc := string -> MachineConfigPool -> bool.

Record MachineConfigObjectState := mkMachineConfigObjectState {
  mcos_State : ObjectState; mcos_PoolName : string; mcos_WaitForUpdated : MCPWaitForUpdatedFunc }.

Definition obj_rename (name : string) (labels : gmap string string) (o : Object) : Object :=
  let m := obj_Meta o in
  obj_with_Meta (om_set_Labels (Some labels)
    (mkObjectMeta name (om_Namespace m) (om_SelfLink m) (om_UID m) (om_ResourceVersion m)
       (om_Generation m) (om_CreationTimestamp m) (om_Labels m) (om_Annotations m)
       (om_OwnerReferences m) (om_Finalizers m) (om_ManagedFields m))) o.

(** The state of one pool that is neither paused nor skipped. *)
Definition machine_config_state (em : ExistingManifests) (mc : Object) (isCustomPolicy : bool)
  (mcp : MachineConfigPool) : option MachineConfigObjectState :=
  let mcName := objectnames.GetMachineConfigName (em_instanceName em) (mcp_Name mcp) in
  match mcp_MachineConfigSelector mcp, em_machineConfigs em !! mcName with
  | Some selector, Some existing =>
      let ex := iface_of_ptr TMachineConfig (mcm_machineConfig existing) in
      let err := mcm_machineConfigError existing in
      Some (if negb isCustomPolicy
            then mkMachineConfigObjectState (mkObjectState ex INil err None None None)
                   (mcp_Name mcp) IsMachineConfigPoolUpdatedAfterDeletion
            else mkMachineConfigObjectState
                   (mkObjectState ex (IObj (obj_rename mcName (GetMachineConfigLabel (mcp_Name mcp) selector) mc))
                      err None (Some compare_Object) (Some ObjectForUpdate))
                   (mcp_Name mcp) IsMachineConfigPoolUpdated)
  | _, _ => None
  end.

Definition MachineConfigsState (em : ExistingManifests) (mf : Manifests) (tree : Tree)
  : list MachineConfigObjectState * gset string :=
  match mf_MachineConfig mf with
  | None => ([], ∅)
  | Some mc =>
      let isCustomPolicy := match tree_NodeGroup tree with
                            | Some ng => annotations.IsCustomPolicyEnabled (ng_Annotations ng)
                            | None => false
                            end in
      fold_left (fun '(ret, paused) mcp =>
        if mcp_Paused mcp then (ret, paused ∪ {[mcp_Name mcp]})
        else (ret ++ option_list (machine_config_state em mc isCustomPolicy mcp), paused))
        (tree_MCPs tree) ([], ∅)
  end.

(** ** The topology API (pkg/objectstate/api) *)

Module apistate.
Record ExistingManifests := mkExisting { Crd : option Object; CrdError : option error }.

Section FromClient.
Context {W : Type} `{!Client W}.
Definition FromClient (w : W) (crd : Object) : ExistingManifests :=
  let '(o, err) := load w TCustomResourceDefinition (obj_key crd) in mkExisting o err.
End FromClient.

Definition State (em : ExistingManifests) (crd : Object) : list ObjectState :=
  [mkObjectState (iface_of_ptr TCustomResourceDefinition (Crd em)) (IObj crd) (CrdError em) None
     (Some compare_Object) (Some ObjectForUpdate)].
End apistate.
