(* ===== verification/Dangling.v ===== *)
(** * Removing objects of pools that are gone (internal/dangling) *)
From S2P Require Import Prelude GoErrors Meta Selectors ApiV1 Conditions Steps Trees Workload.
From S2P Require Import Objects MergeSpec Cluster.

Fixpoint isOwnedBy (element : list OwnerReference) (ownerUID : string) : bool :=
  match element with
  | [] => false
  | ref :: refs => if decide (or_UID ref = ownerUID) then true else isOwnedBy refs ownerUID
  end.

(** One tree of the loop of [buildDaemonSetNames]. *)
Definition add_tree_names (instanceName : string) (names : gset string) (tree : Tree) : go (gset string) :=
  let! ng := deref "tree.NodeGroup" (tree_NodeGroup tree) in
  match ng_PoolName ng with
  | Some poolName => Ret (names ∪ {[objectnames.GetComponentName instanceName poolName]})
  | None =>
      Ret (fold_left (fun names mcp => names ∪ {[objectnames.GetComponentName instanceName (mcp_Name mcp)]})
             (tree_MCPs tree) names)
  end.

Definition buildDaemonSetNames (instanceName : string) (trees : list Tree) : go (gset string) :=
  go_fold (add_tree_names instanceName) ∅ trees.

Definition expectedMachineConfigNames (instanceName : string) (trees : list Tree) : gset string :=
  fold_left (fun names tree =>
    fold_left (fun names mcp => names ∪ {[objectnames.GetMachineConfigName instanceName (mcp_Name mcp)]})
      (tree_MCPs tree) names) trees ∅.

(** The objects the loops below delete. *)
Definition dangling (ownerUID : string) (expected : gset string) (o : Object) : Prop :=
  isOwnedBy (om_OwnerReferences (obj_Meta o)) ownerUID = true /\ obj_Name o ∉ expected.
#[global] Instance dangling_dec uid expected o : Decision (dangling uid expected o).
Proof. unfold dangling. apply _. Defined.

Section Delete.
Context {W : Type} `{!Client W}.

(** The loop both functions share. *)
Definition delete_unused (ownerUID : string) (expected : gset string) (items : list Object) (w : W)
  : W * option error :=
  fold_left (fun '(w, errs) o =>
    if negb (isOwnedBy (om_OwnerReferences (obj_Meta o)) ownerUID) then (w, errs)
    else if decide (obj_Name o ∈ expected) then (w, errs)
    else
      let '(w, err) := cli_Delete w o in
      match err with
      | Some err => (w, Join errs (Some err))
      | None => (w, errs)
      end) items (w, None).

Definition DeleteUnusedDaemonSets (w : W) (instance : NUMAResourcesOperator) (trees : list Tree)
  : go (W * option error) :=
  let ns := om_Namespace (nro_Meta instance) in
  match cli_List w TDaemonSet (if decide (ns = "") then None else Some ns) with
  | inr err => Ret (w, Some err)
  | inl items =>
      let! expected := buildDaemonSetNames (nro_Name instance) trees in
      Ret (delete_unused (om_UID (nro_Meta instance)) expected items w)
  end.

Definition DeleteUnusedMachineConfigs (w : W) (instance : NUMAResourcesOperator) (trees : list Tree)
  : W * option error :=
  match cli_List w TMachineConfig None with
  | inr err => (w, Some err)
  | inl items =>
      delete_unused (om_UID (nro_Meta instance)) (expectedMachineConfigNames (nro_Name instance) trees) items w
  end.

(** ** What the loop does *)

Definition delete_one (ownerUID : string) (expected : gset string) (s : W * option error) (o : Object)
  : W * option error :=
  if decide (dangling ownerUID expected o) then
    (fst (cli_Delete (fst s) o), match snd (cli_Delete (fst s) o) with
                                 | Some err => Join (snd s) (Some err)
                                 | None => snd s
                                 end)
  else s.

Lemma delete_unused_fold uid expected items w :
  delete_unused uid expected items w = fold_left (delete_one uid expected) items (w, None).
Proof.
  unfold delete_unused. apply fold_left_ext. intros [w' errs] o. unfold delete_one.
  destruct (decide (dangling uid expected o)) as [[Ho Hn]|Hd].
  - rewrite Ho. simpl. rewrite decide_False by done. by destruct (cli_Delete w' o) as [? [|]].
  - destruct (isOwnedBy _ _) eqn:E; simpl; [|done]. rewrite decide_True; [done|].
    destruct (decide (obj_Name o ∈ expected)); [done|]. by destruct Hd.
Qed.

Context (healthy : W -> Prop) `{!ClientLaws W healthy}.

Lemma delete_one_frame uid expected w errs o t k :
  ~ (dangling uid expected o /\ (t, k) = obj_id o) ->
  cli_Get (fst (delete_one uid expected (w, errs) o)) t k = cli_Get w t k.
Proof.
  intros Hn. unfold delete_one. case_decide as Hd; [|done]. simpl.
  destruct (cli_Delete w o) as [w' err] eqn:E. simpl.
  destruct (law_write w o w' err (or_intror (or_intror E))) as (_ & Ho & _). apply Ho. naive_solver.
Qed.

Lemma delete_fold_frame uid expected items s t k :
  Forall (fun o => ~ (dangling uid expected o /\ (t, k) = obj_id o)) items ->
  cli_Get (fst (fold_left (delete_one uid expected) items s)) t k = cli_Get (fst s) t k.
Proof.
  intros Hall. revert s. induction Hall as [|o items Ho _ IH]; intros s; simpl; [done|].
  rewrite IH. destruct s as [w errs]. by apply delete_one_frame.
Qed.

Lemma delete_fold_errs uid expected items s :
  snd (fold_left (delete_one uid expected) items s) = None -> snd s = None.
Proof.
  revert s. induction items as [|o items IH]; intros s; simpl; [done|]. intros H. apply IH in H.
  unfold delete_one in H. case_decide; [|done]. simpl in H.
  destruct (snd (cli_Delete _ o)); [|done]. by apply Join_None in H as [? _].
Qed.

Lemma delete_one_healthy uid expected s o :
  healthy (fst s) -> healthy (fst (delete_one uid expected s o)).
Proof.
  intros H. unfold delete_one. case_decide; [|done]. simpl.
  destruct (cli_Delete (fst s) o) as [w' err] eqn:E.
  by apply (law_write _ _ _ _ (or_intror (or_intror E))).
Qed.

Definition gone (w : W) (o : Object) : Prop :=
  exists e, cli_Get w (obj_type o) (obj_key o) = inr e /\ IsNotFound e = true.

Lemma delete_one_gone uid expected s o x :
  healthy (fst s) -> snd (delete_one uid expected s o) = None ->
  (gone (fst s) x \/ (x = o /\ dangling uid expected o)) ->
  gone (fst (delete_one uid expected s o)) x.
Proof.
  intros Hh Hn Hx. destruct s as [w errs]. simpl in *.
  destruct (decide (dangling uid expected o /\ obj_id x = obj_id o)) as [[Hd He]|Hne].
  - assert (obj_type x = obj_type o /\ obj_key x = obj_key o) as [Ht Hk] by (exact (conj (f_equal fst He) (f_equal snd He))).
    unfold delete_one in *. rewrite decide_True in * by done. simpl in *.
    destruct (cli_Delete w o) as [w' err] eqn:E. simpl in *.
    destruct err as [err|]; [by apply Join_None in Hn as [_ ?]|].
    destruct (law_delete_get w o w' Hh E) as (e & Hg & Hnf).
    exists e. by rewrite Ht, Hk.
  - destruct Hx as [(e & Hg & Hnf)|[-> Hd]]; [|by destruct Hne].
    exists e. split; [|done]. rewrite delete_one_frame; [done|]. intros [? ?]. by apply Hne.
Qed.

Lemma delete_fold_gone uid expected items s x :
  healthy (fst s) -> snd (fold_left (delete_one uid expected) items s) = None ->
  (gone (fst s) x \/ (x ∈ items /\ dangling uid expected x)) ->
  gone (fst (fold_left (delete_one uid expected) items s)) x.
Proof.
  revert s. induction items as [|o items IH]; intros s Hh Hn Hx; simpl in *.
  { destruct Hx as [?|[Hx _]]; [done|]. by apply elem_of_nil in Hx. }
  assert (snd (delete_one uid expected s o) = None) as Hn1 by (by eapply delete_fold_errs).
  apply IH; [by apply delete_one_healthy|done|].
  destruct Hx as [Hx|[[->|Hx]%elem_of_cons Hd]]; [left|left|by right].
  - apply delete_one_gone; [done|done|by left].
  - apply delete_one_gone; [done|done|by right].
Qed.

(** C33: the removal loop deletes exactly the objects that are owned by the
    instance and not expected: when it reports no error they are all gone, and
    any other object of the cluster, owned by someone else or expected, reads as
    before, whether or not there were errors. *)
Theorem delete_unused_spec uid expected items w :
  healthy w ->
  (forall t k, (forall o, o ∈ items -> dangling uid expected o -> (t, k) <> obj_id o) ->
     cli_Get (fst (delete_unused uid expected items w)) t k = cli_Get w t k) /\
  (snd (delete_unused uid expected items w) = None ->
     forall o, o ∈ items -> dangling uid expected o ->
       gone (fst (delete_unused uid expected items w)) o).
Proof.
  intros Hh. rewrite delete_unused_fold. split.
  - intros t k Hk. apply delete_fold_frame. apply Forall_forall. intros o Ho [Hd E]. by apply (Hk o Ho Hd).
  - intros Hn o Ho Hd. apply delete_fold_gone; [done|done|by right].
Qed.
End Delete.

(** ** The expected names *)

(** The pools a tree stands for: the named one, or those selected. *)
Definition tree_pools (tree : Tree) : list string :=
  match tree_NodeGroup tree ≫= ng_PoolName with
  | Some p => [p]
  | None => mcp_Name <$> tree_MCPs tree
  end.

Lemma fold_union_names (name : string -> string) (l : list MachineConfigPool) (acc : gset string) x :
  x ∈ fold_left (fun names mcp => names ∪ {[name (mcp_Name mcp)]}) l acc
  <-> x ∈ acc \/ exists mcp, mcp ∈ l /\ x = name (mcp_Name mcp).
Proof.
  revert acc. induction l as [|m l IH]; intros acc; simpl; [set_solver|]. rewrite IH. set_solver.
Qed.

Lemma buildDaemonSetNames_acc instanceName trees acc :
  Forall (fun t => is_Some (tree_NodeGroup t)) trees ->
  exists names, go_fold (add_tree_names instanceName) acc trees = Ret names /\
  forall x, x ∈ names <-> x ∈ acc \/
    exists tree p, tree ∈ trees /\ p ∈ tree_pools tree /\ x = objectnames.GetComponentName instanceName p.
Proof.
  intros Hall. revert acc. induction Hall as [|tree trees [ng Hng] _ IH]; intros acc; simpl.
  { exists acc. split; [done|]. intros x. split; [by left|]. intros [?|(t & p & Ht & _)]; [done|].
    by apply elem_of_nil in Ht. }
  unfold add_tree_names at 1. rewrite Hng. simpl. unfold tree_pools in *.
  destruct (ng_PoolName ng) as [p|] eqn:Hp; simpl.
  all: match goal with |- context [go_fold _ ?a ?l] => destruct (IH a) as (names & Hn & Hx) end.
  all: exists names; split; [exact Hn|]; intros x; rewrite Hx; clear IH Hn Hx; split.
  - rewrite elem_of_union, elem_of_singleton. intros [[?| ->]|(t & q & ? & ? & ?)]; [by left| |].
    + right. exists tree, p. rewrite Hng. simpl. rewrite Hp. set_solver.
    + right. exists t, q. set_solver.
  - intros [?|(t & q & [->|?]%elem_of_cons & Hq & ->)]; [set_solver| |].
    + rewrite Hng in Hq. simpl in Hq. rewrite Hp in Hq. set_solver.
    + right. by exists t, q.
  - rewrite fold_union_names. intros [[?|(m & Hm & ->)]|(t & q & ? & ? & ?)]; [by left| |].
    + right. exists tree, (mcp_Name m). rewrite Hng. simpl. rewrite Hp.
      split; [by left|]. split; [by apply list_elem_of_fmap_2|done].
    + right. exists t, q. set_solver.
  - intros [?|(t & q & [->|?]%elem_of_cons & Hq & ->)]; [rewrite fold_union_names; by left; left| |].
    + rewrite Hng in Hq. simpl in Hq. rewrite Hp in Hq. apply list_elem_of_fmap in Hq as (m & -> & Hm).
      left. rewrite fold_union_names. right. by exists m.
    + right. by exists t, q.
Qed.

Lemma buildDaemonSetNames_spec instanceName trees :
  Forall (fun t => is_Some (tree_NodeGroup t)) trees ->
  exists names, buildDaemonSetNames instanceName trees = Ret names /\
  forall p, objectnames.GetComponentName instanceName p ∈ names
    <-> exists tree, tree ∈ trees /\ p ∈ tree_pools tree.
Proof.
  intros Hall. destruct (buildDaemonSetNames_acc instanceName trees ∅ Hall) as (names & Hn & Hx).
  exists names. split; [exact Hn|]. intros p. rewrite Hx. split.
  - intros [?|(t & q & Ht & Hq & E)]; [set_solver|].
    apply objectnames.GetComponentName_inj in E as ->. by exists t.
  - intros (t & Ht & Hq). right. by exists t, p.
Qed.

Section Keep.
Context {W : Type} `{!Client W} (healthy : W -> Prop) `{!ClientLaws W healthy}.

(** removing unused daemon sets never panics on trees with a node group and
    never touches an object that carries the name of a pool of a current tree. *)
Theorem DeleteUnusedDaemonSets_keeps w instance trees :
  Forall (fun t => is_Some (tree_NodeGroup t)) trees ->
  exists w' err, DeleteUnusedDaemonSets w instance trees = Ret (w', err) /\
    forall tree p ns t, tree ∈ trees -> p ∈ tree_pools tree ->
      let k := mkNamespacedName ns (objectnames.GetComponentName (nro_Name instance) p) in
      cli_Get w' t k = cli_Get w t k.
Proof.
  intros Hall. unfold DeleteUnusedDaemonSets. destruct (cli_List _ _ _) as [items|err]; [|by eauto].
  destruct (buildDaemonSetNames_spec (nro_Name instance) trees Hall) as (names & -> & Hnames). cbn [go_bind].
  rewrite delete_unused_fold.
  destruct (fold_left _ items _) as [w' err] eqn:E. exists w', err. split; [done|].
  intros tree p ns t Ht Hp. set (k := mkNamespacedName ns _). change w' with (fst (w', err)). rewrite <-E.
  apply (delete_fold_frame healthy). apply Forall_forall. intros o _ [[_ Hd] Hid]. apply Hd.
  assert (obj_Name o = nn_Name k) as ->.
  { apply (f_equal snd) in Hid. simpl in Hid. by rewrite Hid. }
  apply Hnames. by exists tree.
Qed.
End Keep.

(** ** Witnesses *)

Definition example_owner : OwnerReference :=
  mkOwnerReference "nodetopology.openshift.io/v1" "NUMAResourcesOperator" "nro" "uid-nro" (Some true) (Some true).
Definition example_owned (name : string) : Object :=
  mkObject "apps/v1" "DaemonSet" (om_set_OwnerReferences [example_owner] (emptyMeta name "numaresources"))
    (BDaemonSet
       (mkDaemonSetSpec (mkUpdateStrategy "RollingUpdate" None "")
          (mkPodTemplateSpec None None (mkPodSpec None [] [] [] None [] "" [] "" "")) "")
       (mkDaemonSetStatus 0 0 0 "")).
Definition example_cluster : Store :=
  mkStore (list_to_map ((fun o => (obj_id o, o)) <$> [example_owned "nro-old"; example_owned "nro-worker"]))
    ∅ [] (fun _ _ => None).

Lemma delete_unused_spec_witness :
  let items := [example_owned "nro-old"; example_owned "nro-worker"] in
  let expected := ({["nro-worker"]} : gset string) in
  dangling "uid-nro" expected (example_owned "nro-old") /\
  gone (fst (delete_unused "uid-nro" expected items example_cluster)) (example_owned "nro-old").
Proof.
  intros items expected.
  assert (dangling "uid-nro" expected (example_owned "nro-old")) as Hd by (by apply (bool_decide_unpack _); vm_compute).
  split; [exact Hd|].
  destruct (delete_unused_spec answers_reads "uid-nro" expected items example_cluster) as [_ H].
  - by apply answers_reads_check.
  - apply H; [vm_compute; reflexivity|left|exact Hd].
Defined.

Definition example_tree : Tree :=
  mkTree (Some (mkNodeGroup None None (Some "worker") ∅)) 0 None.

Lemma DeleteUnusedDaemonSets_keeps_witness :
  let instance := mkNRO (emptyMeta "nro" "") (mkNROSpec [] "" "" []) (mkNROStatus [] [] [] [] []) in
  exists w' err, DeleteUnusedDaemonSets example_cluster instance [example_tree] = Ret (w', err) /\
    cli_Get w' TDaemonSet (mkNamespacedName "numaresources" "nro-worker")
    = cli_Get example_cluster TDaemonSet (mkNamespacedName "numaresources" "nro-worker").
Proof.
  intros instance.
  destruct (DeleteUnusedDaemonSets_keeps answers_reads example_cluster instance [example_tree])
    as (w' & err & E & H).
  - repeat constructor. by eexists.
  - exists w', err. split; [exact E|]. apply (H example_tree "worker"); [left|left].
Defined.
