(* ===== verification/Controller.v ===== *)
(** * The NUMAResourcesOperator controller
    (internal/controller/numaresourcesoperator_controller.go)

    The reconciler: validation of the specification, the shared objects, the
    machine configs and daemon sets of each tree, and the status. Functions that
    call the client take the cluster and return the cluster they leave; the
    reconciler's manifests, which it updates in place, are threaded too. *)
From S2P Require Import Prelude GoErrors Meta Selectors ApiV1 Conditions Steps Trees Validation FlagCodec.
From S2P Require Import Workload RteUpdate Objects MergeSpec Cluster Apply RteState Dangling.

(** ** Owner references (controllerutil.SetControllerReference) *)

Module controllerutil.
(** [schema.ParseGroupVersion(...).Group]; [None] when the string is refused. *)
Definition group_of (apiVersion : string) : option string :=
  match split_on "/" apiVersion with
  | [g; _] => Some g
  | [_] | [] => Some ""
  | _ => None
  end.

Definition referSameObject (a b : OwnerReference) : bool :=
  match group_of (or_APIVersion a), group_of (or_APIVersion b) with
  | Some ga, Some gb => bool_decide (ga = gb /\ or_Kind a = or_Kind b /\ or_Name a = or_Name b)
  | _, _ => false
  end.

Definition validateOwner (ownerNs objNs : string) : option error :=
  if decide (ownerNs = "") then None
  else if decide (objNs = "")
  then Some (ErrNew ("cluster-scoped resource must not have a namespace-scoped owner, owner's namespace " +:+ ownerNs))
  else if decide (ownerNs <> objNs)
  then Some (ErrNew ("cross-namespace owner references are disallowed, owner's namespace " +:+ ownerNs
                       +:+ ", obj's namespace " +:+ objNs))
  else None.

Definition GetControllerOf (refs : list OwnerReference) : option OwnerReference :=
  head (filter (fun r => or_Controller r = Some true) refs).

Fixpoint upsertOwnerRef (ref : OwnerReference) (owners : list OwnerReference) : list OwnerReference :=
  match owners with
  | [] => [ref]
  | r :: rest => if referSameObject r ref then ref :: rest else r :: upsertOwnerRef ref rest
  end.

Definition ownerAPIVersion : string := "nodetopology.openshift.io/v1".
Definition ownerKind : string := "NUMAResourcesOperator".

Definition owner_ref_at (apiVersion kind : string) (owner : ObjectMeta) : OwnerReference :=
  mkOwnerReference apiVersion kind (om_Name owner) (om_UID owner) (Some true) (Some true).

(** Both resources of the operator are served under one group and version. *)
Definition owner_ref_of : string -> ObjectMeta -> OwnerReference := owner_ref_at ownerAPIVersion.
Definition owner_ref : ObjectMeta -> OwnerReference := owner_ref_of ownerKind.

(** The kind of the owner is registered in the scheme. *)
Definition SetControllerReferenceAt (apiVersion kind : string) (owner : ObjectMeta) (o : Object)
  : Object * option error :=
  match validateOwner (om_Namespace owner) (obj_Namespace o) with
  | Some err => (o, Some err)
  | None =>
      let ref := owner_ref_at apiVersion kind owner in
      let refs := om_OwnerReferences (obj_Meta o) in
      match GetControllerOf refs with
      | Some existing =>
          if referSameObject existing ref
          then (obj_with_Meta (om_set_OwnerReferences (upsertOwnerRef ref refs) (obj_Meta o)) o, None)
          else (o, Some (ErrNew ("Object " +:+ obj_Namespace o +:+ "/" +:+ obj_Name o
                                   +:+ " is already owned by another " +:+ or_Kind existing +:+ " controller "
                                   +:+ or_Name existing)))
      | None => (obj_with_Meta (om_set_OwnerReferences (upsertOwnerRef ref refs) (obj_Meta o)) o, None)
      end
  end.

Definition SetControllerReferenceOf : string -> ObjectMeta -> Object -> Object * option error :=
  SetControllerReferenceAt ownerAPIVersion.

Definition SetControllerReference : ObjectMeta -> Object -> Object * option error :=
  SetControllerReferenceOf ownerKind.
End controllerutil.

(** ** The reconciler's data *)

(** [images.Data] *)
Record ImagesData := mkImagesData { img_User : string; img_Self : string; img_Builtin : string }.

Definition img_Discovered (da : ImagesData) : string :=
  if decide (img_User da <> "") then img_User da else img_Self da.

Definition img_Preferred (da : ImagesData) : string :=
  let dyn := img_Discovered da in
  if decide (dyn <> "") then dyn else img_Builtin da.

Record Reconciler := mkReconciler {
  r_Platform : platform.Platform;
  r_APIManifests_Crd : Object;
  r_RTEManifests : Manifests;
  r_Namespace : string;
  r_Images : ImagesData;
  r_ImagePullPolicy : string;
  r_ForwardMCPConds : bool;
  r_OverridableRTEImage : bool;
  r_RTEMetricsTLS : Settings }.

Definition r_with_Manifests (mf : Manifests) (r : Reconciler) : Reconciler :=
  mkReconciler (r_Platform r) (r_APIManifests_Crd r) mf (r_Namespace r) (r_Images r) (r_ImagePullPolicy r)
    (r_ForwardMCPConds r) (r_OverridableRTEImage r) (r_RTEMetricsTLS r).

Definition numaResourcesRetryPeriod : Z := Duration.Minute.

(** The instants at which a reconciliation reads the clock: when it starts, when
    it reports paused pools and when it computes the final conditions. *)
Record Clock := mkClock { ck_init : Z; ck_paused : Z; ck_final : Z }.

Definition nro_with_Conditions (conds : list Condition) (i : NUMAResourcesOperator) : NUMAResourcesOperator :=
  let st := nro_Status i in
  mkNRO (nro_Meta i) (nro_Spec i)
    (mkNROStatus (st_DaemonSets st) (st_MachineConfigPools st) (st_NodeGroups st) conds (st_RelatedObjects st)).

Definition nro_with_NodeGroups (ngs : list NodeGroup) (i : NUMAResourcesOperator) : NUMAResourcesOperator :=
  let sp := nro_Spec i in
  mkNRO (nro_Meta i) (mkNROSpec ngs (spec_ExporterImage sp) (spec_LogLevel sp) (spec_PodExcludes sp)) (nro_Status i).

(** ** Helpers without effects *)

Definition IsRTEImageOverridable (env : option string) : bool :=
  bool_decide (env = Some "false").

Definition isDaemonSetReady (ds : DaemonSet) : bool :=
  let st := ds_Status ds in
  if Z.eqb (dss_DesiredNumberScheduled st) 0 then true
  else Z.ltb 0 (dss_DesiredNumberScheduled st)
       && Z.eqb (dss_DesiredNumberScheduled st) (dss_NumberReady st).

Definition makeNROPMCP (mcp : MachineConfigPool) (forwardMCPConds : bool) : NROMachineConfigPool :=
  mkNROMachineConfigPool (mcp_Name mcp) (if forwardMCPConds then mcp_Conditions mcp else []) None.

Fixpoint findNROMCPByName (nroMCPs : list NROMachineConfigPool) (name : string) : NROMachineConfigPool :=
  match nroMCPs with
  | [] => mkNROMachineConfigPool name [] None
  | m :: rest => if decide (nromcp_Name m = name) then m else findNROMCPByName rest name
  end.

Fixpoint sync_pools (instanceName : string) (forwardMCPConds : bool)
  (waitByPool : gmap string MCPWaitForUpdatedFunc) (mcps : list MachineConfigPool)
  (nroMCPs : list NROMachineConfigPool) : list NROMachineConfigPool * string :=
  match mcps with
  | [] => (nroMCPs, "")
  | mcp :: rest =>
      let nroMCPs := nroMCPs ++ [makeNROPMCP mcp forwardMCPConds] in
      match waitByPool !! mcp_Name mcp with
      | None => sync_pools instanceName forwardMCPConds waitByPool rest nroMCPs
      | Some waitFunc =>
          if negb (waitFunc instanceName mcp) then (nroMCPs, mcp_Name mcp)
          else sync_pools instanceName forwardMCPConds waitByPool rest nroMCPs
      end
  end.

Definition syncMachineConfigPoolsStatuses (instanceName : string) (forwardMCPConds : bool)
  (waitByPool : gmap string MCPWaitForUpdatedFunc) (tree : Tree) : list NROMachineConfigPool * string :=
  sync_pools instanceName forwardMCPConds waitByPool (tree_MCPs tree) [].

(** The log line prints the configuration, which fills its defaults. *)
Definition syncMachineConfigPoolNodeGroupConfigStatuses (mcpPools : list NROMachineConfigPool) (tree : Tree)
  : list NROMachineConfigPool :=
  fold_left (fun updated mcp =>
    let mcpPool := findNROMCPByName mcpPools (mcp_Name mcp) in
    let conf := match tree_NodeGroup tree ≫= ng_Config with
                | Some c => c
                | None => DefaultNodeGroupConfig
                end in
    let conf := SetDefaults conf in
    updated ++ [mkNROMachineConfigPool (nromcp_Name mcpPool) (nromcp_Conditions mcpPool) (Some conf)])
    (tree_MCPs tree) [].

Definition daemonsetUpdater (poolName : string) (gdm : GeneratedDesiredManifest) (rteMetricsTLS : Settings)
  : go (DaemonSet * option error) :=
  let ds := AllContainersTerminationMessagePolicy (gdm_DaemonSet gdm) in
  let! conf := deref "NodeGroup.Config" (ng_Config (gdm_NodeGroup gdm)) in
  let ds := DaemonSetTolerations ds (ngc_Tolerations conf) in
  match DaemonSetArgs ds conf rteMetricsTLS with
  | (ds, Some err) => Ret (ds, Some err)
  | (ds, None) =>
      if decide (gdm_ClusterPlatform gdm = platform.OpenShift \/ gdm_ClusterPlatform gdm = platform.HyperShift)
      then match ContainerConfig ds (om_Name (ds_Meta ds)) with
           | (ds, Some err) => Ret (ds, Some err)
           | (ds, None) =>
               let ds := SecurityContextWithOpts ds (gdm_SecOpts gdm) in
               Ret (DaemonSetHashAnnotation ds (gdm_RTEConfigHash gdm), None)
           end
      else Ret (DaemonSetHashAnnotation ds (gdm_RTEConfigHash gdm), None)
  end.

(** [UnsortedList] gives the elements of a set in an order Go does not specify. *)
Definition updateMachineConfigPoolPausedCondition (UnsortedList : gset string -> list string) (now : Z) (conditions : list Condition) (generation : Z)
  (pausedMCPNames : gset string) : list Condition :=
  let '(pausedStatus, message) :=
    if decide (pausedMCPNames <> ∅)
    then (ConditionTrue, "detected paused MCPs: " +:+ str_join ", " (UnsortedList pausedMCPNames))
    else (ConditionFalse, "") in
  let condition := mkCondition status.ConditionMachineConfigPoolPaused pausedStatus generation now
                     status.ConditionMachineConfigPoolPaused message in
  fst (status.ComputeConditions now conditions condition now).

(** The setup of the shared manifests, which it writes in place: each update
    that fails stops it. *)
Definition setupTreeAgnosticManifests (r : Reconciler) (instance : NUMAResourcesOperator)
  : go (Reconciler * option error) :=
  let mf := r_RTEManifests r in
  let fin ds err := Ret (r_with_Manifests (mf_with_DaemonSet ds mf) r, Some err) in
  let ds := DaemonSetRolloutSettings (mf_DaemonSet mf) in
  match DaemonSetAffinitySettings ds (map_of (pt_Labels (dsp_Template (ds_Spec ds)))) with
  | (ds, Some err) => fin ds (ErrWrap "failed to update RTE affinity: " err)
  | (ds, None) =>
  match DaemonSetUserImageSettings ds (spec_ExporterImage (nro_Spec instance))
          (img_Preferred (r_Images r)) (r_ImagePullPolicy r) with
  | (ds, Some err) => fin ds (ErrWrap "failed to update RTE user image: " err)
  | (ds, None) =>
  match DaemonSetPauseContainerSettings ds with
  | (ds, Some err) => fin ds (ErrWrap "failed to update RTE pause container: " err)
  | (ds, None) =>
  let! updated := loglevel.UpdatePodSpec (ds_PodSpec ds) MainContainerName (spec_LogLevel (nro_Spec instance)) in
  match updated with
  | (podSpec, Some err) =>
      fin (ds_map_PodSpec (fun _ => podSpec) ds) (ErrWrap "failed to update RTE log level: " err)
  | (podSpec, None) =>
      let ds := ds_map_PodSpec (fun _ => podSpec) ds in
      let! scc := deref "SecurityContextConstraint" (mf_SCC mf) in
      let! scc := SecurityContextConstraint scc true in
      Ret (r_with_Manifests (mf_with_SCC (Some scc) (mf_with_DaemonSet ds mf)) r, None)
  end end end end.

(** ** Operations on the cluster *)

Section Reconcile.
Context {W : Type} `{!Client W} `{SelectorLib}.
(** The text of a node group printed with its addresses, the hexadecimal
    SHA-256 digest, and the order in which a set is listed. *)
Variable show_node_group : NodeGroup -> string.
Variable sha256_hex : string -> string.
Variable UnsortedList : gset string -> list string.

Definition getTreesByNodeGroup (w : W) (nodeGroups : list NodeGroup) (platf : platform.Platform)
  : list Tree + error :=
  match platf with
  | platform.OpenShift =>
      match cli_ListMCP w with
      | inr err => inr err
      | inl mcps => FindTreesOpenshift show_node_group mcps nodeGroups
      end
  | platform.HyperShift => inl (FindTreesHypershift nodeGroups)
  | _ => inr (ErrNew "unsupported platform")
  end.

(** The objects in order; the first failure stops. *)
Fixpoint applyObjects (w : W) (instance : NUMAResourcesOperator) (objStates : list ObjectState)
  : go (W * option error) :=
  match objStates with
  | [] => Ret (w, None)
  | objState :: rest =>
      let! desired := iface_deref (os_Desired objState) in
      let where_ := obj_Namespace desired +:+ "/" +:+ obj_Name desired in
      match os_Error objState, IsNotFoundError objState, os_UpdateError objState with
      | Some err, false, _ => Ret (w, Some (ErrWrap ("failed to load object state for " +:+ where_ +:+ ": ") err))
      | _, _, Some err =>
          Ret (w, Some (ErrWrap ("failed to update (" +:+ gvk_String desired +:+ ") " +:+ where_ +:+ ": ") err))
      | _, _, None =>
          match controllerutil.SetControllerReference (nro_Meta instance) desired with
          | (_, Some err) =>
              Ret (w, Some (ErrWrap ("failed to set controller reference to " +:+ obj_Namespace desired +:+ " "
                                       +:+ obj_Name desired +:+ ": ") err))
          | (desired, None) =>
              let! (w, (_, _, err)) := ApplyObject w (os_with_Desired (IObj desired) objState) in
              match err with
              | Some err =>
                  Ret (w, Some (ErrWrap ("failed to apply (" +:+ gvk_String desired +:+ ") " +:+ where_ +:+ ": ") err))
              | None => applyObjects w instance rest
              end
          end
      end
  end.

Fixpoint apply_api (w : W) (objStates : list ObjectState) (updatedCount : nat) : go (W * (nat * option error)) :=
  match objStates with
  | [] => Ret (w, (updatedCount, None))
  | objState :: rest =>
      let! (w, (_, updated, err)) := ApplyObject w objState in
      match err with
      | Some err2 =>
          let! desired := iface_deref (os_Desired objState) in
          Ret (w, (updatedCount, Some (ErrWrap ("could not create " +:+ gvk_String desired +:+ ": ") err2)))
      | None => apply_api w rest (if updated : bool then S updatedCount else updatedCount)
      end
  end.

Definition syncNodeResourceTopologyAPI (w : W) (r : Reconciler) : go (W * (bool * option error)) :=
  let existing := apistate.FromClient w (r_APIManifests_Crd r) in
  let objStates := apistate.State existing (r_APIManifests_Crd r) in
  let! (w, (updatedCount, err)) := apply_api w objStates 0 in
  Ret (w, (bool_decide (updatedCount = length objStates), err)).

Definition reconcileResourceAPI (w : W) (r : Reconciler) (instance : NUMAResourcesOperator) : go (W * Step) :=
  if annotations.IsNRTAPIDefinitionCluster (map_of (om_Annotations (nro_Meta instance)))
  then Ret (w, StepSuccess)
  else
    let! (w, (_, err)) := syncNodeResourceTopologyAPI w r in
    match err with
    | Some err => Ret (w, StepFailed (ErrWrap "FailedAPISync: " err))
    | None => Ret (w, StepSuccess)
    end.

Fixpoint labels_match (name : string) (mcLabels : gmap string string) (v : string)
  (mcps : list MachineConfigPool) : option error :=
  match mcps with
  | [] => None
  | mcp :: rest =>
      if decide (v <> mcp_Name mcp) then labels_match name mcLabels v rest
      else
        match from_option LabelSelectorAsSelector (inl (fun _ => false)) (mcp_MachineConfigSelector mcp) with
        | inr err =>
            Some (ErrWrap ("failed to represent machine config pool " +:+ quote (mcp_Name mcp)
                             +:+ " machine config selector as selector: ") err)
        | inl Matches =>
            if negb (Matches mcLabels)
            then Some (ErrNew ("machine config " +:+ quote name +:+ " labels does not match the machine config pool "
                                 +:+ quote (mcp_Name mcp) +:+ " machine config selector"))
            else labels_match name mcLabels v rest
        end
  end.

(** A nil selector matches nothing. *)
Definition validateMachineConfigLabels (mc : Object) (tree : Tree) : option error :=
  let mcLabels := map_of (om_Labels (obj_Meta mc)) in
  match mcLabels !! MachineConfigLabelKey with
  | None => None
  | Some v => labels_match (obj_Name mc) mcLabels v (tree_MCPs tree)
  end.

(** The states in order; the first failure stops. *)
Fixpoint sync_machine_configs (w : W) (instance : NUMAResourcesOperator) (tree : Tree)
  (states : list MachineConfigObjectState) (waitByPool : gmap string MCPWaitForUpdatedFunc)
  : go (W * (gmap string MCPWaitForUpdatedFunc * option error)) :=
  match states with
  | [] => Ret (w, (waitByPool, None))
  | st :: rest =>
      let waitByPool := <[mcos_PoolName st := mcos_WaitForUpdated st]> waitByPool in
      let objState := mcos_State st in
      let! (objState, err) :=
        if IsCreateOrUpdate objState then
          let! desired := iface_deref (os_Desired objState) in
          match controllerutil.SetControllerReference (nro_Meta instance) desired with
          | (desired, Some err2) =>
              Ret (objState, Some (ErrWrap ("failed to set controller reference to " +:+ obj_Namespace desired
                                              +:+ " " +:+ obj_Name desired +:+ ": ") err2))
          | (desired, None) => Ret (os_with_Desired (IObj desired) objState, validateMachineConfigLabels desired tree)
          end
        else Ret (objState, None) in
      match err with
      | Some err => Ret (w, (waitByPool, Some err))
      | None =>
          let! (w, (_, _, err2)) := ApplyState w objState in
          match err2 with
          | Some err2 => Ret (w, (waitByPool, Some err2))
          | None => sync_machine_configs w instance tree rest waitByPool
          end
      end
  end.

Definition syncMachineConfig (w : W) (r : Reconciler) (instance : NUMAResourcesOperator)
  (existing : ExistingManifests) (tree : Tree)
  : go (W * (gmap string MCPWaitForUpdatedFunc * gset string * option error)) :=
  let '(mcObjStates, pausedMCPNames) := MachineConfigsState existing (r_RTEManifests r) tree in
  let! (w, (waitByPool, err)) := sync_machine_configs w instance tree mcObjStates ∅ in
  Ret (w, (waitByPool, pausedMCPNames, err)).

Definition zeroStep : Step := mkStep (mkResult 0) (mkConditionInfo "" "" "") None.

Definition reconcilePerTreeMachineConfig (w : W) (r : Reconciler) (instance : NUMAResourcesOperator)
  (existing : ExistingManifests) (tree : Tree) : go (W * PerTreeResult) :=
  let! (w, (waitByPool, pausedMCPNames, err)) := syncMachineConfig w r instance existing tree in
  match err with
  | Some err =>
      Ret (w, mkPerTreeResult [] [] pausedMCPNames
                (StepFailed (ErrWrap "failed to sync machine configs: " err)))
  | None =>
      let '(nroMCPs, mcpNamePending) :=
        syncMachineConfigPoolsStatuses (nro_Name instance) (r_ForwardMCPConds r) waitByPool tree in
      if decide (mcpNamePending <> "") then
        Ret (w, mkPerTreeResult [] nroMCPs pausedMCPNames
                  (WithMessage (WithReason (StepOngoing numaResourcesRetryPeriod) "MachineConfigPoolIsUpdating")
                     (mcpNamePending +:+ " is updating")))
      else
        Ret (w, mkPerTreeResult [] (syncMachineConfigPoolNodeGroupConfigStatuses nroMCPs tree) pausedMCPNames
                  (if decide (pausedMCPNames <> ∅) then StepOngoing 0 else StepSuccess))
  end.

(** The closure handed to the states: it records the daemon sets it updated. *)
Definition recording_updater (tls : Settings) : Updater := fun seen poolName gdm =>
  let! (ds, err) := daemonsetUpdater poolName gdm tls in
  match err with
  | Some err => Ret (seen, ds, Some err)
  | None => Ret (seen ++ [mkPoolDaemonSet poolName (om_key (ds_Meta ds))], ds, None)
  end.

(** The readiness loop: the first daemon set that cannot be read or is not
    ready decides the step. *)
Fixpoint daemonsets_step (w : W) (dsInfos : list PoolDaemonSet) : Step :=
  match dsInfos with
  | [] => StepSuccess
  | dsInfo :: rest =>
      let dsKey := pds_DaemonSet dsInfo in
      match cli_Get w TDaemonSet dsKey with
      | inr err => StepFailed err
      | inl o =>
          if negb (from_option isDaemonSetReady true (object_ds o))
          then WithMessage (WithReason (StepOngoing (5 * Duration.Second)%Z) "DaemonSetIsUpdating")
                 (nn_String dsKey +:+ " is updating")
          else daemonsets_step w rest
      end
  end.

Definition reconcilePerTreeDaemonSet (w : W) (r : Reconciler) (instance : NUMAResourcesOperator)
  (existing : ExistingManifests) (tree : Tree) : go (W * PerTreeResult) :=
  let existing := WithManifestsUpdater existing (recording_updater (r_RTEMetricsTLS r)) in
  let! (dsInfo, states) := PerTreeState existing (r_RTEManifests r) tree [] in
  let! (w, err) := applyObjects w instance states in
  match err with
  | Some err => Ret (w, mkPerTreeResult dsInfo [] ∅ (StepFailed (ErrWrap "FailedRTESync: " err)))
  | None => Ret (w, mkPerTreeResult dsInfo [] ∅ (daemonsets_step w dsInfo))
  end.

(** The pairs of the two nested range loops, in order. *)
Definition syncNodeGroupsStatus (instance : NUMAResourcesOperator) (dsPerPool : list PoolDaemonSet)
  : go (list NodeGroupStatus) :=
  let mcps := st_MachineConfigPools (nro_Status instance) in
  let! ngStatuses :=
    if decide (length mcps = 0%nat) then
      go_fold (fun ngStatuses group =>
        go_fold (fun ngStatuses info =>
          let! poolName := deref "PoolName" (ng_PoolName group) in
          if decide (poolName <> pds_PoolName info) then Ret ngStatuses
          else
            let! conf := deref "Config" (ng_Config group) in
            Ret (ngStatuses ++ [mkNodeGroupStatus (pds_DaemonSet info) conf (pds_PoolName info)]))
          ngStatuses dsPerPool) [] (spec_NodeGroups (nro_Spec instance))
    else Ret [] in
  go_fold (fun ngStatuses mcp =>
    go_fold (fun ngStatuses info =>
      if decide (nromcp_Name mcp <> pds_PoolName info) then Ret ngStatuses
      else
        let! conf := deref "Config" (nromcp_Config mcp) in
        Ret (ngStatuses ++ [mkNodeGroupStatus (pds_DaemonSet info) conf (nromcp_Name mcp)]))
      ngStatuses dsPerPool) ngStatuses mcps.

(** Writing the normalised configuration through the tree's node-group pointer:
    the tree and the specification see it. *)
Definition normalize_tree (instance : NUMAResourcesOperator) (tree : Tree) : go (NUMAResourcesOperator * Tree) :=
  let! ng := deref "tree.NodeGroup" (tree_NodeGroup tree) in
  let ng := ng_with_Config ng (Some (NormalizeConfig ng)) in
  Ret (nro_with_NodeGroups (<[tree_Index tree := ng]> (spec_NodeGroups (nro_Spec instance))) instance,
       mkTree (Some ng) (tree_Index tree) (tree_MachineConfigPools tree)).

(** One iteration of the loop over the trees. *)
Definition reconcile_tree (r : Reconciler) (existing : ExistingManifests)
  (s : W * NUMAResourcesOperator * list PerTreeResult) (tree : Tree)
  : go (W * NUMAResourcesOperator * list PerTreeResult) :=
  let '(w, instance, results) := s in
  let! (instance, tree) := normalize_tree instance tree in
  let! treeExisting := PerTree sha256_hex w existing tree in
  let! (w, mcResult) :=
    if decide (r_Platform r = platform.OpenShift)
    then reconcilePerTreeMachineConfig w r instance treeExisting tree
    else Ret (w, mkPerTreeResult [] [] ∅ zeroStep) in
  if decide (r_Platform r = platform.OpenShift /\ EarlyStop (ptr_Step mcResult) = true)
  then Ret (w, instance, results ++ [mcResult])
  else
    let! (w, dsResult) := reconcilePerTreeDaemonSet w r instance treeExisting tree in
    Ret (w, instance, results ++ [mkPerTreeResult (ptr_DSInfo dsResult) (ptr_NROMCPs mcResult)
                                    (ptr_PausedMCPNames mcResult) (ptr_Step dsResult)]).

(** The status fields set from the reduced result. *)
Definition record_overall (now : Z) (r : Reconciler) (instance : NUMAResourcesOperator) (overall : PerTreeResult)
  : go NUMAResourcesOperator :=
  let dssReady := CollectDaemonSets (ptr_DSInfo overall) in
  let st := nro_Status instance in
  let conds := updateMachineConfigPoolPausedCondition UnsortedList now (st_Conditions st)
                 (om_Generation (nro_Meta instance)) (ptr_PausedMCPNames overall) in
  let instance := mkNRO (nro_Meta instance) (nro_Spec instance)
    (mkNROStatus dssReady (ptr_NROMCPs overall) (st_NodeGroups st) conds
       (ResourceTopologyExporter (r_Namespace r) dssReady)) in
  if Done (ptr_Step overall) then
    let! ngs := syncNodeGroupsStatus instance (ptr_DSInfo overall) in
    Ret (mkNRO (nro_Meta instance) (nro_Spec instance)
           (mkNROStatus dssReady (ptr_NROMCPs overall) ngs conds
              (ResourceTopologyExporter (r_Namespace r) dssReady)))
  else Ret instance.

Definition reconcileResource (clk : Clock) (w : W) (r : Reconciler) (instance : NUMAResourcesOperator)
  (trees : list Tree) : go (W * Reconciler * NUMAResourcesOperator * Step) :=
  let! (w, step) := reconcileResourceAPI w r instance in
  if EarlyStop step then Ret (w, r, instance, step)
  else
    let! existing := FromClientTreeAgnostic w (r_Platform r) (r_RTEManifests r) (nro_Name instance) (r_Namespace r) in
    let! (r, err) := setupTreeAgnosticManifests r instance in
    match err with
    | Some err => Ret (w, r, instance, StepFailed (ErrWrap "FailedSharedResourceSync: " err))
    | None =>
    let! (w, err) := applyObjects w instance (TreeAgnostic existing (r_RTEManifests r)) in
    match err with
    | Some err => Ret (w, r, instance, StepFailed (ErrWrap "FailedSharedResourceSync: " err))
    | None =>
        let! (w, _) := DeleteUnusedDaemonSets w instance trees in
        let w := if decide (r_Platform r = platform.OpenShift)
                 then fst (DeleteUnusedMachineConfigs w instance trees) else w in
        let! (w, instance, results) := go_fold (reconcile_tree r existing) (w, instance, []) trees in
        let overall := ReducePerTreeResults results in
        let! instance := record_overall (ck_paused clk) r instance overall in
        Ret (w, r, instance, ptr_Step overall)
    end end.

(** ** Reconcile *)

Definition degradeStatus (clk : Clock) (w : W) (initialInstance instance : NUMAResourcesOperator)
  (reason : string) (stErr : error) : W * (Result * option error) :=
  let info := DegradedFromError (Some stErr) in
  let info := if decide (reason <> "") then mkConditionInfo (ci_Type info) reason (ci_Message info) else info in
  let conds := fst (status.ComputeConditions (ck_final clk) (st_Conditions (nro_Status instance))
                      (ToMetav1Condition info (om_Generation (nro_Meta instance))) (ck_final clk)) in
  let '(w, err) := cli_PatchStatus w initialInstance (nro_with_Conditions conds instance) in
  (w, (mkResult 0, err)).

(** The conditions the instance starts from. *)
Definition initial_conditions (now : Z) (instance : NUMAResourcesOperator) : list Condition :=
  match st_Conditions (nro_Status instance) with
  | [] => status.NewNUMAResourcesOperatorConditions now
  | conds => status.EnsureNUMAResourcesOperatorConditions now conds
  end.

Definition Reconcile (clk : Clock) (w : W) (r : Reconciler) (req : NamespacedName)
  : go (W * Reconciler * (Result * option error)) :=
  match cli_GetNRO w req with
  | inr err => Ret (w, r, (mkResult 0, if IsNotFound err then None else Some err))
  | inl initialInstance =>
      let instance := nro_with_Conditions (initial_conditions (ck_init clk) initialInstance) initialInstance in
      let annots := map_of (om_Annotations (nro_Meta instance)) in
      let image := spec_ExporterImage (nro_Spec instance) in
      let ngs := spec_NodeGroups (nro_Spec instance) in
      let degrade reason err :=
        let '(w, res) := degradeStatus clk w initialInstance instance reason err in Ret (w, r, res) in
      if decide (nn_Name req <> objectnames.DefaultNUMAResourcesOperatorCrName) then
        degrade status.ConditionTypeIncorrectNUMAResourcesOperatorResourceName
          (ErrNew ("incorrect NUMAResourcesOperator resource name: " +:+ nro_Name instance))
      else if annotations.IsPauseReconciliationEnabled annots then Ret (w, r, (mkResult 0, None))
      else if decide (r_OverridableRTEImage r = false /\ image <> "") then
        degrade status.ReasonCustomUserImage (ErrNew ("custom operand image is not supported: " +:+ image))
      else
        match NodeGroups ngs (r_Platform r) with
        | Some err => degrade NodeGroupsError err
        | None =>
        match getTreesByNodeGroup w ngs (r_Platform r) with
        | inr err => degrade NodeGroupsError err
        | inl trees =>
        match NodeGroupsTree annots trees (r_Platform r) with
        | (_, Some err) => degrade NodeGroupsError err
        | (tolerable, None) =>
            let! (w, r, instance, step) := reconcileResource clk w r instance trees in
            let conds := fst (status.ComputeConditions (ck_final clk) (st_Conditions (nro_Status instance))
                                (ToMetav1Condition (step_ConditionInfo step) (om_Generation (nro_Meta instance)))
                                (ck_final clk)) in
            let instance := nro_with_Conditions conds instance in
            match tolerable with
            | Some tol =>
                if Done step then
                  let '(w, res) := degradeStatus clk w initialInstance instance (te_Reason tol) (te_Error tol) in
                  Ret (w, r, res)
                else
                  let '(w, err) := cli_PatchStatus w initialInstance instance in
                  match err with
                  | Some err => Ret (w, r, (mkResult 0, Some err))
                  | None => Ret (w, r, (step_Result step, step_Error step))
                  end
            | None =>
                let '(w, err) := cli_PatchStatus w initialInstance instance in
                match err with
                | Some err => Ret (w, r, (mkResult 0, Some err))
                | None => Ret (w, r, (step_Result step, step_Error step))
                end
            end
        end end end
  end.

(** ** Watches *)

Definition mcpToNUMAResourceOperator (w : W) (key : NamespacedName) : list NamespacedName :=
  match cli_GetMCP w key with
  | inr _ => []
  | inl mcp =>
      match cli_ListNRO w with
      | inr _ => []
      | inl nros =>
          fold_left (fun requests nro =>
            if existsb (fun ng => nodeGroupMatchesMCP ng (mcp_Name mcp) (mcp_Labels mcp))
                 (spec_NodeGroups (nro_Spec nro))
            then requests ++ [mkNamespacedName "" (nro_Name nro)] else requests) nros []
      end
  end.

Definition LabelOperatorName : string := "numaresourcesoperator.nodetopology.openshift.io/name".

Definition configMapToNUMAResourceOperator (w : W) (key : NamespacedName) : list NamespacedName :=
  match cli_Get w TConfigMap key with
  | inr _ => []
  | inl cm =>
      match map_of (om_Labels (obj_Meta cm)) !! LabelOperatorName with
      | None => []
      | Some name =>
          match cli_GetNRO w (mkNamespacedName "" name) with
          | inr _ => []
          | inl nro => [mkNamespacedName "" (nro_Name nro)]
          end
      end
  end.

End Reconcile.

(** Which updates of an owned object, a pool or a config map start a
    reconciliation; an event without one of its objects starts none. *)
Definition validateUpdateEvent {A} (old new : option A) : bool :=
  match old, new with
  | Some _, Some _ => true
  | _, _ => false
  end.

Definition owned_predicate (old new : option Object) : bool :=
  match old, new with
  | Some old, Some new =>
      bool_decide (om_Generation (obj_Meta new) <> om_Generation (obj_Meta old))
      || negb (bool_decide (map_of (om_Labels (obj_Meta new)) = map_of (om_Labels (obj_Meta old))))
  | _, _ => validateUpdateEvent old new
  end.

Definition mcp_predicate (old new : option MachineConfigPool) : bool :=
  match old, new with
  | Some old, Some new =>
      negb (bool_decide (mcp_Conditions old = mcp_Conditions new))
      || negb (bool_decide (mcp_Labels old = mcp_Labels new))
      || negb (bool_decide (mcp_MachineConfigSelector old = mcp_MachineConfigSelector new))
      || negb (bool_decide (mcp_NodeSelector old = mcp_NodeSelector new))
      || negb (bool_decide (mcp_Paused old = mcp_Paused new))
  | _, _ => validateUpdateEvent old new
  end.

Definition configmap_predicate (labels : option (gmap string string)) : bool :=
  bool_decide (is_Some (map_of labels !! LabelOperatorName)).
