(* ===== verification/Scenario.v ===== *)
(** * A small cluster

    Concrete manifests, reconciler and clusters on which the theorems about the
    controller are instantiated. *)
From S2P Require Import Prelude GoErrors Meta Selectors ApiV1 Conditions Steps Trees Validation FlagCodec.
From S2P Require Import Workload RteUpdate Objects MergeSpec Cluster Apply RteState Dangling Controller.

Module scenario.

Definition container (name : string) (args : list string) : Container :=
  mkContainer name "" "" [] args [] [] [] None "" emptyResources "".

Definition daemonset : DaemonSet :=
  mkDaemonSet (emptyMeta "rte" "numaresources")
    (mkDaemonSetSpec (mkUpdateStrategy "" None "")
       (mkPodTemplateSpec (Some {["name" := "rte"]}) None
          (mkPodSpec None [] [container MainContainerName ["--sleep-interval=1s"; "--custom"];
                              container HelperContainerName []] [] None [] "" [] "" "")) "")
    (mkDaemonSetStatus 0 0 0 "").

Definition shared (apiVersion kind name ns : string) (b : Body) : Object :=
  mkObject apiVersion kind (emptyMeta name ns) b.

Definition scc (name : string) : SecurityContextConstraints :=
  mkSecurityContextConstraints (emptyMeta name "") "MustRunAs" (Some (mkSELinuxOptions "" "" "" "")) [] "".

Definition manifests : Manifests :=
  mkManifests
    (shared "v1" "ServiceAccount" "rte" "numaresources" (BServiceAccount [] [] ""))
    (shared "rbac.authorization.k8s.io/v1" "Role" "rte" "numaresources" (BRole [] ""))
    (shared "rbac.authorization.k8s.io/v1" "RoleBinding" "rte" "numaresources" (BRoleBinding [] ""))
    (shared "rbac.authorization.k8s.io/v1" "ClusterRole" "rte" "" (BClusterRole ""))
    (shared "rbac.authorization.k8s.io/v1" "ClusterRoleBinding" "rte" "" (BClusterRoleBinding [] ""))
    daemonset
    (shared "networking.k8s.io/v1" "NetworkPolicy" "default" "numaresources" (BNetworkPolicy "default"))
    (shared "networking.k8s.io/v1" "NetworkPolicy" "apiserver" "numaresources" (BNetworkPolicy "apiserver"))
    (shared "networking.k8s.io/v1" "NetworkPolicy" "metrics" "numaresources" (BNetworkPolicy "metrics"))
    (Some (shared "machineconfiguration.openshift.io/v1" "MachineConfig" "mc" "" (BMachineConfig "policy" "")))
    (Some (scc "resource-topology-exporter")) (Some (scc "resource-topology-exporter-v2"))
    (shared "v1" "Service" "metrics" "numaresources" (BService (mkServiceSpec "" None None None "") "")).

Definition crd : Object :=
  shared "apiextensions.k8s.io/v1" "CustomResourceDefinition" "noderesourcetopologies" ""
    (BCustomResourceDefinition "nrt" "").

Definition reconciler (plat : platform.Platform) : Reconciler :=
  mkReconciler plat crd manifests "numaresources" (mkImagesData "" "quay.io/self:1" "") "Always" true false
    (mkSettings "VersionTLS12" "" "").

Definition pool (name : string) : MachineConfigPool :=
  mkMachineConfigPool name {["pool" := name]} false (Some (match_label "pool" name))
    (Some (match_label "pool" name)) [] [].

Definition instance (ngs : list NodeGroup) (annots : option (gmap string string)) (image : string)
  : NUMAResourcesOperator :=
  mkNRO (om_set_Annotations annots
           (mkObjectMeta "numaresourcesoperator" "" "" "uid-nro" "" 1 0 None None [] [] []))
    (mkNROSpec ngs image "Normal" []) (mkNROStatus [] [] [] [] []).

Definition group (name : string) : NodeGroup := mkNodeGroup None None (Some name) ∅.

Definition request : NamespacedName := mkNamespacedName "" "numaresourcesoperator".

Definition cluster (i : NUMAResourcesOperator) (fault : verb -> gotype -> option error) : Store :=
  mkStore ∅ {[request := i]} [pool "worker"] fault.

Definition clock : Clock := mkClock 10 20 30.

Definition show (ng : NodeGroup) : string := "".
Definition sha256 (s : string) : string := "0".

Definition run (plat : platform.Platform) (w : Store) : go (Store * Reconciler * (Result * option error)) :=
  Reconcile show sha256 elements clock w (reconciler plat) request.

(** The objects a run leaves in the cluster, the instance's status, and the answer. *)
Definition names_after (r : go (Store * Reconciler * (Result * option error))) : option (list (gotype * NamespacedName)) :=
  match r with
  | Ret (w, _, _) => Some (fst <$> map_to_list (st_objects w))
  | Panic _ => None
  end.
Definition status_after (r : go (Store * Reconciler * (Result * option error))) : option NUMAResourcesOperatorStatus :=
  match r with
  | Ret (w, _, _) => nro_Status <$> st_nros w !! request
  | Panic _ => None
  end.
Definition answer (r : go (Store * Reconciler * (Result * option error))) : option (Result * option error) :=
  match r with
  | Ret (_, _, a) => Some a
  | Panic _ => None
  end.

(** Whether a computation returns. *)
Definition returns {A} (m : go A) : bool := match m with Ret _ => true | Panic _ => false end.

(** One tree with a given node group and pools, and what is loaded for it. *)
Definition tree (ng : NodeGroup) (pools : list MachineConfigPool) : Tree := mkTree (Some ng) 0 (Some pools).
Definition custom_group (name : string) : NodeGroup :=
  mkNodeGroup None None (Some name) {[annotations.SELinuxPolicyConfigAnnotation := annotations.SELinuxPolicyCustom]}.
Definition paused_pool (name : string) : MachineConfigPool :=
  mkMachineConfigPool name {["pool" := name]} true (Some (match_label "pool" name))
    (Some (match_label "pool" name)) [] [].
Definition existing (plat : platform.Platform) (w : Store) : ExistingManifests :=
  mkExistingManifests
    (fun s => match slot_object manifests s with
              | Some o => load w (slot_type s) (obj_key o)
              | None => (None, None)
              end) ∅ ∅ plat "numaresourcesoperator" "numaresources" SkipManifestUpdate (helper_for plat).

(** A first reconciliation of one named pool on OpenShift installs the objects,
    waits for no machine config, and completes. *)
Example run_openshift :
  let r := run platform.OpenShift (cluster (instance [group "worker"] None "") (fun _ _ => None)) in
  length <$> names_after r = Some 13%nat /\
  st_DaemonSets <$> status_after r = Some [mkNamespacedName "numaresources" "numaresourcesoperator-worker"] /\
  answer r = Some (mkResult 0, None).
Proof. vm_compute. auto. Qed.

(** A read of the topology API definition that times out crashes the reconciliation. *)
Example run_timeout :
  run platform.OpenShift (cluster (instance [group "worker"] None "") timeouts)
  = Panic (NilDereference "client.Object").
Proof. vm_compute. reflexivity. Qed.

End scenario.
