(* ===== verification/ControllerSpec.v ===== *)
(** * When the controller leaves the cluster alone

    Rejected and paused specifications: what a reconciliation that must not act
    does. *)
From S2P Require Import Prelude GoErrors Meta Selectors ApiV1 Conditions Steps Trees Validation FlagCodec.
From S2P Require Import Workload RteUpdate Objects MergeSpec Cluster Apply RteState Dangling Controller Scenario.

(** ** Degraded conditions *)

Lemma ComputeConditions_degraded now conds c ts :
  status.wf_conditions conds -> cond_Type c = status.ConditionDegraded ->
  exists new, status.FindStatusCondition (fst (status.ComputeConditions now conds c ts)) status.ConditionDegraded
      = Some new /\ cond_Status new = ConditionTrue /\ cond_Reason new = cond_Reason c /\
      cond_Message new = cond_Message c.
Proof.
  intros Hwf Hc.
  assert (status.ConditionDegraded ∈ status.baseTypes) as Hd by (by apply status.isBaseCondition_spec).
  rewrite status.Find_ComputeConditions_base by (rewrite ?Hc; done).
  destruct (status.wf_base _ _ Hwf Hd) as [ex ->]. unfold status.NewBaseConditions. rewrite Hc.
  eexists. split; [reflexivity|]. done.
Qed.

Lemma initial_conditions_wf now instance :
  st_Conditions (nro_Status instance) = [] \/ status.wf_conditions (st_Conditions (nro_Status instance)) ->
  status.wf_conditions (initial_conditions now instance).
Proof.
  unfold initial_conditions. intros [->|Hwf].
  - by apply (bool_decide_eq_true_1 (status.wf_conditions _)).
  - destruct (st_Conditions (nro_Status instance)) as [|c cs] eqn:E.
    + by apply (bool_decide_eq_true_1 (status.wf_conditions _)).
    + by apply status.Ensure_wf.
Qed.

Section Spec.
Context {W : Type} `{!Client W} `{SelectorLib}.
Variable show_node_group : NodeGroup -> string.
Variable sha256_hex : string -> string.
Variable UnsortedList : gset string -> list string.

Notation Reconcile := (Reconcile show_node_group sha256_hex UnsortedList).
Notation getTrees := (getTreesByNodeGroup show_node_group).

(** Why a specification is refused: the first test that fails. *)
Inductive refusal (w : W) (r : Reconciler) (req : NamespacedName) (i : NUMAResourcesOperator) : string -> Prop :=
| refuse_name :
    nn_Name req <> objectnames.DefaultNUMAResourcesOperatorCrName ->
    refusal w r req i status.ConditionTypeIncorrectNUMAResourcesOperatorResourceName
| refuse_image :
    nn_Name req = objectnames.DefaultNUMAResourcesOperatorCrName ->
    annotations.IsPauseReconciliationEnabled (map_of (om_Annotations (nro_Meta i))) = false ->
    r_OverridableRTEImage r = false -> spec_ExporterImage (nro_Spec i) <> "" ->
    refusal w r req i status.ReasonCustomUserImage
| refuse_groups :
    nn_Name req = objectnames.DefaultNUMAResourcesOperatorCrName ->
    annotations.IsPauseReconciliationEnabled (map_of (om_Annotations (nro_Meta i))) = false ->
    (r_OverridableRTEImage r = true \/ spec_ExporterImage (nro_Spec i) = "") ->
    (~ valid_node_groups (r_Platform r) (spec_NodeGroups (nro_Spec i)) \/
     (exists err, getTrees w (spec_NodeGroups (nro_Spec i)) (r_Platform r) = inr err) \/
     (exists trees, getTrees w (spec_NodeGroups (nro_Spec i)) (r_Platform r) = inl trees /\
        r_Platform r <> platform.HyperShift /\ MCPsDuplicates trees <> None)) ->
    refusal w r req i NodeGroupsError.

(** A status patch that changes nothing but the conditions, and makes the
    instance Degraded for the given reason. *)
Definition degraded_patch (i i' : NUMAResourcesOperator) (reason : string) : Prop :=
  nro_Meta i' = nro_Meta i /\ nro_Spec i' = nro_Spec i /\
  st_DaemonSets (nro_Status i') = st_DaemonSets (nro_Status i) /\
  st_MachineConfigPools (nro_Status i') = st_MachineConfigPools (nro_Status i) /\
  st_NodeGroups (nro_Status i') = st_NodeGroups (nro_Status i) /\
  st_RelatedObjects (nro_Status i') = st_RelatedObjects (nro_Status i) /\
  exists c, status.FindStatusCondition (st_Conditions (nro_Status i')) status.ConditionDegraded = Some c /\
    cond_Status c = ConditionTrue /\ cond_Reason c = reason.

Lemma degradeStatus_patch clk w i reason err :
  st_Conditions (nro_Status i) = [] \/ status.wf_conditions (st_Conditions (nro_Status i)) ->
  reason <> "" ->
  let inst := nro_with_Conditions (initial_conditions (ck_init clk) i) i in
  exists i', degraded_patch i i' reason /\
    degradeStatus clk w i inst reason err
    = (fst (cli_PatchStatus w i i'), (mkResult 0, snd (cli_PatchStatus w i i'))).
Proof.
  intros Hc Hr inst. unfold degradeStatus. rewrite decide_True by done.
  match goal with |- context [cli_PatchStatus w i ?x] => exists x; set (i' := x) end. split.
  - repeat (split; [done|]). unfold i'. simpl.
    match goal with |- context [ToMetav1Condition ?info ?g] =>
      destruct (ComputeConditions_degraded (ck_final clk) (initial_conditions (ck_init clk) i)
        (ToMetav1Condition info g) (ck_final clk)) as (new & Hnew & Hst & Hre & _) end.
    + by apply initial_conditions_wf.
    + done.
    + exists new. split; [exact Hnew|]. split; [exact Hst|exact Hre].
  - by destruct (cli_PatchStatus w i i').
Qed.

(** The error a refused specification is degraded with: the reconciliation is
    the degradation, whatever the cluster holds. *)
Lemma Reconcile_refused clk w r req i reason :
  cli_GetNRO w req = inl i -> refusal w r req i reason ->
  exists err, Reconcile clk w r req
    = let '(w', res) := degradeStatus clk w i (nro_with_Conditions (initial_conditions (ck_init clk) i) i)
                          reason err in Ret (w', r, res).
Proof.
  intros Hg Href. unfold Controller.Reconcile. rewrite Hg. simpl.
  destruct Href as [Hn|Hn Hp Ho Hi|Hn Hp Ho Hwhy].
  - rewrite decide_True by done. by eexists.
  - rewrite decide_False by (intros Hx; by apply Hx). rewrite Hp. simpl. rewrite decide_True by done. by eexists.
  - rewrite decide_False by (intros Hx; by apply Hx). rewrite Hp. simpl.
    rewrite decide_False by (intros [H1 H2]; destruct Ho; congruence).
    destruct (NodeGroups _ _) as [err|] eqn:Eng; [by eexists|].
    apply NodeGroups_valid in Eng. destruct Hwhy as [Hv|Hwhy]; [done|].
    destruct (getTrees w _ _) as [trees|err] eqn:Et; [|by eexists].
    destruct Hwhy as [[err ?]|(trees' & Heq & Hpl & Hdup)]; [done|]. injection Heq as <-.
    unfold NodeGroupsTree. rewrite decide_False by done.
    destruct (MCPsDuplicates trees) as [err|]; [by eexists|done].
Qed.

Lemma refusal_reason w r req i reason : refusal w r req i reason -> reason <> "".
Proof. by destruct 1. Qed.

(** C4: a specification that is refused (wrong name, custom image, invalid node
    groups, pools that cannot be bound or are bound twice) leaves the cluster as
    it is but for one status patch, which changes the conditions only and makes
    the instance Degraded for the reason of the first test that failed; the
    reconciler's manifests are not touched and the request is not requeued. *)
Theorem Reconcile_refused_only_status clk w r req i reason :
  cli_GetNRO w req = inl i -> refusal w r req i reason ->
  st_Conditions (nro_Status i) = [] \/ status.wf_conditions (st_Conditions (nro_Status i)) ->
  exists i', degraded_patch i i' reason /\
    Reconcile clk w r req = Ret (fst (cli_PatchStatus w i i'), r, (mkResult 0, snd (cli_PatchStatus w i i'))).
Proof.
  intros Hg Href Hc. destruct (Reconcile_refused clk w r req i reason Hg Href) as (err & ->).
  destruct (degradeStatus_patch clk w i reason err Hc (refusal_reason _ _ _ _ _ Href)) as (i' & Hi' & E).
  exists i'. split; [done|]. by rewrite E.
Qed.

(** a paused instance, or one that does not exist, is not touched: neither
    the cluster nor the reconciler changes, and nothing is requeued. *)
Theorem Reconcile_paused_untouched clk w r req :
  match cli_GetNRO w req with
  | inl i => annotations.IsPauseReconciliationEnabled (map_of (om_Annotations (nro_Meta i))) = true /\
             nn_Name req = objectnames.DefaultNUMAResourcesOperatorCrName
  | inr err => IsNotFound err = true
  end ->
  Reconcile clk w r req = Ret (w, r, (mkResult 0, None)).
Proof.
  unfold Controller.Reconcile. destruct (cli_GetNRO w req) as [i|err].
  - intros [Hp Hn]. simpl. rewrite decide_False by (intros Hx; by apply Hx). by rewrite Hp.
  - by intros ->.
Qed.
End Spec.

(** ** Witnesses *)

Lemma Reconcile_refused_only_status_witness :
  let w := scenario.cluster (scenario.instance [scenario.group "missing"] None "") (fun _ _ => None) in
  let r := scenario.reconciler platform.OpenShift in
  let i := scenario.instance [scenario.group "missing"] None "" in
  exists i', degraded_patch i i' NodeGroupsError /\
    Reconcile scenario.show scenario.sha256 elements scenario.clock w r scenario.request
    = Ret (fst (cli_PatchStatus w i i'), r, (mkResult 0, snd (cli_PatchStatus w i i'))).
Proof.
  intros w r i.
  apply (Reconcile_refused_only_status scenario.show scenario.sha256 elements scenario.clock w r).
  - reflexivity.
  - apply refuse_groups; [reflexivity|reflexivity|by right|].
    right. left. eexists. vm_compute. reflexivity.
  - by left.
Defined.

Lemma Reconcile_paused_untouched_witness :
  let annots := Some {[annotations.PauseReconciliationAnnotation := annotations.PauseReconciliationAnnotationEnabled]} in
  let w := scenario.cluster (scenario.instance [scenario.group "worker"] annots "") (fun _ _ => None) in
  let r := scenario.reconciler platform.OpenShift in
  Reconcile scenario.show scenario.sha256 elements scenario.clock w r scenario.request = Ret (w, r, (mkResult 0, None)).
Proof. intros annots w r. apply Reconcile_paused_untouched. vm_compute. split; reflexivity. Defined.
