(* ===== verification/Install.v ===== *)
(** * What a successful application leaves in the cluster

    When [applyObjects] succeeds, every object it was given is in the cluster
    with the desired content and the instance as its controller. *)
From S2P Require Import Prelude GoErrors Meta Selectors ApiV1 Conditions Steps Trees Validation FlagCodec.
From S2P Require Import Workload RteUpdate Objects MergeSpec Cluster Apply RteState Dangling Controller Scenario.

Section Install.
Context {W : Type} `{!Client W} (healthy : W -> Prop) `{!ClientLaws W healthy}.

(** The cluster holds [d]: under its name there is an object with its owners and,
    up to status and nil maps, its body, completed by [f] from some current one. *)
Definition installed (f : Body -> Body -> Body) (w : W) (d : Object) : Prop :=
  exists o cur, cli_Get w (obj_type d) (obj_key d) = inl o /\
    om_OwnerReferences (obj_Meta o) = om_OwnerReferences (obj_Meta d) /\
    body_type cur = obj_type d /\
    canon_body (obj_Body o) = canon_body (with_status_of (obj_Body o) (f cur (obj_Body d))).

Lemma installed_frame f w w' d :
  cli_Get w' (obj_type d) (obj_key d) = cli_Get w (obj_type d) (obj_key d) ->
  installed f w d -> installed f w' d.
Proof. intros E (o & cur & Hg & H). exists o, cur. by rewrite E. Qed.

Lemma body_type_of_canon b e u : canon_body b = canon_body (with_status_of e u) -> body_type b = body_type u.
Proof. intros E. by rewrite <-canon_body_type, E, canon_body_type, with_status_type. Qed.

(** A kept object is installed. *)
Lemma kept_installed f w d : kept f w d -> installed f w d.
Proof.
  intros (o & Hg & [Ht _] & Hs). exists o, (obj_Body o). unfold sem_eq, canon in Hs.
  pose proof (f_equal (fun x => om_OwnerReferences (obj_Meta x)) Hs) as Ho.
  pose proof (f_equal obj_Body Hs) as Hb. simpl in Ho, Hb. by split_and!.
Qed.

(** A successful application installs the object. *)
Lemma ApplyObject_installs w w1 o1 ch d M f :
  healthy w -> merger_for M f (obj_type d) ->
  match cli_Get w (obj_type d) (obj_key d) with
  | inl o => mergeable o d
  | inr e => IsNotFound e = true
  end ->
  ApplyObject w (state_of w (obj_type d) d M) = Ret (w1, (o1, ch, None)) ->
  installed f w1 d.
Proof. intros Hh HM Hread Happ. by apply kept_installed, (ApplyObject_kept healthy w w1 o1 ch d M f Hh HM Hread). Qed.

(** An application writes at most the object it is given. *)
Lemma ApplyObject_writes w w1 r d M f t :
  merger_for M f t -> obj_type d = t ->
  match cli_Get w t (obj_key d) with
  | inl o => mergeable o d
  | inr e => IsNotFound e = true
  end ->
  ApplyObject w (state_of w t d M) = Ret (w1, r) ->
  (healthy w -> healthy w1) /\
  (forall t' k, (t', k) <> obj_id d -> cli_Get w1 t' k = cli_Get w t' k).
Proof.
  intros HM Ht Hread Happ. destruct (cli_Get w t (obj_key d)) as [o|e] eqn:Hg.
  - destruct (ApplyObject_found w t d M f o HM Hread Ht Hg) as (r' & Hr & _).
    rewrite Hr in Happ. injection Happ as Hw _. case_decide; subst w1; [done|].
    set (m := merged o (completed f o d)). destruct (cli_Update w m) as [w' err] eqn:E. simpl.
    destruct (law_write w m w' err (or_intror (or_introl E))) as (H1 & H2 & _).
    split; [done|]. intros t' k Hk. apply H2. intros Heq. apply Hk. rewrite Heq. unfold obj_id. f_equal.
    unfold m, obj_type, merged. simpl. rewrite with_status_type. apply (complete_type M f t o d HM).
  - rewrite (state_of_missing _ _ _ _ _ Hg) in Happ.
    destruct (ApplyObject_create w (mkObjectState (ITypedNil t) (IObj d) (Some e) None
                (Some compare_Object) (Some M)) d e eq_refl eq_refl Hread) as (r' & Hr & _).
    rewrite Hr in Happ. injection Happ as <- _. destruct (cli_Create w d) as [w' err] eqn:E. simpl.
    by destruct (law_write w d w' err (or_introl E)) as (H1 & H2 & _).
Qed.

(** ** Sequences of objects *)

(** A desired object with its merger and what the merger completes. *)
Record entry := mkEntry {
  en_obj : Object; en_merge : iface -> iface -> go merge_result; en_fill : Body -> Body -> Body }.

Definition entry_state (w : W) (e : entry) : ObjectState :=
  state_of w (obj_type (en_obj e)) (en_obj e) (en_merge e).

(** The object as it is applied: controlled by an owner of some kind, here by the
    instance. *)
Definition owned_at (apiVersion kind : string) (owner : ObjectMeta) (o : Object) : Object :=
  fst (controllerutil.SetControllerReferenceAt apiVersion kind owner o).
Definition owned_by (kind : string) (owner : ObjectMeta) (o : Object) : Object :=
  fst (controllerutil.SetControllerReferenceOf kind owner o).
Definition owned (instance : NUMAResourcesOperator) (o : Object) : Object :=
  fst (controllerutil.SetControllerReference (nro_Meta instance) o).

(** The merger suits the type, and what the cluster holds can be merged. *)
Definition entry_ok (w : W) (e : entry) : Prop :=
  merger_for (en_merge e) (en_fill e) (obj_type (en_obj e)) /\
  forall o, cli_Get w (obj_type (en_obj e)) (obj_key (en_obj e)) = inl o -> mergeable o (en_obj e).

Lemma owned_at_id av kind owner o :
  obj_type (owned_at av kind owner o) = obj_type o /\ obj_key (owned_at av kind owner o) = obj_key o.
Proof. unfold owned_at, controllerutil.SetControllerReferenceAt. repeat case_match; done. Qed.

Lemma owned_by_id kind owner o :
  obj_type (owned_by kind owner o) = obj_type o /\ obj_key (owned_by kind owner o) = obj_key o.
Proof. apply (owned_at_id controllerutil.ownerAPIVersion). Qed.

Lemma owned_id instance o : obj_type (owned instance o) = obj_type o /\ obj_key (owned instance o) = obj_key o.
Proof. apply (owned_by_id controllerutil.ownerKind). Qed.

Lemma owned_at_mergeable av kind owner o d : mergeable o d -> mergeable o (owned_at av kind owner d).
Proof.
  intros [Ht Hk]. split; [by rewrite (proj1 (owned_at_id av kind owner d))|].
  unfold owned_at, controllerutil.SetControllerReferenceAt. repeat case_match; done.
Qed.

Lemma owned_by_mergeable kind owner o d : mergeable o d -> mergeable o (owned_by kind owner d).
Proof. apply (owned_at_mergeable controllerutil.ownerAPIVersion). Qed.

Lemma owned_mergeable instance o d : mergeable o d -> mergeable o (owned instance d).
Proof. apply (owned_by_mergeable controllerutil.ownerKind). Qed.

Lemma state_of_owned_at w av kind owner d M :
  os_with_Desired (IObj (owned_at av kind owner d)) (state_of w (obj_type d) d M)
  = state_of w (obj_type (owned_at av kind owner d)) (owned_at av kind owner d) M.
Proof.
  destruct (owned_at_id av kind owner d) as [-> Hk]. unfold state_of. rewrite Hk. by destruct (load _ _ _).
Qed.

Lemma state_of_owned_by w kind owner d M :
  os_with_Desired (IObj (owned_by kind owner d)) (state_of w (obj_type d) d M)
  = state_of w (obj_type (owned_by kind owner d)) (owned_by kind owner d) M.
Proof. apply (state_of_owned_at w controllerutil.ownerAPIVersion). Qed.

Lemma state_of_owned w instance d M :
  os_with_Desired (IObj (owned instance d)) (state_of w (obj_type d) d M)
  = state_of w (obj_type (owned instance d)) (owned instance d) M.
Proof. apply (state_of_owned_by w controllerutil.ownerKind). Qed.

Lemma state_of_same w w0 t d M :
  cli_Get w t (obj_key d) = cli_Get w0 t (obj_key d) -> state_of w0 t d M = state_of w t d M.
Proof. intros E. unfold state_of, load. by rewrite E. Qed.

Lemma state_of_fields w t d M :
  os_Desired (state_of w t d M) = IObj d /\ os_UpdateError (state_of w t d M) = None /\
  os_Merge (state_of w t d M) = Some M.
Proof. unfold state_of. by destruct (load w t (obj_key d)). Qed.

Lemma state_of_error w t d M : os_Error (state_of w t d M)
  = match cli_Get w t (obj_key d) with inl _ => None | inr e => Some e end.
Proof. unfold state_of, load. by destruct (cli_Get w t (obj_key d)). Qed.

(** The object of an entry is kept, and takes the instance as its controller. *)
Definition settled (instance : NUMAResourcesOperator) (w : W) (e : entry) : Prop :=
  kept (en_fill e) w (owned instance (en_obj e)) /\
  snd (controllerutil.SetControllerReference (nro_Meta instance) (en_obj e)) = None.

Lemma settled_frame instance w w' e :
  cli_Get w' (obj_type (en_obj e)) (obj_key (en_obj e)) = cli_Get w (obj_type (en_obj e)) (obj_key (en_obj e)) ->
  settled instance w e -> settled instance w' e.
Proof.
  intros E [Hk Hr]. split; [|done]. apply (kept_frame _ w); [|done].
  by destruct (owned_id instance (en_obj e)) as [-> ->].
Qed.

(** One step of a successful run. *)
Lemma applyObjects_step w w0 instance e rest w' :
  healthy w -> entry_ok w e ->
  cli_Get w (obj_type (en_obj e)) (obj_key (en_obj e)) = cli_Get w0 (obj_type (en_obj e)) (obj_key (en_obj e)) ->
  applyObjects w instance (entry_state w0 e :: rest) = Ret (w', None) ->
  exists w1, applyObjects w1 instance rest = Ret (w', None) /\ healthy w1 /\ settled instance w1 e /\
    forall t k, (t, k) <> obj_id (en_obj e) -> cli_Get w1 t k = cli_Get w t k.
Proof.
  intros Hh [HM Hmg] Hsame. unfold entry_state.
  rewrite (state_of_same w w0) by done. set (d := en_obj e) in *.
  destruct (owned_id instance d) as [Hot Hok].
  destruct (state_of_fields w (obj_type d) d (en_merge e)) as (Hd & Hu & _).
  cbn [applyObjects]. rewrite Hd, Hu. cbn [iface_deref go_bind].
  assert (match cli_Get w (obj_type d) (obj_key d) with
          | inl o => mergeable o d | inr e' => IsNotFound e' = true end
          \/ exists e' , os_Error (state_of w (obj_type d) d (en_merge e)) = Some e' /\ IsNotFound e' = false)
    as [Hread|(e' & He & Hn)].
  { rewrite state_of_error. destruct (cli_Get w (obj_type d) (obj_key d)) as [o|e'] eqn:Hg; [left; by apply Hmg|].
    destruct (IsNotFound e') eqn:Hn; [by left|right; by exists e']. }
  2: { unfold IsNotFoundError. rewrite He, Hn. done. }
  assert (match os_Error (state_of w (obj_type d) d (en_merge e)),
                IsNotFoundError (state_of w (obj_type d) d (en_merge e)) with
          | Some _, false => False | _, _ => True end) as Herr.
  { unfold IsNotFoundError. rewrite state_of_error. destruct (cli_Get w _ _); [done|]. by rewrite Hread. }
  intros Hrun.
  destruct (controllerutil.SetControllerReference (nro_Meta instance) d) as [d' err] eqn:Eref.
  assert (d' = owned instance d) as -> by (unfold owned; by rewrite Eref).
  assert (err = None /\ exists w1 o1 ch, ApplyObject w (os_with_Desired (IObj (owned instance d))
            (state_of w (obj_type d) d (en_merge e))) = Ret (w1, (o1, ch, None)) /\
          applyObjects w1 instance rest = Ret (w', None)) as (-> & w1 & o1 & ch & Happ & Hrest).
  { set (s := state_of w (obj_type d) d (en_merge e)) in *.
    destruct (os_Error s); [destruct (IsNotFoundError s); [|done]|]; (destruct err; [done|]);
      (destruct (ApplyObject w _) as [[w1 [[o1 ch] [err|]]]|] eqn:Happ; try done); (split; [done|]); by exists w1, o1, ch. }
  rewrite state_of_owned in Happ.
  assert (match cli_Get w (obj_type (owned instance d)) (obj_key (owned instance d)) with
          | inl o => mergeable o (owned instance d) | inr e' => IsNotFound e' = true end) as Hread'.
  { rewrite Hot, Hok. destruct (cli_Get w _ _); [by apply owned_mergeable|done]. }
  assert (merger_for (en_merge e) (en_fill e) (obj_type (owned instance d))) as HM' by (by rewrite Hot).
  exists w1. split; [done|].
  destruct (ApplyObject_writes _ _ _ _ _ _ _ HM' eq_refl Hread' Happ) as [Hh1 Hfr].
  split; [by apply Hh1|].
  split; [split; [by apply (ApplyObject_kept healthy w w1 o1 ch _ (en_merge e))|by fold d; rewrite Eref]|].
  intros t k Hk. apply Hfr. unfold obj_id. by rewrite Hot, Hok.
Qed.

Lemma applyObjects_settles_from w w0 instance es w' :
  healthy w ->
  Forall (entry_ok w0) es -> NoDup ((fun e => obj_id (en_obj e)) <$> es) ->
  Forall (fun e => cli_Get w (obj_type (en_obj e)) (obj_key (en_obj e))
                   = cli_Get w0 (obj_type (en_obj e)) (obj_key (en_obj e))) es ->
  applyObjects w instance (entry_state w0 <$> es) = Ret (w', None) ->
  Forall (settled instance w') es /\
  forall t k, Forall (fun e => (t, k) <> obj_id (en_obj e)) es -> cli_Get w' t k = cli_Get w t k.
Proof.
  revert w. induction es as [|e es IH]; intros w Hh Hok Hnd Hsame Hrun.
  { simpl in Hrun. injection Hrun as ->. by split. }
  apply Forall_cons in Hok as [He Hok]. apply Forall_cons in Hsame as [Hse Hsame].
  apply NoDup_cons in Hnd as [Hne Hnd].
  assert (entry_ok w e) as Hew by (split; [apply He|rewrite Hse; apply He]).
  destruct (applyObjects_step w w0 instance e _ w' Hh Hew Hse Hrun) as (w1 & Hrest & Hh1 & Hin & Hfr).
  assert (Forall (fun e' => obj_id (en_obj e') <> obj_id (en_obj e)) es) as Hdiff.
  { apply Forall_forall. intros e' He' Heq. apply Hne. rewrite <-Heq.
    by apply (list_elem_of_fmap_2 (fun e => obj_id (en_obj e))). }
  destruct (IH w1 Hh1 Hok Hnd) as [Hall Hfr']; [|done|].
  { apply Forall_forall. intros e' He'. rewrite Hfr.
    - rewrite Forall_forall in Hsame. by apply Hsame.
    - rewrite Forall_forall in Hdiff. by apply Hdiff. }
  split.
  - constructor; [|done]. apply (settled_frame _ w1); [|done]. apply Hfr'.
    apply Forall_forall. intros e' He' Heq. apply Hne. unfold obj_id in Heq. simpl.
    change (obj_type (en_obj e), obj_key (en_obj e)) with (obj_id (en_obj e)) in Heq.
    change (obj_type (en_obj e'), obj_key (en_obj e')) with (obj_id (en_obj e')) in Heq. rewrite Heq.
    by apply (list_elem_of_fmap_2 (fun e => obj_id (en_obj e))).
  - intros t k Hk. apply Forall_cons in Hk as [Hke Hk]. rewrite Hfr' by done. by apply Hfr.
Qed.

Lemma applyObjects_installs w instance es w' :
  healthy w -> Forall (entry_ok w) es -> NoDup ((fun e => obj_id (en_obj e)) <$> es) ->
  applyObjects w instance (entry_state w <$> es) = Ret (w', None) ->
  Forall (fun e => installed (en_fill e) w' (owned instance (en_obj e))) es /\
  forall t k, Forall (fun e => (t, k) <> obj_id (en_obj e)) es -> cli_Get w' t k = cli_Get w t k.
Proof.
  intros Hh Hok Hnd Hrun.
  destruct (applyObjects_settles_from w w instance es w') as [Hall Hfr]; try done; [by apply Forall_forall|].
  split; [|done]. eapply Forall_impl; [exact Hall|]. intros e [Hk _]. by apply kept_installed.
Qed.
End Install.

(** ** One object *)

Section One.
Context {W : Type} `{!Client W} (healthy : W -> Prop) `{!ClientLaws W healthy}.

(** The read of the object fails by absence only. *)
Definition readable (w : W) (o : Object) : Prop :=
  forall e, cli_Get w (obj_type o) (obj_key o) = inr e -> IsNotFound e = true.

Lemma entry_read w e :
  entry_ok w e -> readable w (en_obj e) ->
  match cli_Get w (obj_type (en_obj e)) (obj_key (en_obj e)) with
  | inl o => mergeable o (en_obj e)
  | inr err => IsNotFound err = true
  end.
Proof. intros [_ Hm] Hr. destruct (cli_Get _ _ _) eqn:E; [by apply Hm|by apply Hr]. Qed.

(** The object the client is given: the desired one, or its merge. *)
Definition applied_as (d m : Object) : Prop :=
  obj_id m = obj_id d /\ (obj_type d = TConfigMap -> obj_Body m = obj_Body d).

Lemma merged_applied M f t cur d :
  merger_for M f t -> obj_type d = t -> mergeable cur d -> applied_as d (merged cur (completed f cur d)).
Proof.
  intros HM Ht Hm. split.
  - unfold obj_id. f_equal. unfold obj_type, merged. simpl. rewrite with_status_type. exact (complete_type M f t cur d HM).
  - intros Hc. subst t. unfold merged, completed. simpl. destruct Hm as [Hty _]. rewrite Hc in HM.
    unfold obj_type in *. inversion HM; subst; simpl; destruct (obj_Body d), (obj_Body cur); done.
Qed.

Lemma apply_read w d M f :
  healthy w -> merger_for M f (obj_type d) ->
  match cli_Get w (obj_type d) (obj_key d) with
  | inl o => mergeable o d
  | inr e => IsNotFound e = true
  end ->
  exists w1 o1 ch err, ApplyObject w (state_of w (obj_type d) d M) = Ret (w1, (o1, ch, err)) /\
    (healthy w -> healthy w1) /\ (forall t k, (t, k) <> obj_id d -> cli_Get w1 t k = cli_Get w t k) /\
    (err = None -> exists m, o1 = IObj m /\ applied_as d m /\ installed f w1 d).
Proof.
  intros Hh HM Hread.
  assert (exists r, exists w1, ApplyObject w (state_of w (obj_type d) d M) = Ret (w1, r) /\
    (snd r = None -> exists m, fst (fst r) = IObj m /\ applied_as d m)) as ([[o1 ch] err] & w1 & Happ & Hm).
  { destruct (cli_Get w (obj_type d) (obj_key d)) as [o|e] eqn:Hg.
    - destruct (ApplyObject_found w _ d M f o HM Hread eq_refl Hg) as (r & Hr & Hsame & Hdiff & Hok).
      eexists r, _. split; [exact Hr|]. intros He. exists (merged o (completed f o d)).
      split; [|by apply (merged_applied M f (obj_type d))].
      destruct (decide (sem_eq (left_behind o d) (merged o (completed f o d)))) as [Hs|Hs]; [by rewrite (Hsame Hs)|].
      by rewrite (Hdiff Hs (Hok Hs He)).
    - rewrite (state_of_missing _ _ _ _ _ Hg).
      destruct (ApplyObject_create w (mkObjectState (ITypedNil (obj_type d)) (IObj d) (Some e) None
                (Some compare_Object) (Some M)) d e eq_refl eq_refl Hread) as (r & Hr & Hc & Hok).
      eexists r, _. split; [exact Hr|]. intros He. exists d. rewrite (Hc (Hok He)). split; [done|]. by split. }
  exists w1, o1, ch, err. split; [done|].
  destruct (ApplyObject_writes healthy w w1 (o1, ch, err) d M f (obj_type d) HM eq_refl Hread Happ) as [Hh1 Hfr].
  split; [done|]. split; [done|]. intros ->. destruct (Hm eq_refl) as (m & Ho & Ha). exists m. split; [done|].
  split; [done|]. by apply (ApplyObject_installs healthy w w1 o1 ch d M f).
Qed.
End One.

(** ** The shared objects *)

Definition all_slots : list slot :=
  [SServiceAccount; SRole; SRoleBinding; SClusterRole; SClusterRoleBinding; SAPIServerNetworkPolicy;
   SMetricsServerNetworkPolicy; SDefaultNetworkPolicy; SSCC; SSCCv2; SMetricsService].

Definition slot_merge (s : slot) : iface -> iface -> go merge_result :=
  match s with
  | SServiceAccount => ServiceAccountForUpdate
  | SAPIServerNetworkPolicy | SMetricsServerNetworkPolicy | SDefaultNetworkPolicy => MetadataForUpdate
  | SMetricsService => ServiceForUpdate
  | _ => ObjectForUpdate
  end.

Definition slot_fill (s : slot) : Body -> Body -> Body :=
  match s with
  | SServiceAccount => complete_account
  | SMetricsService => complete_service
  | _ => complete_plain
  end.

Lemma slot_merger s : merger_for (slot_merge s) (slot_fill s) (slot_type s).
Proof. destruct s; constructor; set_solver. Qed.

(** Every object of the manifests has the type and kind of its place. *)
Definition manifests_typed (mf : Manifests) : Prop :=
  forall s o, slot_object mf s = Some o -> obj_type o = slot_type s /\ kind_ok o.

Definition slot_entry (mf : Manifests) (s : slot) : option entry :=
  (fun o => mkEntry o (slot_merge s) (slot_fill s)) <$> slot_object mf s.

Definition shared_entries (mf : Manifests) : list entry := omap (slot_entry mf) all_slots.

Lemma elem_of_shared_entries mf e :
  e ∈ shared_entries mf <-> exists s, slot_entry mf s = Some e.
Proof.
  unfold shared_entries. rewrite list_elem_of_omap. split; [naive_solver|].
  intros [s Hs]. exists s. split; [|done]. destruct s; set_solver.
Qed.

Section Shared.
Context {W : Type} `{!Client W} (healthy : W -> Prop) `{!ClientLaws W healthy}.

Lemma TreeAgnostic_entries (w : W) em mf :
  manifests_typed mf ->
  (forall s o, slot_object mf s = Some o -> em_existing em s = load w (slot_type s) (obj_key o)) ->
  TreeAgnostic em mf = entry_state w <$> shared_entries mf.
Proof.
  intros Hty Hld.
  assert (forall s o, slot_object mf s = Some o ->
            shared_state em s o (slot_merge s) = entry_state w (mkEntry o (slot_merge s) (slot_fill s))) as Hst.
  { intros s o Hs. unfold shared_state, entry_state, state_of. simpl.
    by rewrite (Hld s o Hs), (proj1 (Hty s o Hs)). }
  assert (TreeAgnostic em mf
          = omap (fun s => (fun o => shared_state em s o (slot_merge s)) <$> slot_object mf s) all_slots) as ->.
  { unfold TreeAgnostic. simpl. by destruct (mf_SCC mf), (mf_SCCv2 mf). }
  unfold shared_entries. generalize all_slots. unfold omap. induction l as [|s l IH]; simpl; [done|].
  unfold slot_entry at 1. destruct (slot_object mf s) as [o|] eqn:Hs; simpl; [|done].
  by rewrite (Hst s o Hs), IH.
Qed.

(** A set-up that succeeds replaces the daemon set and the first security
    context constraint. *)
Lemma setup_inv r r' instance :
  setupTreeAgnosticManifests r instance = Ret (r', None) ->
  exists ds scc scc', mf_SCC (r_RTEManifests r) = Some scc /\ SecurityContextConstraint scc true = Ret scc' /\
    r' = r_with_Manifests (mf_with_SCC (Some scc') (mf_with_DaemonSet ds (r_RTEManifests r))) r.
Proof.
  unfold setupTreeAgnosticManifests. intros Hset.
  destruct (DaemonSetAffinitySettings _ _) as [d1 [e|]]; [done|].
  destruct (DaemonSetUserImageSettings d1 _ _ _) as [d2 [e|]]; [done|].
  destruct (DaemonSetPauseContainerSettings d2) as [d3 [e|]]; [done|].
  destruct (loglevel.UpdatePodSpec _ _ _) as [[ps [e|]]|]; simpl in Hset; [done| |done].
  destruct (mf_SCC (r_RTEManifests r)) as [scc|]; simpl in Hset; [|done].
  destruct (SecurityContextConstraint scc true) as [scc'|] eqn:E; simpl in Hset; [|done].
  injection Hset as <-. eauto 10.
Qed.

Lemma setup_slots r r' instance s o' :
  setupTreeAgnosticManifests r instance = Ret (r', None) ->
  slot_object (r_RTEManifests r') s = Some o' ->
  exists o, slot_object (r_RTEManifests r) s = Some o /\ obj_key o' = obj_key o /\ obj_type o' = obj_type o /\
    (kind_ok o -> kind_ok o').
Proof.
  intros (ds & scc & scc' & Escc & Hset & ->)%setup_inv Hs. unfold SecurityContextConstraint in Hset.
  destruct (scc_SELinuxOptions scc); simpl in *; [|done]. injection Hset as <-.
  destruct s; simpl in *; simplify_eq/=; eauto. rewrite Escc. simpl. eauto.
Qed.

Lemma FromClient_loads (w : W) plat mf n ns em s o :
  plat <> platform.Kubernetes ->
  FromClientTreeAgnostic w plat mf n ns = Ret em ->
  slot_object mf s = Some o -> em_existing em s = load w (slot_type s) (obj_key o).
Proof.
  intros Hp Hem Hs. unfold FromClientTreeAgnostic in Hem. rewrite decide_True in Hem by done.
  destruct (mf_SCC mf), (mf_SCCv2 mf); simpl in Hem; try done. injection Hem as <-. simpl. by rewrite Hs.
Qed.

(** C25: when the shared objects are applied without error, each one (service
    account, roles, bindings, network policies, security context constraints,
    metrics service) is in the cluster under its name, with the content of the
    manifests as set up for this instance, completed by what the cluster injected,
    and controlled by the instance; no other object changed. *)
Theorem shared_objects_installed w r r' instance n ns em w' :
  healthy w -> r_Platform r <> platform.Kubernetes ->
  manifests_typed (r_RTEManifests r) ->
  NoDup ((fun e => obj_id (en_obj e)) <$> shared_entries (r_RTEManifests r')) ->
  FromClientTreeAgnostic w (r_Platform r) (r_RTEManifests r) n ns = Ret em ->
  setupTreeAgnosticManifests r instance = Ret (r', None) ->
  applyObjects w instance (TreeAgnostic em (r_RTEManifests r')) = Ret (w', None) ->
  (forall s d, slot_object (r_RTEManifests r') s = Some d -> installed (slot_fill s) w' (owned instance d)) /\
  (forall t k, (forall s d, slot_object (r_RTEManifests r') s = Some d -> (t, k) <> obj_id d) ->
     cli_Get w' t k = cli_Get w t k).
Proof.
  intros Hh Hp Hty Hnd Hem Hset Hrun.
  assert (manifests_typed (r_RTEManifests r')) as Hty'.
  { intros s o Hs. destruct (setup_slots _ _ _ _ _ Hset Hs) as (o0 & Hs0 & _ & -> & Hk).
    destruct (Hty s o0 Hs0). by auto. }
  rewrite (TreeAgnostic_entries w) in Hrun; [|done|].
  2: { intros s o Hs. destruct (setup_slots _ _ _ _ _ Hset Hs) as (o0 & Hs0 & -> & _ & _).
       by apply (FromClient_loads w _ _ _ _ _ _ _ Hp Hem). }
  destruct (applyObjects_installs healthy w instance (shared_entries (r_RTEManifests r')) w' Hh) as [Hall Hfr];
    [|done|done|].
  { apply Forall_forall. intros e [s Hs]%elem_of_shared_entries. unfold slot_entry in Hs.
    apply fmap_Some in Hs as (d & Hd & ->). destruct (Hty' s d Hd) as [Ht Hk].
    split; simpl; [rewrite Ht; apply slot_merger|]. intros o. by apply (read_mergeable healthy). }
  split.
  - intros s d Hs. rewrite Forall_forall in Hall.
    apply (Hall (mkEntry d (slot_merge s) (slot_fill s))). apply elem_of_shared_entries. exists s.
    unfold slot_entry. by rewrite Hs.
  - intros t k Hk. apply Hfr. apply Forall_forall. intros e [s Hs]%elem_of_shared_entries.
    unfold slot_entry in Hs. apply fmap_Some in Hs as (d & Hd & ->). by apply (Hk s).
Qed.
End Shared.

Lemma scenario_typed : manifests_typed scenario.manifests.
Proof. intros s o Hs. destruct s; simpl in Hs; simplify_eq; (split; [done|by right]). Qed.

(** The first component of a computation that returns, for evaluation. *)
Definition state_after {A B} (a0 : A) (m : go (A * option B)) : A :=
  match m with Ret (a, _) => a | Panic _ => a0 end.
Definition succeeds {A B} (m : go (A * option B)) : bool :=
  match m with Ret (_, None) => true | _ => false end.

Lemma succeeds_Ret {A B} (a0 : A) (m : go (A * option B)) :
  succeeds m = true -> m = Ret (state_after a0 m, None).
Proof. by destruct m as [[a [b|]]|]. Qed.

Lemma shared_objects_installed_witness :
  let i := scenario.instance [scenario.group "worker"] None "" in
  let w := scenario.cluster i (fun _ _ => None) in
  let r := scenario.reconciler platform.OpenShift in
  let r' := state_after r (setupTreeAgnosticManifests r i) in
  exists em w',
    FromClientTreeAgnostic w platform.OpenShift scenario.manifests "nro" "numaresources" = Ret em /\
    applyObjects w i (TreeAgnostic em (r_RTEManifests r')) = Ret (w', None) /\
    installed complete_account w' (owned i (mf_ServiceAccount (r_RTEManifests r'))).
Proof.
  intros i w r r'.
  assert (exists em, FromClientTreeAgnostic w platform.OpenShift scenario.manifests "nro" "numaresources" = Ret em /\
    succeeds (applyObjects w i (TreeAgnostic em (r_RTEManifests r'))) = true) as (em & Hem & Hw).
  { eexists. split; [reflexivity|]. vm_compute. reflexivity. }
  assert (succeeds (setupTreeAgnosticManifests r i) = true) as Hr by (vm_compute; reflexivity).
  apply (succeeds_Ret r) in Hr. apply (succeeds_Ret w) in Hw.
  eexists em, _. split; [exact Hem|]. split; [exact Hw|].
  refine (proj1 (shared_objects_installed answers_reads w r r' i "nro" "numaresources" em _ _ _ _ _ Hem Hr Hw)
            SServiceAccount _ eq_refl).
  - by apply answers_reads_check.
  - discriminate.
  - apply scenario_typed.
  - apply (bool_decide_unpack _). vm_compute. exact I.
Defined.
