(* ===== verification/WriteFrame.v ===== *)
(** * What an application can write

    Whatever its outcome, applying a state writes at most the object the state is
    about, and leaves a cluster that answers reads. *)
From S2P Require Import Prelude GoErrors Meta Selectors ApiV1 Conditions Steps Trees Workload.
From S2P Require Import Objects MergeSpec Cluster Apply RteState Dangling Controller.

(** ** Mergers keep the identity of the updated object *)

Definition keeps_id (M : iface -> iface -> go merge_result) : Prop :=
  forall c u r, M c u = Ret r -> mr_err r = None ->
    exists u0 u1, u = IObj u0 /\ mr_updated r = IObj u1 /\ obj_id u1 = obj_id u0.

Lemma MetadataForUpdate_id : keeps_id MetadataForUpdate.
Proof.
  intros c u r H Hn. unfold MetadataForUpdate in H.
  destruct (isSameKind c u) as [[]|]; simpl in H; [|by simplify_eq/=|done].
  destruct c as [| |c]; simpl in H; try done. destruct u as [| |u]; simpl in H; try done.
  injection H as <-. by do 2 eexists.
Qed.

Lemma StatusForUpdate_id c u r :
  StatusForUpdate c (IObj u) = Ret r -> exists u1, mr_updated r = IObj u1 /\ obj_id u1 = obj_id u.
Proof.
  unfold StatusForUpdate. destruct u as [? ? ? b]. intros H.
  destruct c as [|t|[? ? ? bc]]; [| destruct t |destruct bc]; destruct b; simpl in H; simplify_eq/=; by eexists.
Qed.

Lemma ObjectForUpdate_id : keeps_id ObjectForUpdate.
Proof.
  intros c u r H Hn. unfold ObjectForUpdate in H.
  destruct (MetadataForUpdate c u) as [r1|] eqn:E; simpl in H; [|done].
  destruct (mr_err r1) eqn:Hr1; [congruence|].
  destruct (MetadataForUpdate_id _ _ _ E Hr1) as (u0 & u1 & -> & Hu & Hid). rewrite Hu in H.
  apply StatusForUpdate_id in H as (u2 & H2 & Hid2). exists u0, u2. split_and!; [done..|congruence].
Qed.

Lemma merger_keeps_id M f t : merger_for M f t -> keeps_id M.
Proof.
  destruct 1; [apply ObjectForUpdate_id|apply MetadataForUpdate_id| |].
  - intros c u r H Hn. unfold ServiceAccountForUpdate in H.
    repeat (case_match; simplify_eq/=); destruct (ObjectForUpdate_id _ _ _ H Hn) as (u0 & u1 & Hu & Hr & Hid);
      injection Hu as <-; do 2 eexists; split_and!; [done|exact Hr|exact Hid].
  - intros c u r H Hn. unfold ServiceForUpdate in H.
    repeat (case_match; simplify_eq/=); destruct (ObjectForUpdate_id _ _ _ H Hn) as (u0 & u1 & Hu & Hr & Hid);
      injection Hu as <-; do 2 eexists; split_and!; [done|exact Hr|exact Hid].
Qed.

Section Frame.
Context {W : Type} `{!Client W} (healthy : W -> Prop) `{!ClientLaws W healthy}.

(** From [w] to [w'] only objects of [ids] may differ. *)
Definition only_writes (ids : gotype * NamespacedName -> Prop) (w w' : W) : Prop :=
  (healthy w -> healthy w') /\ forall t k, ~ ids (t, k) -> cli_Get w' t k = cli_Get w t k.

Lemma only_writes_refl ids w : only_writes ids w w.
Proof. by split. Qed.

Lemma only_writes_trans ids w1 w2 w3 : only_writes ids w1 w2 -> only_writes ids w2 w3 -> only_writes ids w1 w3.
Proof. intros [H1 F1] [H2 F2]. split; [auto|]. intros t k Hn. by rewrite F2, F1. Qed.

Lemma only_writes_weaken (ids ids' : gotype * NamespacedName -> Prop) w w' :
  (forall id, ids id -> ids' id) -> only_writes ids w w' -> only_writes ids' w w'.
Proof. intros Hi [H F]. split; [done|]. intros t k Hn. apply F. auto. Qed.

Lemma write_only (f : W -> Object -> W * option error) w o :
  (f = cli_Create \/ f = cli_Update \/ f = cli_Delete) ->
  only_writes (.= obj_id o) w (fst (f w o)).
Proof.
  intros Hf. destruct (f w o) as [w' err] eqn:E.
  destruct (law_write w o w' err) as (H & F & _); [by destruct Hf as [->|[->| ->]]; auto|].
  by split.
Qed.

Lemma ApplyObject_only w s d M w' r :
  os_Desired s = IObj d -> os_Merge s = Some M -> keeps_id M ->
  ApplyObject w s = Ret (w', r) -> only_writes (.= obj_id d) w w'.
Proof.
  intros Hd HM Hid. unfold ApplyObject. rewrite Hd, HM. destruct (describe_obj d) as [[ds de] ->]. simpl.
  destruct (IsNotFoundError s).
  { pose proof (write_only cli_Create w d (or_introl eq_refl)) as Hw.
    destruct (cli_Create w d) as [w1 [err|]]; simpl; intros [= <- <-]; exact Hw. }
  destruct (M (os_Existing s) (IObj d)) as [m|] eqn:Em; simpl; [|done].
  destruct (mr_err m) eqn:Hm; [intros [= <- _]; apply only_writes_refl|].
  destruct (Hid _ _ _ Em Hm) as (u0 & u1 & [= <-] & Hu & Hi). rewrite Hu.
  destruct (os_Compare s) as [cmp|]; simpl; [|done].
  destruct (cmp (mr_current m) (IObj u1)) as [[] [err|]]; try (intros [= <- _]; apply only_writes_refl).
  pose proof (write_only cli_Update w u1 (or_intror (or_introl eq_refl))) as Hw. rewrite Hi in Hw.
  simpl. destruct (cli_Update w u1) as [w1 [err|]]; simpl; intros [= <- _]; exact Hw.
Qed.

Lemma ApplyState_delete_only w s o w' r :
  os_Desired s = INil -> os_Existing s = IObj o ->
  ApplyState w s = Ret (w', r) -> only_writes (.= obj_id o) w w'.
Proof.
  intros Hd Ho. unfold ApplyState, IsCreateOrUpdate. rewrite Hd, Ho. simpl.
  destruct (IsNotFoundError s); [intros [= <- _]; apply only_writes_refl|].
  destruct (describe_obj o) as [[ds de] ->]. simpl.
  pose proof (write_only cli_Delete w o (or_intror (or_intror eq_refl))) as Hw.
  destruct (cli_Delete w o) as [w1 [err|]]; simpl; intros [= <- _]; exact Hw.
Qed.

(** An application is a sequence of writes. *)
Lemma write_once f w o : (f = cli_Create \/ f = cli_Update \/ f = cli_Delete) -> rtc one_write w (fst (f w o)).
Proof. intros Hf. apply rtc_once. exists o. destruct Hf as [->|[->| ->]]; auto. Qed.

Lemma ApplyObject_writes_star w s w' r : ApplyObject w s = Ret (w', r) -> rtc one_write w w'.
Proof.
  unfold ApplyObject. intros Hrun. destruct (describeObject _) as [[ds de]|]; cbn [go_bind] in Hrun; [|done].
  destruct (IsNotFoundError s).
  { unfold write in Hrun. destruct (iface_deref _) as [o|]; cbn [go_bind] in Hrun; [|done].
    pose proof (write_once cli_Create w o (or_introl eq_refl)) as Hw.
    destruct (cli_Create w o) as [w1 [err|]]; by injection Hrun as <- _. }
  destruct (os_Merge s) as [M|]; cbn [deref go_bind] in Hrun; [|done].
  destruct (M _ _) as [m|]; cbn [go_bind] in Hrun; [|done]. destruct (mr_err m); [by injection Hrun as <- _|].
  destruct (os_Compare s) as [cmp|]; cbn [deref go_bind] in Hrun; [|done].
  destruct (cmp _ _) as [[] [err|]]; try (by injection Hrun as <- _).
  unfold write in Hrun. destruct (iface_deref _) as [o|]; cbn [go_bind] in Hrun; [|done].
  pose proof (write_once cli_Update w o (or_intror (or_introl eq_refl))) as Hw.
  destruct (cli_Update w o) as [w1 [err|]]; by injection Hrun as <- _.
Qed.

Lemma ApplyState_writes_star w s w' r : ApplyState w s = Ret (w', r) -> rtc one_write w w'.
Proof.
  unfold ApplyState. destruct (negb _); [|apply ApplyObject_writes_star]. intros Hrun.
  destruct (IsNotFoundError s); [by injection Hrun as <- _|].
  destruct (iface_is_nil _); [by injection Hrun as <- _|].
  destruct (describeObject _) as [[ds de]|]; cbn [go_bind] in Hrun; [|done].
  unfold write in Hrun. destruct (iface_deref _) as [o|]; cbn [go_bind] in Hrun; [|done].
  pose proof (write_once cli_Delete w o (or_intror (or_intror eq_refl))) as Hw.
  destruct (cli_Delete w o) as [w1 [err|]]; by injection Hrun as <- _.
Qed.

(** ** Sequences *)

(** What a list of states may write. *)
Definition writable (states : list ObjectState) (id : gotype * NamespacedName) : Prop :=
  exists s d, s ∈ states /\ os_Desired s = IObj d /\ id = obj_id d.

Definition state_merges (s : ObjectState) : Prop := exists M f t, os_Merge s = Some M /\ merger_for M f t.

Lemma SetControllerReference_id meta d d' err :
  controllerutil.SetControllerReference meta d = (d', err) -> obj_id d' = obj_id d.
Proof. unfold controllerutil.SetControllerReference, controllerutil.SetControllerReferenceOf, controllerutil.SetControllerReferenceAt. intros E. by repeat case_match; simplify_eq. Qed.

Lemma applyObjects_only w instance states w' err :
  Forall state_merges states -> applyObjects w instance states = Ret (w', err) ->
  only_writes (writable states) w w'.
Proof.
  intros Hall. revert w. induction Hall as [|s states (M & f & t & HM & Hm) _ IH]; intros w Hrun.
  { simpl in Hrun. injection Hrun as -> _. apply only_writes_refl. }
  cbn [applyObjects] in Hrun. destruct (os_Desired s) as [| |d] eqn:Hd; simpl in Hrun; try done.
  destruct (controllerutil.SetControllerReference _ d) as [d' rerr] eqn:Eref.
  pose proof (SetControllerReference_id _ _ _ _ Eref) as Hid.
  assert (only_writes (writable (s :: states)) w w' \/
    exists w1 o1 ch, ApplyObject w (os_with_Desired (IObj d') s) = Ret (w1, (o1, ch)) /\
      (w' = w1 \/ applyObjects w1 instance states = Ret (w', err))) as [?|(w1 & o1 & ch & Happ & Hw)]; [|done|].
  { destruct (os_Error s), (IsNotFoundError s), (os_UpdateError s), rerr;
      try (injection Hrun as -> _; left; apply only_writes_refl);
      destruct (ApplyObject w _) as [[w1 [o1 [err1|]]]|] eqn:Happ; simpl in Hrun; try done; right; exists w1, o1;
      eexists; (split; [reflexivity|]); destruct o1; first [by right|left; by simplify_eq]. }
  apply (ApplyObject_only _ _ d' M) in Happ; [|done|done|by apply (merger_keeps_id _ f t)].
  rewrite Hid in Happ.
  assert (only_writes (writable (s :: states)) w w1) as H1.
  { apply (only_writes_weaken (.= obj_id d)); [|done]. intros id ->. exists s, d. split; [by left|done]. }
  destruct Hw as [->|Hw]; [done|]. apply (only_writes_trans _ _ w1); [done|].
  apply (only_writes_weaken (writable states)); [|by apply IH].
  intros id (s' & d0 & Hs & ?). exists s', d0. split; [by right|done].
Qed.

Lemma apply_api_only w states n w' r :
  Forall state_merges states -> apply_api w states n = Ret (w', r) -> only_writes (writable states) w w'.
Proof.
  intros Hall. revert w n. induction Hall as [|s states (M & f & t & HM & Hm) _ IH]; intros w n Hrun.
  { simpl in Hrun. injection Hrun as -> _. apply only_writes_refl. }
  cbn [apply_api] in Hrun. destruct (ApplyObject w s) as [[w1 [[o1 ch] err]]|] eqn:Happ; simpl in Hrun; [|done].
  destruct (os_Desired s) as [| |d] eqn:Hd; [|unfold ApplyObject in Happ; by rewrite Hd in Happ|].
  - unfold ApplyObject in Happ. rewrite Hd, HM in Happ. simpl in Happ.
    destruct (IsNotFoundError s); simpl in Happ; [done|].
    destruct (M (os_Existing s) INil) as [m|] eqn:Em; simpl in Happ; [|done].
    destruct (mr_err m) eqn:Em'.
    + by injection Happ as _ _ _ <-.
    + by destruct (merger_keeps_id _ f t Hm _ _ _ Em Em') as (u0 & _ & ? & _).
  - apply (ApplyObject_only _ _ d M) in Happ; [|done|done|by apply (merger_keeps_id _ f t)].
    assert (only_writes (writable (s :: states)) w w1) as H1.
    { apply (only_writes_weaken (.= obj_id d)); [|done]. intros id ->. exists s, d. split; [by left|done]. }
    destruct err; [by simplify_eq/=|].
    apply (only_writes_trans _ _ w1); [done|].
    apply (only_writes_weaken (writable states)); [|by eapply IH].
    intros id (s' & d0 & Hs & ?). exists s', d0. split; [by right|done].
Qed.

Lemma delete_unused_only uid expected items w :
  only_writes (fun id => exists o, o ∈ items /\ dangling uid expected o /\ id = obj_id o)
    w (fst (delete_unused uid expected items w)).
Proof.
  rewrite delete_unused_fold. generalize (@None error). revert w.
  induction items as [|o items IH]; intros w errs; [apply only_writes_refl|]. simpl.
  apply (only_writes_trans _ _ (fst (delete_one uid expected (w, errs) o))).
  - unfold delete_one. case_decide; [|apply only_writes_refl]. simpl.
    apply (only_writes_weaken (.= obj_id o)); [|by apply write_only; auto].
    intros id ->. exists o. split; [by left|done].
  - destruct (delete_one _ _ _ _) as [w1 errs1]. eapply only_writes_weaken; [|apply IH].
    intros id (o' & ? & ?). exists o'. split; [by right|done].
Qed.
End Frame.
