(* ===== verification/Willing.v ===== *)
(** * Applications on a willing cluster

    On a cluster that takes every legitimate write, applying an object succeeds,
    and so does a sequence of them and a deletion; the status of what was there
    is kept. *)
From S2P Require Import Prelude GoErrors Meta Selectors ApiV1 Conditions Steps Trees Workload.
From S2P Require Import Objects MergeSpec Cluster Apply RteState Dangling Controller Install WriteFrame.

(** ** Objects that can be taken over *)

(** The owner can become the controller of the object. *)
Definition controllable (kind : string) (owner : ObjectMeta) (o : Object) : Prop :=
  snd (controllerutil.SetControllerReferenceOf kind owner o) = None.

(** No controller owns it yet. *)
Definition free (o : Object) : Prop := controllerutil.GetControllerOf (om_OwnerReferences (obj_Meta o)) = None.

Lemma controllable_free kind owner o : om_Namespace owner = "" -> free o -> controllable kind owner o.
Proof.
  intros Hns Hf. unfold controllable, controllerutil.SetControllerReferenceOf, controllerutil.SetControllerReferenceAt.
  rewrite Hns. simpl. by rewrite Hf.
Qed.

Lemma kind_ok_owned_by kind owner d : kind_ok d -> kind_ok (owned_by kind owner d).
Proof.
  unfold kind_ok, owned_by, controllerutil.SetControllerReferenceOf, controllerutil.SetControllerReferenceAt.
  intros Hk. repeat case_match; exact Hk.
Qed.

Lemma kind_ok_merged M f t cur d :
  merger_for M f t -> obj_type d = t -> kind_ok d -> kind_ok (merged cur (completed f cur d)).
Proof.
  intros HM Ht Hk.
  assert (obj_type (merged cur (completed f cur d)) = obj_type d) as E.
  { unfold obj_type, merged. simpl. rewrite with_status_type. exact (complete_type M f t cur d HM). }
  unfold kind_ok in *. by rewrite E.
Qed.

(** The objects of a list of entries. *)
Definition entry_ids (es : list entry) (id : gotype * NamespacedName) : Prop :=
  exists e, e ∈ es /\ id = obj_id (en_obj e).

Section Willing.
Context {W : Type} `{!Client W} (healthy willing : W -> Prop) `{!ClientLaws W healthy} `{!WillingLaws W healthy willing}.

Lemma writes_willing w w' : willing w -> rtc one_write w w' -> willing w'.
Proof. intros Hw. induction 1 as [|w w1 w2 H1 _ IH]; [done|]. by apply IH, (law_willing_write w). Qed.

(** ** The status of an object *)

(** The status an object has, it keeps. *)
Definition keeps_status (w w' : W) (t : gotype) (k : NamespacedName) : Prop :=
  forall cur, cli_Get w t k = inl cur ->
    exists o, cli_Get w' t k = inl o /\ with_status_of (obj_Body cur) (obj_Body o) = obj_Body o.

Lemma keeps_status_refl w t k : keeps_status w w t k.
Proof. intros cur Hg. exists cur. split; [done|]. by destruct (obj_Body cur). Qed.

Lemma keeps_status_before w w1 w' t k :
  cli_Get w1 t k = cli_Get w t k -> keeps_status w1 w' t k -> keeps_status w w' t k.
Proof. unfold keeps_status. by intros ->. Qed.

Lemma keeps_status_after w w1 w' t k :
  cli_Get w' t k = cli_Get w1 t k -> keeps_status w w1 t k -> keeps_status w w' t k.
Proof. unfold keeps_status. by intros ->. Qed.

(** ** One object *)

Lemma apply_willing w d M f :
  willing w -> kind_ok d -> merger_for M f (obj_type d) ->
  exists w1 o1 ch, ApplyObject w (state_of w (obj_type d) d M) = Ret (w1, (o1, ch, None)) /\ willing w1 /\
    rtc one_write w w1 /\ keeps_status w w1 (obj_type d) (obj_key d).
Proof.
  intros Hw Hk HM. pose proof (law_willing_healthy w Hw) as Hh.
  assert (exists w1 o1 ch, ApplyObject w (state_of w (obj_type d) d M) = Ret (w1, (o1, ch, None)) /\
    keeps_status w w1 (obj_type d) (obj_key d)) as (w1 & o1 & ch & E & Hs).
  2: { pose proof (ApplyObject_writes_star _ _ _ _ E) as Hr. exists w1, o1, ch. split; [done|].
       split; [by apply (writes_willing w)|done]. }
  destruct (cli_Get w (obj_type d) (obj_key d)) as [o|e] eqn:Hg.
  - assert (mergeable o d) as Hm by (by apply (read_mergeable healthy w)).
    destruct (ApplyObject_found w _ d M f o HM Hm eq_refl Hg) as (r & Hr & Hsame & Hdiff & _).
    destruct (decide (sem_eq (left_behind o d) (merged o (completed f o d)))) as [Hs|Hs].
    { rewrite Hr, (Hsame Hs). do 3 eexists. split; [reflexivity|apply keeps_status_refl]. }
    destruct (merged_applied M f _ o d HM eq_refl Hm) as [Hid _]. apply (f_equal fst) in Hid as Hty. simpl in Hty.
    destruct (law_willing_update w (merged o (completed f o d)) o Hw) as (Hu & Hst).
    { by apply (kind_ok_merged M f (obj_type d)). }
    { rewrite Hty. unfold obj_key. simpl. done. }
    rewrite Hr, (Hdiff Hs Hu). do 3 eexists. split; [reflexivity|].
    intros cur Hg'. rewrite Hg in Hg'. injection Hg' as <-.
    destruct Hst as (o' & Hg' & Hs').
    { simpl. apply with_status_twice. destruct Hm as [Ht _]. unfold obj_type in Ht. rewrite Ht. symmetry.
      exact (complete_type M f _ o d HM). }
    exists o'. rewrite Hty in Hg'. done.
  - rewrite (state_of_missing _ _ _ _ _ Hg).
    destruct (ApplyObject_create w (mkObjectState (ITypedNil (obj_type d)) (IObj d) (Some e) None
                (Some compare_Object) (Some M)) d e eq_refl eq_refl (law_willing_absent w _ _ _ Hw Hg)) as (r & Hr & Hc & _).
    rewrite Hr, (Hc (law_willing_create w d e Hw Hk Hg)). do 3 eexists. split; [reflexivity|].
    intros cur Hg'. congruence.
Qed.

(** Deleting what was read, or found absent. *)
Lemma delete_willing w t k :
  willing w ->
  exists w1 r, ApplyState w (delete_state w t k) = Ret (w1, (r, None)) /\ willing w1 /\ only_writes healthy (.= (t, k)) w w1.
Proof.
  intros Hw. pose proof (law_willing_healthy w Hw) as Hh. pose proof (ApplyState_delete w t k) as Hd.
  destruct (cli_Get w t k) as [o|e] eqn:Hg.
  - destruct Hd as (r & Hd & Hr). pose proof (law_get_id _ _ _ _ Hh Hg) as Hid. injection Hid as Ht Hk.
    rewrite (proj1 Hr) in Hd by (apply (law_willing_delete w o o Hw); by rewrite Ht, Hk).
    pose proof (ApplyState_writes_star _ _ _ _ Hd) as Hs. do 2 eexists. split; [exact Hd|].
    split; [by apply (writes_willing w)|]. rewrite <-Hk, <-Ht. by apply write_only; auto.
  - rewrite (law_willing_absent w t k e Hw Hg) in Hd. do 2 eexists. split; [exact Hd|]. split; [done|]. apply only_writes_refl.
Qed.

(** ** A sequence of objects of the operator *)

Section Sequence.
Context (instance : NUMAResourcesOperator).

Notation own := (owned instance).

(** An entry that can be applied for the instance. *)
Definition appliable (e : entry) : Prop :=
  merger_for (en_merge e) (en_fill e) (obj_type (en_obj e)) /\ kind_ok (en_obj e) /\
  controllable controllerutil.ownerKind (nro_Meta instance) (en_obj e).

Lemma applyObjects_willing_step w w0 e rest :
  willing w -> appliable e ->
  cli_Get w (obj_type (en_obj e)) (obj_key (en_obj e)) = cli_Get w0 (obj_type (en_obj e)) (obj_key (en_obj e)) ->
  exists w1, applyObjects w instance (entry_state w0 e :: rest) = applyObjects w1 instance rest /\ willing w1 /\
    rtc one_write w w1 /\ only_writes healthy (.= obj_id (en_obj e)) w w1 /\
    keeps_status w w1 (obj_type (en_obj e)) (obj_key (en_obj e)).
Proof.
  intros Hw (HM & Hk & Hc) Hsame. pose proof (law_willing_healthy w Hw) as Hh. set (d := en_obj e) in *.
  destruct (owned_id instance d) as [Hot Hoky].
  unfold entry_state. fold d. rewrite (state_of_same w w0) by done.
  destruct (state_of_fields w (obj_type d) d (en_merge e)) as (Hd & Hu & _).
  cbn [applyObjects]. rewrite Hd, Hu. cbn [iface_deref go_bind].
  destruct (apply_willing w (own d) (en_merge e) (en_fill e) Hw (kind_ok_owned_by _ _ _ Hk)) as (w1 & o1 & ch & Ha & Hw1 & Hr & Hs);
    [by rewrite Hot|].
  rewrite <-state_of_owned in Ha. rewrite Hot, Hoky in Hs. exists w1.
  split; [|split; [done|split; [done|split; [|done]]]].
  - assert (controllerutil.SetControllerReference (nro_Meta instance) d = (own d, None)) as ->.
    { unfold owned. unfold controllable in Hc. change (controllerutil.SetControllerReferenceOf _) with controllerutil.SetControllerReference in Hc.
      by destruct (controllerutil.SetControllerReference _ d); simpl in *; subst. }
    rewrite Ha. cbn [go_bind]. unfold IsNotFoundError. rewrite state_of_error.
    destruct (cli_Get w (obj_type d) (obj_key d)) as [o|e'] eqn:Hg; [done|].
    by rewrite (law_willing_absent w _ _ _ Hw Hg).
  - assert (obj_id d = obj_id (own d)) as E by (unfold obj_id; by rewrite Hot, Hoky). rewrite E.
    rewrite state_of_owned in Ha.
    apply (ApplyObject_only healthy w _ (own d) (en_merge e)) in Ha; [done|apply state_of_fields|apply state_of_fields|].
    by eapply merger_keeps_id.
Qed.

Lemma applyObjects_willing w w0 es :
  willing w -> Forall appliable es -> NoDup ((fun e => obj_id (en_obj e)) <$> es) ->
  Forall (fun e => cli_Get w (obj_type (en_obj e)) (obj_key (en_obj e))
                   = cli_Get w0 (obj_type (en_obj e)) (obj_key (en_obj e))) es ->
  exists w', applyObjects w instance (entry_state w0 <$> es) = Ret (w', None) /\ willing w' /\ rtc one_write w w' /\
    only_writes healthy (entry_ids es) w w' /\ forall t k, keeps_status w w' t k.
Proof.
  intros Hw Hall. revert w Hw. induction Hall as [|e es He _ IH]; intros w Hw Hnd Hsame.
  { exists w. split_and!; [done|done|done|apply only_writes_refl|]. intros t k. apply keeps_status_refl. }
  apply Forall_cons in Hsame as [Hse Hsame]. apply NoDup_cons in Hnd as [Hne Hnd].
  destruct (applyObjects_willing_step w w0 e (entry_state w0 <$> es) Hw He Hse) as (w1 & E & Hw1 & Hr1 & Ho & Hs).
  destruct (IH w1 Hw1 Hnd) as (w' & Hrun & Hw' & Hr' & Ho' & Hks).
  { rewrite Forall_forall in Hsame |- *. intros e' He'. rewrite (proj2 Ho); [by apply Hsame|].
    intros Heq. apply Hne. rewrite <-Heq. by apply (list_elem_of_fmap_2 (fun e => obj_id (en_obj e))). }
  exists w'. rewrite fmap_cons, E. split; [done|]. split; [done|]. split; [by trans w1|]. split.
  - apply (only_writes_trans healthy _ _ w1); (eapply only_writes_weaken; [|eassumption]).
    + intros id ->. exists e. split; [by left|done].
    + intros id (e' & ? & ->). exists e'. split; [by right|done].
  - intros t k. destruct (decide ((t, k) = obj_id (en_obj e))) as [Hid|Hid].
    + injection Hid as -> ->. apply (keeps_status_after _ w1); [|done]. apply Ho'. intros (e' & He' & Heq).
      apply Hne. apply list_elem_of_fmap. by exists e'.
    + apply (keeps_status_before _ w1); [by apply Ho|done].
Qed.
End Sequence.
End Willing.
