(* ===== verification/MachineConfigSpec.v ===== *)
(** * Machine configs and their pools

    What the machine-config half of a tree's reconciliation reports and writes,
    and that the exporters of a tree wait for its pools. *)
From S2P Require Import Prelude GoErrors Meta Selectors ApiV1 Conditions Steps Trees Validation FlagCodec.
From S2P Require Import Workload RteUpdate Objects MergeSpec Cluster Apply RteState Dangling Controller Scenario.
From S2P Require Import Install WriteFrame.

(** ** Which pools are waited for *)

Definition custom_policy (tree : Tree) : bool :=
  from_option (fun ng => annotations.IsCustomPolicyEnabled (ng_Annotations ng)) false (tree_NodeGroup tree).

(** The machine config must be in the pool with the custom policy, and out of it
    without. *)
Definition pool_updated (custom : bool) : MCPWaitForUpdatedFunc :=
  if custom then IsMachineConfigPoolUpdated else IsMachineConfigPoolUpdatedAfterDeletion.

Definition pool_state (em : ExistingManifests) (mc : Object) (custom : bool) (mcp : MachineConfigPool)
  : option MachineConfigObjectState :=
  if mcp_Paused mcp then None else machine_config_state em mc custom mcp.

Definition paused_names (pools : list MachineConfigPool) : gset string :=
  list_to_set (mcp_Name <$> filter (fun m => mcp_Paused m = true) pools).

Lemma MachineConfigsState_split em mf tree mc :
  mf_MachineConfig mf = Some mc ->
  MachineConfigsState em mf tree
  = (omap (pool_state em mc (custom_policy tree)) (tree_MCPs tree), paused_names (tree_MCPs tree)).
Proof.
  intros Hmc. unfold MachineConfigsState. rewrite Hmc.
  change (match tree_NodeGroup tree with Some ng => _ | None => _ end) with (custom_policy tree).
  assert (forall pools ret paused,
    fold_left (fun '(ret, paused) mcp =>
        if mcp_Paused mcp then (ret, paused ∪ {[mcp_Name mcp]})
        else (ret ++ option_list (machine_config_state em mc (custom_policy tree) mcp), paused))
      pools (ret, paused)
    = (ret ++ omap (pool_state em mc (custom_policy tree)) pools, paused ∪ paused_names pools)) as Hg.
  { unfold paused_names. intros pools. induction pools as [|m pools IH]; intros ret paused; simpl.
    { f_equal; [by rewrite app_nil_r|set_solver]. }
    assert (pool_state em mc (custom_policy tree) m
            = if mcp_Paused m then None else machine_config_state em mc (custom_policy tree) m) as -> by done.
    destruct (mcp_Paused m) eqn:Hp; rewrite IH; f_equal.
    - rewrite filter_cons_True by done. simpl. set_solver.
    - rewrite <-app_assoc. by destruct (machine_config_state _ _ _ m).
    - by rewrite filter_cons_False by congruence. }
  rewrite Hg. f_equal. set_solver.
Qed.

Lemma pool_state_fields em mc custom mcp st :
  pool_state em mc custom mcp = Some st ->
  mcos_PoolName st = mcp_Name mcp /\ mcos_WaitForUpdated st = pool_updated custom.
Proof.
  unfold pool_state, machine_config_state. intros H. destruct custom; repeat (case_match; simplify_eq/=); done.
Qed.

(** ** The pools of the status *)

(** [sync_pools], by cases: every pool is reported and has what it waits for, or
    the report stops at the first one that does not. *)
Lemma sync_pools_spec n fwd waits mcps acc :
  (sync_pools n fwd waits mcps acc = (acc ++ ((fun m => makeNROPMCP m fwd) <$> mcps), "") /\
   forall m (f : MCPWaitForUpdatedFunc), m ∈ mcps -> waits !! mcp_Name m = Some f -> f n m = true) \/
  (exists pre m post (f : MCPWaitForUpdatedFunc), mcps = pre ++ m :: post /\ waits !! mcp_Name m = Some f /\ f n m = false /\
     (forall m' (f' : MCPWaitForUpdatedFunc), m' ∈ pre -> waits !! mcp_Name m' = Some f' -> f' n m' = true) /\
     sync_pools n fwd waits mcps acc = (acc ++ ((fun m => makeNROPMCP m fwd) <$> pre ++ [m]), mcp_Name m)).
Proof.
  revert acc. induction mcps as [|m mcps IH]; intros acc; simpl.
  { left. split; [by rewrite app_nil_r|]. intros ? ? Hm. by apply elem_of_nil in Hm. }
  assert ((waits !! mcp_Name m = None \/ exists f : MCPWaitForUpdatedFunc, waits !! mcp_Name m = Some f /\ f n m = true) ->
    let s := sync_pools n fwd waits mcps (acc ++ [makeNROPMCP m fwd]) in
    (s = (acc ++ makeNROPMCP m fwd :: ((fun m => makeNROPMCP m fwd) <$> mcps), "") /\
     forall m' (f : MCPWaitForUpdatedFunc), m' ∈ m :: mcps -> waits !! mcp_Name m' = Some f -> f n m' = true) \/
    (exists pre m' post (f : MCPWaitForUpdatedFunc), m :: mcps = pre ++ m' :: post /\ waits !! mcp_Name m' = Some f /\ f n m' = false /\
       (forall m' (f' : MCPWaitForUpdatedFunc), m' ∈ pre -> waits !! mcp_Name m' = Some f' -> f' n m' = true) /\
       s = (acc ++ ((fun m => makeNROPMCP m fwd) <$> pre ++ [m']), mcp_Name m'))) as Hgo.
  { intros Hm s. subst s.
    destruct (IH (acc ++ [makeNROPMCP m fwd])) as [[E Hall]|(pre & m' & post & f & -> & Hw & Hf & Hpre & E)].
    - left. rewrite E. split; [by rewrite <-app_assoc|].
      intros m' f [->|Hin]%elem_of_cons Hl; [|by apply Hall].
      destruct Hm as [Hm|(f1 & Hm & ?)]; rewrite Hl in Hm; [done|by injection Hm as ->].
    - right. exists (m :: pre), m', post, f. rewrite E. split_and!; try done.
      + intros m0 f0 [->|Hin]%elem_of_cons Hl; [|by apply (Hpre m0)].
        destruct Hm as [Hm|(f1 & Hm & ?)]; rewrite Hl in Hm; [done|by injection Hm as ->].
      + by rewrite <-app_assoc. }
  destruct (waits !! mcp_Name m) as [f|] eqn:Hw; [|apply Hgo; by left].
  destruct (f n m) eqn:Hf; simpl; [apply Hgo; right; by exists f|].
  right. exists [], m, mcps, f. split_and!; try done. intros ? ? Hin. by apply elem_of_nil in Hin.
Qed.

(** the pools reported for a tree are all of its pools when every pool that
    must pick up or drop a machine config has done so, and otherwise those up to
    the first one that has not, whose name is returned. *)
Theorem syncMachineConfigPoolsStatuses_spec n fwd waits tree :
  let '(reported, pending) := syncMachineConfigPoolsStatuses n fwd waits tree in
  exists seen rest, tree_MCPs tree = seen ++ rest /\
    reported = (fun m => mkNROMachineConfigPool (mcp_Name m) (if fwd : bool then mcp_Conditions m else []) None) <$> seen /\
    ((rest = [] /\ pending = "" /\
      forall m (f : MCPWaitForUpdatedFunc), m ∈ tree_MCPs tree -> waits !! mcp_Name m = Some f -> f n m = true) \/
     (exists ok m (f : MCPWaitForUpdatedFunc), seen = ok ++ [m] /\ pending = mcp_Name m /\ waits !! mcp_Name m = Some f /\ f n m = false /\
        forall m' (f' : MCPWaitForUpdatedFunc), m' ∈ ok -> waits !! mcp_Name m' = Some f' -> f' n m' = true)).
Proof.
  unfold syncMachineConfigPoolsStatuses.
  destruct (sync_pools_spec n fwd waits (tree_MCPs tree) []) as [[-> Hall]|(pre & m & post & f & E & Hw & Hf & Hpre & ->)].
  - exists (tree_MCPs tree), []. rewrite app_nil_r. split_and!; [done..|]. by left.
  - exists (pre ++ [m]), post. split_and!; [by rewrite E, <-app_assoc|done|]. right. by exists pre, m, f.
Qed.

(** ** One machine config after the other *)

Section MachineConfigs.
Context {W : Type} `{!Client W} `{SelectorLib} (healthy : W -> Prop) `{!ClientLaws W healthy}.

(** The object state that is applied: a desired machine config gets its owner. *)
Definition mc_applied_state (instance : NUMAResourcesOperator) (s : ObjectState) : ObjectState :=
  match os_Desired s with
  | IObj d => os_with_Desired (IObj (owned instance d)) s
  | _ => s
  end.

(** A desired machine config takes the instance as its controller and suits its pool. *)
Definition mc_admitted (instance : NUMAResourcesOperator) (tree : Tree) (s : ObjectState) : Prop :=
  match os_Desired s with
  | IObj d => snd (controllerutil.SetControllerReference (nro_Meta instance) d) = None /\
              validateMachineConfigLabels (owned instance d) tree = None
  | _ => True
  end.

Lemma sync_machine_configs_step w instance tree st rest waits w' waits' err :
  sync_machine_configs w instance tree (st :: rest) waits = Ret (w', (waits', err)) ->
  (err <> None /\ w' = w) \/
  exists w1 o1 ch err1, ApplyState w (mc_applied_state instance (mcos_State st)) = Ret (w1, (o1, ch, err1)) /\
    mc_admitted instance tree (mcos_State st) /\
    ((err1 <> None /\ err <> None /\ w' = w1) \/
     (err1 = None /\ sync_machine_configs w1 instance tree rest
        (<[mcos_PoolName st := mcos_WaitForUpdated st]> waits) = Ret (w', (waits', err)))).
Proof.
  cbn [sync_machine_configs]. unfold mc_applied_state, mc_admitted, IsCreateOrUpdate.
  destruct (os_Desired (mcos_State st)) as [|t|d] eqn:Hd; simpl.
  1, 2: destruct (ApplyState w (mcos_State st)) as [[w1 [[o1 ch] err1]]|] eqn:E; simpl; [|done];
    intros Hrun; right; exists w1, o1, ch, err1; (split; [done|]); (split; [done|]); destruct err1; [left; by simplify_eq|by right].
  - unfold owned. destruct (controllerutil.SetControllerReference _ d) as [d' [rerr|]]; simpl.
    { intros Hrun. left. by simplify_eq. }
    destruct (validateMachineConfigLabels d' tree) as [verr|] eqn:Ev; simpl.
    { intros Hrun. left. by simplify_eq. }
    destruct (ApplyState w _) as [[w1 [[o1 ch] err1]]|] eqn:E; simpl; [|done].
    intros Hrun. right. exists w1, o1, ch, err1. split; [done|]. split; [done|].
    destruct err1; [left; simplify_eq; done|by right].
Qed.

(** A state about machine configs only. *)
Definition about_machine_config (s : ObjectState) : Prop :=
  match os_Desired s, os_Existing s with
  | IObj d, _ => obj_type d = TMachineConfig /\ os_Merge s = Some ObjectForUpdate
  | INil, IObj o => obj_type o = TMachineConfig
  | INil, ITypedNil _ => True
  | _, _ => False
  end.

Definition is_machine_config (id : gotype * NamespacedName) : Prop := fst id = TMachineConfig.

Lemma ApplyState_machine_config w instance s w' r :
  about_machine_config s -> ApplyState w (mc_applied_state instance s) = Ret (w', r) ->
  only_writes healthy is_machine_config w w'.
Proof.
  unfold about_machine_config, mc_applied_state. intros Hs Hrun.
  destruct (os_Desired s) as [|t|d] eqn:Hd; [|done|].
  - destruct (os_Existing s) as [|t|o] eqn:Ho; [done| |].
    + unfold ApplyState, IsCreateOrUpdate in Hrun. rewrite Hd, Ho in Hrun. simpl in Hrun.
      destruct (IsNotFoundError s); simplify_eq/=. apply only_writes_refl.
    + apply (only_writes_weaken healthy (.= obj_id o)); [by intros id ->|].
      by apply (ApplyState_delete_only healthy w s o w' r).
  - destruct Hs as [Ht HM]. unfold ApplyState, IsCreateOrUpdate in Hrun. simpl in Hrun.
    apply (ApplyObject_only healthy w _ (owned instance d) ObjectForUpdate) in Hrun; [|done|done|apply ObjectForUpdate_id].
    apply (only_writes_weaken healthy (.= obj_id (owned instance d))); [|done].
    intros id ->. unfold is_machine_config. simpl. by rewrite (proj1 (owned_id instance d)).
Qed.

Lemma sync_machine_configs_only w instance tree states waits w' r :
  Forall (fun st => about_machine_config (mcos_State st)) states ->
  sync_machine_configs w instance tree states waits = Ret (w', r) ->
  only_writes healthy is_machine_config w w'.
Proof.
  intros Hall. revert w waits. induction Hall as [|st states Hst _ IH]; intros w waits Hrun.
  { simpl in Hrun. injection Hrun as -> _. apply only_writes_refl. }
  destruct r as [waits' err].
  destruct (sync_machine_configs_step _ _ _ _ _ _ _ _ _ Hrun) as [[_ ->]|(w1 & o1 & ch & e1 & Happ & Hadm & Hr)];
    [apply only_writes_refl|].
  apply ApplyState_machine_config in Happ; [|done].
  destruct Hr as [(_ & _ & ->)|[_ Hr]]; [done|]. apply (only_writes_trans _ _ _ w1); [done|]. by eapply IH.
Qed.

(** On success every state has its wait function registered. *)
Lemma sync_machine_configs_waits w instance tree states waits w' waits' f :
  sync_machine_configs w instance tree states waits = Ret (w', (waits', None)) ->
  Forall (fun st => mcos_WaitForUpdated st = f) states ->
  forall p, (exists st, st ∈ states /\ mcos_PoolName st = p) \/ waits !! p = Some f -> waits' !! p = Some f.
Proof.
  intros Hrun Hall. revert w waits Hrun. induction Hall as [|st states Hf _ IH]; intros w waits Hrun p Hp.
  { simpl in Hrun. injection Hrun as -> ->. destruct Hp as [(st & Hst & _)|?]; [|done].
    by apply elem_of_nil in Hst. }
  destruct (sync_machine_configs_step _ _ _ _ _ _ _ _ _ Hrun) as [[Hn _]|(w1 & o1 & ch & e1 & _ & _ & Hr)]; [done|].
  destruct Hr as [(_ & Hn & _)|[_ Hr]]; [done|]. apply (IH _ _ Hr p).
  destruct (decide (mcos_PoolName st = p)) as [<-|Hne].
  - right. by rewrite lookup_insert_eq, Hf.
  - destruct Hp as [(st' & [->|Hst]%elem_of_cons & Hp)|Hp]; [done|left; by exists st'|right].
    by rewrite lookup_insert_ne.
Qed.
(** ** Loading the objects of a tree *)

(** The maps of a loaded tree hold what the cluster holds under each name. *)
Definition tree_loaded (sha256_hex : string -> string) (w : W) (em : ExistingManifests) : Prop :=
  (forall n m, em_machineConfigs em !! n = Some m ->
     (mcm_machineConfig m, mcm_machineConfigError m) = load w TMachineConfig (mkNamespacedName "" n)) /\
  (forall n m, em_daemonSets em !! n = Some m -> m = getDaemonSetManifest sha256_hex w (em_namespace em) n).

(** What loading keeps: everything but the maps. *)
Definition same_context (em em' : ExistingManifests) : Prop :=
  em_existing em' = em_existing em /\ em_plat em' = em_plat em /\ em_instanceName em' = em_instanceName em /\
  em_namespace em' = em_namespace em /\ em_updater em' = em_updater em.

Lemma update_from_pool_loaded sha w em mcp :
  tree_loaded sha w em -> tree_loaded sha w (update_from_pool sha w em mcp).
Proof.
  intros [Hm Hd]. unfold update_from_pool. destruct (load w TMachineConfig _) as [mc err] eqn:El.
  split; simpl; intros n m [[<- <-]|[_ Hl]]%lookup_insert_Some; by auto.
Qed.

Lemma fold_pools_loaded sha w pools em :
  tree_loaded sha w em ->
  let em' := fold_left (update_from_pool sha w) pools em in
  tree_loaded sha w em' /\ same_context em em' /\ em_helper em' = em_helper em /\
  (forall mcp, mcp ∈ pools ->
     is_Some (em_machineConfigs em' !! objectnames.GetMachineConfigName (em_instanceName em) (mcp_Name mcp)) /\
     is_Some (em_daemonSets em' !! objectnames.GetComponentName (em_instanceName em) (mcp_Name mcp))) /\
  (forall n, is_Some (em_machineConfigs em !! n) -> is_Some (em_machineConfigs em' !! n)) /\
  (forall n, is_Some (em_daemonSets em !! n) -> is_Some (em_daemonSets em' !! n)).
Proof.
  revert em. induction pools as [|p pools IH]; intros em Hl em'.
  { subst em'. simpl. split_and!; try done. intros mcp Hin. by apply elem_of_nil in Hin. }
  subst em'. simpl.
  assert (same_context em (update_from_pool sha w em p) /\
    em_helper (update_from_pool sha w em p) = em_helper em /\
    (forall n, is_Some (em_machineConfigs em !! n) \/
               n = objectnames.GetMachineConfigName (em_instanceName em) (mcp_Name p) ->
       is_Some (em_machineConfigs (update_from_pool sha w em p) !! n)) /\
    (forall n, is_Some (em_daemonSets em !! n) \/
               n = objectnames.GetComponentName (em_instanceName em) (mcp_Name p) ->
       is_Some (em_daemonSets (update_from_pool sha w em p) !! n))) as (Hc & Hh & Hm1 & Hd1).
  { unfold update_from_pool. destruct (load w TMachineConfig _) as [mc err]. simpl.
    split; [done|]. split; [done|]. split; intros n Hn; rewrite lookup_insert; case_decide; naive_solver. }
  destruct (IH _ (update_from_pool_loaded sha w em p Hl)) as (H1 & H2 & H3 & H4 & H5 & H6).
  destruct Hc as (C1 & C2 & C3 & C4 & C5), H2 as (D1 & D2 & D3 & D4 & D5). rewrite C3 in H4.
  split_and!; try done; try congruence; [repeat split; congruence| | |].
  - intros mcp [->|Hin]%elem_of_cons; [|by apply H4]. split; [apply H5, Hm1|apply H6, Hd1]; by right.
  - intros n Hn. apply H5, Hm1. by left.
  - intros n Hn. apply H6, Hd1. by left.
Qed.

Lemma PerTree_openshift sha w em0 tree em :
  em_plat em0 = platform.OpenShift -> PerTree sha w em0 tree = Ret em ->
  tree_loaded sha w em /\ same_context em0 em /\ em_helper em = machineConfigPoolFinder /\
  (forall mcp, mcp ∈ tree_MCPs tree ->
     is_Some (em_machineConfigs em !! objectnames.GetMachineConfigName (em_instanceName em0) (mcp_Name mcp)) /\
     is_Some (em_daemonSets em !! objectnames.GetComponentName (em_instanceName em0) (mcp_Name mcp))).
Proof.
  intros Hp. unfold PerTree, UpdateFromClient. simpl. rewrite Hp. unfold helper_for. rewrite decide_True by done.
  intros [= <-].
  match goal with |- context [fold_left _ _ ?e] => destruct (fold_pools_loaded sha w (tree_MCPs tree) e)
    as (H1 & H2 & H3 & H4 & _ & _) end; [by split|].
  split_and!; try done. unfold same_context in *. simpl in H2. by rewrite Hp.
Qed.

(** ** The machine configs of a tree *)

Lemma pool_state_loaded sha w em mc custom mcp st :
  healthy w -> tree_loaded sha w em -> obj_type mc = TMachineConfig ->
  pool_state em mc custom mcp = Some st -> about_machine_config (mcos_State st).
Proof.
  intros Hh [Hl _] Hty. unfold pool_state, machine_config_state. intros Hst.
  destruct (mcp_Paused mcp); [done|].
  destruct (mcp_MachineConfigSelector mcp) as [sel|]; [|done].
  destruct (em_machineConfigs em !! _) as [m|] eqn:Em; [|done].
  destruct custom; simplify_eq/=; [done|].
  apply Hl in Em. unfold about_machine_config, load in *. simpl.
  destruct (cli_Get w _ _) as [o|e] eqn:Hg; injection Em as Em _; rewrite Em; simpl; [|done].
  apply (law_get_id _ _ _ _ Hh) in Hg. by injection Hg.
Qed.

(** The result of the machine-config half of a tree: it writes machine configs
    only, and lets the daemon sets go ahead only when no pool is paused and
    every pool with a selector has picked up, or dropped, its machine config. *)
Lemma reconcilePerTreeMachineConfig_result sha w r instance em tree mc w1 res :
  healthy w -> tree_loaded sha w em ->
  mf_MachineConfig (r_RTEManifests r) = Some mc -> obj_type mc = TMachineConfig ->
  em_instanceName em = nro_Name instance ->
  (forall mcp, mcp ∈ tree_MCPs tree -> mcp_Name mcp <> "" /\
     is_Some (em_machineConfigs em !! objectnames.GetMachineConfigName (em_instanceName em) (mcp_Name mcp))) ->
  reconcilePerTreeMachineConfig w r instance em tree = Ret (w1, res) ->
  only_writes healthy is_machine_config w w1 /\ ptr_DSInfo res = [] /\ valid_step (ptr_Step res) /\
  (Done (ptr_Step res) = true ->
     ptr_NROMCPs res = syncMachineConfigPoolNodeGroupConfigStatuses
       ((fun m => makeNROPMCP m (r_ForwardMCPConds r)) <$> tree_MCPs tree) tree /\
     forall mcp, mcp ∈ tree_MCPs tree -> mcp_Paused mcp = false /\
       (is_Some (mcp_MachineConfigSelector mcp) ->
        pool_updated (custom_policy tree) (nro_Name instance) mcp = true)).
Proof.
  intros Hh Hl Hmc Hty Hin Hpools. unfold reconcilePerTreeMachineConfig, syncMachineConfig.
  rewrite (MachineConfigsState_split em _ tree mc Hmc).
  set (states := omap _ _). set (paused := paused_names _).
  destruct (sync_machine_configs w instance tree states ∅) as [[w2 [waits err]]|] eqn:Es; simpl; [|done].
  assert (only_writes healthy is_machine_config w w2) as Hw.
  { apply (sync_machine_configs_only w instance tree states ∅ w2 (waits, err)); [|done].
    apply Forall_forall. intros st (mcp & _ & Hst)%list_elem_of_omap. by apply (pool_state_loaded sha w em mc (custom_policy tree) mcp). }
  destruct err as [err|].
  { intros [= <- <-]. split_and!; [done|done|apply valid_StepFailed|done]. }
  assert (forall mcp, mcp ∈ tree_MCPs tree -> mcp_Paused mcp = false -> is_Some (mcp_MachineConfigSelector mcp) ->
    waits !! mcp_Name mcp = Some (pool_updated (custom_policy tree))) as Hwaits.
  { intros mcp Hmcp Hp [sel Hsel].
    apply (sync_machine_configs_waits w instance tree states ∅ w2 waits _ Es).
    - apply Forall_forall. intros st (m & _ & Hst)%list_elem_of_omap. by eapply pool_state_fields.
    - left. destruct (Hpools mcp Hmcp) as [_ [ex Hex]].
      destruct (pool_state em mc (custom_policy tree) mcp) as [st|] eqn:Hst.
      + exists st. split; [apply list_elem_of_omap; by exists mcp|]. by eapply pool_state_fields.
      + exfalso. unfold pool_state, machine_config_state in Hst. by rewrite Hp, Hsel, Hex in Hst. }
  unfold syncMachineConfigPoolsStatuses.
  destruct (sync_pools_spec (nro_Name instance) (r_ForwardMCPConds r) waits (tree_MCPs tree) [])
    as [[-> Hall]|(pre & m & post & f & E & Hwm & Hf & _ & ->)].
  - rewrite (decide_False (P := "" <> "")) by (intros Hx; by apply Hx). intros [= <- <-]. simpl.
    split_and!; [done|done|case_decide; auto with nro|]. case_decide as Hp; [done|]. intros _.
    split; [done|]. intros mcp Hmcp.
    assert (mcp_Paused mcp = false) as Hnp.
    { apply not_true_is_false. intros Hpt. apply (not_elem_of_empty (C := gset string) (mcp_Name mcp)). rewrite <-Hp.
      unfold paused, paused_names. by apply elem_of_list_to_set, list_elem_of_fmap_2, list_elem_of_filter. }
    split; [done|]. intros Hsel. apply (Hall mcp); [done|by apply Hwaits].
  - assert (mcp_Name m <> "") as Hne by (apply Hpools; rewrite E; set_solver).
    rewrite decide_True by done. intros [= <- <-]. split_and!; [done|done| |].
    + apply valid_StepOngoing_with.
    + cbn [ptr_Step]. by rewrite Done_waiting.
Qed.

(** ** What a tree's machine configs become *)

Definition mc_key (instanceName : string) (mcp : MachineConfigPool) : NamespacedName :=
  mkNamespacedName "" (objectnames.GetMachineConfigName instanceName (mcp_Name mcp)).

(** The machine config of a pool, from the manifest [mc]. *)
Definition desired_mc (instanceName : string) (mc : Object) (mcp : MachineConfigPool) (sel : LabelSelector) : Object :=
  obj_rename (objectnames.GetMachineConfigName instanceName (mcp_Name mcp)) (GetMachineConfigLabel (mcp_Name mcp) sel) mc.

(** With the custom policy the machine config is in the cluster as desired and
    owned by the instance; without it there is none. *)
Definition mc_settled (w : W) (instance : NUMAResourcesOperator) (mc : Object) (custom : bool)
  (mcp : MachineConfigPool) (sel : LabelSelector) : Prop :=
  if custom then installed complete_plain w (owned instance (desired_mc (nro_Name instance) mc mcp sel))
  else exists e, cli_Get w TMachineConfig (mc_key (nro_Name instance) mcp) = inr e /\ IsNotFound e = true.

(** The same, with no update to make. *)
Definition mc_in_place (w : W) (instance : NUMAResourcesOperator) (tree : Tree) (mc : Object) (mcp : MachineConfigPool)
  (sel : LabelSelector) : Prop :=
  if custom_policy tree
  then let d := desired_mc (nro_Name instance) mc mcp sel in
       settled instance w (mkEntry d ObjectForUpdate complete_plain) /\
       validateMachineConfigLabels (owned instance d) tree = None
  else exists e, cli_Get w TMachineConfig (mc_key (nro_Name instance) mcp) = inr e /\ IsNotFound e = true.

Lemma mc_in_place_settled w instance tree mc mcp sel :
  mc_in_place w instance tree mc mcp sel -> mc_settled w instance mc (custom_policy tree) mcp sel.
Proof. unfold mc_in_place, mc_settled. destruct (custom_policy tree); [|done]. intros [[Hk _] _]. by apply kept_installed. Qed.

(** An object that is applied ends up kept, and nothing else is written. *)
Lemma apply_owned w instance d w1 o1 ch :
  healthy w -> (forall o, cli_Get w (obj_type d) (obj_key d) = inl o -> mergeable o d) ->
  ApplyState w (mc_applied_state instance (state_of w (obj_type d) d ObjectForUpdate)) = Ret (w1, (o1, ch, None)) ->
  kept complete_plain w1 (owned instance d) /\ only_writes healthy (.= obj_id d) w w1.
Proof.
  intros Hh Hmg. unfold mc_applied_state. rewrite (proj1 (state_of_fields w _ d _)), state_of_owned.
  set (d' := owned instance d). destruct (owned_id instance d) as [Hot Hok].
  unfold ApplyState, IsCreateOrUpdate. rewrite (proj1 (state_of_fields w _ d' _)). simpl. intros Happ.
  split.
  - apply (ApplyObject_kept healthy w w1 o1 ch d' ObjectForUpdate); [done|constructor| |done].
    destruct (cli_Get w (obj_type d') (obj_key d')) as [o|e] eqn:Hg.
    + apply owned_mergeable, Hmg. by rewrite <-Hot, <-Hok.
    + destruct (IsNotFound e) eqn:Hn; [done|]. by rewrite (ApplyObject_failed_read w _ _ e Hg Hn) in Happ.
  - assert (obj_id d = obj_id d') as -> by (unfold obj_id, d'; by rewrite Hot, Hok).
    apply (ApplyObject_only healthy w _ d' ObjectForUpdate) in Happ;
      [done|apply state_of_fields|apply state_of_fields|apply ObjectForUpdate_id].
Qed.

Lemma apply_deletion w t k w1 o1 ch :
  healthy w -> ApplyState w (delete_state w t k) = Ret (w1, (o1, ch, None)) ->
  (exists e, cli_Get w1 t k = inr e /\ IsNotFound e = true) /\ only_writes healthy (.= (t, k)) w w1.
Proof.
  intros Hh. unfold delete_state, load. destruct (cli_Get w t k) as [o|e] eqn:Hg.
  - pose proof (law_get_id _ _ _ _ Hh Hg) as Hid. unfold ApplyState, IsNotFoundError. simpl.
    destruct (describe_obj o) as [[ds de] ->]. simpl.
    pose proof (write_only healthy cli_Delete w o (or_intror (or_intror eq_refl))) as Ho.
    destruct (cli_Delete w o) as [w2 [err|]] eqn:Ed; simpl; intros [=]; subst. rewrite Hid in Ho. split; [|done].
    destruct (law_delete_get _ _ _ Hh Ed) as (e & He & Hn). exists e. injection Hid as Ht Hk. by rewrite Ht, Hk in He.
  - unfold ApplyState, IsNotFoundError. simpl. destruct (IsNotFound e) eqn:Hn; [|done]. intros [=]; subst.
    split; [by exists e|apply only_writes_refl].
Qed.

(** The state of a pool is computed from what the cluster holds. *)
Lemma pool_state_spec sha w w0 instanceName em mc custom mcp sel st :
  tree_loaded sha w0 em -> em_instanceName em = instanceName ->
  obj_type mc = TMachineConfig -> om_Namespace (obj_Meta mc) = "" ->
  let k := mc_key instanceName mcp in
  let d := desired_mc instanceName mc mcp sel in
  cli_Get w TMachineConfig k = cli_Get w0 TMachineConfig k ->
  mcp_MachineConfigSelector mcp = Some sel -> pool_state em mc custom mcp = Some st ->
  obj_type d = TMachineConfig /\ obj_key d = k /\
  mcos_State st = if custom : bool then state_of w (obj_type d) d ObjectForUpdate else delete_state w TMachineConfig k.
Proof.
  intros [Hl _] Hin Hty Hns k d Hsame Hsel Hst.
  assert (obj_key d = k) as Hk by (unfold obj_key, om_key, d, desired_mc, k, mc_key; simpl; by rewrite Hns).
  split; [done|]. split; [done|].
  unfold pool_state, machine_config_state in Hst. rewrite Hsel, Hin in Hst. destruct (mcp_Paused mcp); [done|].
  destruct (em_machineConfigs em !! _) as [m|] eqn:Em; [|done]. apply Hl in Em.
  change (mkNamespacedName _ _) with k in Em. unfold load in Em. rewrite <-Hsame in Em.
  unfold state_of, delete_state, load. rewrite Hk. change (obj_type d) with (obj_type mc). rewrite Hty.
  destruct custom; injection Hst as <-; simpl; by destruct (cli_Get w _ k); injection Em as -> ->.
Qed.

Lemma apply_machine_config sha w w0 instance em tree mc mcp sel st w1 o1 ch :
  healthy w -> tree_loaded sha w0 em -> em_instanceName em = nro_Name instance ->
  obj_type mc = TMachineConfig -> om_Namespace (obj_Meta mc) = "" ->
  let k := mc_key (nro_Name instance) mcp in
  cli_Get w TMachineConfig k = cli_Get w0 TMachineConfig k ->
  kind_ok mc ->
  mcp_MachineConfigSelector mcp = Some sel -> pool_state em mc (custom_policy tree) mcp = Some st ->
  mc_admitted instance tree (mcos_State st) ->
  ApplyState w (mc_applied_state instance (mcos_State st)) = Ret (w1, (o1, ch, None)) ->
  mc_in_place w1 instance tree mc mcp sel /\ only_writes healthy (.= (TMachineConfig, k)) w w1.
Proof.
  intros Hh Hl Hin Hty Hns k Hsame Hmg Hsel Hst Hadm Happ.
  destruct (pool_state_spec sha w w0 _ em mc _ mcp sel st Hl Hin Hty Hns Hsame Hsel Hst) as (Ht & Hk & Hs).
  unfold mc_in_place. destruct (custom_policy tree); rewrite Hs in Happ, Hadm.
  - set (d := desired_mc (nro_Name instance) mc mcp sel) in *. unfold mc_admitted in Hadm.
    rewrite (proj1 (state_of_fields w _ d _)) in Hadm.
    apply apply_owned in Happ; [unfold obj_id in Happ; rewrite Ht, Hk in Happ|done|].
    { destruct Happ as [Hkept Ho], Hadm as [Href Hval]. split; [|done]. by split; [split|]. }
    intros o Ho. by apply (read_mergeable healthy w).
  - assert (mc_applied_state instance (delete_state w TMachineConfig k) = delete_state w TMachineConfig k) as E
      by (unfold mc_applied_state, delete_state; by destruct (load _ _ _)).
    fold k in Happ. rewrite E in Happ. by apply apply_deletion in Happ.
Qed.

Lemma mc_key_ne n m m' : mcp_Name m <> mcp_Name m' -> mc_key n m <> mc_key n m'.
Proof. intros Hne E. apply Hne, (objectnames.GetMachineConfigName_inj n), (f_equal nn_Name E). Qed.

(** The machine configs a tree may touch. *)
Definition tree_mc_ids (instanceName : string) (pools : list MachineConfigPool) (id : gotype * NamespacedName) : Prop :=
  exists mcp, mcp ∈ pools /\ mcp_Paused mcp = false /\ id = (TMachineConfig, mc_key instanceName mcp).

Section Settle.
Context (sha256_hex : string -> string) (w0 : W) (instance : NUMAResourcesOperator) (em : ExistingManifests)
  (tree : Tree) (mc : Object).
Hypothesis Hloaded : tree_loaded sha256_hex w0 em.
Hypothesis Hinstance : em_instanceName em = nro_Name instance.
Hypothesis Htype : obj_type mc = TMachineConfig.
Hypothesis Hnamespace : om_Namespace (obj_Meta mc) = "".
Hypothesis Hkind : kind_ok mc.

Notation key := (mc_key (nro_Name instance)).
Notation states := (omap (pool_state em mc (custom_policy tree))).

(** A pool that was loaded, and whose machine config is still as loaded. *)
Definition pool_ready (w : W) (mcp : MachineConfigPool) : Prop :=
  is_Some (em_machineConfigs em !! objectnames.GetMachineConfigName (em_instanceName em) (mcp_Name mcp)) /\
  cli_Get w TMachineConfig (key mcp) = cli_Get w0 TMachineConfig (key mcp).

Lemma mc_in_place_frame w w' mcp sel :
  cli_Get w' TMachineConfig (key mcp) = cli_Get w TMachineConfig (key mcp) ->
  mc_in_place w instance tree mc mcp sel -> mc_in_place w' instance tree mc mcp sel.
Proof.
  intros E. unfold mc_in_place. destruct (custom_policy tree); [|by rewrite E].
  intros [Hs Hv]. split; [|done]. revert Hs. apply settled_frame. cbn [en_obj]. set (d := desired_mc _ _ _ _).
  change (obj_type d) with (obj_type mc). rewrite Htype.
  assert (obj_key d = key mcp) as -> by (unfold obj_key, om_key, d, desired_mc, mc_key; simpl; by rewrite Hnamespace).
  done.
Qed.

(** The first pool of the loop: settled, or skipped. *)
Lemma sync_first_pool w p pools waits w' waits' :
  healthy w -> pool_ready w p ->
  sync_machine_configs w instance tree (states (p :: pools)) waits = Ret (w', (waits', None)) ->
  exists w1 waits1, sync_machine_configs w1 instance tree (states pools) waits1 = Ret (w', (waits', None)) /\
    only_writes healthy (tree_mc_ids (nro_Name instance) [p]) w w1 /\
    forall sel, mcp_Paused p = false -> mcp_MachineConfigSelector p = Some sel ->
      mc_in_place w1 instance tree mc p sel.
Proof.
  intros Hh [[ex Hex] Hsame] Hrun. simpl in Hrun.
  destruct (pool_state em mc (custom_policy tree) p) as [st|] eqn:Hst.
  - destruct (sync_machine_configs_step _ _ _ _ _ _ _ _ _ Hrun) as [[? _]|(w1 & o1 & ch & e1 & Happ & Hadm & Hr)]; [done|].
    destruct Hr as [(_ & ? & _)|[-> Hr]]; [done|]. exists w1, (<[mcos_PoolName st := mcos_WaitForUpdated st]> waits).
    assert (mcp_Paused p = false /\ exists sel, mcp_MachineConfigSelector p = Some sel) as [Hpa [sel Hsel]].
    { unfold pool_state, machine_config_state in Hst. by repeat case_match; simplify_eq; eauto. }
    destruct (apply_machine_config sha256_hex w w0 instance em tree mc p sel st w1 o1 ch Hh Hloaded Hinstance
                Htype Hnamespace Hsame Hkind Hsel Hst Hadm Happ) as [Hs Ho].
    split; [done|]. split; [|intros sel' _ Hsel'; congruence].
    eapply only_writes_weaken; [|exact Ho]. intros id ->. exists p. by split; [left|].
  - exists w, waits. split; [done|]. split; [apply only_writes_refl|]. intros sel Hpa Hsel. exfalso.
    unfold pool_state, machine_config_state in Hst. by rewrite Hpa, Hsel, Hex in Hst.
Qed.

Lemma sync_machine_configs_settled w pools waits w' waits' :
  healthy w -> NoDup (mcp_Name <$> pools) -> (forall mcp, mcp ∈ pools -> pool_ready w mcp) ->
  sync_machine_configs w instance tree (states pools) waits = Ret (w', (waits', None)) ->
  (forall mcp sel, mcp ∈ pools -> mcp_Paused mcp = false -> mcp_MachineConfigSelector mcp = Some sel ->
     mc_in_place w' instance tree mc mcp sel) /\
  only_writes healthy (tree_mc_ids (nro_Name instance) pools) w w'.
Proof.
  revert w waits. induction pools as [|p pools IH]; intros w waits Hh Hnd Hp Hrun.
  { simpl in Hrun. injection Hrun as -> _. split; [|apply only_writes_refl].
    intros mcp sel Hm. by apply elem_of_nil in Hm. }
  apply NoDup_cons in Hnd as [Hnp Hnd].
  assert (forall m, m ∈ pools -> key m <> key p) as Hdiff.
  { intros m Hm. apply mc_key_ne. intros E. apply Hnp. rewrite <-E. by apply list_elem_of_fmap_2. }
  destruct (sync_first_pool w p pools waits w' waits' Hh (Hp p (list_elem_of_here _ _)) Hrun)
    as (w1 & waits1 & Hrest & Ho1 & Hset).
  destruct (IH w1 waits1) as [Hall Ho]; [by apply Ho1|done| |done|].
  { intros m Hm. destruct (Hp m) as [H1 H2]; [by right|].
    assert (cli_Get w1 TMachineConfig (key m) = cli_Get w TMachineConfig (key m)) as E.
    { apply Ho1. intros (m' & ->%list_elem_of_singleton & _ & E). exact (Hdiff m Hm (f_equal snd E)). }
    split; [done|]. by rewrite E. }
  split.
  - intros m sel [->|Hm]%elem_of_cons Hpa Hsel; [|by apply Hall].
    apply (mc_in_place_frame w1); [|by apply Hset]. apply Ho. intros (m' & Hm' & _ & E).
    exact (Hdiff m' Hm' (eq_sym (f_equal snd E))).
  - apply (only_writes_trans _ _ _ w1); (eapply only_writes_weaken; [|eassumption]); intros id (m & Hm & ?);
      exists m; (split; [set_solver|done]).
Qed.
End Settle.

(** C27: when the machine configs of a tree are synchronised without error, each
    of its pools that is not paused and selects machine configs has, with the
    custom policy, its machine config in the cluster as desired and controlled by
    the instance, and without it none; paused pools and everything that is not a
    machine config of the tree are untouched. *)
Theorem syncMachineConfig_settles sha256_hex w r instance em0 em tree mc w' waits paused :
  healthy w -> em_plat em0 = platform.OpenShift -> em_instanceName em0 = nro_Name instance ->
  mf_MachineConfig (r_RTEManifests r) = Some mc -> obj_type mc = TMachineConfig -> om_Namespace (obj_Meta mc) = "" ->
  kind_ok mc -> NoDup (mcp_Name <$> tree_MCPs tree) ->
  PerTree sha256_hex w em0 tree = Ret em ->
  syncMachineConfig w r instance em tree = Ret (w', (waits, paused, None)) ->
  (forall mcp sel, mcp ∈ tree_MCPs tree -> mcp_Paused mcp = false -> mcp_MachineConfigSelector mcp = Some sel ->
     mc_settled w' instance mc (custom_policy tree) mcp sel) /\
  only_writes healthy (tree_mc_ids (nro_Name instance) (tree_MCPs tree)) w w'.
Proof.
  intros Hh Hpl Hin Hmc Hty Hns Hkind Hnd Hem. unfold syncMachineConfig.
  rewrite (MachineConfigsState_split em _ tree mc Hmc).
  destruct (PerTree_openshift sha256_hex w em0 tree em Hpl Hem) as (Hl & (_ & _ & Hc & _) & _ & Hpools).
  destruct (sync_machine_configs _ _ _ _ _) as [[w1 [waits1 err]]|] eqn:Es; simpl; [|done].
  intros [= -> -> _ ->].
  apply (sync_machine_configs_settled sha256_hex w instance em tree mc) in Es; try done; [|congruence|].
  { destruct Es as [Hset Ho]. split; [|done]. intros mcp sel H1 H2 H3. by apply mc_in_place_settled, Hset. }
  intros mcp Hm. split; [rewrite Hc; by apply Hpools|done].
Qed.

(** ** Waiting for the pools *)

Lemma normalize_tree_spec instance tree i1 tree1 :
  normalize_tree instance tree = Ret (i1, tree1) ->
  nro_Meta i1 = nro_Meta instance /\ tree_MCPs tree1 = tree_MCPs tree /\
  exists ng, tree_NodeGroup tree = Some ng /\
    tree_NodeGroup tree1 = Some (ng_with_Config ng (Some (NormalizeConfig ng))).
Proof.
  unfold normalize_tree. destruct (tree_NodeGroup tree) as [ng|]; simpl; [|done]. intros [= <- <-]. by eauto.
Qed.

Lemma custom_policy_normalized tree tree1 ng c :
  tree_NodeGroup tree = Some ng -> tree_NodeGroup tree1 = Some (ng_with_Config ng c) ->
  custom_policy tree1 = custom_policy tree.
Proof. intros E1 E2. unfold custom_policy. by rewrite E1, E2. Qed.

(** A pool that holds the exporters of its tree back: paused, or not yet at the
    machine config it must have. *)
Definition holds_back (instanceName : string) (tree : Tree) (mcp : MachineConfigPool) : Prop :=
  mcp_Paused mcp = true \/
  (is_Some (mcp_MachineConfigSelector mcp) /\ pool_updated (custom_policy tree) instanceName mcp = false).

(** C26: while one pool of a tree is paused or has not picked up (or dropped) its
    machine config, reconciling the tree changes nothing but machine configs, so
    no exporter daemon set, and the tree does not count as done. *)
Theorem exporters_wait_for_pools sha256_hex r existing w instance results tree mc m w' i' results' :
  healthy w -> r_Platform r = platform.OpenShift -> em_plat existing = platform.OpenShift ->
  em_instanceName existing = nro_Name instance ->
  mf_MachineConfig (r_RTEManifests r) = Some mc -> obj_type mc = TMachineConfig ->
  (forall mcp, mcp ∈ tree_MCPs tree -> mcp_Name mcp <> "") ->
  m ∈ tree_MCPs tree -> holds_back (nro_Name instance) tree m ->
  reconcile_tree sha256_hex r existing (w, instance, results) tree = Ret (w', i', results') ->
  only_writes healthy is_machine_config w w' /\
  exists res, results' = results ++ [res] /\ Done (ptr_Step res) = false /\ ptr_DSInfo res = [].
Proof.
  intros Hh Hp Hpl Hin Hmc Hty Hnames Hm Hback. unfold reconcile_tree.
  destruct (normalize_tree instance tree) as [[i1 tree1]|] eqn:En; simpl; [|done].
  destruct (normalize_tree_spec _ _ _ _ En) as (Hmeta & Hpools & ng & Hng & Hng1).
  destruct (PerTree sha256_hex w existing tree1) as [em|] eqn:Hem; simpl; [|done].
  rewrite !(decide_True (P := r_Platform r = platform.OpenShift)) by done.
  destruct (reconcilePerTreeMachineConfig w r i1 em tree1) as [[w1 res]|] eqn:Er; simpl; [|done].
  destruct (PerTree_openshift sha256_hex w existing tree1 em Hpl Hem) as (Hl & (_ & _ & Hc & _) & _ & Hld).
  assert (nro_Name i1 = nro_Name instance) as Hname by (unfold nro_Name; by rewrite Hmeta).
  destruct (reconcilePerTreeMachineConfig_result sha256_hex w r i1 em tree1 mc w1 res Hh Hl Hmc Hty)
    as (Hw & Hds & _ & Hdone); [congruence| |done|].
  { rewrite Hpools, Hc in *. intros mcp Hmcp. split; [by apply Hnames|by apply Hld]. }
  assert (Done (ptr_Step res) = false) as Hnd.
  { apply not_true_is_false. intros Hd. destruct (Hdone Hd) as [_ Hall]. rewrite Hpools in Hall.
    destruct (Hall m Hm) as [Hpa Hup]. rewrite (custom_policy_normalized tree tree1 ng _ Hng Hng1), Hname in Hup.
    destruct Hback as [?|[Hsel ?]]; [congruence|]. by rewrite Hup in *. }
  rewrite decide_True by (split; [done|]; by rewrite EarlyStop_negb_Done, Hnd).
  intros [= <- <- <-]. split; [done|]. by exists res.
Qed.
End MachineConfigs.

(** ** Witnesses *)

Lemma exporters_wait_for_pools_witness :
  let i := scenario.instance [scenario.group "worker"] None "" in
  let w := scenario.cluster i (fun _ _ => None) in
  let tree := scenario.tree (scenario.group "worker") [scenario.paused_pool "worker"] in
  exists w' i' results,
    reconcile_tree scenario.sha256 (scenario.reconciler platform.OpenShift)
      (scenario.existing platform.OpenShift w) (w, i, []) tree = Ret (w', i', results) /\
    exists res, results = [res] /\ Done (ptr_Step res) = false.
Proof.
  intros i w tree.
  assert (scenario.returns (reconcile_tree scenario.sha256 (scenario.reconciler platform.OpenShift)
      (scenario.existing platform.OpenShift w) (w, i, []) tree) = true) as Hret by (vm_compute; reflexivity).
  destruct (reconcile_tree _ _ _ _ _) as [[[w' i'] results]|] eqn:E; [clear Hret|discriminate Hret].
  exists w', i', results. split; [reflexivity|].
  destruct (exporters_wait_for_pools answers_reads scenario.sha256 (scenario.reconciler platform.OpenShift)
    (scenario.existing platform.OpenShift w) w i [] tree
    (scenario.shared "machineconfiguration.openshift.io/v1" "MachineConfig" "mc" "" (BMachineConfig "policy" ""))
    (scenario.paused_pool "worker") w' i' results) as (_ & res & -> & Hd & _).
  - by apply answers_reads_check.
  - reflexivity.
  - reflexivity.
  - reflexivity.
  - reflexivity.
  - reflexivity.
  - intros mcp ->%list_elem_of_singleton. discriminate.
  - left.
  - left. reflexivity.
  - exact E.
  - exists res. split; [reflexivity|exact Hd].
Defined.

Lemma syncMachineConfig_settles_witness :
  let i := scenario.instance [scenario.custom_group "worker"] None "" in
  let w := scenario.cluster i (fun _ _ => None) in
  let tree := scenario.tree (scenario.custom_group "worker") [scenario.pool "worker"] in
  let mc := scenario.shared "machineconfiguration.openshift.io/v1" "MachineConfig" "mc" "" (BMachineConfig "policy" "") in
  exists em w' waits paused,
    PerTree scenario.sha256 w (scenario.existing platform.OpenShift w) tree = Ret em /\
    syncMachineConfig w (scenario.reconciler platform.OpenShift) i em tree = Ret (w', (waits, paused, None)) /\
    mc_settled w' i mc true (scenario.pool "worker") (match_label "pool" "worker").
Proof.
  intros i w tree mc.
  assert (exists em, PerTree scenario.sha256 w (scenario.existing platform.OpenShift w) tree = Ret em /\
    match syncMachineConfig w (scenario.reconciler platform.OpenShift) i em tree with
    | Ret (_, (_, _, None)) => true | _ => false end = true) as (em & Hem & Hs).
  { eexists. split; [reflexivity|]. vm_compute. reflexivity. }
  destruct (syncMachineConfig _ _ _ _ _) as [[w' [[waits paused] [err|]]]|] eqn:E; try discriminate Hs.
  exists em, w', waits, paused. split; [exact Hem|]. split; [exact E|].
  refine (proj1 (syncMachineConfig_settles answers_reads scenario.sha256 w (scenario.reconciler platform.OpenShift) i
    (scenario.existing platform.OpenShift w) em tree mc w' waits paused _ eq_refl eq_refl eq_refl eq_refl eq_refl
    _ _ Hem E) (scenario.pool "worker") _ _ eq_refl eq_refl).
  - by apply answers_reads_check.
  - by right.
  - apply NoDup_singleton.
  - left.
Defined.
