(* ===== verification/DaemonSetSpec.v ===== *)
(** * The exporter daemon sets of a tree

    What the updater makes of the shared daemon set for one pool, and what the
    daemon-set half of a tree's reconciliation leaves in the cluster. *)
From S2P Require Import Prelude GoErrors Meta Selectors ApiV1 Conditions Steps Trees Validation FlagCodec.
From S2P Require Import Workload RteUpdate RteUpdateSpec Objects MergeSpec Cluster Apply RteState Dangling.
From S2P Require Import Controller Scenario Install WriteFrame MachineConfigSpec.

(** ** One daemon set *)

Lemma find_index_fmap {A} (P : A -> Prop) `{!forall x, Decision (P x)} (f : A -> A) (l : list A) :
  (forall x, P (f x) <-> P x) -> find_index P (f <$> l) = find_index P l.
Proof.
  intros Hf. induction l as [|x l IH]; [done|]. rewrite fmap_cons. simpl. rewrite IH.
  repeat case_decide; try done; by exfalso; naive_solver.
Qed.

Definition fallback_policy : Container -> Container := cnt_set_TerminationMessagePolicy "FallbackToLogsOnError".

Lemma args_container_same conf tls c :
  cnt_Name (args_container conf tls c) = cnt_Name c /\ cnt_Image (args_container conf tls c) = cnt_Image c /\
  cnt_SecurityContext (args_container conf tls c) = cnt_SecurityContext c /\
  cnt_TerminationMessagePolicy (args_container conf tls c) = cnt_TerminationMessagePolicy c.
Proof. unfold args_container, envvar.SetForContainer. by repeat case_match. Qed.

(** The parts of the pod the argument update leaves alone. *)
Lemma DaemonSetArgs_rest ds conf tls :
  let ds' := fst (DaemonSetArgs ds conf tls) in
  ds_Meta ds' = ds_Meta ds /\
  ps_NodeSelector (ds_PodSpec ds') = ps_NodeSelector (ds_PodSpec ds) /\
  ps_Tolerations (ds_PodSpec ds') = ps_Tolerations (ds_PodSpec ds).
Proof. unfold DaemonSetArgs. by repeat case_match. Qed.

(** What the SELinux options do to the exporter container. *)
Definition selinux_container (opts : SecurityContextOptions) (cnt : Container) : Container :=
  if decide (sco_SELinuxContextType opts = "") then cnt
  else
    let sc := default emptySecurityContext (cnt_SecurityContext cnt) in
    cnt_set_SecurityContext (Some (mkSecurityContext (sc_Capabilities sc) (sc_Privileged sc)
      (Some (mkSELinuxOptions "" "" (sco_SELinuxContextType opts) selinux.RTEContextLevel))
      (sc_RunAsUser sc) (sc_RunAsGroup sc) (sc_AllowPrivilegeEscalation sc) (sc_other sc))) cnt.

Lemma SecurityContextWithOpts_found ds i opts :
  FindContainerByName (ds_Containers ds) MainContainerName = Some i ->
  let ds' := SecurityContextWithOpts ds opts in
  ds_Containers ds' = alter (selinux_container opts) i (ds_Containers ds) /\
  ds_Meta ds' = ds_Meta ds /\
  ps_NodeSelector (ds_PodSpec ds') = ps_NodeSelector (ds_PodSpec ds) /\
  ps_Tolerations (ds_PodSpec ds') = ps_Tolerations (ds_PodSpec ds) /\
  ps_Volumes (ds_PodSpec ds') = ps_Volumes (ds_PodSpec ds).
Proof.
  intros Hi. unfold SecurityContextWithOpts, securityContextForContainer, selinux_container. rewrite Hi.
  case_decide; simpl.
  - split_and!; try done. symmetry. apply list_alter_id. done.
  - case_decide; split_and!; done.
Qed.

Definition mount_config (c : Container) : Container :=
  cnt_set_VolumeMounts (cnt_VolumeMounts c ++ [mkVolumeMount rteConfigMountName rteConfigMountPathLegacy false ""]) c.

Lemma ContainerConfig_found ds i name :
  FindContainerByName (ds_Containers ds) MainContainerName = Some i ->
  exists ds', ContainerConfig ds name = (ds', None) /\
    ds_Containers ds' = alter mount_config i (ds_Containers ds) /\ ds_Meta ds' = ds_Meta ds /\
    ps_NodeSelector (ds_PodSpec ds') = ps_NodeSelector (ds_PodSpec ds) /\
    ps_Tolerations (ds_PodSpec ds') = ps_Tolerations (ds_PodSpec ds) /\
    mkVolume rteConfigMountName (VSConfigMap name (Some true)) ∈ ps_Volumes (ds_PodSpec ds').
Proof.
  intros Hi. unfold ContainerConfig. rewrite Hi. eexists. split; [done|]. split_and!; try done.
  simpl. set_solver.
Qed.

Lemma DaemonSetHashAnnotation_pod ds h : ds_PodSpec (DaemonSetHashAnnotation ds h) = ds_PodSpec ds.
Proof. done. Qed.

(** The platforms on which the exporter is configured by a config map and runs
    under a dedicated SELinux type. *)
Definition openshift_like (plat : platform.Platform) : Prop :=
  plat = platform.OpenShift \/ plat = platform.HyperShift.
#[global] Instance openshift_like_dec plat : Decision (openshift_like plat).
Proof. unfold openshift_like. apply _. Defined.

(** The exporter container after the update. *)
Definition updated_exporter (conf : NodeGroupConfig) (tls : Settings) (gdm : GeneratedDesiredManifest)
  : Container -> Container :=
  if decide (openshift_like (gdm_ClusterPlatform gdm))
  then fun c => selinux_container (gdm_SecOpts gdm) (mount_config (args_container conf tls c))
  else args_container conf tls.

Lemma daemonsetUpdater_found poolName gdm tls conf i :
  ng_Config (gdm_NodeGroup gdm) = Some conf ->
  FindContainerByName (ds_Containers (gdm_DaemonSet gdm)) MainContainerName = Some i ->
  exists ds', daemonsetUpdater poolName gdm tls = Ret (ds', None) /\
    ds_Meta ds' = ds_Meta (gdm_DaemonSet gdm) /\
    ps_NodeSelector (ds_PodSpec ds') = ps_NodeSelector (ds_PodSpec (gdm_DaemonSet gdm)) /\
    ps_Tolerations (ds_PodSpec ds')
      = (if decide (ngc_Tolerations conf = []) then ps_Tolerations (ds_PodSpec (gdm_DaemonSet gdm))
         else ngc_Tolerations conf) /\
    map_of (pt_Annotations (dsp_Template (ds_Spec ds'))) !! ConfigMapAnnotation = Some (gdm_RTEConfigHash gdm) /\
    (openshift_like (gdm_ClusterPlatform gdm) ->
       mkVolume rteConfigMountName (VSConfigMap (om_Name (ds_Meta (gdm_DaemonSet gdm))) (Some true))
         ∈ ps_Volumes (ds_PodSpec ds')) /\
    ds_Containers ds' = alter (updated_exporter conf tls gdm) i
                          (fallback_policy <$> ds_Containers (gdm_DaemonSet gdm)).
Proof.
  intros Hconf Hi. unfold daemonsetUpdater. rewrite Hconf. cbn [deref go_bind].
  set (ds := gdm_DaemonSet gdm) in *.
  set (ds1 := AllContainersTerminationMessagePolicy ds).
  assert (FindContainerByName (ds_Containers ds1) MainContainerName = Some i) as Hi1.
  { rewrite <-Hi. unfold FindContainerByName, ds1. by apply (find_index_fmap _ fallback_policy). }
  set (ds2 := DaemonSetTolerations ds1 (ngc_Tolerations conf)).
  assert (ds_Containers ds2 = ds_Containers ds1 /\ ds_Meta ds2 = ds_Meta ds /\
    ps_NodeSelector (ds_PodSpec ds2) = ps_NodeSelector (ds_PodSpec ds) /\
    ps_Tolerations (ds_PodSpec ds2) = if decide (ngc_Tolerations conf = []) then ps_Tolerations (ds_PodSpec ds)
                                      else ngc_Tolerations conf) as (C2 & M2 & N2 & T2).
  { unfold ds2, DaemonSetTolerations. case_decide; simpl; [done|]. by rewrite CloneTolerations_id. }
  rewrite <-C2 in Hi1.
  destruct (DaemonSetArgs_containers ds2 conf tls i Hi1) as [C3 E3].
  destruct (DaemonSetArgs_rest ds2 conf tls) as (M3 & N3 & T3).
  destruct (DaemonSetArgs ds2 conf tls) as [ds3 err]. simpl in *. subst err.
  rewrite M2 in M3. rewrite N2 in N3. rewrite T2 in T3. rewrite C2 in C3.
  change (ds_Containers ds1) with (fallback_policy <$> ds_Containers ds) in C3.
  unfold updated_exporter.
  destruct (decide (gdm_ClusterPlatform gdm = platform.OpenShift \/ gdm_ClusterPlatform gdm = platform.HyperShift))
    as [Hp|Hp]; [rewrite (decide_True (P := openshift_like _)) by done|rewrite (decide_False (P := openshift_like _)) by done].
  - assert (FindContainerByName (ds_Containers ds3) MainContainerName = Some i) as Hi3.
    { rewrite C3. apply find_index_alter; [|by rewrite C2 in Hi1]. intros x. by rewrite (proj1 (args_container_same conf tls x)). }
    destruct (ContainerConfig_found ds3 i (om_Name (ds_Meta ds3)) Hi3) as (ds4 & -> & C4 & M4 & N4 & T4 & V4).
    assert (FindContainerByName (ds_Containers ds4) MainContainerName = Some i) as Hi4
      by (rewrite C4; by apply find_index_alter).
    destruct (SecurityContextWithOpts_found ds4 i (gdm_SecOpts gdm) Hi4) as (C5 & M5 & N5 & T5 & V5).
    eexists. split; [reflexivity|]. set (ds5 := SecurityContextWithOpts _ _) in *.
    unfold ds_Containers at 1. rewrite DaemonSetHashAnnotation_pod. fold (ds_Containers ds5).
    split_and!.
    + change (ds_Meta _) with (ds_Meta ds5) at 1. by rewrite M5, M4, M3.
    + by rewrite N5, N4, N3.
    + by rewrite T5, T4, T3.
    + simpl. by rewrite lookup_insert_eq.
    + intros _. by rewrite V5, <-M3.
    + rewrite C5, C4, C3, !alter_alter. reflexivity.
  - eexists. split; [reflexivity|]. unfold ds_Containers at 1. rewrite DaemonSetHashAnnotation_pod.
    split_and!; try done. simpl. by rewrite lookup_insert_eq.
Qed.




Lemma daemonsetUpdater_missing poolName gdm tls conf :
  ng_Config (gdm_NodeGroup gdm) = Some conf ->
  FindContainerByName (ds_Containers (gdm_DaemonSet gdm)) MainContainerName = None ->
  exists ds', daemonsetUpdater poolName gdm tls = Ret (ds', Some (err_no_container MainContainerName)).
Proof.
  intros Hc Hi. unfold daemonsetUpdater. rewrite Hc. cbn [deref go_bind].
  set (ds := DaemonSetTolerations _ _).
  assert (ds_Containers ds = fallback_policy <$> ds_Containers (gdm_DaemonSet gdm)) as Hd
    by (unfold ds, DaemonSetTolerations; by case_decide).
  assert (DaemonSetArgs ds conf tls = (ds, Some (err_no_container MainContainerName))) as ->; [|by eexists].
  unfold DaemonSetArgs, FindContainerByName. rewrite Hd, (find_index_fmap _ fallback_policy) by done.
  change (find_index _ _) with (FindContainerByName (ds_Containers (gdm_DaemonSet gdm)) MainContainerName).
  by rewrite Hi.
Qed.


(** ** The daemon sets of a tree *)

Lemma daemonsetUpdater_meta poolName gdm tls ds :
  daemonsetUpdater poolName gdm tls = Ret (ds, None) -> ds_Meta ds = ds_Meta (gdm_DaemonSet gdm).
Proof.
  intros H. destruct (ng_Config (gdm_NodeGroup gdm)) as [conf|] eqn:Hc;
    [|unfold daemonsetUpdater in H; by rewrite Hc in H].
  destruct (FindContainerByName (ds_Containers (gdm_DaemonSet gdm)) MainContainerName) as [i|] eqn:Hi.
  - destruct (daemonsetUpdater_found poolName gdm tls conf i Hc Hi) as (ds' & E & HM & _).
    rewrite E in H. by injection H as <-.
  - destruct (daemonsetUpdater_missing poolName gdm tls conf Hc Hi) as (ds' & E). by rewrite E in H.
Qed.

(** What a daemon set is generated for: a pool, with its node selector. *)
Record target := mkTarget {
  tg_pool : string; tg_mcp : option MachineConfigPool; tg_what : string;
  tg_selector : option (gmap string string); tg_error : option error }.

Definition mcp_target (mcp : MachineConfigPool) : target :=
  mkTarget (mcp_Name mcp) (Some mcp) "MCP" (ls_MatchLabels <$> mcp_NodeSelector mcp)
    (match mcp_NodeSelector mcp with
     | Some _ => None
     | None => Some (ErrNew ("the machine config pool " +:+ quote (mcp_Name mcp) +:+ " does not have node selector"))
     end).

Definition pool_target (poolName : string) : target :=
  mkTarget poolName None "pool" (Some {[HyperShiftNodePoolLabel := poolName]}) None.

Definition targets (h : rteHelper) (tree : Tree) : list target :=
  match h with
  | machineConfigPoolFinder => mcp_target <$> tree_MCPs tree
  | nodeGroupFinder => option_list (pool_target <$> (tree_NodeGroup tree ≫= ng_PoolName))
  end.

Definition target_state (em : ExistingManifests) (mf : Manifests) (tree : Tree) (tg : target)
  (seen : list PoolDaemonSet) : go (list PoolDaemonSet * ObjectState) :=
  daemonset_state em mf tree (tg_mcp tg) (tg_pool tg) (tg_what tg) (tg_selector tg) (tg_error tg) seen.

Fixpoint target_states (em : ExistingManifests) (mf : Manifests) (tree : Tree) (tgs : list target)
  (seen : list PoolDaemonSet) : go (list PoolDaemonSet * list ObjectState) :=
  match tgs with
  | [] => Ret (seen, [])
  | tg :: tgs =>
      let! (seen, st) := target_state em mf tree tg seen in
      let! (seen, sts) := target_states em mf tree tgs seen in
      Ret (seen, st :: sts)
  end.

Lemma FindState_targets em mf tree seen seen' states :
  FindState em mf tree seen = Ret (seen', states) ->
  target_states em mf tree (targets (em_helper em) tree) seen = Ret (seen', states).
Proof.
  unfold FindState, targets. destruct (em_helper em).
  - assert (forall pools seen ret, go_fold (fun '(seen, ret) mcp =>
        let! (seen, st) := target_state em mf tree (mcp_target mcp) seen in Ret (seen, ret ++ [st]))
        (seen, ret) pools = Ret (seen', states) ->
      exists sts, states = ret ++ sts /\ target_states em mf tree (mcp_target <$> pools) seen = Ret (seen', sts)) as Hg.
    { induction pools as [|p pools IH]; intros s ret; rewrite ?fmap_cons; cbn [go_fold target_states].
      { intros [= <- <-]. exists []. by rewrite app_nil_r. }
      destruct (target_state em mf tree (mcp_target p) s) as [[s1 st]|]; cbn [go_bind]; [|done].
      intros (sts & -> & ->)%IH. exists (st :: sts). by rewrite <-app_assoc. }
    intros Hf. apply (Hg _ _ []) in Hf as (sts & -> & ->). done.
  - destruct (tree_NodeGroup tree) as [ng|]; simpl; [|done]. destruct (ng_PoolName ng) as [p|]; simpl; [|done].
    change (daemonset_state _ _ _ _ _ _ _ _ _) with (target_state em mf tree (pool_target p) seen).
    by destruct (target_state _ _ _ _ _) as [[s1 st]|]; simpl.
Qed.

(** The daemon set of the manifests under the name and selector of a pool. *)
Definition generated (instanceName : string) (mf : Manifests) (tg : target) : DaemonSet :=
  let ds := ds_set_Name (objectnames.GetComponentName instanceName (tg_pool tg)) (mf_DaemonSet mf) in
  match tg_selector tg with
  | Some _ => ds_map_PodSpec (ps_set_NodeSelector (tg_selector tg)) ds
  | None => ds
  end.

(** [ds] is what the updater makes of it for the node group of the tree, given
    the hash [h] of the exporter's config map. *)
Definition wanted_for (plat : platform.Platform) (instanceName : string) (mf : Manifests) (tls : Settings)
  (tree : Tree) (h : string) (tg : target) (ds : DaemonSet) : Prop :=
  exists ng secOpts, tree_NodeGroup tree = Some ng /\ tg_error tg = None /\
    securityContextOptions mf (annotations.IsCustomPolicyEnabled (ng_Annotations ng)) = Ret secOpts /\
    daemonsetUpdater (tg_pool tg)
      (mkGeneratedDesiredManifest plat (tg_mcp tg) ng secOpts (generated instanceName mf tg) h) tls = Ret (ds, None).

Lemma wanted_for_key plat n mf tls tree h tg ds :
  wanted_for plat n mf tls tree h tg ds ->
  om_key (ds_Meta ds) = mkNamespacedName (om_Namespace (ds_Meta (mf_DaemonSet mf)))
                          (objectnames.GetComponentName n (tg_pool tg)).
Proof.
  intros (ng & so & _ & _ & _ & H). rewrite (daemonsetUpdater_meta _ _ _ _ H). unfold generated. simpl.
  by destruct (tg_selector tg).
Qed.

(** ** Rolling out the daemon sets of a tree *)

Section Rollout.
Context {W : Type} `{!Client W} `{SelectorLib} (healthy : W -> Prop) `{!ClientLaws W healthy}.
Variable sha256_hex : string -> string.

(** The hash of the config map that shares the daemon set's name; empty if there
    is none. *)
Definition config_hash (w : W) (k : NamespacedName) : string :=
  dsm_rteConfigHash (getDaemonSetManifest sha256_hex w (nn_Namespace k) (nn_Name k)).

Lemma applyObjects_no_update_error w instance states w' :
  applyObjects w instance states = Ret (w', None) -> Forall (fun s => os_UpdateError s = None) states.
Proof.
  revert w. induction states as [|s states IH]; intros w Hrun; [constructor|]. cbn [applyObjects] in Hrun.
  destruct (iface_deref (os_Desired s)) as [d|]; simpl in Hrun; [|done].
  destruct (os_UpdateError s) eqn:Hu; [by destruct (os_Error s), (IsNotFoundError s)|].
  constructor; [done|].
  assert (exists w1, applyObjects w1 instance states = Ret (w', None)) as [w1 ?]; [|by eapply IH].
  destruct (os_Error s), (IsNotFoundError s); simpl in Hrun; try done;
    (destruct (controllerutil.SetControllerReference _ d) as [d' [rerr|]]; [done|]);
    (destruct (ApplyObject w _) as [[w1 [[o ch] [err|]]]|]; simpl in Hrun; [done| |done]); by exists w1.
Qed.

Definition ds_entry (ds : DaemonSet) : entry := mkEntry (ds_object ds) ObjectForUpdate complete_plain.

Definition recorded (tg : target) (ds : DaemonSet) : PoolDaemonSet :=
  mkPoolDaemonSet (tg_pool tg) (om_key (ds_Meta ds)).

Section States.
Context (w0 : W) (em : ExistingManifests) (mf : Manifests) (tree : Tree) (tls : Settings).
Hypothesis Hloaded : tree_loaded sha256_hex w0 em.
Hypothesis Hupdater : em_updater em = recording_updater tls.
Hypothesis Hnamespace : om_Namespace (ds_Meta (mf_DaemonSet mf)) = em_namespace em.

Definition target_key (tg : target) : NamespacedName :=
  mkNamespacedName (em_namespace em) (objectnames.GetComponentName (em_instanceName em) (tg_pool tg)).

Definition target_loaded (tg : target) : Prop :=
  is_Some (em_daemonSets em !! objectnames.GetComponentName (em_instanceName em) (tg_pool tg)).

(** The daemon set wanted for a target, with the hash read from [w0]. *)
Definition wanted (tg : target) (ds : DaemonSet) : Prop :=
  wanted_for (em_plat em) (em_instanceName em) mf tls tree (config_hash w0 (target_key tg)) tg ds.

Lemma wanted_key tg ds : wanted tg ds -> om_key (ds_Meta ds) = target_key tg.
Proof. intros Hw%wanted_for_key. by rewrite Hw, Hnamespace. Qed.

Lemma target_state_ok tg seen seen' st :
  target_loaded tg -> target_state em mf tree tg seen = Ret (seen', st) -> os_UpdateError st = None ->
  exists ds, wanted tg ds /\ seen' = seen ++ [recorded tg ds] /\ st = entry_state w0 (ds_entry ds).
Proof.
  intros [dsm Hdsm] Hst Hue. unfold target_state, daemonset_state, loaded_daemonset in Hst. rewrite Hdsm in Hst.
  apply (proj2 Hloaded) in Hdsm. unfold getDaemonSetManifest in Hdsm.
  destruct (load w0 TDaemonSet _) as [ex err] eqn:Eload.
  destruct (tree_NodeGroup tree) as [ng|] eqn:Hng; simpl in Hst; [|done].
  destruct (securityContextOptions mf _) as [so|] eqn:Hso; cbn [go_bind] in Hst; [|done].
  rewrite Hupdater in Hst. unfold recording_updater in Hst.
  destruct (daemonsetUpdater _ _ tls) as [[ds [uerr|]]|] eqn:Hupd; simpl in Hst; [| |done].
  { injection Hst as <- <-. done. }
  injection Hst as <- Est. rewrite <-Est in Hue. simpl in Hue.
  assert (wanted tg ds) as Hw.
  { exists ng, so. split_and!; [done|done|done|]. rewrite <-Hupd. unfold config_hash, getDaemonSetManifest. simpl.
    rewrite Eload. by rewrite Hdsm. }
  exists ds. split; [done|]. split; [done|]. rewrite <-Est. unfold entry_state, state_of. simpl.
  change (obj_key (ds_object ds)) with (om_key (ds_Meta ds)).
  rewrite (wanted_key tg ds Hw). unfold target_key.
  change (obj_type (ds_object ds)) with TDaemonSet. rewrite Eload. by rewrite Hdsm, Hue.
Qed.

Lemma target_states_ok tgs seen seen' states :
  Forall target_loaded tgs -> target_states em mf tree tgs seen = Ret (seen', states) ->
  Forall (fun s => os_UpdateError s = None) states ->
  exists dss, Forall2 wanted tgs dss /\ seen' = seen ++ zip_with recorded tgs dss /\
    states = entry_state w0 <$> (ds_entry <$> dss).
Proof.
  intros Hall. revert seen seen' states. induction Hall as [|tg tgs Htg _ IH]; intros seen seen' states.
  { simpl. intros [= <- <-] _. exists []. split; [constructor|]. by rewrite app_nil_r. }
  cbn [target_states]. destruct (target_state em mf tree tg seen) as [[seen1 st]|] eqn:Est; simpl; [|done].
  destruct (target_states em mf tree tgs seen1) as [[seen2 sts]|] eqn:Ests; simpl; [|done].
  intros [= <- <-] [Hst Hsts]%Forall_cons.
  destruct (target_state_ok tg seen seen1 st Htg Est Hst) as (ds & Hw & -> & ->).
  destruct (IH _ _ _ Ests Hsts) as (dss & Hdss & -> & ->).
  exists (ds :: dss). split; [by constructor|]. split; [by rewrite <-app_assoc|done].
Qed.
End States.

(** The states are computed from the wanted daemon sets. *)
Lemma target_state_wanted w0 em mf tree tls tg ds seen :
  tree_loaded sha256_hex w0 em -> em_updater em = recording_updater tls ->
  om_Namespace (ds_Meta (mf_DaemonSet mf)) = em_namespace em -> target_loaded em tg ->
  wanted w0 em mf tree tls tg ds ->
  target_state em mf tree tg seen = Ret (seen ++ [recorded tg ds], entry_state w0 (ds_entry ds)).
Proof.
  intros Hl Hup Hns [dsm Hdsm] Hw. pose proof (wanted_key w0 em mf tree tls Hns tg ds Hw) as Hkey.
  destruct Hw as (ng & so & Hng & He & Hso & Hupd).
  unfold target_state, daemonset_state, loaded_daemonset. rewrite Hdsm.
  apply (proj2 Hl) in Hdsm. unfold getDaemonSetManifest in Hdsm.
  destruct (load w0 TDaemonSet _) as [ex err] eqn:Eload. rewrite Hng. cbn [deref go_bind]. rewrite Hso. cbn [go_bind].
  rewrite Hup. unfold recording_updater.
  assert (dsm_rteConfigHash dsm = config_hash w0 (target_key em tg)) as Eh.
  { rewrite Hdsm. unfold config_hash, getDaemonSetManifest. simpl. by rewrite Eload. }
  rewrite Eh. change (match tg_selector tg with Some _ => _ | None => _ end) with (generated (em_instanceName em) mf tg).
  rewrite Hupd. simpl. rewrite He. f_equal. f_equal. unfold entry_state, state_of. simpl.
  change (obj_type (ds_object ds)) with TDaemonSet. change (obj_key (ds_object ds)) with (om_key (ds_Meta ds)).
  rewrite Hkey. unfold target_key. rewrite Eload. by rewrite Hdsm.
Qed.

Lemma target_states_wanted w0 em mf tree tls tgs dss seen :
  tree_loaded sha256_hex w0 em -> em_updater em = recording_updater tls ->
  om_Namespace (ds_Meta (mf_DaemonSet mf)) = em_namespace em -> Forall (target_loaded em) tgs ->
  Forall2 (wanted w0 em mf tree tls) tgs dss ->
  target_states em mf tree tgs seen
  = Ret (seen ++ zip_with recorded tgs dss, entry_state w0 <$> (ds_entry <$> dss)).
Proof.
  intros Hl Hup Hns Hld Hw. revert seen. induction Hw as [|tg ds tgs dss Hwt _ IH]; intros seen.
  { simpl. by rewrite app_nil_r. }
  apply Forall_cons in Hld as [Hld1 Hld]. cbn [target_states].
  rewrite (target_state_wanted w0 em mf tree tls tg ds) by done. cbn [go_bind].
  rewrite IH by done. cbn [go_bind]. by rewrite <-app_assoc.
Qed.

(** A daemon set that is there and has all its pods ready. *)
Definition ready (w : W) (k : NamespacedName) : Prop :=
  exists o ds, cli_Get w TDaemonSet k = inl o /\ object_ds o = Some ds /\ isDaemonSetReady ds = true.

Lemma daemonsets_step_done w infos :
  healthy w -> Done (daemonsets_step w infos) = true -> Forall (fun i => ready w (pds_DaemonSet i)) infos.
Proof.
  intros Hh. induction infos as [|i infos IH]; intros Hd; [constructor|]. cbn [daemonsets_step] in Hd.
  destruct (cli_Get w TDaemonSet (pds_DaemonSet i)) as [o|e] eqn:Hg; [|done].
  pose proof (f_equal fst (law_get_id _ _ _ _ Hh Hg)) as Ht. unfold obj_id, obj_type in Ht. simpl in Ht.
  destruct (obj_Body o) as [spec st| | | | | | | | | | | |] eqn:Hb; try done.
  assert (object_ds o = Some (mkDaemonSet (obj_Meta o) spec st)) as Ho by (unfold object_ds; by rewrite Hb).
  rewrite Ho in Hd. cbn [from_option] in Hd. destruct (isDaemonSetReady _) eqn:Hr; cbn [negb] in Hd.
  - constructor; [by exists o, (mkDaemonSet (obj_Meta o) spec st)|by apply IH].
  - by rewrite Done_waiting in Hd.
Qed.

(** The state of one wanted daemon set after a roll-out. *)
Definition rolled_out (w : W) (instance : NUMAResourcesOperator) (ds : DaemonSet) : Prop :=
  installed complete_plain w (owned instance (ds_object ds)) /\ ready w (om_key (ds_Meta ds)).

(** The same, with no update to make. *)
Definition in_place (w : W) (instance : NUMAResourcesOperator) (ds : DaemonSet) : Prop :=
  settled instance w (ds_entry ds) /\ ready w (om_key (ds_Meta ds)).

Lemma in_place_rolled_out w instance ds : in_place w instance ds -> rolled_out w instance ds.
Proof. intros [[Hk _] Hr]. split; [by apply kept_installed|done]. Qed.

Lemma daemonsets_step_ready w infos :
  Forall (fun i => ready w (pds_DaemonSet i)) infos -> daemonsets_step w infos = StepSuccess.
Proof.
  induction 1 as [|i infos (o & ds & Hg & Ho & Hr) _ IH]; [done|]. cbn [daemonsets_step].
  rewrite Hg, Ho. cbn [from_option]. by rewrite Hr.
Qed.

Definition target_ids (em : ExistingManifests) (tgs : list target) (id : gotype * NamespacedName) : Prop :=
  exists tg, tg ∈ tgs /\ id = (TDaemonSet, target_key em tg).

Lemma target_key_inj em tg tg' : target_key em tg = target_key em tg' -> tg_pool tg = tg_pool tg'.
Proof. intros E. exact (objectnames.GetComponentName_inj _ _ _ (f_equal nn_Name E)). Qed.

Lemma wanted_entries_nodup w0 em mf tree tls tgs dss :
  om_Namespace (ds_Meta (mf_DaemonSet mf)) = em_namespace em ->
  NoDup (tg_pool <$> tgs) -> Forall2 (wanted w0 em mf tree tls) tgs dss ->
  NoDup ((fun e => obj_id (en_obj e)) <$> (ds_entry <$> dss)).
Proof.
  intros Hns Hnd Hall. rewrite <-list_fmap_compose.
  assert (((fun e => obj_id (en_obj e)) ∘ ds_entry) <$> dss = (fun tg => (TDaemonSet, target_key em tg)) <$> tgs) as ->.
  { induction Hall as [|tg ds tgs dss Hw _ IH]; [done|]. apply NoDup_cons in Hnd as [_ Hnd].
    rewrite !fmap_cons, IH by done. f_equal. unfold obj_id. simpl. f_equal.
    exact (wanted_key w0 em mf tree tls Hns tg ds Hw). }
  clear Hall. induction tgs as [|tg tgs IH]; [constructor|]. rewrite fmap_cons in *.
  apply NoDup_cons in Hnd as [Hn Hnd]. apply NoDup_cons. split; [|by apply IH].
  intros (tg' & E & Htg')%list_elem_of_fmap. apply Hn.
  rewrite (target_key_inj em tg tg' (f_equal snd E)). by apply list_elem_of_fmap_2.
Qed.
End Rollout.
