(* ===== verification/Rollout.v ===== *)
(** * A reconciliation that completes has rolled the exporters out

    From the daemon sets of one tree to those of all trees: when the controller
    reports that it is done, every pool of every tree has its daemon set in the
    cluster, as wanted, owned by the instance and ready. *)
From S2P Require Import Prelude GoErrors Meta Selectors ApiV1 Conditions Steps Trees Validation FlagCodec.
From S2P Require Import Workload RteUpdate RteUpdateSpec Objects MergeSpec Cluster Apply RteState Dangling.
From S2P Require Import Controller Scenario Install WriteFrame MachineConfigSpec DaemonSetSpec.

Section Rollout.
Context {W : Type} `{!Client W} `{SelectorLib} (healthy : W -> Prop) `{!ClientLaws W healthy}.
Variable show_node_group : NodeGroup -> string.
Variable sha256_hex : string -> string.
Variable UnsortedList : gset string -> list string.

Notation wanted := (wanted sha256_hex).
Notation only_writes := (only_writes healthy).

(** ** One tree *)

Lemma daemonsets_step_valid w infos : valid_step (daemonsets_step w infos).
Proof.
  induction infos as [|i infos IH]; cbn [daemonsets_step]; [auto with nro|].
  destruct (cli_Get _ _ _); [|auto with nro]. case_match; auto with nro.
Qed.

Lemma target_states_merge em mf tree tgs seen seen' states :
  target_states em mf tree tgs seen = Ret (seen', states) -> Forall state_merges states.
Proof.
  revert seen seen' states. induction tgs as [|tg tgs IH]; intros seen seen' states; cbn [target_states].
  { intros [= <- <-]. constructor. }
  destruct (target_state em mf tree tg seen) as [[seen1 st]|] eqn:Est; cbn [go_bind]; [|done].
  destruct (target_states em mf tree tgs seen1) as [[seen2 sts]|] eqn:Ests; cbn [go_bind]; [|done].
  intros [= <- <-]. constructor; [|by eapply IH]. clear -Est. unfold target_state, daemonset_state in Est.
  destruct (loaded_daemonset _ _ _) as [[ex err] h]. destruct (tree_NodeGroup tree) as [ng|]; cbn [deref go_bind] in Est; [|done].
  destruct (securityContextOptions mf _) as [so|]; cbn [go_bind] in Est; [|done].
  destruct (em_updater em _ _ _) as [[[s d] e]|]; cbn [go_bind] in Est; [|done]. injection Est as <- <-.
  exists ObjectForUpdate, complete_plain, TDaemonSet. split; [done|constructor].
Qed.

Lemma reconcilePerTreeDaemonSet_done w w0 r instance em tree w' res :
  let tgs := targets (em_helper em) tree in
  healthy w -> tree_loaded sha256_hex w0 em ->
  (forall k, cli_Get w TDaemonSet k = cli_Get w0 TDaemonSet k) ->
  om_Namespace (ds_Meta (mf_DaemonSet (r_RTEManifests r))) = em_namespace em ->
  Forall (target_loaded em) tgs -> NoDup (tg_pool <$> tgs) ->
  reconcilePerTreeDaemonSet w r instance em tree = Ret (w', res) ->
  healthy w' /\ valid_step (ptr_Step res) /\
  (Done (ptr_Step res) = true ->
   exists dss, Forall2 (wanted w0 em (r_RTEManifests r) tree (r_RTEMetricsTLS r)) tgs dss /\
     Forall (in_place w' instance) dss /\ ptr_DSInfo res = zip_with recorded tgs dss /\
     ptr_Step res = StepSuccess /\ only_writes (target_ids em tgs) w w').
Proof.
  intros tgs Hh Hl Hsame Hns Hld Hnd. unfold reconcilePerTreeDaemonSet.
  set (em1 := WithManifestsUpdater em _).
  destruct (PerTreeState em1 _ tree []) as [[infos states]|] eqn:Hst; simpl; [|done].
  apply FindState_targets in Hst. change (targets (em_helper em1) tree) with tgs in Hst.
  destruct (applyObjects w instance states) as [[w1 err]|] eqn:Happ; simpl; [|done].
  assert (healthy w1) as Hh1 by (exact (proj1 (applyObjects_only healthy w instance _ w1 err
    (target_states_merge _ _ _ _ _ _ _ Hst) Happ) Hh)).
  destruct err as [err|]; intros [= <- <-]; (split; [done|]); [split; [apply valid_StepFailed|done]|].
  simpl. split; [apply daemonsets_step_valid|]. intros Hd.
  destruct (target_states_ok sha256_hex w0 em1 (r_RTEManifests r) tree (r_RTEMetricsTLS r) Hl eq_refl Hns tgs [] _ _
              Hld Hst (applyObjects_no_update_error _ _ _ _ Happ)) as (dss & Hw & -> & ->).
  exists dss. split; [exact Hw|].
  assert (Forall (fun e => exists tg, tg ∈ tgs /\ obj_id (en_obj e) = (TDaemonSet, target_key em tg)) (ds_entry <$> dss))
    as Hids.
  { clear -Hw Hns. induction Hw as [|tg ds tgs dss Hw _ IH]; [constructor|]. constructor.
    - exists tg. split; [by left|]. unfold obj_id. simpl. f_equal. exact (wanted_key _ w0 em1 _ _ _ Hns tg ds Hw).
    - eapply Forall_impl; [exact IH|]. intros e (t & ? & ?). exists t. split; [by right|done]. }
  destruct (applyObjects_settles_from healthy w w0 instance (ds_entry <$> dss) w1 Hh) as [Hins Hfr].
  - apply Forall_fmap, Forall_forall. intros ds _. split; [constructor|]. simpl.
    intros o Ho. apply (read_mergeable healthy w); [done|by right|]. by rewrite Hsame.
  - by apply (wanted_entries_nodup sha256_hex w0 em1 (r_RTEManifests r) tree (r_RTEMetricsTLS r) tgs dss).
  - apply Forall_fmap, Forall_forall. intros ds _. apply Hsame.
  - exact Happ.
  - split_and!; [|done| |].
    + rewrite Forall_fmap in Hins. pose proof (daemonsets_step_done healthy w1 _ Hh1 Hd) as Hr.
      clear -Hins Hr Hw. simpl in Hr. induction Hw as [|tg ds tgs dss _ _ IH]; [constructor|].
      apply Forall_cons in Hins as [H1 Hins]. simpl in Hr. apply Forall_cons in Hr as [H2 Hr].
      constructor; [by split|by apply IH].
    + by apply daemonsets_step_ready, (daemonsets_step_done healthy).
    + split; [done|]. intros t k Hn. apply Hfr. eapply Forall_impl; [exact Hids|].
      intros e (tg & Htg & E) Heq. apply Hn. exists tg. by rewrite Heq.
Qed.

(** Loading the objects of a tree, on either platform. *)
Lemma PerTree_loaded w em0 tree em :
  PerTree sha256_hex w em0 tree = Ret em ->
  tree_loaded sha256_hex w em /\ same_context em0 em /\ em_helper em = helper_for (em_plat em0) /\
  Forall (target_loaded em) (targets (em_helper em) tree) /\
  (em_plat em0 = platform.OpenShift -> forall mcp, mcp ∈ tree_MCPs tree ->
     is_Some (em_machineConfigs em !! objectnames.GetMachineConfigName (em_instanceName em0) (mcp_Name mcp))).
Proof.
  intros Hem. destruct (decide (em_plat em0 = platform.OpenShift)) as [Hp|Hp].
  - destruct (PerTree_openshift sha256_hex w em0 tree em Hp Hem) as (H1 & H2 & H3 & H4).
    split_and!; [done|done|unfold helper_for; by rewrite decide_True| |].
    + rewrite H3. apply Forall_fmap, Forall_forall. intros mcp Hm. unfold target_loaded. simpl.
      destruct H2 as (_ & _ & -> & _). by apply H4.
    + intros _ mcp Hm. by apply H4.
  - unfold PerTree, UpdateFromClient, helper_for in *. simpl in Hem. rewrite decide_False in Hem by done.
    destruct (tree_NodeGroup tree) as [ng|] eqn:Hng; simpl in Hem; [|done].
    destruct (ng_PoolName ng) as [p|] eqn:Hpn; simpl in Hem; [|done]. injection Hem as <-. simpl.
    split_and!; [|done|by rewrite decide_False| |done].
    + split; simpl; [by intros n m Hn|].
      intros n m [[<- <-]|[_ Hn]]%lookup_insert_Some; done.
    + rewrite Hng. simpl. rewrite Hpn. simpl. constructor; [|constructor]. unfold target_loaded. simpl.
      by rewrite lookup_insert_eq.
Qed.

(** The machine-config half, when there may be no machine config at all. *)
Lemma reconcilePerTreeMachineConfig_writes w r instance em tree w1 res :
  healthy w -> tree_loaded sha256_hex w em ->
  (forall mc, mf_MachineConfig (r_RTEManifests r) = Some mc -> obj_type mc = TMachineConfig) ->
  reconcilePerTreeMachineConfig w r instance em tree = Ret (w1, res) ->
  only_writes is_machine_config w w1 /\ valid_step (ptr_Step res) /\
  (Done (ptr_Step res) = true ->
     exists pools, ptr_NROMCPs res = syncMachineConfigPoolNodeGroupConfigStatuses pools tree).
Proof.
  intros Hh Hl Hmc. unfold reconcilePerTreeMachineConfig, syncMachineConfig.
  assert (Forall (fun st => about_machine_config (mcos_State st))
            (fst (MachineConfigsState em (r_RTEManifests r) tree))) as Hab.
  { destruct (mf_MachineConfig (r_RTEManifests r)) as [mc|] eqn:Emc.
    - rewrite (MachineConfigsState_split em _ tree mc Emc). simpl. apply Forall_forall.
      intros st (mcp & _ & Hst)%list_elem_of_omap.
      by apply (pool_state_loaded healthy sha256_hex w em mc (custom_policy tree) mcp); [| |apply Hmc|].
    - unfold MachineConfigsState. rewrite Emc. constructor. }
  destruct (MachineConfigsState em (r_RTEManifests r) tree) as [states paused]. simpl in Hab.
  destruct (sync_machine_configs w instance tree states ∅) as [[w2 [waits err]]|] eqn:Es; simpl; [|done].
  apply (sync_machine_configs_only healthy) in Es; [|done].
  destruct err as [err|]; [intros [= <- <-]; split_and!; [done|apply valid_StepFailed|done]|].
  destruct (syncMachineConfigPoolsStatuses _ _ waits tree) as [nroMCPs pending].
  case_decide; intros [= <- <-]; (split; [done|]).
  - split; [apply valid_StepOngoing_with|]. cbn [ptr_Step]. by rewrite Done_waiting.
  - simpl. split; [case_decide; auto with nro|]. by eexists.
Qed.

Lemma targets_normalized h tree tree1 ng c :
  tree_MCPs tree1 = tree_MCPs tree -> tree_NodeGroup tree = Some ng ->
  tree_NodeGroup tree1 = Some (ng_with_Config ng c) -> targets h tree1 = targets h tree.
Proof. intros Hm H1 H2. unfold targets. by rewrite Hm, H1, H2. Qed.

(** The tree with the configuration of its group normalised. *)
Definition normalized (tree : Tree) : Tree :=
  mkTree ((fun ng => ng_with_Config ng (Some (NormalizeConfig ng))) <$> tree_NodeGroup tree) (tree_Index tree)
    (tree_MachineConfigPools tree).

Lemma normalize_tree_normalized instance tree i1 tree1 :
  normalize_tree instance tree = Ret (i1, tree1) -> tree1 = normalized tree /\ nro_Meta i1 = nro_Meta instance.
Proof.
  unfold normalize_tree, normalized. destruct (tree_NodeGroup tree) as [ng|]; simpl; [|done]. by intros [= <- <-].
Qed.

Lemma wanted_place w em em' mf tree tls tg ds :
  em_plat em' = em_plat em -> em_instanceName em' = em_instanceName em -> em_namespace em' = em_namespace em ->
  wanted w em' mf tree tls tg ds <-> wanted w em mf tree tls tg ds.
Proof. intros E1 E2 E3. unfold DaemonSetSpec.wanted, target_key. by rewrite E1, E2, E3. Qed.

Lemma wanted_context w em em' mf tree tls tg ds :
  same_context em em' -> wanted w em' mf tree tls tg ds <-> wanted w em mf tree tls tg ds.
Proof. intros (_ & E1 & E2 & E3 & _). by apply wanted_place. Qed.

Lemma target_ids_context em em' tgs id : same_context em em' -> target_ids em' tgs id <-> target_ids em tgs id.
Proof. intros (_ & E1 & E2 & E3 & _). unfold target_ids, target_key. by rewrite E2, E3. Qed.

Lemma in_place_meta w i i' ds : nro_Meta i' = nro_Meta i -> in_place w i' ds <-> in_place w i ds.
Proof. intros E. unfold in_place, settled, owned. by rewrite E. Qed.

(** What a tree may write: its machine configs and its daemon sets. *)
Definition tree_writes (em : ExistingManifests) (tgs : list target) (id : gotype * NamespacedName) : Prop :=
  is_machine_config id \/ target_ids em tgs id.

Section Loop.
Context (r : Reconciler) (existing : ExistingManifests).
Hypothesis Hmc : forall mc, mf_MachineConfig (r_RTEManifests r) = Some mc -> obj_type mc = TMachineConfig.
Hypothesis Hns : om_Namespace (ds_Meta (mf_DaemonSet (r_RTEManifests r))) = em_namespace existing.

Notation tree_targets := (targets (helper_for (em_plat existing))).
Notation wanted_now w tree := (wanted w existing (r_RTEManifests r) (normalized tree) (r_RTEMetricsTLS r)).

(** One iteration, step by step. *)
Lemma reconcile_tree_inv w instance results tree w' i' results' :
  reconcile_tree sha256_hex r existing (w, instance, results) tree = Ret (w', i', results') ->
  exists em w1 mcRes, normalize_tree instance tree = Ret (i', normalized tree) /\
    PerTree sha256_hex w existing (normalized tree) = Ret em /\
    (if decide (r_Platform r = platform.OpenShift)
     then reconcilePerTreeMachineConfig w r i' em (normalized tree)
     else Ret (w, mkPerTreeResult [] [] ∅ zeroStep)) = Ret (w1, mcRes) /\
    ((r_Platform r = platform.OpenShift /\ Done (ptr_Step mcRes) = false /\ w' = w1 /\ results' = results ++ [mcRes]) \/
     (~ (r_Platform r = platform.OpenShift /\ Done (ptr_Step mcRes) = false) /\
      exists dsRes, reconcilePerTreeDaemonSet w1 r i' em (normalized tree) = Ret (w', dsRes) /\
        results' = results ++ [mkPerTreeResult (ptr_DSInfo dsRes) (ptr_NROMCPs mcRes) (ptr_PausedMCPNames mcRes)
                                 (ptr_Step dsRes)])).
Proof.
  unfold reconcile_tree. destruct (normalize_tree instance tree) as [[i1 tree1]|] eqn:En; cbn [go_bind]; [|done].
  destruct (normalize_tree_normalized _ _ _ _ En) as [-> _].
  destruct (PerTree sha256_hex w existing (normalized tree)) as [em|] eqn:Hem; cbn [go_bind]; [|done].
  destruct (if decide (r_Platform r = platform.OpenShift) then _ else _) as [[w1 mcRes]|] eqn:Emc; cbn [go_bind]; [|done].
  rewrite EarlyStop_negb_Done.
  destruct (decide (r_Platform r = platform.OpenShift /\ negb (Done (ptr_Step mcRes)) = true)) as [Hstop|Hstop].
  - intros [= <- <- <-]. exists em, w1, mcRes. split_and!; try done. left. destruct Hstop as [Hp Hd].
    by destruct (Done (ptr_Step mcRes)).
  - destruct (reconcilePerTreeDaemonSet w1 r i1 em (normalized tree)) as [[w2 dsRes]|] eqn:Eds; cbn [go_bind]; [|done].
    intros [= <- <- <-]. exists em, w1, mcRes. split_and!; try done. right. split; [|by exists dsRes].
    intros [Hp Hd]. apply Hstop. by rewrite Hd.
Qed.

(** One iteration: if its result is done, the daemon sets are rolled out. *)
Lemma reconcile_tree_done w instance results tree w' i' results' :
  healthy w -> NoDup (tg_pool <$> tree_targets tree) ->
  reconcile_tree sha256_hex r existing (w, instance, results) tree = Ret (w', i', results') ->
  healthy w' /\ nro_Meta i' = nro_Meta instance /\
  exists res, results' = results ++ [res] /\ valid_step (ptr_Step res) /\
  (Done (ptr_Step res) = true ->
   exists dss, Forall2 (wanted_now w tree) (tree_targets tree) dss /\
     Forall (in_place w' instance) dss /\ ptr_DSInfo res = zip_with recorded (tree_targets tree) dss /\
     only_writes (tree_writes existing (tree_targets tree)) w w').
Proof.
  intros Hh Hnd (em & w1 & mcRes & En & Hem & Emc & Hcase)%reconcile_tree_inv.
  destruct (normalize_tree_spec _ _ _ _ En) as (Hmeta & Hpools & ng & Hng & Hng1).
  destruct (PerTree_loaded _ _ _ _ Hem) as (Hl & Hctx & Hhelp & Htl & _).
  assert (only_writes is_machine_config w w1 /\
    (r_Platform r = platform.OpenShift -> valid_step (ptr_Step mcRes))) as [Hw1 Hv].
  { case_decide.
    - destruct (reconcilePerTreeMachineConfig_writes _ _ _ _ _ _ _ Hh Hl Hmc Emc) as (? & ? & _). done.
    - injection Emc as <- _. split; [apply only_writes_refl|done]. }
  clear Emc. destruct Hcase as [(Hp & Hs & -> & ->)|(_ & dsRes & Eds & ->)].
  { split; [by apply Hw1|]. split; [done|]. exists mcRes. split; [done|]. split; [by apply Hv|]. by rewrite Hs. }
  assert (targets (em_helper em) (normalized tree) = tree_targets tree) as Htg
    by (rewrite Hhelp; by apply (targets_normalized _ tree _ ng _ Hpools Hng Hng1)).
  destruct (reconcilePerTreeDaemonSet_done w1 w r i' em (normalized tree) w' dsRes) as (Hh2 & Hv2 & Hdone); try done.
  - by apply Hw1.
  - intros k. apply Hw1. by unfold is_machine_config.
  - rewrite Hns. symmetry. apply Hctx.
  - by rewrite Htg.
  - split; [done|]. split; [done|]. eexists. split; [reflexivity|]. cbn [ptr_Step ptr_DSInfo]. split; [done|].
    intros Hd. destruct (Hdone Hd) as (dss & Hwant & Hroll & Hinfo & _ & Hw2). rewrite Htg in *.
    exists dss. split_and!; [| |done|].
    + eapply Forall2_impl; [exact Hwant|]. intros tg ds. apply (wanted_context _ _ _ _ _ _ _ _ Hctx).
    + eapply Forall_impl; [exact Hroll|]. intros ds. apply (in_place_meta _ _ _ _ Hmeta).
    + apply (only_writes_trans _ _ _ w1).
      * eapply only_writes_weaken; [|exact Hw1]. intros id ?. by left.
      * eapply only_writes_weaken; [|exact Hw2]. intros id Hid. right. by apply (target_ids_context _ _ _ _ Hctx).
Qed.

Lemma wanted_frame w w' em mf tree tls tg ds :
  (forall k, cli_Get w' TConfigMap k = cli_Get w TConfigMap k) ->
  wanted w' em mf tree tls tg ds <-> wanted w em mf tree tls tg ds.
Proof.
  intros E. unfold DaemonSetSpec.wanted.
  assert (config_hash sha256_hex w' (target_key em tg) = config_hash sha256_hex w (target_key em tg)) as ->; [|done].
  unfold config_hash, getDaemonSetManifest. rewrite E. by destruct (load w' _ _), (load w _ _).
Qed.

Lemma in_place_frame w w' instance ds :
  cli_Get w' TDaemonSet (om_key (ds_Meta ds)) = cli_Get w TDaemonSet (om_key (ds_Meta ds)) ->
  in_place w instance ds -> in_place w' instance ds.
Proof.
  intros E [Hi (o & d & Hg & Hr)]. split; [|exists o, d; by rewrite E].
  by apply (settled_frame instance w).
Qed.

(** All the daemon sets of a list of trees. *)
Definition all_wanted (w : W) (trees : list Tree) (dsss : list (list DaemonSet)) : Prop :=
  Forall2 (fun tree dss => Forall2 (wanted_now w tree) (tree_targets tree) dss) trees dsss.

Definition all_recorded (trees : list Tree) (dsss : list (list DaemonSet)) : list PoolDaemonSet :=
  concat (zip_with (fun tree dss => zip_with recorded (tree_targets tree) dss) trees dsss).

Lemma tree_writes_config_map tgs w w' :
  only_writes (tree_writes existing tgs) w w' -> forall k, cli_Get w' TConfigMap k = cli_Get w TConfigMap k.
Proof. intros Hw k. apply Hw. intros [Hid|(tg & _ & Hid)]; by unfold is_machine_config in *. Qed.

Lemma rollout_loop trees w instance results w' i' results' :
  healthy w -> NoDup (trees ≫= (fun t => tg_pool <$> tree_targets t)) ->
  go_fold (reconcile_tree sha256_hex r existing) (w, instance, results) trees = Ret (w', i', results') ->
  healthy w' /\ nro_Meta i' = nro_Meta instance /\
  exists new, results' = results ++ new /\ Forall (fun res => valid_step (ptr_Step res)) new /\
  (Forall (fun res => Done (ptr_Step res) = true) new ->
   exists dsss, all_wanted w trees dsss /\ Forall (in_place w' instance) (concat dsss) /\
     concat (ptr_DSInfo <$> new) = all_recorded trees dsss /\
     only_writes (tree_writes existing (trees ≫= tree_targets)) w w').
Proof.
  revert w instance results. induction trees as [|tree trees IH]; intros w instance results Hh Hnd Hrun.
  { simpl in Hrun. injection Hrun as <- <- <-. split_and!; try done. exists []. rewrite app_nil_r.
    split_and!; [done|constructor|]. intros _. exists []. split_and!; [constructor|constructor|done|apply only_writes_refl]. }
  cbn [go_fold] in Hrun. rewrite bind_cons in Hnd. apply NoDup_app in Hnd as (Hnd1 & Hdisj & Hnd2).
  destruct (reconcile_tree sha256_hex r existing (w, instance, results) tree) as [[[w1 i1] results1]|] eqn:Et;
    cbn [go_bind] in Hrun; [|done].
  destruct (reconcile_tree_done _ _ _ _ _ _ _ Hh Hnd1 Et) as (Hh1 & Hm1 & res & -> & Hv & Hdone).
  destruct (IH w1 i1 _ Hh1 Hnd2 Hrun) as (Hh' & Hm' & new & -> & Hvs & Hdones).
  split; [done|]. split; [congruence|]. exists (res :: new). split; [by rewrite <-app_assoc|].
  split; [by constructor|]. intros [Hd Hds]%Forall_cons.
  destruct (Hdone Hd) as (dss & Hwant & Hroll & Hinfo & Hw1).
  destruct (Hdones Hds) as (dsss & Hwants & Hrolls & Hinfos & Hw2).
  exists (dss :: dsss). split_and!.
  - constructor; [done|]. eapply Forall2_impl; [exact Hwants|]. intros t l Hl. eapply Forall2_impl; [exact Hl|].
    intros tg ds. apply (wanted_frame w w1). by apply (tree_writes_config_map (tree_targets tree)).
  - simpl. apply Forall_app. split.
    + clear -Hroll Hwant Hw2 Hdisj Hns. induction Hwant as [|tg ds tgs dss Hwt _ IH2]; [constructor|].
      apply Forall_cons in Hroll as [Hr Hroll].
      constructor; [|apply IH2; [|done]; intros x Hx; apply Hdisj; by right].
      apply (in_place_frame w1); [|done]. apply Hw2.
      rewrite (wanted_key sha256_hex w existing _ _ _ Hns tg ds Hwt).
      intros [Hid|(tg' & Htg' & E)]; [done|].
      apply (Hdisj (tg_pool tg)); [by left|]. apply list_elem_of_bind in Htg' as (t' & Ht1 & Ht2).
      apply list_elem_of_bind. exists t'. split; [|done]. apply (f_equal snd), target_key_inj in E. rewrite E.
      by apply list_elem_of_fmap_2.
    + eapply Forall_impl; [exact Hrolls|]. intros ds. by apply in_place_meta.
  - rewrite fmap_cons. cbn [concat]. by rewrite Hinfo, Hinfos.
  - rewrite bind_cons. apply (only_writes_trans _ _ _ w1); (eapply only_writes_weaken; [|eassumption]);
      intros id [?|(tg & Htg & ?)]; [by left|right|by left|right]; exists tg; (split; [|done]); apply elem_of_app; auto.
Qed.
End Loop.

(** ** The whole reconciliation *)

Lemma setup_same r instance r' :
  setupTreeAgnosticManifests r instance = Ret (r', None) ->
  r_Platform r' = r_Platform r /\ r_Namespace r' = r_Namespace r /\ r_RTEMetricsTLS r' = r_RTEMetricsTLS r /\
  ds_Meta (mf_DaemonSet (r_RTEManifests r')) = ds_Meta (mf_DaemonSet (r_RTEManifests r)) /\
  mf_MachineConfig (r_RTEManifests r') = mf_MachineConfig (r_RTEManifests r).
Proof.
  unfold setupTreeAgnosticManifests. intros Hset.
  assert (forall d, ds_Meta (DaemonSetRolloutSettings d) = ds_Meta d) as H0 by done.
  destruct (DaemonSetAffinitySettings _ _) as [d1 [e|]] eqn:E1; [done|].
  destruct (DaemonSetUserImageSettings d1 _ _ _) as [d2 [e|]] eqn:E2; [done|].
  destruct (DaemonSetPauseContainerSettings d2) as [d3 [e|]] eqn:E3; [done|].
  destruct (loglevel.UpdatePodSpec _ _ _) as [[ps [e|]]|]; simpl in Hset; [done| |done].
  destruct (mf_SCC (r_RTEManifests r)) as [scc|]; simpl in Hset; [|done].
  destruct (SecurityContextConstraint scc true) as [scc'|]; simpl in Hset; [|done].
  injection Hset as <-. split_and!; try done. simpl.
  assert (ds_Meta d3 = ds_Meta d2) as -> by (unfold DaemonSetPauseContainerSettings in E3; by repeat case_match; simplify_eq).
  assert (ds_Meta d2 = ds_Meta d1) as ->.
  { unfold DaemonSetUserImageSettings, DaemonSetSecurityContext in E2. by repeat case_match; simplify_eq. }
  unfold DaemonSetAffinitySettings in E1. by repeat case_match; simplify_eq.
Qed.

Lemma TreeAgnostic_merge em mf : Forall state_merges (TreeAgnostic em mf).
Proof.
  assert (forall s d M f t, merger_for M f t -> state_merges (shared_state em s d M)) as Hs.
  { intros s d M f t HM. exists M, f, t. unfold shared_state. by destruct (em_existing em s). }
  assert (merger_for MetadataForUpdate complete_plain TNetworkPolicy) as Hm by (constructor; set_solver).
  unfold TreeAgnostic. repeat (apply Forall_app; split); repeat case_match; repeat constructor;
    first [by apply (Hs _ _ _ complete_plain TRole); constructor
          |by apply (Hs _ _ _ complete_account TServiceAccount); constructor
          |by apply (Hs _ _ _ complete_plain TNetworkPolicy)
          |by apply (Hs _ _ _ complete_service TService); constructor].
Qed.

Lemma reconcileResourceAPI_healthy w r instance w' step :
  healthy w -> reconcileResourceAPI w r instance = Ret (w', step) -> healthy w'.
Proof.
  intros Hh. unfold reconcileResourceAPI, syncNodeResourceTopologyAPI. case_match; [by intros [= <- _]|].
  destruct (apply_api w _ 0) as [[w1 [n err]]|] eqn:Ea; simpl; [|done].
  apply (apply_api_only healthy) in Ea.
  - destruct err; intros [= <- _]; by apply Ea.
  - repeat constructor. exists ObjectForUpdate, complete_plain, TCustomResourceDefinition. split; [done|constructor].
Qed.

Lemma DeleteUnused_healthy w instance trees w' err :
  healthy w -> DeleteUnusedDaemonSets w instance trees = Ret (w', err) ->
  healthy w' /\ healthy (fst (DeleteUnusedMachineConfigs w' instance trees)).
Proof.
  intros Hh Hd.
  assert (healthy w') as Hh'.
  { unfold DeleteUnusedDaemonSets in Hd. destruct (cli_List w _ _) as [items|e]; [|by injection Hd as <- _].
    destruct (buildDaemonSetNames _ _) as [names|]; simpl in Hd; [|done]. injection Hd as Hd.
    apply (f_equal fst) in Hd. simpl in Hd. rewrite <-Hd. by apply delete_unused_only. }
  split; [done|]. unfold DeleteUnusedMachineConfigs. destruct (cli_List w' _ _); [|done]. by apply delete_unused_only.
Qed.

Lemma record_overall_daemonsets now r instance overall i' :
  record_overall UnsortedList now r instance overall = Ret i' ->
  st_DaemonSets (nro_Status i') = pds_DaemonSet <$> ptr_DSInfo overall.
Proof.
  unfold record_overall. assert (CollectDaemonSets (ptr_DSInfo overall) = pds_DaemonSet <$> ptr_DSInfo overall) as ->.
  { unfold CollectDaemonSets. by rewrite (fold_append pds_DaemonSet). }
  destruct (Done _); [|by intros [= <-]]. destruct (syncNodeGroupsStatus _ _); simpl; [|done]. by intros [= <-].
Qed.

Lemma all_recorded_keys existing trees dsss (P : Tree -> target -> DaemonSet -> Prop) :
  Forall2 (fun tree dss => Forall2 (P tree) (targets (helper_for (em_plat existing)) tree) dss) trees dsss ->
  pds_DaemonSet <$> all_recorded existing trees dsss = (fun ds => om_key (ds_Meta ds)) <$> concat dsss.
Proof.
  unfold all_recorded. induction 1 as [|tree dss trees dsss Hdss _ IH]; [done|]. cbn [zip_with concat]. rewrite !fmap_app, IH.
  f_equal. clear -Hdss. induction Hdss as [|tg ds tgs dss _ _ IH]; [done|]. cbn [zip_with]. by rewrite !fmap_cons, IH.
Qed.

(** The deletions of a reconciliation, whose errors it ignores. *)
Definition remove_unused (platf : platform.Platform) (w : W) (instance : NUMAResourcesOperator) (trees : list Tree) : go W :=
  let! (w, _) := DeleteUnusedDaemonSets w instance trees in
  Ret (if decide (platf = platform.OpenShift) then fst (DeleteUnusedMachineConfigs w instance trees) else w).

(** A reconciliation that is done, step by step. *)
Lemma reconcileResource_inv clk w r instance trees w' r' i' step :
  reconcileResource sha256_hex UnsortedList clk w r instance trees = Ret (w', r', i', step) -> Done step = true ->
  exists w1 step1 em w2 w3 i1 results,
    reconcileResourceAPI w r instance = Ret (w1, step1) /\ EarlyStop step1 = false /\
    FromClientTreeAgnostic w1 (r_Platform r) (r_RTEManifests r) (nro_Name instance) (r_Namespace r) = Ret em /\
    setupTreeAgnosticManifests r instance = Ret (r', None) /\
    applyObjects w1 instance (TreeAgnostic em (r_RTEManifests r')) = Ret (w2, None) /\
    remove_unused (r_Platform r') w2 instance trees = Ret w3 /\
    go_fold (reconcile_tree sha256_hex r' em) (w3, instance, []) trees = Ret (w', i1, results) /\
    step = ptr_Step (ReducePerTreeResults results) /\
    record_overall UnsortedList (ck_paused clk) r' i1 (ReducePerTreeResults results) = Ret i'.
Proof.
  unfold reconcileResource.
  destruct (reconcileResourceAPI w r instance) as [[w1 step1]|] eqn:Eapi; cbn [go_bind]; [|done].
  destruct (EarlyStop step1) eqn:Hes.
  { intros [= <- <- <- <-] Hd. by rewrite EarlyStop_negb_Done, Hd in Hes. }
  destruct (FromClientTreeAgnostic w1 _ _ _ _) as [em|] eqn:Efc; cbn [go_bind]; [|done].
  destruct (setupTreeAgnosticManifests r instance) as [[r1 [err|]]|] eqn:Eset; cbn [go_bind];
    [by intros [= <- <- <- <-]| |done].
  destruct (applyObjects w1 instance _) as [[w2 [err|]]|] eqn:Eap; cbn [go_bind]; [by intros [= <- <- <- <-]| |done].
  destruct (DeleteUnusedDaemonSets w2 instance trees) as [[w3 derr]|] eqn:Ed; cbn [go_bind]; [|done].
  set (w4 := if decide _ then _ else _).
  destruct (go_fold _ (w4, instance, []) trees) as [[[w5 i5] results]|] eqn:Eloop; cbn [go_bind]; [|done].
  destruct (record_overall _ _ _ _ _) as [i6|] eqn:Erec; cbn [go_bind]; [|done]. intros [= <- <- <- <-] _.
  exists w1, step1, em, w2, w4, i5, results. split_and!; try done. unfold remove_unused. by rewrite Ed.
Qed.

Lemma FromClient_context w plat mf n ns em :
  FromClientTreeAgnostic w plat mf n ns = Ret em ->
  em_plat em = plat /\ em_instanceName em = n /\ em_namespace em = ns.
Proof.
  unfold FromClientTreeAgnostic. destruct (if decide _ then _ else _); simpl; [|done]. by intros [= <-].
Qed.

Lemma remove_unused_healthy platf w instance trees w' :
  healthy w -> remove_unused platf w instance trees = Ret w' -> healthy w'.
Proof.
  intros Hh. unfold remove_unused. destruct (DeleteUnusedDaemonSets w instance trees) as [[w1 e]|] eqn:E; simpl; [|done].
  destruct (DeleteUnused_healthy _ _ _ _ _ Hh E) as [H1 H2]. intros [= <-]. by case_decide.
Qed.

(** It went through the loop over the trees, from a cluster that answers reads,
    and reduced its results. *)
Lemma reconcileResource_loop clk w r instance trees w' r' i' step :
  healthy w -> reconcileResource sha256_hex UnsortedList clk w r instance trees = Ret (w', r', i', step) ->
  Done step = true ->
  exists em w1 i1 results,
    em_plat em = r_Platform r /\ em_instanceName em = nro_Name instance /\ em_namespace em = r_Namespace r /\
    setupTreeAgnosticManifests r instance = Ret (r', None) /\ healthy w1 /\
    go_fold (reconcile_tree sha256_hex r' em) (w1, instance, []) trees = Ret (w', i1, results) /\
    step = ptr_Step (ReducePerTreeResults results) /\
    record_overall UnsortedList (ck_paused clk) r' i1 (ReducePerTreeResults results) = Ret i'.
Proof.
  intros Hh Hrun Hd.
  destruct (reconcileResource_inv _ _ _ _ _ _ _ _ _ Hrun Hd)
    as (w1 & step1 & em & w2 & w3 & i1 & results & Eapi & _ & Efc & Eset & Eap & Erm & Eloop & -> & Erec).
  destruct (FromClient_context _ _ _ _ _ _ Efc) as (E1 & E2 & E3).
  exists em, w3, i1, results. split_and!; try done.
  apply (remove_unused_healthy _ _ _ _ _ (proj1 (applyObjects_only healthy _ _ _ _ _
    (TreeAgnostic_merge em (r_RTEManifests r')) Eap) (reconcileResourceAPI_healthy _ _ _ _ _ Hh Eapi)) Erm).
Qed.

Lemma filter_all_done (results : list PerTreeResult) :
  Forall (fun r => Done (ptr_Step r) = true) results -> filter (fun r => Done (ptr_Step r) = true) results = results.
Proof. induction 1 as [|x l Hx _ IH]; [done|]. by rewrite filter_cons_True, IH. Qed.

(** No two pools of an accepted specification share a daemon set. *)
Lemma accepted_pools_distinct w r ngs annots trees tolerable :
  NodeGroups ngs (r_Platform r) = None ->
  getTreesByNodeGroup show_node_group w ngs (r_Platform r) = inl trees ->
  NodeGroupsTree annots trees (r_Platform r) = (tolerable, None) ->
  NoDup (trees ≫= (fun t => tg_pool <$> targets (helper_for (r_Platform r)) t)).
Proof.
  intros Hv%NodeGroups_valid Ht Hn. unfold getTreesByNodeGroup in Ht. destruct (r_Platform r) eqn:Hp; try done.
  - assert (MCPsDuplicates trees = None) as Hd.
    { unfold NodeGroupsTree in Hn. rewrite decide_False in Hn by done. by destruct (MCPsDuplicates trees). }
    apply MCPsDuplicates_None in Hd. unfold flattenTrees in Hd.
    assert (forall acc, mcp_Name <$> fold_left (fun result tree => result ++ tree_MCPs tree) trees acc
      = (mcp_Name <$> acc) ++ (trees ≫= (fun t => tg_pool <$> (mcp_target <$> tree_MCPs t)))) as Hg;
      [|by rewrite Hg in Hd].
    clear. induction trees as [|t trees IH]; intros acc; [simpl; by rewrite app_nil_r|].
    cbn [fold_left]. rewrite IH, bind_cons, fmap_app, <-app_assoc. by rewrite <-list_fmap_compose.
  - injection Ht as <-. pose proof (vng_distinct _ _ Hv) as Hd. unfold FindTreesHypershift.
    change (helper_for platform.HyperShift) with nodeGroupFinder.
    assert (forall (f : nat -> nat), imap (fun i ng => mkTree (Some ng) (f i) None) ngs
      ≫= (fun t => tg_pool <$> targets nodeGroupFinder t) = omap ng_PoolName ngs) as Hg;
      [|pose proof (Hg (fun i => i)) as E; cbv beta in E; by rewrite E].
    clear. induction ngs as [|ng ngs IH]; intros f; [done|]. rewrite imap_cons, bind_cons.
    pose proof (IH (fun i => f (S i))) as E. cbv beta in E. unfold compose. rewrite E.
    unfold targets. simpl. by destruct (ng_PoolName ng).
Qed.

(** C1: when the reconciliation of an accepted specification reports that it is
    done, every pool of every tree has its exporter daemon set: the one the
    controller wants for it (the shared daemon set under the pool's name and node
    selector, updated for the normalised configuration of the node group and the
    config map now in the cluster) is in the cluster, controlled by the instance,
    with its pods ready; and the status lists exactly these daemon sets, in
    order. *)
Theorem exporters_rolled_out clk w r instance annots trees tolerable w' r' i' step :
  let tgs := targets (helper_for (r_Platform r)) in
  healthy w ->
  (forall mc, mf_MachineConfig (r_RTEManifests r) = Some mc -> obj_type mc = TMachineConfig) ->
  om_Namespace (ds_Meta (mf_DaemonSet (r_RTEManifests r))) = r_Namespace r ->
  NodeGroups (spec_NodeGroups (nro_Spec instance)) (r_Platform r) = None ->
  getTreesByNodeGroup show_node_group w (spec_NodeGroups (nro_Spec instance)) (r_Platform r) = inl trees ->
  NodeGroupsTree annots trees (r_Platform r) = (tolerable, None) ->
  reconcileResource sha256_hex UnsortedList clk w r instance trees = Ret (w', r', i', step) ->
  Done step = true ->
  exists dsss,
    Forall2 (fun tree dss =>
      Forall2 (fun tg ds =>
        wanted_for (r_Platform r) (nro_Name instance) (r_RTEManifests r') (r_RTEMetricsTLS r) (normalized tree)
          (config_hash sha256_hex w' (mkNamespacedName (r_Namespace r)
             (objectnames.GetComponentName (nro_Name instance) (tg_pool tg)))) tg ds) (tgs tree) dss) trees dsss /\
    Forall (rolled_out w' instance) (concat dsss) /\
    st_DaemonSets (nro_Status i') = (fun ds => om_key (ds_Meta ds)) <$> concat dsss.
Proof.
  intros tgs Hh Hmc Hns Hng Htr Hnt Hrun Hdone.
  pose proof (accepted_pools_distinct _ _ _ _ _ _ Hng Htr Hnt) as Hnd.
  destruct (reconcileResource_loop _ _ _ _ _ _ _ _ _ Hh Hrun Hdone)
    as (em & w4 & i5 & results & Hpl & Hin & Hen & Eset & Hh4 & Eloop & -> & Erec).
  destruct (setup_same _ _ _ Eset) as (Sp & Sn & St & Sd & Sm).
  destruct (rollout_loop r' em) with (trees := trees) (w := w4) (instance := instance) (results := @nil PerTreeResult)
    (w' := w') (i' := i5) (results' := results) as (Hh5 & Hm5 & new & -> & Hv & Hall); try done.
  - by rewrite Sm.
  - by rewrite Sd, Hen.
  - by rewrite Hpl.
  - destruct (ReducePerTreeResults_parts _ Hv) as (_ & _ & Hinfo & _ & Hd & _).
    simpl in *. pose proof (proj1 Hd Hdone) as Hds. destruct (Hall Hds) as (dsss & Hw & Hr & Hrec & Hwr).
    exists dsss. split_and!; [|eapply Forall_impl; [exact Hr|apply in_place_rolled_out]|].
    + unfold all_wanted in Hw. rewrite Hpl, St in Hw. eapply Forall2_impl; [exact Hw|].
      intros tree dss Hl. eapply Forall2_impl; [exact Hl|]. intros tg ds Hwt.
      apply (proj2 (wanted_frame w4 w' _ _ _ _ _ _ (tree_writes_config_map em _ _ _ Hwr))) in Hwt.
      unfold DaemonSetSpec.wanted, target_key in Hwt. by rewrite Hpl, Hin, Hen in Hwt.
    + rewrite (record_overall_daemonsets _ _ _ _ _ Erec), Hinfo, (filter_all_done _ Hds), Hrec.
      exact (all_recorded_keys em trees dsss _ Hw).
Qed.
End Rollout.

Lemma exporters_rolled_out_witness :
  let i := scenario.instance [scenario.group "worker"] None "" in
  let w := scenario.cluster i (fun _ _ => None) in
  let r := scenario.reconciler platform.OpenShift in
  let trees := [scenario.tree (scenario.group "worker") [scenario.pool "worker"]] in
  exists w' r' i' step,
    getTreesByNodeGroup scenario.show w [scenario.group "worker"] platform.OpenShift = inl trees /\
    reconcileResource scenario.sha256 elements scenario.clock w r i trees = Ret (w', r', i', step) /\
    exists dss, Forall (rolled_out w' i) dss /\
      st_DaemonSets (nro_Status i') = (fun ds => om_key (ds_Meta ds)) <$> dss.
Proof.
  intros i w r trees.
  assert (match reconcileResource scenario.sha256 elements scenario.clock w r i trees with
          | Ret (_, _, _, step) => Done step | Panic _ => false end = true) as Hd by (vm_compute; reflexivity).
  destruct (reconcileResource _ _ _ _ _ _ _) as [[[[w' r'] i'] step]|] eqn:E; [|discriminate Hd].
  exists w', r', i', step. split; [reflexivity|]. split; [reflexivity|].
  destruct (exporters_rolled_out answers_reads scenario.show scenario.sha256 elements scenario.clock w r i ∅ trees None
              w' r' i' step)
    as (dsss & _ & Hr & Hs).
  - by apply answers_reads_check.
  - intros mc [= <-]. reflexivity.
  - reflexivity.
  - vm_compute. reflexivity.
  - reflexivity.
  - vm_compute. reflexivity.
  - exact E.
  - exact Hd.
  - exists (concat dsss). split; [exact Hr|exact Hs].
Defined.
