(* ===== verification/Setup.v ===== *)
(** * Setting up the shared manifests twice

    [setupTreeAgnosticManifests] writes the manifests the reconciler keeps, so
    every reconciliation starts from what the previous one left. Once they are
    set up for a specification, setting them up again changes nothing: the
    updates do not pile up. *)
From S2P Require Import Prelude GoErrors Meta Selectors ApiV1 Conditions Steps Trees Validation FlagCodec.
From S2P Require Import Workload RteUpdate RteUpdateSpec Objects MergeSpec Cluster Apply RteState Dangling.
From S2P Require Import Controller Scenario Install.

(** ** Fixed points of the updates *)

Lemma alter_fixed {A} (f : A -> A) (l : list A) i : (forall x, l !! i = Some x -> f x = x) -> alter f i l = l.
Proof.
  intros Hf. apply list_eq. intros j. destruct (decide (j = i)) as [->|Hj].
  - rewrite list_lookup_alter_eq. destruct (l !! i) as [x|] eqn:E; [|done]. simpl. by rewrite (Hf x).
  - by rewrite list_lookup_alter_ne.
Qed.

Lemma ps_alter_fixed i f p : alter f i (ps_Containers p) = ps_Containers p -> ps_alter i f p = p.
Proof. intros E. unfold ps_alter. rewrite E. by destruct p. Qed.

Lemma ds_map_PodSpec_fixed f ds : f (ds_PodSpec ds) = ds_PodSpec ds -> ds_map_PodSpec f ds = ds.
Proof.
  intros E. unfold ds_map_PodSpec. change (pt_Spec (dsp_Template (ds_Spec ds))) with (ds_PodSpec ds). rewrite E.
  by destruct ds as [? [? [] ?] ?].
Qed.

Lemma ds_alter_fixed i f ds : (forall c, ds_Containers ds !! i = Some c -> f c = c) -> ds_alter i f ds = ds.
Proof. intros Hf. apply ds_map_PodSpec_fixed, ps_alter_fixed. by apply alter_fixed. Qed.

Lemma find_name_alter f (cs : list Container) i n :
  (forall c, cnt_Name (f c) = cnt_Name c) -> FindContainerByName (alter f i cs) n = FindContainerByName cs n.
Proof. intros Hf. apply option_eq. intros j. apply find_index_alter. intros c. by rewrite Hf. Qed.

(** ** The exporter and the helper container once set up *)

(** The image the exporter runs, and the pull policy that goes with it. *)
Definition image_set (user builtin policy : string) (c : Container) : Prop :=
  if decide (user <> "") then cnt_Image c = user
  else builtin <> "" /\ cnt_Image c = builtin /\ cnt_ImagePullPolicy c = policy.

Definition exporter_set (user builtin policy level : string) (c : Container) : Prop :=
  image_set user builtin policy c /\
  cnt_SecurityContext c = Some (hardened (cnt_SecurityContext c)) /\
  cnt_Args c = Argv (SetOption (ParseArgvKeyValue (cnt_Args c) [WithFlagNormalization]) "-v" (pretty (loglevel.ToKlog level))).

Definition helper_set (rte c : Container) : Prop :=
  c = cnt_set_Command ["/bin/sh"; "-c"; "--"] ["while true; do sleep 30s; done"]
        (cnt_set_Image (cnt_Image rte) (cnt_ImagePullPolicy rte) c).

(** A daemon set that has all it is set up for. *)
Record ds_set_up (user builtin policy level : string) (ds : DaemonSet) : Prop := {
  su_strategy : dsp_UpdateStrategy (ds_Spec ds) = mkUpdateStrategy "RollingUpdate" (Some "25%") "";
  su_labels : map_of (pt_Labels (dsp_Template (ds_Spec ds))) <> ∅;
  su_affinity : ps_Affinity (ds_PodSpec ds)
    = Some (PodAntiAffinityOnHost (map_of (pt_Labels (dsp_Template (ds_Spec ds)))) "kubernetes.io/hostname");
  su_containers : exists m h rte helper,
    FindContainerByName (ds_Containers ds) MainContainerName = Some m /\
    FindContainerByName (ds_Containers ds) HelperContainerName = Some h /\
    ds_Containers ds !! m = Some rte /\ ds_Containers ds !! h = Some helper /\
    exporter_set user builtin policy level rte /\ helper_set rte helper }.

Lemma hardened_idem sc : hardened (Some (hardened sc)) = hardened sc.
Proof. done. Qed.

(** Setting an option of a printed command line that has it changes nothing. *)
Lemma SetOption_same fl name data :
  wf_flags fl -> SetOption (SetOption fl name data) name data = SetOption fl name data.
Proof.
  intros Hwf. unfold SetOption. simpl. set (n := fl_processFlagName fl name). autorewrite with flags.
  unfold recordFlag at 1. simpl. rewrite recordFlag_process. fold n. rewrite lookup_insert_eq.
  unfold set_val. simpl. by rewrite insert_insert_eq.
Qed.

Lemma Argv_reparse fl :
  wf_flags fl -> fl_command fl = "" -> fl_processFlagName fl = normalizeFlagName ->
  ParseArgvKeyValue (Argv fl) [WithFlagNormalization] = fl.
Proof.
  intros Hwf Hc Hp. unfold Argv. rewrite decide_True by done.
  pose proof (Args_parse fl Hwf) as E. rewrite Hc, Hp in E. exact E.
Qed.

Lemma set_level_args args name data :
  str_mem "=" name = false ->
  let args' := Argv (SetOption (ParseArgvKeyValue args [WithFlagNormalization]) name data) in
  args' = Argv (SetOption (ParseArgvKeyValue args' [WithFlagNormalization]) name data).
Proof.
  intros Hn args'.
  assert (reachable (ParseArgvKeyValue args [WithFlagNormalization])) as Hr by (apply reach_parse; repeat constructor).
  destruct (reachable_wf _ Hr) as [Hwf Hg]. set (fl := ParseArgvKeyValue args _) in *.
  destruct (fold_parse_wf args (mkFlags "" ∅ [] normalizeFlagName)) as (_ & Hp & Hc);
    [apply good_process_normalize|apply empty_wf|].
  change (fl_processFlagName fl = normalizeFlagName) in Hp. change (fl_command fl = "") in Hc.
  subst args'. rewrite Argv_reparse.
  - by rewrite SetOption_same.
  - by apply SetOption_wf.
  - unfold SetOption. simpl. by autorewrite with flags.
  - by rewrite process_SetOption.
Qed.

(** ** What the set-up leaves is set up *)

Lemma DaemonSetUserImageSettings_found ds i user builtin policy :
  FindContainerByName (ds_Containers ds) MainContainerName = Some i ->
  (user <> "" \/ builtin <> "") ->
  let set_image c := if decide (user <> "") then cnt_set_Image user (cnt_ImagePullPolicy c) c
                     else cnt_set_Image builtin policy c in
  DaemonSetUserImageSettings ds user builtin policy
  = (ds_alter i (fun c => cnt_set_SecurityContext (Some (hardened (cnt_SecurityContext c))) c)
       (ds_alter i set_image ds), None).
Proof.
  intros Hi Hub set_image. unfold DaemonSetUserImageSettings. rewrite Hi.
  assert (forall f, (forall c, cnt_Name (f c) = cnt_Name c) ->
    FindContainerByName (ds_Containers (ds_alter i f ds)) MainContainerName = Some i) as Hf.
  { intros f Hn. by rewrite ds_Containers_alter, find_name_alter. }
  unfold DaemonSetSecurityContext, set_image.
  destruct (decide (user <> "")) as [Hu|Hu]; [by rewrite Hf|].
  destruct (decide (builtin = "")) as [Hb|Hb]; [by destruct Hub as [|[]]|]. by rewrite Hf.
Qed.

Lemma main_not_helper cs m h :
  FindContainerByName cs MainContainerName = Some m -> FindContainerByName cs HelperContainerName = Some h -> m <> h.
Proof.
  intros (c & Hc & Hn & _)%find_index_Some (c' & Hc' & Hn' & _)%find_index_Some ->.
  rewrite Hc in Hc'. injection Hc' as ->. rewrite Hn in Hn'. discriminate Hn'.
Qed.

(** The containers of a daemon set that is set up. *)
Definition set_image (user builtin policy : string) (c : Container) : Container :=
  if decide (user <> "") then cnt_set_Image user (cnt_ImagePullPolicy c) c else cnt_set_Image builtin policy c.
Definition set_security (c : Container) : Container :=
  cnt_set_SecurityContext (Some (hardened (cnt_SecurityContext c))) c.
Definition set_pause (rte c : Container) : Container :=
  cnt_set_Command ["/bin/sh"; "-c"; "--"] ["while true; do sleep 30s; done"]
    (cnt_set_Image (cnt_Image rte) (cnt_ImagePullPolicy rte) c).
Definition set_level (level : string) (c : Container) : Container :=
  cnt_set_Args (Argv (SetOption (ParseArgvKeyValue (cnt_Args c) [WithFlagNormalization]) "-v"
                        (pretty (loglevel.ToKlog level)))) c.

Lemma exporter_set_up user builtin policy level c :
  user <> "" \/ builtin <> "" ->
  exporter_set user builtin policy level (set_level level (set_security (set_image user builtin policy c))).
Proof.
  intros Hub. split_and!; [|done|by apply (set_level_args _ "-v")].
  unfold image_set, set_level, set_security, set_image. case_decide as Hu; [done|].
  split; [|done]. by destruct Hub.
Qed.

Lemma exporter_set_fixed user builtin policy level c :
  exporter_set user builtin policy level c ->
  set_image user builtin policy c = c /\ set_security c = c /\ set_level level c = c.
Proof.
  unfold exporter_set, image_set, set_image, set_security, set_level. intros (Hi & Hs & Ha). destruct c as [n im pp cmd args e p v sc t rr o]. simpl in *.
  unfold cnt_set_Image, cnt_set_SecurityContext, cnt_set_Args, cnt_set_Command. simpl. split_and!.
  - case_decide; [by subst|]. by destruct Hi as (_ & -> & ->).
  - by rewrite <-Hs.
  - by rewrite <-Ha.
Qed.

Lemma DaemonSetPauseContainerSettings_found ds m h rte :
  FindContainerByName (ds_Containers ds) MainContainerName = Some m -> ds_Containers ds !! m = Some rte ->
  FindContainerByName (ds_Containers ds) HelperContainerName = Some h ->
  DaemonSetPauseContainerSettings ds = (ds_alter h (set_pause rte) ds, None).
Proof. intros Hm Hr Hh. unfold DaemonSetPauseContainerSettings. by rewrite Hm, Hh, Hr. Qed.

Lemma UpdatePodSpec_found ds i level :
  FindContainerByName (ds_Containers ds) MainContainerName = Some i ->
  loglevel.UpdatePodSpec (ds_PodSpec ds) MainContainerName level
  = Ret (ds_PodSpec (ds_alter i (set_level level) ds), None).
Proof.
  intros Hi. unfold loglevel.UpdatePodSpec. unfold ds_Containers in Hi.
  destruct (ps_Containers (ds_PodSpec ds)) as [|c cs] eqn:Ec; [done|]. rewrite decide_False by done.
  by rewrite Hi.
Qed.

(** The updates of the daemon set in one go: [m] is the exporter container, [h] the helper. *)
Definition set_up_ds (user builtin policy level : string) (m h : nat) (rte : Container) (ds : DaemonSet) : DaemonSet :=
  let ds := DaemonSetRolloutSettings ds in
  let ds := ds_map_PodSpec (ps_set_Affinity (Some (PodAntiAffinityOnHost
              (map_of (pt_Labels (dsp_Template (ds_Spec ds)))) "kubernetes.io/hostname"))) ds in
  ds_alter m (set_level level) (ds_alter h (set_pause rte)
    (ds_alter m set_security (ds_alter m (set_image user builtin policy) ds))).

Lemma find_set_up_ds user builtin policy level m h rte ds n :
  FindContainerByName (ds_Containers (set_up_ds user builtin policy level m h rte ds)) n
  = FindContainerByName (alter set_security m (alter (set_image user builtin policy) m (ds_Containers ds))) n.
Proof.
  change (ds_Containers (set_up_ds user builtin policy level m h rte ds)) with
    (alter (set_level level) m (alter (set_pause rte) h
       (alter set_security m (alter (set_image user builtin policy) m (ds_Containers ds))))).
  by rewrite (find_name_alter (set_level _)), (find_name_alter (set_pause _)).
Qed.

Section Setup.
Context (r : Reconciler) (instance : NUMAResourcesOperator).
Notation user := (spec_ExporterImage (nro_Spec instance)).
Notation builtin := (img_Preferred (r_Images r)).
Notation policy := (r_ImagePullPolicy r).
Notation level := (spec_LogLevel (nro_Spec instance)).
Notation ds0 := (mf_DaemonSet (r_RTEManifests r)).
Notation labels0 := (map_of (pt_Labels (dsp_Template (ds_Spec ds0)))).

(** The exporter once its image and security context are set. *)
Definition secured (m : nat) (ds : DaemonSet) : DaemonSet :=
  ds_alter m set_security (ds_alter m (set_image user builtin policy) ds).

(** What the set-up needs to succeed. *)
Record can_set_up (m h : nat) (rte : Container) (scc' : SecurityContextConstraints) : Prop := {
  cs_labels : labels0 <> ∅;
  cs_main : FindContainerByName (ds_Containers ds0) MainContainerName = Some m;
  cs_helper : FindContainerByName (ds_Containers ds0) HelperContainerName = Some h;
  cs_rte : ds_Containers (secured m ds0) !! m = Some rte;
  cs_image : user <> "" \/ builtin <> "";
  cs_scc : exists scc, mf_SCC (r_RTEManifests r) = Some scc /\ SecurityContextConstraint scc true = Ret scc' }.

Lemma find_secured n m cs :
  FindContainerByName (alter set_security m (alter (set_image user builtin policy) m cs)) n = FindContainerByName cs n.
Proof.
  rewrite !find_name_alter; [done| |done]. intros c. unfold set_image. by case_decide.
Qed.

(** The set-up as one update, when it can succeed. *)
Lemma setup_forward m h rte scc' :
  can_set_up m h rte scc' ->
  setupTreeAgnosticManifests r instance
  = Ret (r_with_Manifests (mf_with_SCC (Some scc')
           (mf_with_DaemonSet (set_up_ds user builtin policy level m h rte ds0) (r_RTEManifests r))) r, None).
Proof.
  intros [Hl Hm Hh Hr Hi (scc & Hs & Hs')]. unfold setupTreeAgnosticManifests, set_up_ds. cbv zeta.
  set (d0 := DaemonSetRolloutSettings ds0).
  unfold DaemonSetAffinitySettings. rewrite decide_False by done.
  set (d1 := ds_map_PodSpec _ d0).
  assert (ds_Containers d1 = ds_Containers ds0) as C1 by done.
  rewrite (DaemonSetUserImageSettings_found d1 m) by (rewrite ?C1; done).
  change (ds_alter m _ (ds_alter m _ d1)) with (secured m d1). set (d2 := secured m d1).
  assert (ds_Containers d2 = ds_Containers (secured m ds0)) as C2 by done.
  assert (forall n, FindContainerByName (ds_Containers d2) n = FindContainerByName (ds_Containers ds0) n) as F2.
  { intros n. rewrite C2. apply find_secured. }
  rewrite (DaemonSetPauseContainerSettings_found d2 m h rte) by (rewrite ?F2, ?C2; done).
  set (d3 := ds_alter h _ d2).
  assert (FindContainerByName (ds_Containers d3) MainContainerName = Some m) as F3.
  { unfold d3. by rewrite ds_Containers_alter, find_name_alter, F2. }
  rewrite (UpdatePodSpec_found d3 m) by done. cbn [go_bind]. rewrite Hs. cbn [deref go_bind]. rewrite Hs'. cbn [go_bind].
  done.
Qed.

Lemma setup_can r' :
  setupTreeAgnosticManifests r instance = Ret (r', None) -> exists m h rte scc', can_set_up m h rte scc'.
Proof.
  unfold setupTreeAgnosticManifests. cbv zeta.
  set (d0 := DaemonSetRolloutSettings ds0).
  unfold DaemonSetAffinitySettings. case_decide as Hl; [done|].
  set (d1 := ds_map_PodSpec _ d0).
  destruct (FindContainerByName (ds_Containers ds0) MainContainerName) as [m|] eqn:Hm.
  2: { unfold DaemonSetUserImageSettings at 1. change (ds_Containers d1) with (ds_Containers ds0). by rewrite Hm. }
  assert ((user <> "" \/ builtin <> "") \/ (user = "" /\ builtin = "")) as [Hi|[Hu Hb]]
    by (destruct (decide (user = "")), (decide (builtin = "")); auto).
  2: { unfold DaemonSetUserImageSettings at 1. change (ds_Containers d1) with (ds_Containers ds0). rewrite Hm.
       rewrite decide_False by (rewrite Hu; by intros []). by rewrite decide_True. }
  rewrite (DaemonSetUserImageSettings_found d1 m) by done.
  change (ds_alter m _ (ds_alter m _ d1)) with (secured m d1). set (d2 := secured m d1).
  assert (forall n, FindContainerByName (ds_Containers d2) n = FindContainerByName (ds_Containers ds0) n) as F2
    by (intros n; apply find_secured).
  unfold DaemonSetPauseContainerSettings. rewrite !F2, Hm.
  destruct (FindContainerByName (ds_Containers ds0) HelperContainerName) as [h|] eqn:Hh; [|done].
  destruct (ds_Containers d2 !! m) as [rte|] eqn:Hr; [|done].
  destruct (loglevel.UpdatePodSpec _ _ _) as [[ps [e|]]|]; cbn [go_bind]; [done| |done].
  destruct (mf_SCC (r_RTEManifests r)) as [scc|] eqn:Hs; cbn [deref go_bind]; [|done].
  destruct (SecurityContextConstraint scc true) as [scc'|] eqn:Hs'; cbn [go_bind]; [|done].
  intros _. exists m, h, rte, scc'. constructor; try done. by exists scc.
Qed.
End Setup.

(** ** Setting up twice *)

Lemma set_up_ds_set r instance m h rte scc' :
  can_set_up r instance m h rte scc' ->
  ds_set_up (spec_ExporterImage (nro_Spec instance)) (img_Preferred (r_Images r)) (r_ImagePullPolicy r)
    (spec_LogLevel (nro_Spec instance))
    (set_up_ds (spec_ExporterImage (nro_Spec instance)) (img_Preferred (r_Images r)) (r_ImagePullPolicy r)
       (spec_LogLevel (nro_Spec instance)) m h rte (mf_DaemonSet (r_RTEManifests r))).
Proof.
  intros [Hl Hm Hh Hr Hi _]. set (ds0 := mf_DaemonSet (r_RTEManifests r)) in *.
  pose proof (main_not_helper _ _ _ Hm Hh) as Hne.
  destruct (find_index_Some _ _ _ Hm) as (c & Hc & Hcn & _).
  destruct (find_index_Some _ _ _ Hh) as (c' & Hc' & Hcn' & _).
  set (ds := set_up_ds _ _ _ _ _ _ _ ds0).
  assert (ds_Containers ds = alter (set_level (spec_LogLevel (nro_Spec instance))) m (alter (set_pause rte) h
            (ds_Containers (secured r instance m ds0)))) as HC by done.
  assert (rte = set_security (set_image (spec_ExporterImage (nro_Spec instance)) (img_Preferred (r_Images r))
                  (r_ImagePullPolicy r) c)) as ->.
  { unfold secured in Hr. rewrite !ds_Containers_alter, !list_lookup_alter_eq, Hc in Hr. by injection Hr as <-. }
  split; try done. set (rte := set_security _) in *.
  exists m, h, (set_level (spec_LogLevel (nro_Spec instance)) rte), (set_pause rte c').
  assert (forall n, FindContainerByName (ds_Containers ds) n = FindContainerByName (ds_Containers ds0) n) as Hf.
  { intros n. etrans; [apply find_set_up_ds|apply find_secured]. }
  split_and!; [by rewrite Hf|by rewrite Hf| | |by apply exporter_set_up|done]; rewrite HC.
  - rewrite list_lookup_alter_eq, list_lookup_alter_ne by done. by rewrite Hr.
  - rewrite list_lookup_alter_ne, list_lookup_alter_eq by done. unfold secured.
    rewrite !ds_Containers_alter, !list_lookup_alter_ne by done. by rewrite Hc'.
Qed.

(** On a daemon set that is set up, every update is the identity. *)
Lemma ds_set_up_fixed user builtin policy level ds m h :
  ds_set_up user builtin policy level ds ->
  FindContainerByName (ds_Containers ds) MainContainerName = Some m ->
  FindContainerByName (ds_Containers ds) HelperContainerName = Some h ->
  exists rte, ds_Containers ds !! m = Some rte /\
    ds_alter m set_security (ds_alter m (set_image user builtin policy) ds) = ds /\
    set_up_ds user builtin policy level m h rte ds = ds.
Proof.
  intros [Hs Hl Ha (m' & h' & rte & helper & Hm' & Hh' & Hrte & Hhelper & He & Hp)] Hm Hh.
  assert (m' = m) as -> by congruence. assert (h' = h) as -> by congruence.
  destruct (exporter_set_fixed _ _ _ _ _ He) as (F1 & F2 & F3).
  assert (forall f, f rte = rte -> ds_alter m f ds = ds) as Hfix.
  { intros f Hf. apply ds_alter_fixed. intros c Hc. assert (c = rte) as -> by congruence. done. }
  exists rte. split; [done|]. split; [by rewrite !Hfix|]. unfold set_up_ds. cbv zeta.
  assert (DaemonSetRolloutSettings ds = ds) as ->.
  { unfold DaemonSetRolloutSettings, ds_set_UpdateStrategy. rewrite <-Hs. by destruct ds as [? [] ?]. }
  assert (ds_map_PodSpec (ps_set_Affinity (Some (PodAntiAffinityOnHost
            (map_of (pt_Labels (dsp_Template (ds_Spec ds)))) "kubernetes.io/hostname"))) ds = ds) as ->.
  { apply ds_map_PodSpec_fixed. rewrite <-Ha. by destruct (ds_PodSpec ds). }
  rewrite (Hfix _ F1), (Hfix _ F2).
  assert (ds_alter h (set_pause rte) ds = ds) as ->; [|by apply Hfix].
  apply ds_alter_fixed. intros c Hc. assert (c = helper) as -> by congruence. exact (eq_sym Hp).
Qed.

Lemma SecurityContextConstraint_idem scc scc' :
  SecurityContextConstraint scc true = Ret scc' -> SecurityContextConstraint scc' true = Ret scc'.
Proof.
  unfold SecurityContextConstraint. destruct (scc_SELinuxOptions scc) as [o|]; simpl; [|done]. by intros [= <-].
Qed.

(** Manifests that were set up for a specification are left alone by the next
    set-up for it. *)
Lemma setup_idempotent r r' i j :
  nro_Spec j = nro_Spec i ->
  setupTreeAgnosticManifests r i = Ret (r', None) -> setupTreeAgnosticManifests r' j = Ret (r', None).
Proof.
  intros Hspec Hset. destruct (setup_can _ _ _ Hset) as (m & h & rte & scc' & Hcan).
  rewrite (setup_forward _ _ _ _ _ _ Hcan) in Hset. injection Hset as Hr'.
  pose proof (set_up_ds_set _ _ _ _ _ _ Hcan) as Hup. destruct Hcan as [Hl Hm Hh Hr Hi (scc & Hs & Hs')].
  set (ds := set_up_ds _ _ _ _ _ _ _ _) in *.
  assert (FindContainerByName (ds_Containers ds) MainContainerName = Some m /\
          FindContainerByName (ds_Containers ds) HelperContainerName = Some h) as [Hm1 Hh1].
  { assert (forall n, FindContainerByName (ds_Containers ds) n
              = FindContainerByName (ds_Containers (mf_DaemonSet (r_RTEManifests r))) n) as Hf.
    { intros n. etrans; [apply find_set_up_ds|apply find_secured]. }
    by rewrite !Hf. }
  destruct (ds_set_up_fixed _ _ _ _ ds m h Hup Hm1 Hh1) as (rte1 & Hrte1 & Hsec & Hfix).
  assert (can_set_up r' j m h rte1 scc') as Hcan'.
  { rewrite <-Hr'. constructor; simpl; rewrite ?Hspec; try done.
    - unfold secured. simpl. rewrite Hspec. by rewrite Hsec.
    - exists scc'. split; [done|]. by apply (SecurityContextConstraint_idem scc). }
  rewrite (setup_forward _ _ _ _ _ _ Hcan'). rewrite <-Hr'. simpl. rewrite Hspec, Hfix. done.
Qed.
