(* ===== verification/NoPanic.v ===== *)
(** * The reconciliation never panics

    As long as the topology API and the machine configs are read, or found
    absent, no code path of [Reconcile] dereferences a nil pointer or fails a
    type assertion, whatever the instance and whichever writes fail. *)
From S2P Require Import Prelude GoErrors Meta Selectors ApiV1 Conditions Steps Trees Validation FlagCodec.
From S2P Require Import Workload RteUpdate RteUpdateSpec Objects MergeSpec Cluster Apply RteState Dangling.
From S2P Require Import Controller Scenario Install WriteFrame MachineConfigSpec DaemonSetSpec Rollout.

Section NoPanic.
Context {W : Type} `{!Client W} `{SelectorLib} (healthy : W -> Prop) `{!ClientLaws W healthy}.
Variable show_node_group : NodeGroup -> string.
Variable sha256_hex : string -> string.
Variable UnsortedList : gset string -> list string.

(** ** Clusters reached by writes *)

(** The two types whose loads are not checked before they are used. *)
Definition unchecked (t : gotype) : Prop := t = TCustomResourceDefinition \/ t = TMachineConfig.

(** Reads are answered, and unchecked reads fail by absence only. *)
Definition good (w : W) : Prop :=
  healthy w /\ forall t k e, unchecked t -> cli_Get w t k = inr e -> IsNotFound e = true.

Lemma one_write_good w w' : good w -> one_write w w' -> good w'.
Proof.
  intros [Hh Hr] [o Ho].
  assert (forall f, (f = cli_Create \/ f = cli_Update \/ f = cli_Delete) -> w' = fst (f w o) -> good w') as Hgo;
    [|by destruct Ho as [?|[?|?]]; [apply (Hgo cli_Create)|apply (Hgo cli_Update)|apply (Hgo cli_Delete)]; auto].
  intros f Hf ->. destruct (f w o) as [w1 err] eqn:E. simpl.
  destruct (law_write w o w1 err) as (H1 & H2 & H3); [by destruct Hf as [->|[->| ->]]; auto|].
  split; [auto|]. intros t k e Ht Hg. destruct (decide ((t, k) = obj_id o)) as [Hid|Hid]; [|rewrite H2 in Hg by done; by eapply Hr].
  destruct err as [err|]; [rewrite H3 in Hg by done; by eapply Hr|]. injection Hid as -> ->.
  destruct Hf as [->|[->| ->]].
  - destruct (law_create_get _ _ _ Hh E) as (o' & Hg' & _). congruence.
  - destruct (law_update_get _ _ _ Hh E) as (o' & Hg' & _). congruence.
  - destruct (law_delete_get _ _ _ Hh E) as (e' & Hg' & Hn). congruence.
Qed.

Lemma writes_good w w' : good w -> rtc one_write w w' -> good w'.
Proof. intros Hg. induction 1 as [|w w1 w2 Hw _ IH]; [done|]. apply IH. by eapply one_write_good. Qed.

(** ** Applications that return *)

(** A state the apply code can take: it has a desired object and a merger, and
    an object that was read can be merged. *)
Definition safe_state (s : ObjectState) : Prop :=
  exists d M f, os_Desired s = IObj d /\ os_Merge s = Some M /\ os_Compare s = Some compare_Object /\
    merger_for M f (obj_type d) /\
    (os_Error s = None -> exists o, os_Existing s = IObj o /\ mergeable o d).

Lemma ApplyObject_returns w s :
  safe_state s -> os_Error s = None \/ IsNotFoundError s = true -> is_ret (ApplyObject w s).
Proof.
  intros (d & M & f & Hd & HM & Hc & Hm & Hex) Herr. unfold ApplyObject.
  destruct (IsNotFoundError s) eqn:Hn.
  - rewrite Hd. destruct (describe_obj d) as [[ds de] ->]. cbn. destruct (cli_Create w d) as [w1 [err|]]; by eexists.
  - destruct Herr as [He|?]; [|done]. destruct (Hex He) as (o & Ho & Hmg).
    rewrite Hd, HM, Hc, Ho. destruct (describe_obj d) as [[ds de] ->]. cbn [go_bind deref].
    rewrite (merger_ok _ _ _ _ _ Hm Hmg eq_refl). cbn. case_match; [by eexists|].
    destruct (cli_Update w _) as [w1 [err|]]; by eexists.
Qed.

Lemma safe_state_owned instance s d :
  safe_state s -> os_Desired s = IObj d -> safe_state (os_with_Desired (IObj (owned instance d)) s).
Proof.
  intros (d' & M & f & Hd & HM & Hc & Hm & Hex) Hd'. rewrite Hd in Hd'. injection Hd' as ->.
  exists (owned instance d), M, f. destruct (owned_id instance d) as [Hot _]. rewrite Hot.
  split_and!; [done..|]. intros He. destruct (Hex He) as (o & Ho & Hmg). exists o. split; [done|].
  by apply owned_mergeable.
Qed.

Lemma applyObjects_returns w instance states :
  Forall safe_state states ->
  exists w' err, applyObjects w instance states = Ret (w', err) /\ rtc one_write w w'.
Proof.
  intros Hall. revert w. induction Hall as [|s states Hs _ IH]; intros w; [by exists w, None|].
  cbn [applyObjects]. destruct Hs as (d & M & f & Hd & Hrest). rewrite Hd. cbn [iface_deref go_bind].
  assert (safe_state s) as Hs by (by exists d, M, f).
  assert (forall X : go (W * option error),
    (os_Error s = None \/ IsNotFoundError s = true -> exists w' err, X = Ret (w', err) /\ rtc one_write w w') ->
    exists w' err, match os_Error s, IsNotFoundError s, os_UpdateError s with
      | Some err, false, _ => Ret (w, Some (ErrWrap ("failed to load object state for "
                                 +:+ (obj_Namespace d +:+ "/" +:+ obj_Name d) +:+ ": ") err))
      | _, _, Some err => Ret (w, Some (ErrWrap ("failed to update (" +:+ gvk_String d +:+ ") "
                                 +:+ (obj_Namespace d +:+ "/" +:+ obj_Name d) +:+ ": ") err))
      | _, _, None => X end = Ret (w', err) /\ rtc one_write w w') as Hguard.
  { intros X HX. destruct (os_Error s), (IsNotFoundError s), (os_UpdateError s);
      try (by do 2 eexists); apply HX; auto. }
  apply Hguard. clear Hguard. intros Herr.
  destruct (controllerutil.SetControllerReference _ d) as [d' [rerr|]] eqn:Eref; [by do 2 eexists|].
  assert (d' = owned instance d) as -> by (unfold owned; by rewrite Eref).
  destruct (ApplyObject_returns w (os_with_Desired (IObj (owned instance d)) s)) as [[w1 [[o1 ch] err1]] Happ];
    [by apply safe_state_owned|done|].
  rewrite Happ. cbn [go_bind]. apply ApplyObject_writes_star in Happ.
  destruct err1 as [err1|]; [by do 2 eexists|].
  destruct (IH w1) as (w' & err & Hrun & Hw). exists w', err. split; [done|]. by trans w1.
Qed.

Lemma state_of_safe w d M f :
  healthy w -> kind_ok d -> merger_for M f (obj_type d) -> safe_state (state_of w (obj_type d) d M).
Proof.
  intros Hh Hk HM. destruct (state_of_fields w (obj_type d) d M) as (H1 & _ & H3). exists d, M, f.
  unfold state_of, load in *. destruct (cli_Get w _ _) as [o|e] eqn:Hg; simpl in *; split_and!; try done.
  intros _. exists o. split; [done|]. by apply (read_mergeable healthy w).
Qed.

(** A state for [ApplyState]: safe to apply with its reads unchecked, or a
    deletion of something that was read or is absent. *)
Definition safe_any (s : ObjectState) : Prop :=
  (safe_state s /\ (os_Error s = None \/ IsNotFoundError s = true)) \/
  (os_Desired s = INil /\ ((exists o, os_Existing s = IObj o) \/ IsNotFoundError s = true)).

Lemma ApplyState_returns w s : safe_any s -> is_ret (ApplyState w s).
Proof.
  unfold ApplyState, IsCreateOrUpdate. intros [[Hs Herr]|[Hd Hex]].
  - destruct Hs as (d & M & f & Hd & Hrest). rewrite Hd. simpl. apply ApplyObject_returns; [by exists d, M, f|done].
  - rewrite Hd. simpl. destruct (IsNotFoundError s); [by eexists|]. destruct Hex as [[o ->]|?]; [|done]. simpl.
    destruct (describe_obj o) as [[ds de] ->]. simpl. destruct (cli_Delete w o) as [w1 [err|]]; by eexists.
Qed.

Lemma safe_any_applied instance s : safe_any s -> safe_any (mc_applied_state instance s).
Proof.
  intros [[Hs Herr]|[Hd Hex]]; unfold mc_applied_state.
  - destruct Hs as (d & M & f & Hd & Hrest). rewrite Hd. left. split; [|done].
    apply safe_state_owned; [by exists d, M, f|done].
  - rewrite Hd. right. done.
Qed.

Lemma sync_machine_configs_returns w instance tree states waits :
  Forall (fun st => safe_any (mcos_State st)) states ->
  exists w' r, sync_machine_configs w instance tree states waits = Ret (w', r) /\ rtc one_write w w'.
Proof.
  intros Hall. revert w waits. induction Hall as [|st states Hs _ IH]; intros w waits; [by do 2 eexists|].
  pose proof (safe_any_applied instance _ Hs) as Hs'.
  cbn [sync_machine_configs]. unfold mc_applied_state, IsCreateOrUpdate in *.
  destruct (os_Desired (mcos_State st)) as [|t|d] eqn:Hd; cbn [iface_deref go_bind].
  1, 2: destruct (ApplyState_returns w _ Hs') as [[w1 [[o ch] [err|]]] Ha]; rewrite Ha; cbn [go_bind];
    apply ApplyState_writes_star in Ha; [by do 2 eexists|];
    edestruct (IH w1) as (w' & r & -> & Hw); do 2 eexists; (split; [done|]); by trans w1.
  unfold owned in Hs'. destruct (controllerutil.SetControllerReference _ d) as [d' [rerr|]]; cbn [go_bind];
    [by do 2 eexists|]. simpl in Hs'.
  destruct (validateMachineConfigLabels d' tree); cbn [go_bind]; [by do 2 eexists|].
  destruct (ApplyState_returns w _ Hs') as [[w1 [[o ch] [err|]]] Ha]; rewrite Ha; cbn [go_bind];
    apply ApplyState_writes_star in Ha; [by do 2 eexists|].
  edestruct (IH w1) as (w' & r & -> & Hw). do 2 eexists. split; [done|]. by trans w1.
Qed.

(** ** Trees *)

Section Tree.
Context (r : Reconciler) (existing : ExistingManifests).
Hypothesis Hmc : forall mc, mf_MachineConfig (r_RTEManifests r) = Some mc -> obj_type mc = TMachineConfig /\ kind_ok mc.
Hypothesis Hscc : is_Some (mf_SCC (r_RTEManifests r)).
Hypothesis Hsccv2 : is_Some (mf_SCCv2 (r_RTEManifests r)).
Hypothesis Hplat : em_plat existing = r_Platform r.

Lemma MachineConfigsState_safe w em tree :
  good w -> tree_loaded sha256_hex w em ->
  Forall (fun st => safe_any (mcos_State st)) (fst (MachineConfigsState em (r_RTEManifests r) tree)).
Proof.
  intros [Hh Hr] [Hl _]. destruct (mf_MachineConfig (r_RTEManifests r)) as [mc|] eqn:Emc;
    [|unfold MachineConfigsState; rewrite Emc; constructor].
  destruct (Hmc mc eq_refl) as [Hty Hk].
  rewrite (MachineConfigsState_split em _ tree mc Emc). simpl. apply Forall_forall.
  intros st (mcp & _ & Hst)%list_elem_of_omap. unfold pool_state, machine_config_state in Hst.
  destruct (mcp_Paused mcp); [done|]. destruct (mcp_MachineConfigSelector mcp) as [sel|]; [|done].
  destruct (em_machineConfigs em !! _) as [m|] eqn:Em; [|done]. apply Hl in Em. unfold load in Em.
  destruct (cli_Get w TMachineConfig _) as [o|e] eqn:Hg; injection Em as E1 E2; rewrite E1, E2 in Hst.
  - assert (mergeable o mc) as Hmg.
    { apply kinds_mergeable; [|by eapply law_get_kind|done].
      rewrite Hty. exact (f_equal fst (law_get_id _ _ _ _ Hh Hg)). }
    destruct (custom_policy tree); injection Hst as <-; [left|right; by eauto]. split; [|by left].
    eexists _, ObjectForUpdate, complete_plain. split_and!; try done; [constructor|]. intros _. by exists o.
  - apply Hr in Hg; [|by right]. destruct (custom_policy tree); injection Hst as <-;
      [left|right; split; [done|right; by unfold IsNotFoundError]]. split; [|right; by unfold IsNotFoundError].
    eexists _, ObjectForUpdate, complete_plain. split_and!; try done. constructor.
Qed.

Lemma reconcilePerTreeMachineConfig_returns w instance em tree :
  good w -> tree_loaded sha256_hex w em ->
  exists w' res, reconcilePerTreeMachineConfig w r instance em tree = Ret (w', res) /\ rtc one_write w w'.
Proof.
  intros Hg Hl. unfold reconcilePerTreeMachineConfig, syncMachineConfig.
  pose proof (MachineConfigsState_safe w em tree Hg Hl) as Hs.
  destruct (MachineConfigsState em (r_RTEManifests r) tree) as [states paused].
  destruct (sync_machine_configs_returns w instance tree states ∅ Hs) as (w' & [waits err] & -> & Hw). cbn [go_bind].
  destruct err; [by do 2 eexists|]. destruct (syncMachineConfigPoolsStatuses _ _ _ _) as [nro pending].
  case_decide; by do 2 eexists.
Qed.

(** The group of the tree is there and has a configuration. *)
Definition configured_tree (tree : Tree) : Prop := exists ng c, tree_NodeGroup tree = Some ng /\ ng_Config ng = Some c.

Lemma daemonsetUpdater_returns poolName gdm tls :
  is_Some (ng_Config (gdm_NodeGroup gdm)) -> is_ret (daemonsetUpdater poolName gdm tls).
Proof.
  intros [c Hc].
  destruct (FindContainerByName (ds_Containers (gdm_DaemonSet gdm)) MainContainerName) as [i|] eqn:Hi.
  - destruct (daemonsetUpdater_found poolName gdm tls c i Hc Hi) as (ds & -> & _). by eexists.
  - destruct (daemonsetUpdater_missing poolName gdm tls c Hc Hi) as (ds & ->). by eexists.
Qed.

Lemma target_state_returns w em tree tg seen :
  healthy w -> tree_loaded sha256_hex w em -> em_updater em = recording_updater (r_RTEMetricsTLS r) ->
  configured_tree tree ->
  exists seen' st, target_state em (r_RTEManifests r) tree tg seen = Ret (seen', st) /\ safe_state st.
Proof.
  intros Hh [_ Hl] Hu (ng & c & Hng & Hc). unfold target_state, daemonset_state.
  destruct (loaded_daemonset em _ _) as [[ex err] h] eqn:Eld.
  assert (err = None -> exists o, ex = IObj o /\ obj_type o = TDaemonSet /\ kind_ok o) as Hex.
  { unfold loaded_daemonset in Eld. destruct (em_daemonSets em !! _) as [dsm|] eqn:Ed; [|by injection Eld as _ <- _].
    apply Hl in Ed. unfold getDaemonSetManifest, load in Ed.
    destruct (cli_Get w TDaemonSet _) as [o|e] eqn:Hg; rewrite Ed in Eld; injection Eld as <- <- _; [|done].
    intros _. exists o. split; [done|]. split; [exact (f_equal fst (law_get_id _ _ _ _ Hh Hg))|by eapply law_get_kind]. }
  rewrite Hng. cbn [deref go_bind]. unfold securityContextOptions.
  assert (exists so, (if annotations.IsCustomPolicyEnabled (ng_Annotations ng)
    then let! scc := deref "SecurityContextConstraint" (mf_SCC (r_RTEManifests r)) in
         Ret (mkSecurityContextOptions selinux.RTEContextTypeLegacy (om_Name (scc_Meta scc)))
    else let! scc := deref "SecurityContextConstraintV2" (mf_SCCv2 (r_RTEManifests r)) in
         Ret (mkSecurityContextOptions selinux.RTEContextType (om_Name (scc_Meta scc)))) = Ret so) as [so ->].
  { destruct Hscc as [s1 ->], Hsccv2 as [s2 ->]. case_match; by eexists. }
  cbn [go_bind]. rewrite Hu. unfold recording_updater.
  match goal with |- context [daemonsetUpdater ?p ?g ?l] =>
    destruct (daemonsetUpdater_returns p g l) as [[ds uerr] ->]; [by eexists|] end.
  cbn [go_bind]. destruct uerr; cbn [go_bind]; do 2 eexists; (split; [reflexivity|]);
    (exists (ds_object ds), ObjectForUpdate, complete_plain; split_and!; [done..|constructor|]);
    simpl; intros He; destruct (Hex He) as (o & -> & Ho & Hk); exists o; (split; [done|]);
    apply kinds_mergeable; [done|done|by right|done|done|by right].
Qed.

Lemma FindState_returns w em tree seen :
  healthy w -> tree_loaded sha256_hex w em -> em_updater em = recording_updater (r_RTEMetricsTLS r) ->
  configured_tree tree ->
  (em_helper em = nodeGroupFinder -> is_Some (tree_NodeGroup tree ≫= ng_PoolName)) ->
  exists seen' states, FindState em (r_RTEManifests r) tree seen = Ret (seen', states) /\ Forall safe_state states.
Proof.
  intros Hh Hl Hu Hc Hp. unfold FindState. destruct (em_helper em).
  - destruct (go_fold_inv (fun '(seen, ret) mcp =>
        let! (seen, st) := target_state em (r_RTEManifests r) tree (mcp_target mcp) seen in Ret (seen, ret ++ [st]))
      (fun '(_, ret) => Forall safe_state ret) (tree_MCPs tree) (seen, [])) as ([seen' states] & E & Hs); [done| |by eauto].
    intros [s ret] mcp Hret _. destruct (target_state_returns w em tree (mcp_target mcp) s Hh Hl Hu Hc) as (s' & st & -> & Hst).
    cbn [go_bind]. eexists. split; [reflexivity|]. apply Forall_app. by auto.
  - destruct (Hp eq_refl) as [p Hpn]. destruct (tree_NodeGroup tree) as [ng|] eqn:Hng; [|done]. simpl in Hpn.
    cbn [deref go_bind]. rewrite Hpn. cbn [deref go_bind].
    destruct (target_state_returns w em tree (pool_target p) seen Hh Hl Hu Hc) as (s' & st & E & Hst).
    unfold target_state in E. simpl in E. rewrite E. cbn [go_bind]. do 2 eexists. split; [reflexivity|]. by constructor.
Qed.

Lemma reconcilePerTreeDaemonSet_returns w w0 instance em tree :
  healthy w0 -> tree_loaded sha256_hex w0 em -> configured_tree tree ->
  (em_helper em = nodeGroupFinder -> is_Some (tree_NodeGroup tree ≫= ng_PoolName)) ->
  exists w' res, reconcilePerTreeDaemonSet w r instance em tree = Ret (w', res) /\ rtc one_write w w' /\
    valid_step (ptr_Step res) /\ (targets (em_helper em) tree = [] -> ptr_DSInfo res = []).
Proof.
  intros Hh Hl Hc Hp. unfold reconcilePerTreeDaemonSet. set (em1 := WithManifestsUpdater em _).
  destruct (FindState_returns w0 em1 tree [] Hh Hl eq_refl Hc Hp) as (infos & states & E & Hs).
  unfold PerTreeState. rewrite E. cbn [go_bind].
  destruct (applyObjects_returns w instance states Hs) as (w' & err & -> & Hw). cbn [go_bind].
  assert (targets (em_helper em) tree = [] -> infos = []) as Hnil.
  { intros Ht. apply FindState_targets in E. change (em_helper em1) with (em_helper em) in E. rewrite Ht in E.
    by injection E as <- _. }
  destruct err; do 2 eexists; (split; [reflexivity|]); (split; [done|]); (split; [|done]);
    [apply valid_StepFailed|apply daemonsets_step_valid].
Qed.

(** What the status of a tree's result looks like when it is done. *)
Definition result_ok (res : PerTreeResult) : Prop :=
  valid_step (ptr_Step res) /\
  (r_Platform r <> platform.OpenShift -> ptr_NROMCPs res = []) /\
  (r_Platform r = platform.OpenShift -> Done (ptr_Step res) = true ->
     Forall (fun p => is_Some (nromcp_Config p)) (ptr_NROMCPs res) /\ (ptr_NROMCPs res = [] -> ptr_DSInfo res = [])).

Lemma pool_configs pools tree :
  Forall (fun p => is_Some (nromcp_Config p)) (syncMachineConfigPoolNodeGroupConfigStatuses pools tree) /\
  (syncMachineConfigPoolNodeGroupConfigStatuses pools tree = [] -> tree_MCPs tree = []).
Proof.
  unfold syncMachineConfigPoolNodeGroupConfigStatuses.
  set (conf := SetDefaults (match tree_NodeGroup tree ≫= ng_Config with Some c => c | None => DefaultNodeGroupConfig end)).
  rewrite (fold_append (fun mcp => let p := findNROMCPByName pools (mcp_Name mcp) in
    mkNROMachineConfigPool (nromcp_Name p) (nromcp_Conditions p) (Some conf))). rewrite app_nil_l. split.
  - apply Forall_fmap, Forall_forall. intros m _. by eexists.
  - apply fmap_nil_inv.
Qed.

(** A tree the controller can take: it has a group, and a pool name where pools
    are not machine config pools. *)
Definition tree_ok (tree : Tree) : Prop :=
  exists ng, tree_NodeGroup tree = Some ng /\ (r_Platform r <> platform.OpenShift -> is_Some (ng_PoolName ng)).

Lemma reconcile_tree_returns w instance results tree ng :
  good w -> tree_ok tree -> tree_NodeGroup tree = Some ng ->
  exists w' i' res,
    reconcile_tree sha256_hex r existing (w, instance, results) tree = Ret (w', i', results ++ [res]) /\
    rtc one_write w w' /\ result_ok res /\
    spec_NodeGroups (nro_Spec i')
    = <[tree_Index tree := ng_with_Config ng (Some (NormalizeConfig ng))]> (spec_NodeGroups (nro_Spec instance)).
Proof.
  intros Hg (ng' & Hng' & Hpn) Hng. rewrite Hng in Hng'. injection Hng' as <-. unfold reconcile_tree.
  unfold normalize_tree. rewrite Hng. cbn [deref go_bind].
  set (ng1 := ng_with_Config ng _). set (tree1 := mkTree _ _ _). set (i1 := nro_with_NodeGroups _ _).
  assert (is_ret (PerTree sha256_hex w existing tree1)) as [em Hem].
  { unfold PerTree, UpdateFromClient, helper_for. simpl. rewrite Hplat. case_decide as Hp; [by eexists|].
    destruct (Hpn Hp) as [p ->]. by eexists. }
  rewrite Hem. cbn [go_bind]. destruct (PerTree_loaded _ _ _ _ _ Hem) as (Hl & Hctx & Hhelp & _ & _).
  assert (configured_tree tree1) as Hct by (by do 2 eexists).
  assert (forall w1, exists w2 res, reconcilePerTreeDaemonSet w1 r i1 em tree1 = Ret (w2, res) /\ rtc one_write w1 w2 /\
    valid_step (ptr_Step res) /\ (targets (em_helper em) tree1 = [] -> ptr_DSInfo res = [])) as Hds.
  { intros w1. apply (reconcilePerTreeDaemonSet_returns w1 w); [apply Hg|done|done|].
    intros Hx. rewrite Hhelp, Hplat in Hx. unfold helper_for in Hx. case_decide as Hp; [done|]. by apply Hpn. }
  destruct (decide (r_Platform r = platform.OpenShift)) as [Hp|Hp].
  - destruct (reconcilePerTreeMachineConfig_returns w i1 em tree1 Hg Hl) as (w1 & mcRes & E1 & Hw1).
    rewrite E1. cbn [go_bind].
    destruct (reconcilePerTreeMachineConfig_writes healthy sha256_hex w r i1 em tree1 w1 mcRes) as (_ & Hv & Hpools);
      [apply Hg|done|apply Hmc|done|].
    case_decide as Hstop.
    { exists w1, i1, mcRes. do 2 (split; [done|]). split; [|done]. do 2 (split; [done|]). intros _ Hd. destruct Hstop as [_ Hs].
      by rewrite EarlyStop_negb_Done, Hd in Hs. }
    destruct (Hds w1) as (w2 & res & -> & Hw2 & Hv2 & Hnil). cbn [go_bind]. do 3 eexists. split; [reflexivity|].
    split; [by trans w1|]. split; [|done]. split; [done|]. split; [done|]. intros _ _. simpl.
    destruct Hpools as [pools ->].
    { destruct (Done (ptr_Step mcRes)) eqn:Hd; [done|]. destruct Hstop. by rewrite EarlyStop_negb_Done, Hd. }
    destruct (pool_configs pools tree1) as [Hc Hn]. split; [done|]. intros Hnn. apply Hnil.
    rewrite Hhelp, Hplat. unfold helper_for, targets. rewrite decide_True by done. by rewrite (Hn Hnn).
  - cbn [go_bind]. rewrite decide_False by naive_solver.
    destruct (Hds w) as (w2 & res & -> & Hw2 & Hv2 & Hnil). cbn [go_bind]. do 3 eexists. split; [reflexivity|].
    split; [done|]. split; [|done]. split; [done|]. split; [done|]. intros ?. done.
Qed.

(** The loop over the trees returns; each group is as before or has a
    configuration, and those of the trees have one. *)
Lemma tree_loop_returns trees w instance results :
  good w -> Forall tree_ok trees -> Forall result_ok results ->
  exists w' i' results',
    go_fold (reconcile_tree sha256_hex r existing) (w, instance, results) trees = Ret (w', i', results') /\
    Forall result_ok results' /\
    (forall j g, spec_NodeGroups (nro_Spec i') !! j = Some g ->
       spec_NodeGroups (nro_Spec instance) !! j = Some g \/
       (is_Some (ng_Config g) /\ exists tree ng, tree ∈ trees /\ tree_NodeGroup tree = Some ng /\ ng_PoolName g = ng_PoolName ng)) /\
    (forall tree g, tree ∈ trees -> spec_NodeGroups (nro_Spec i') !! tree_Index tree = Some g -> is_Some (ng_Config g)).
Proof.
  intros Hg Hall. revert w instance results Hg. induction Hall as [|tree trees Ht _ IH]; intros w instance results Hg Hres.
  { exists w, instance, results. split_and!; [done|done|by left|]. intros tree g Hin. by apply elem_of_nil in Hin. }
  pose proof Ht as (ng & Hng & _). cbn [go_fold].
  destruct (reconcile_tree_returns w instance results tree ng Hg Ht Hng) as (w1 & i1 & res & -> & Hw1 & Hr1 & Hsp).
  cbn [go_bind]. destruct (IH w1 i1 (results ++ [res])) as (w' & i' & results' & -> & Hres' & Hsame & Hconf).
  { by eapply writes_good. }
  { apply Forall_app. by auto. }
  exists w', i', results'. split; [done|]. split; [done|].
  assert (forall j g, spec_NodeGroups (nro_Spec i1) !! j = Some g ->
    spec_NodeGroups (nro_Spec instance) !! j = Some g \/
    (is_Some (ng_Config g) /\ ng_PoolName g = ng_PoolName ng)) as H1.
  { intros j g. rewrite Hsp. destruct (decide (tree_Index tree = j)) as [<-|Hne].
    - intros Hj. right. rewrite list_lookup_insert_eq in Hj by (apply lookup_lt_Some in Hj; by rewrite length_insert in Hj).
      injection Hj as <-. split; [by eexists|done].
    - rewrite list_lookup_insert_ne by done. by left. }
  split.
  - intros j g Hj. destruct (Hsame j g Hj) as [Hj1|[Hc (t & n & Ht1 & Ht2)]].
    + destruct (H1 j g Hj1) as [?|[? ?]]; [by left|]. right. split; [done|]. exists tree, ng. split; [by left|done].
    + right. split; [done|]. exists t, n. split; [by right|done].
  - intros t g [->|Hin]%elem_of_cons Hj; [|by eapply Hconf].
    destruct (Hsame _ _ Hj) as [Hj1|[Hc _]]; [|done]. rewrite Hsp in Hj1.
    rewrite list_lookup_insert_eq in Hj1 by (apply lookup_lt_Some in Hj1; by rewrite length_insert in Hj1).
    injection Hj1 as <-. by eexists.
Qed.

(** The node-group statuses can be computed. *)
Lemma syncNodeGroupsStatus_returns instance infos :
  Forall (fun p => is_Some (nromcp_Config p)) (st_MachineConfigPools (nro_Status instance)) ->
  (st_MachineConfigPools (nro_Status instance) = [] ->
     infos = [] \/ Forall (fun g => is_Some (ng_PoolName g) /\ is_Some (ng_Config g)) (spec_NodeGroups (nro_Spec instance))) ->
  is_ret (syncNodeGroupsStatus instance infos).
Proof.
  intros Hp Hg. unfold syncNodeGroupsStatus. apply is_ret_bind.
  - case_decide as Hl; [|by eexists]. apply nil_length_inv in Hl. specialize (Hg Hl).
    destruct (go_fold_inv (fun ngStatuses group =>
        go_fold (fun ngStatuses info =>
          let! poolName := deref "PoolName" (ng_PoolName group) in
          if decide (poolName <> pds_PoolName info) then Ret ngStatuses
          else
            let! conf := deref "Config" (ng_Config group) in
            Ret (ngStatuses ++ [mkNodeGroupStatus (pds_DaemonSet info) conf (pds_PoolName info)]))
          ngStatuses infos) (fun _ => True) (spec_NodeGroups (nro_Spec instance)) []) as (b & E & _); [done| |by exists b].
    intros acc g _ Hin. destruct (go_fold_inv (fun ngStatuses info =>
          let! poolName := deref "PoolName" (ng_PoolName g) in
          if decide (poolName <> pds_PoolName info) then Ret ngStatuses
          else
            let! conf := deref "Config" (ng_Config g) in
            Ret (ngStatuses ++ [mkNodeGroupStatus (pds_DaemonSet info) conf (pds_PoolName info)]))
          (fun _ => True) infos acc) as (b & E & _); [done| |by exists b].
    intros acc' info _ Hinfo. destruct Hg as [->|Hg]; [by apply elem_of_nil in Hinfo|].
    rewrite Forall_forall in Hg. destruct (Hg g Hin) as [[p ->] [c ->]]. cbn. case_decide; by eexists.
  - intros sts _. match goal with |- is_ret (go_fold ?f ?a ?l) =>
      destruct (go_fold_inv f (fun _ => True) l a) as (b & E & _); [done| |by exists b] end.
    intros acc mcp _ Hin. match goal with |- exists b, go_fold ?f ?a ?l = Ret b /\ True =>
      destruct (go_fold_inv f (fun _ => True) l a) as (b & E & _); [done| |by exists b] end.
    intros acc' info _ _. rewrite Forall_forall in Hp. destruct (Hp mcp Hin) as [c ->]. cbn. case_decide; by eexists.
Qed.

(** The groups of the specification once every tree went through the loop. *)
Definition groups_ok (instance : NUMAResourcesOperator) : Prop :=
  r_Platform r <> platform.OpenShift ->
  Forall (fun g => is_Some (ng_PoolName g) /\ is_Some (ng_Config g)) (spec_NodeGroups (nro_Spec instance)).

Lemma record_overall_returns now instance results :
  Forall result_ok results -> groups_ok instance ->
  is_ret (record_overall UnsortedList now r instance (ReducePerTreeResults results)).
Proof.
  intros Hres Hgr. assert (Forall (fun res => valid_step (ptr_Step res)) results) as Hv
    by (eapply Forall_impl; [exact Hres|]; by intros ? [? _]).
  destruct (ReducePerTreeResults_parts results Hv) as (Hn & _ & Hi & _ & Hd & _).
  unfold record_overall. destruct (Done _) eqn:HD; [|by eexists]. apply is_ret_bind; [|intros a _; by eexists].
  apply proj1 in Hd. specialize (Hd eq_refl). clear HD. rename Hd into HD.
  apply syncNodeGroupsStatus_returns; cbn [nro_Status st_MachineConfigPools nro_Spec].
  - rewrite Hn. apply Forall_concat, Forall_fmap. apply Forall_forall. intros res Hin. simpl.
    rewrite Forall_forall in Hres, HD. destruct (Hres res Hin) as (_ & Hh & Ho).
    destruct (decide (r_Platform r = platform.OpenShift)) as [Hp|Hp]; [by apply Ho; auto|]. by rewrite Hh.
  - intros Hnil. destruct (decide (r_Platform r = platform.OpenShift)) as [Hp|Hp]; [left|right; by apply Hgr].
    rewrite Hi, (filter_all_done _ HD). rewrite Hn in Hnil. clear -Hnil Hres HD Hp.
    induction results as [|res results IH]; [done|]. rewrite !fmap_cons in *. cbn [concat] in *.
    apply app_nil in Hnil as [H1 H2]. apply Forall_cons in Hres as [[_ [_ Hr]] Hres]. apply Forall_cons in HD as [Hd HD].
    destruct (Hr Hp Hd) as [_ Hx]. rewrite (Hx H1). by apply IH.
Qed.
End Tree.

(** ** The whole reconciliation *)

(** The manifests the operator ships: every object has the type and kind of its
    place, and there are two security context constraints, the first with
    SELinux options. *)
Record manifests_ok (r : Reconciler) : Prop := {
  mo_typed : manifests_typed (r_RTEManifests r);
  mo_mc : forall mc, mf_MachineConfig (r_RTEManifests r) = Some mc -> obj_type mc = TMachineConfig /\ kind_ok mc;
  mo_scc : exists scc, mf_SCC (r_RTEManifests r) = Some scc /\ is_Some (scc_SELinuxOptions scc);
  mo_sccv2 : is_Some (mf_SCCv2 (r_RTEManifests r));
  mo_crd : obj_type (r_APIManifests_Crd r) = TCustomResourceDefinition /\ kind_ok (r_APIManifests_Crd r) }.

Lemma PauseContainer_containers ds ds' : DaemonSetPauseContainerSettings ds = (ds', None) -> ds_Containers ds' <> [].
Proof.
  unfold DaemonSetPauseContainerSettings. intros Hp. destruct (FindContainerByName _ MainContainerName); [|done].
  destruct (FindContainerByName _ HelperContainerName) as [i|]; [|done].
  destruct (ds_Containers ds !! n) as [c|] eqn:Hc; [|done]. injection Hp as <-. rewrite ds_Containers_alter.
  destruct (ds_Containers ds); [done|]. by destruct i.
Qed.

Lemma setup_returns r instance :
  manifests_ok r -> is_ret (setupTreeAgnosticManifests r instance).
Proof.
  intros Hok. destruct (mo_scc r Hok) as (scc & Hs & [opts Ho]). unfold setupTreeAgnosticManifests.
  destruct (DaemonSetAffinitySettings _ _) as [d1 [e|]]; [by eexists|].
  destruct (DaemonSetUserImageSettings d1 _ _ _) as [d2 [e|]]; [by eexists|].
  destruct (DaemonSetPauseContainerSettings d2) as [d3 [e|]] eqn:E3; [by eexists|].
  apply PauseContainer_containers in E3.
  unfold loglevel.UpdatePodSpec. change (ps_Containers (ds_PodSpec d3)) with (ds_Containers d3).
  destruct (ds_Containers d3) as [|c cs]; [done|].
  destruct (if decide _ then _ else _) as [i|]; cbn [go_bind]; [|by eexists].
  rewrite Hs. cbn [deref go_bind]. unfold SecurityContextConstraint. rewrite Ho. by eexists.
Qed.

Lemma setup_sccs r instance r' :
  setupTreeAgnosticManifests r instance = Ret (r', None) ->
  is_Some (mf_SCC (r_RTEManifests r')) /\ mf_SCCv2 (r_RTEManifests r') = mf_SCCv2 (r_RTEManifests r).
Proof.
  intros (ds & scc & scc' & _ & _ & ->)%setup_inv. simpl. by eauto.
Qed.

Lemma reconcileResourceAPI_returns w r instance :
  good w -> manifests_ok r ->
  exists w' step, reconcileResourceAPI w r instance = Ret (w', step) /\ rtc one_write w w'.
Proof.
  intros [Hh Hr] Hok. unfold reconcileResourceAPI. case_match; [by do 2 eexists|].
  unfold syncNodeResourceTopologyAPI. destruct (mo_crd r Hok) as [Ht Hk]. set (crd := r_APIManifests_Crd r) in *.
  assert (apistate.State (apistate.FromClient w crd) crd = [state_of w (obj_type crd) crd ObjectForUpdate]) as ->.
  { unfold apistate.State, apistate.FromClient, state_of. rewrite Ht. by destruct (load w _ _). }
  cbn [apply_api].
  destruct (ApplyObject_returns w (state_of w (obj_type crd) crd ObjectForUpdate)) as [[w1 [[o ch] err]] Ha].
  { apply (state_of_safe w crd ObjectForUpdate complete_plain); [done|done|constructor]. }
  { unfold IsNotFoundError. rewrite state_of_error. destruct (cli_Get w _ _) eqn:Hg; [by left|right].
    rewrite Ht in Hg. exact (Hr _ _ _ (or_introl eq_refl) Hg). }
  rewrite Ha. cbn [go_bind]. apply ApplyObject_writes_star in Ha.
  destruct err; cbn [go_bind]; [|by do 2 eexists].
  rewrite (proj1 (state_of_fields w _ crd _)). cbn. by do 2 eexists.
Qed.

Lemma delete_unused_star uid expected items w :
  rtc one_write w (fst (delete_unused uid expected items w)).
Proof.
  rewrite delete_unused_fold. generalize (@None error). revert w.
  induction items as [|o items IH]; intros w errs; [done|]. simpl.
  destruct (delete_one uid expected (w, errs) o) as [w1 errs1] eqn:E. trans w1; [|apply IH].
  unfold delete_one in E. case_decide; [|by injection E as <- _].
  apply (f_equal fst) in E. simpl in E. rewrite <-E. apply write_once. by right; right.
Qed.

Lemma DeleteUnused_returns w instance trees :
  Forall (fun t => is_Some (tree_NodeGroup t)) trees ->
  exists w' err, DeleteUnusedDaemonSets w instance trees = Ret (w', err) /\ rtc one_write w w' /\
    rtc one_write w' (fst (DeleteUnusedMachineConfigs w' instance trees)).
Proof.
  intros Hall. assert (forall w', rtc one_write w' (fst (DeleteUnusedMachineConfigs w' instance trees))) as Hm.
  { intros w'. unfold DeleteUnusedMachineConfigs. destruct (cli_List w' _ _); [apply delete_unused_star|done]. }
  unfold DeleteUnusedDaemonSets. destruct (cli_List w _ _) as [items|e]; [|by do 2 eexists].
  destruct (buildDaemonSetNames_spec (nro_Name instance) trees Hall) as (names & -> & _). cbn [go_bind].
  pose proof (delete_unused_star (om_UID (nro_Meta instance)) names items w) as Hw.
  destruct (delete_unused _ _ _ _) as [w' err]. by exists w', err.
Qed.

Lemma shared_states_safe w em mf :
  healthy w -> manifests_typed mf ->
  (forall s o, slot_object mf s = Some o -> em_existing em s = load w (slot_type s) (obj_key o)) ->
  Forall safe_state (TreeAgnostic em mf).
Proof.
  intros Hh Hty Hld. rewrite (TreeAgnostic_entries w) by done. apply Forall_fmap, Forall_forall.
  intros e [s Hs]%elem_of_shared_entries. unfold slot_entry in Hs. apply fmap_Some in Hs as (d & Hd & ->).
  destruct (Hty s d Hd) as [Ht Hk]. apply (state_of_safe w d (slot_merge s) (slot_fill s)); [done|done|].
  rewrite Ht. apply slot_merger.
Qed.

(** Where pools are not machine config pools, every group is named and has its tree. *)
Definition groups_covered (r : Reconciler) (instance : NUMAResourcesOperator) (trees : list Tree) : Prop :=
  r_Platform r <> platform.OpenShift ->
  forall j g, spec_NodeGroups (nro_Spec instance) !! j = Some g ->
    is_Some (ng_PoolName g) /\ exists tree, tree ∈ trees /\ tree_Index tree = j.

Lemma reconcileResource_returns clk w r instance trees :
  good w -> manifests_ok r -> r_Platform r <> platform.Kubernetes ->
  Forall (tree_ok r) trees -> groups_covered r instance trees ->
  is_ret (reconcileResource sha256_hex UnsortedList clk w r instance trees).
Proof.
  intros Hg Hok Hp Htrees Hcov. unfold reconcileResource.
  destruct (reconcileResourceAPI_returns w r instance Hg Hok) as (w1 & step & -> & Hw1). cbn [go_bind].
  pose proof (writes_good _ _ Hg Hw1) as Hg1. destruct (EarlyStop step); [by eexists|].
  assert (exists em, FromClientTreeAgnostic w1 (r_Platform r) (r_RTEManifests r) (nro_Name instance) (r_Namespace r)
            = Ret em /\ em_plat em = r_Platform r) as (em & Hem & Hpl).
  { unfold FromClientTreeAgnostic. rewrite decide_True by done.
    destruct (mo_scc r Hok) as (scc & -> & _), (mo_sccv2 r Hok) as [scc2 ->]. cbn. by eexists. }
  rewrite Hem. cbn [go_bind].
  destruct (setup_returns r instance Hok) as [[r1 err] Eset]. rewrite Eset. cbn [go_bind].
  destruct err as [err|]; [by eexists|].
  destruct (setup_same _ _ _ Eset) as (Sp & _ & _ & _ & Sm). destruct (setup_sccs _ _ _ Eset) as [Hs1 Hs2].
  assert (Forall safe_state (TreeAgnostic em (r_RTEManifests r1))) as Hsafe.
  { apply (shared_states_safe w1); [apply Hg1| |].
    - intros s o Hs. destruct (setup_slots _ _ _ _ _ Eset Hs) as (o0 & Hs0 & _ & -> & Hk).
      destruct (mo_typed r Hok s o0 Hs0). by auto.
    - intros s o Hs. destruct (setup_slots _ _ _ _ _ Eset Hs) as (o0 & Hs0 & -> & _ & _).
      by apply (FromClient_loads w1 _ _ _ _ _ _ _ Hp Hem). }
  destruct (applyObjects_returns w1 instance _ Hsafe) as (w2 & err & -> & Hw2). cbn [go_bind].
  destruct err as [err|]; [by eexists|].
  destruct (DeleteUnused_returns w2 instance trees) as (w3 & derr & -> & Hw3 & Hw3'); [|cbn [go_bind]].
  { eapply Forall_impl; [exact Htrees|]. intros t (ng & -> & _). by eexists. }
  set (w4 := if decide _ then _ else _).
  assert (good w4) as Hg4.
  { apply (writes_good w1); [done|]. trans w2; [done|]. trans w3; [done|]. unfold w4. by case_decide. }
  destruct (tree_loop_returns r1 em) with (trees := trees) (w := w4) (instance := instance)
    (results := @nil PerTreeResult) as (w5 & i5 & results & -> & Hres & Hsame & Hconf); try done.
  - rewrite Sm. apply (mo_mc r Hok).
  - rewrite Hs2. apply (mo_sccv2 r Hok).
  - by rewrite Hpl, Sp.
  - eapply Forall_impl; [exact Htrees|]. intros t. unfold tree_ok. by rewrite Sp.
  - cbn [go_bind]. destruct (record_overall_returns r1 (ck_paused clk) i5 results Hres) as [i6 ->]; [|by eexists].
    unfold groups_ok. rewrite Sp. intros Hno. apply Forall_lookup. intros j g Hj. split.
    + destruct (Hsame j g Hj) as [Hj0|(_ & t & ng & Ht & Hng & ->)]; [by eapply Hcov|].
      rewrite Forall_forall in Htrees. destruct (Htrees t Ht) as (ng' & Hng' & Hpn). rewrite Hng in Hng'.
      injection Hng' as <-. by apply Hpn.
    + destruct (Hsame j g Hj) as [Hj0|[Hc _]]; [|done]. destruct (Hcov Hno j g Hj0) as [_ (t & Ht & <-)]. by eapply Hconf.
Qed.

Lemma getTrees_ok w r instance trees :
  valid_node_groups (r_Platform r) (spec_NodeGroups (nro_Spec instance)) ->
  getTreesByNodeGroup show_node_group w (spec_NodeGroups (nro_Spec instance)) (r_Platform r) = inl trees ->
  r_Platform r <> platform.Kubernetes /\ Forall (tree_ok r) trees /\ groups_covered r instance trees.
Proof.
  intros Hv. unfold getTreesByNodeGroup, tree_ok, groups_covered.
  destruct (r_Platform r) eqn:Hp; intros Ht; try done.
  - destruct (cli_ListMCP w) as [mcps|]; [|done]. split; [done|]. split; [|done].
    unfold FindTreesOpenshift in Ht. rewrite find_trees_from_spec in Ht.
    destruct (list_find _ _) as [[]|]; [done|]. injection Ht as <-. apply Forall_forall.
    intros t (i & ng & l & _ & _ & ->)%elem_of_trees_from. by exists ng.
  - injection Ht as <-. pose proof (vng_hypershift _ _ Hv eq_refl) as Hh. split; [done|]. unfold FindTreesHypershift. split.
    + apply Forall_forall. intros t (i & ng & -> & Hi)%elem_of_lookup_imap. exists ng. split; [done|]. intros _.
      rewrite Forall_forall in Hh. by apply Hh, (list_elem_of_lookup_2 _ i).
    + intros _ j g Hj. split.
      * rewrite Forall_forall in Hh. by apply Hh, (list_elem_of_lookup_2 _ j).
      * exists (mkTree (Some g) j None). split; [|done]. apply elem_of_lookup_imap. by exists j, g.
Qed.

(** C5: a reconciliation returns, whatever the instance asks for, whatever the
    cluster holds and whichever reads and writes fail, as long as the topology API
    and the machine configs are either read or reported absent: nothing on the
    way dereferences a nil pointer or fails a type assertion. *)
Theorem Reconcile_returns clk w r req :
  healthy w ->
  (forall t k e, t = TCustomResourceDefinition \/ t = TMachineConfig ->
     cli_Get w t k = inr e -> IsNotFound e = true) ->
  manifests_ok r ->
  exists w' r' res, Reconcile show_node_group sha256_hex UnsortedList clk w r req = Ret (w', r', res).
Proof.
  intros Hh Hr Hok. unfold Reconcile. destruct (cli_GetNRO w req) as [i0|e]; [|by do 3 eexists].
  set (instance := nro_with_Conditions _ i0). cbv zeta.
  assert (forall reason err, exists w' r' res, (let '(w, res) := degradeStatus clk w i0 instance reason err in
    Ret (w, r, res)) = Ret (w', r', res)) as Hdeg.
  { intros reason err. destruct (degradeStatus _ _ _ _ _ _). by do 3 eexists. }
  case_decide; [apply Hdeg|]. case_match; [by do 3 eexists|]. case_decide; [apply Hdeg|].
  destruct (NodeGroups _ _) as [err|] eqn:Hng; [apply Hdeg|]. apply NodeGroups_valid in Hng.
  destruct (getTreesByNodeGroup _ _ _ _) as [trees|err] eqn:Ht; [|apply Hdeg].
  destruct (NodeGroupsTree _ _ _) as [tolerable [err|]]; [apply Hdeg|].
  destruct (getTrees_ok w r instance trees Hng Ht) as (Hp & Htr & Hcov).
  destruct (reconcileResource_returns clk w r instance trees) as [[[[w1 r1] i1] step] ->];
    [by split|done|done|done|done|]. cbn [go_bind].
  destruct tolerable as [tol|]; [destruct (Done step)|].
  - destruct (degradeStatus _ _ _ _ _ _). by do 3 eexists.
  - destruct (cli_PatchStatus _ _ _) as [w2 [err|]]; by do 3 eexists.
  - destruct (cli_PatchStatus _ _ _) as [w2 [err|]]; by do 3 eexists.
Qed.
End NoPanic.

(** A cluster in which every write of a daemon set fails: the reconciliation
    still returns. *)
Definition no_daemonset_writes (v : verb) (t : gotype) : option error :=
  match v, t with
  | VCreate, TDaemonSet | VUpdate, TDaemonSet => Some (ErrStatus "Forbidden" 403 "forbidden")
  | _, _ => None
  end.

Lemma scenario_manifests_ok plat : manifests_ok (scenario.reconciler plat).
Proof.
  split.
  - apply scenario_typed.
  - intros mc [= <-]. split; [done|by right].
  - eexists. split; [reflexivity|]. by eexists.
  - by eexists.
  - split; [done|by right].
Qed.

Lemma Reconcile_returns_witness :
  let w := scenario.cluster (scenario.instance [scenario.custom_group "worker"] None "") no_daemonset_writes in
  exists w' r' res, scenario.run platform.OpenShift w = Ret (w', r', res).
Proof.
  intros w. apply (Reconcile_returns answers_reads scenario.show scenario.sha256 elements scenario.clock w
    (scenario.reconciler platform.OpenShift) scenario.request).
  - by apply answers_reads_check; [intros []|].
  - intros t k e Ht Hg. unfold w in Hg. simpl in Hg. unfold store_get in Hg. simpl in Hg. by injection Hg as <-.
  - apply scenario_manifests_ok.
Defined.
