(* ===== verification/Steady.v ===== *)
(** * Reconciling again what is in place

    Once a reconciliation is done, reconciling the same specification again
    writes nothing but the deletions of unused objects, which it retries, is
    done too, and reports the same status. The parts of a reconciliation are
    taken in turn: first that a run that is done leaves its part in place, then
    that a run that finds it in place leaves it alone. *)
From S2P Require Import Prelude GoErrors Meta Selectors ApiV1 Conditions Steps Trees Validation FlagCodec.
From S2P Require Import Workload RteUpdate RteUpdateSpec Objects MergeSpec Cluster Apply RteState Dangling.
From S2P Require Import Controller Scenario Install WriteFrame MachineConfigSpec DaemonSetSpec Rollout Setup NoPanic.

Section Steady.
Context {W : Type} `{!Client W} `{SelectorLib} (healthy : W -> Prop) `{!ClientLaws W healthy}.
Variable show_node_group : NodeGroup -> string.
Variable sha256_hex : string -> string.
Variable UnsortedList : gset string -> list string.

Notation only_writes := (only_writes healthy).

(** ** The same instance, read again *)

(** What makes an owner reference. *)
Definition same_owner (i j : NUMAResourcesOperator) : Prop :=
  om_Name (nro_Meta j) = om_Name (nro_Meta i) /\ om_Namespace (nro_Meta j) = om_Namespace (nro_Meta i) /\
  om_UID (nro_Meta j) = om_UID (nro_Meta i).

(** The instance as it may be read again later: with another status, another
    resource version, but the specification and the annotations it had. *)
Definition same_request (i j : NUMAResourcesOperator) : Prop :=
  same_owner i j /\ om_Annotations (nro_Meta j) = om_Annotations (nro_Meta i) /\ nro_Spec j = nro_Spec i.

Lemma SetControllerReference_same i j o :
  same_owner i j ->
  controllerutil.SetControllerReference (nro_Meta j) o = controllerutil.SetControllerReference (nro_Meta i) o.
Proof.
  intros (E1 & E2 & E3). unfold controllerutil.SetControllerReference, controllerutil.SetControllerReferenceOf,
    controllerutil.SetControllerReferenceAt, controllerutil.owner_ref_at. by rewrite E1, E2, E3.
Qed.

Lemma owned_same i j o : same_owner i j -> owned j o = owned i o.
Proof. intros E. unfold owned. by rewrite (SetControllerReference_same i j). Qed.

Lemma nro_Name_same i j : same_owner i j -> nro_Name j = nro_Name i.
Proof. by intros (E & _). Qed.

Lemma settled_same i j w e : same_owner i j -> settled i w e -> settled j w e.
Proof.
  intros E [Hk Hr]. split; [by rewrite (owned_same i j)|]. by rewrite (SetControllerReference_same i j).
Qed.

(** ** Objects in place *)

Lemma settled_error i w e : settled i w e -> os_Error (entry_state w e) = None.
Proof.
  intros [(o & Hg & _) _]. destruct (owned_id i (en_obj e)) as [Ht Hk]. rewrite Ht, Hk in Hg.
  unfold entry_state. by rewrite state_of_error, Hg.
Qed.

(** The merger of an entry suits its object. *)
Definition entry_merges (e : entry) : Prop := merger_for (en_merge e) (en_fill e) (obj_type (en_obj e)).

Lemma settled_noop v j e :
  entry_merges e -> settled j v e ->
  exists m, ApplyObject v (os_with_Desired (IObj (owned j (en_obj e))) (entry_state v e)) = Ret (v, (m, false, None)).
Proof.
  intros HM [Hk _]. unfold entry_state. rewrite state_of_owned. apply (kept_noop v _ (en_merge e) (en_fill e)); [|done].
  by rewrite (proj1 (owned_id j (en_obj e))).
Qed.

Lemma applyObjects_noop v j es :
  Forall entry_merges es -> Forall (settled j v) es -> applyObjects v j (entry_state v <$> es) = Ret (v, None).
Proof.
  intros HM. induction HM as [|e es HM _ IH]; [done|]. intros [Hs Hall]%Forall_cons. rewrite fmap_cons.
  pose proof (settled_error j v e Hs) as He. destruct (settled_noop v j e HM Hs) as [m Hm].
  destruct (state_of_fields v (obj_type (en_obj e)) (en_obj e) (en_merge e)) as (Hd & Hu & _).
  change (state_of v _ _ _) with (entry_state v e) in Hd, Hu.
  cbn [applyObjects]. rewrite Hd, Hu, He. cbn [iface_deref go_bind].
  assert (controllerutil.SetControllerReference (nro_Meta j) (en_obj e) = (owned j (en_obj e), None)) as ->.
  { unfold owned. pose proof (proj2 Hs) as Hr. by destruct (controllerutil.SetControllerReference _ _); simpl in *; subst. }
  rewrite Hm. cbn [go_bind]. by apply IH.
Qed.

(** ** The machine configs of a tree *)

(** The machine config of the manifests, with no namespace: it is cluster-wide. *)
Definition mc_manifest (mf : Manifests) : Prop :=
  forall mc, mf_MachineConfig mf = Some mc ->
    obj_type mc = TMachineConfig /\ om_Namespace (obj_Meta mc) = "" /\ kind_ok mc.

(** Every pool of the tree runs, and has the machine config it must have. *)
Definition mcs_in_place (w : W) (i : NUMAResourcesOperator) (mf : Manifests) (tree : Tree) : Prop :=
  forall mc mcp, mf_MachineConfig mf = Some mc -> mcp ∈ tree_MCPs tree ->
    mcp_Paused mcp = false /\
    forall sel, mcp_MachineConfigSelector mcp = Some sel ->
      mc_in_place w i tree mc mcp sel /\ pool_updated (custom_policy tree) (nro_Name i) mcp = true.

(** The result of the machine-config half of a tree that is done. *)
Definition mc_result (r : Reconciler) (tree : Tree) : PerTreeResult :=
  mkPerTreeResult []
    (syncMachineConfigPoolNodeGroupConfigStatuses ((fun m => makeNROPMCP m (r_ForwardMCPConds r)) <$> tree_MCPs tree) tree)
    ∅ StepSuccess.

(** The pools of a tree, loaded and named. *)
Definition pools_loaded (em : ExistingManifests) (tree : Tree) : Prop :=
  forall mcp, mcp ∈ tree_MCPs tree -> mcp_Name mcp <> "" /\
    is_Some (em_machineConfigs em !! objectnames.GetMachineConfigName (em_instanceName em) (mcp_Name mcp)).

Lemma mc_half_none w r i em tree :
  mf_MachineConfig (r_RTEManifests r) = None ->
  reconcilePerTreeMachineConfig w r i em tree = Ret (w, mc_result r tree).
Proof.
  intros Hmc. unfold reconcilePerTreeMachineConfig, syncMachineConfig, MachineConfigsState. rewrite Hmc.
  cbn [sync_machine_configs go_bind]. unfold syncMachineConfigPoolsStatuses.
  destruct (sync_pools_spec (nro_Name i) (r_ForwardMCPConds r) ∅ (tree_MCPs tree) [])
    as [[-> _]|(pre & m & post & f & _ & Hw & _)]; [|by rewrite lookup_empty in Hw].
  rewrite decide_False by (intros Hx; by apply Hx). by rewrite decide_False by (intros Hx; by apply Hx).
Qed.

(** When the machine-config half of a tree is done, its machine configs are in
    place, and nothing else was written. *)
Lemma mc_half_done w r i em tree w1 res :
  healthy w -> tree_loaded sha256_hex w em -> em_instanceName em = nro_Name i ->
  mc_manifest (r_RTEManifests r) -> pools_loaded em tree -> NoDup (mcp_Name <$> tree_MCPs tree) ->
  reconcilePerTreeMachineConfig w r i em tree = Ret (w1, res) -> Done (ptr_Step res) = true ->
  res = mc_result r tree /\ mcs_in_place w1 i (r_RTEManifests r) tree /\
  only_writes (tree_mc_ids (nro_Name i) (tree_MCPs tree)) w w1.
Proof.
  intros Hh Hl Hin Hman Hld Hnd Hrun Hdone. unfold mcs_in_place.
  destruct (mf_MachineConfig (r_RTEManifests r)) as [mc|] eqn:Hmc.
  2: { rewrite mc_half_none in Hrun by done. injection Hrun as <- <-. split; [done|]. split; [done|]. apply only_writes_refl. }
  destruct (Hman mc Hmc) as (Hty & Hns & Hkind).
  destruct (reconcilePerTreeMachineConfig_result healthy sha256_hex w r i em tree mc w1 res Hh Hl Hmc Hty Hin Hld Hrun)
    as (_ & Hds & _ & Hd). destruct (Hd Hdone) as [Hpools Hall]. clear Hd.
  unfold reconcilePerTreeMachineConfig, syncMachineConfig in Hrun. rewrite (MachineConfigsState_split em _ tree mc Hmc) in Hrun.
  destruct (sync_machine_configs w i tree _ ∅) as [[w2 [waits err]]|] eqn:Es; cbn [go_bind] in Hrun; [|done].
  destruct err as [err|]; [by injection Hrun as <- <-|].
  apply (sync_machine_configs_settled healthy sha256_hex w i em tree mc) in Es; try done.
  2: { intros mcp Hm. split; [by apply Hld|done]. }
  destruct Es as [Hset Ho].
  assert (w2 = w1 /\ ptr_PausedMCPNames res = ∅ /\ ptr_Step res = StepSuccess) as (-> & Hp & Hst).
  { destruct (syncMachineConfigPoolsStatuses _ _ _ _) as [nroMCPs pending].
    case_decide; injection Hrun as <- <-; cbn [ptr_Step] in Hdone; [by rewrite Done_waiting in Hdone|].
    cbn [ptr_PausedMCPNames ptr_Step] in *. by case_decide. }
  split; [|split; [|done]].
  - destruct res as [dsi mcps paused step]. simpl in *. by subst.
  - intros mc' mcp [= <-] Hm. destruct (Hall mcp Hm) as [Hpa Hup]. split; [done|]. intros sel Hsel.
    split; [by apply Hset|]. apply Hup. by eexists.
Qed.

(** Synchronising machine configs that are in place writes nothing. *)
Lemma sync_noop v j em tree mc pools waits :
  tree_loaded sha256_hex v em -> em_instanceName em = nro_Name j ->
  obj_type mc = TMachineConfig -> om_Namespace (obj_Meta mc) = "" ->
  (forall mcp sel, mcp ∈ pools -> mcp_MachineConfigSelector mcp = Some sel -> mc_in_place v j tree mc mcp sel) ->
  exists waits', sync_machine_configs v j tree (omap (pool_state em mc (custom_policy tree)) pools) waits
                 = Ret (v, (waits', None)) /\
    forall q (f : MCPWaitForUpdatedFunc), waits' !! q = Some f ->
      (f = pool_updated (custom_policy tree) /\
       exists mcp sel, mcp ∈ pools /\ mcp_Name mcp = q /\ mcp_MachineConfigSelector mcp = Some sel) \/ waits !! q = Some f.
Proof.
  intros Hl Hin Hty Hns. revert waits. induction pools as [|p pools IH]; intros waits Hpools.
  { exists waits. split; [done|by right]. }
  cbn [omap list_omap]. destruct (pool_state em mc (custom_policy tree) p) as [st|] eqn:Hst;
    [|destruct (IH waits) as (waits' & Hrun & Hw);
       [intros mcp sel Hm; apply Hpools; by right|
        exists waits'; split; [done|]; intros q f Hq; destruct (Hw q f Hq) as [(-> & mcp & sel & ? & ?)|?];
        [left; split; [done|]; exists mcp, sel; split; [by right|done]|by right]]].
  destruct (pool_state_fields _ _ _ _ _ Hst) as [Hname Hf].
  assert (exists sel, mcp_MachineConfigSelector p = Some sel) as [sel Hsel].
  { unfold pool_state, machine_config_state in Hst. repeat case_match; simplify_eq; by eexists. }
  pose proof (Hpools p sel (list_elem_of_here _ _) Hsel) as Hp.
  destruct (pool_state_spec sha256_hex v v (nro_Name j) em mc _ p sel st Hl Hin Hty Hns eq_refl Hsel Hst) as (Ht & Hk & Hs).
  destruct (IH (<[mcos_PoolName st := mcos_WaitForUpdated st]> waits)) as (waits' & Hrun & Hw).
  { intros mcp sel' Hm. apply Hpools. by right. }
  exists waits'. split.
  2: { intros q f Hq. destruct (Hw q f Hq) as [(-> & mcp & sel' & ? & ?)|Hi].
       - left. split; [done|]. exists mcp, sel'. split; [by right|done].
       - apply lookup_insert_Some in Hi as [[<- <-]|[_ ?]]; [left|by right]. split; [done|].
         exists p, sel. split; [by left|done]. }
  cbn [sync_machine_configs]. rewrite Hs. unfold mc_in_place in Hp. destruct (custom_policy tree).
  - set (d := desired_mc (nro_Name j) mc p sel) in *. destruct Hp as [[Hkept Href] Hval].
    destruct (state_of_fields v (obj_type d) d ObjectForUpdate) as (Hd & _ & _).
    unfold IsCreateOrUpdate. rewrite Hd. cbn [iface_is_nil negb iface_deref go_bind].
    cbn [en_obj] in Href, Hkept. unfold owned in Hval, Hkept.
    destruct (controllerutil.SetControllerReference (nro_Meta j) d) as [d' err] eqn:Eref. simpl in *. subst err.
    assert (d' = owned j d) as -> by (unfold owned; by rewrite Eref). cbn [go_bind]. rewrite Hval.
    rewrite state_of_owned. unfold ApplyState, IsCreateOrUpdate.
    rewrite (proj1 (state_of_fields v _ (owned j d) _)). cbn [iface_is_nil negb].
    destruct (kept_noop v (owned j d) ObjectForUpdate complete_plain) as [m ->]; [constructor|done|].
    cbn [go_bind]. exact Hrun.
  - set (k := mc_key (nro_Name j) p) in *. destruct Hp as (e & Hg & Hn).
    assert (IsCreateOrUpdate (delete_state v TMachineConfig k) = false) as ->
      by (unfold IsCreateOrUpdate, delete_state; by destruct (load _ _ _)).
    cbn [go_bind]. pose proof (ApplyState_delete v TMachineConfig k) as Hdel. rewrite Hg, Hn in Hdel.
    rewrite Hdel. cbn [go_bind]. exact Hrun.
Qed.

(** So does the machine-config half of the tree, which is done. *)
Lemma mc_half_noop v r j em tree :
  tree_loaded sha256_hex v em -> em_instanceName em = nro_Name j -> mc_manifest (r_RTEManifests r) ->
  NoDup (mcp_Name <$> tree_MCPs tree) -> mcs_in_place v j (r_RTEManifests r) tree ->
  reconcilePerTreeMachineConfig v r j em tree = Ret (v, mc_result r tree).
Proof.
  intros Hl Hin Hman Hnd Hset. destruct (mf_MachineConfig (r_RTEManifests r)) as [mc|] eqn:Hmc; [|by apply mc_half_none].
  destruct (Hman mc Hmc) as (Hty & Hns & _). specialize (Hset mc). rewrite Hmc in Hset.
  unfold reconcilePerTreeMachineConfig, syncMachineConfig. rewrite (MachineConfigsState_split em _ tree mc Hmc).
  destruct (sync_noop v j em tree mc (tree_MCPs tree) ∅ Hl Hin Hty Hns) as (waits & -> & Hw).
  { intros mcp sel Hm Hsel. by apply (Hset mcp eq_refl Hm). }
  cbn [go_bind].
  assert (paused_names (tree_MCPs tree) = ∅) as ->.
  { unfold paused_names. assert (filter (fun m => mcp_Paused m = true) (tree_MCPs tree) = []) as ->; [|done].
    apply elem_of_nil_inv. intros m [Hp Hm]%list_elem_of_filter. by rewrite (proj1 (Hset m eq_refl Hm)) in Hp. }
  unfold syncMachineConfigPoolsStatuses.
  destruct (sync_pools_spec (nro_Name j) (r_ForwardMCPConds r) waits (tree_MCPs tree) [])
    as [[-> _]|(pre & m & post & f & E & Hwm & Hf & _)].
  - rewrite decide_False by (intros Hx; by apply Hx). by rewrite decide_False by (intros Hx; by apply Hx).
  - exfalso. assert (m ∈ tree_MCPs tree) as Hm by (rewrite E; set_solver).
    destruct (Hw _ _ Hwm) as [(-> & m' & sel & Hm' & Hn & Hsel)|Hx]; [|by rewrite lookup_empty in Hx].
    apply (NoDup_fmap_inj_in mcp_Name _ m' m Hnd Hm' Hm) in Hn as ->.
    destruct (Hset m eq_refl Hm) as [_ Hup]. destruct (Hup sel Hsel) as [_ Hu]. congruence.
Qed.

Lemma mc_in_place_same i j w tree mc mcp sel :
  same_owner i j -> mc_in_place w i tree mc mcp sel -> mc_in_place w j tree mc mcp sel.
Proof.
  intros E. unfold mc_in_place. rewrite (nro_Name_same i j E). destruct (custom_policy tree); [|done].
  intros [Hs Hv]. split; [by apply (settled_same i j)|]. by rewrite (owned_same i j).
Qed.

Lemma mcs_in_place_same i j w mf tree : same_owner i j -> mcs_in_place w i mf tree -> mcs_in_place w j mf tree.
Proof.
  intros E Hs mc mcp Hmc Hm. destruct (Hs mc mcp Hmc Hm) as [Hp Hall]. split; [done|]. intros sel Hsel.
  destruct (Hall sel Hsel) as [Hi Hu]. split; [by apply (mc_in_place_same i j)|]. by rewrite (nro_Name_same i j E).
Qed.

Lemma mcs_in_place_frame w w' i mf tree :
  mc_manifest mf ->
  (forall mcp, mcp ∈ tree_MCPs tree ->
     cli_Get w' TMachineConfig (mc_key (nro_Name i) mcp) = cli_Get w TMachineConfig (mc_key (nro_Name i) mcp)) ->
  mcs_in_place w i mf tree -> mcs_in_place w' i mf tree.
Proof.
  intros Hman E Hs mc mcp Hmc Hm. destruct (Hman mc Hmc) as (Hty & Hns & _).
  destruct (Hs mc mcp Hmc Hm) as [Hp Hall]. split; [done|]. intros sel Hsel.
  destruct (Hall sel Hsel) as [Hi Hu]. split; [|done].
  apply (mc_in_place_frame i tree mc Hty Hns w); [by apply E|done].
Qed.

(** ** The daemon sets of a tree *)

Lemma FindState_complete em mf tree seen seen' states :
  (em_helper em = nodeGroupFinder -> is_Some (tree_NodeGroup tree ≫= ng_PoolName)) ->
  target_states em mf tree (targets (em_helper em) tree) seen = Ret (seen', states) ->
  FindState em mf tree seen = Ret (seen', states).
Proof.
  unfold FindState, targets. intros Hname. destruct (em_helper em).
  - assert (forall pools seen ret sts, target_states em mf tree (mcp_target <$> pools) seen = Ret (seen', sts) ->
      go_fold (fun '(seen, ret) mcp =>
        let! (seen, st) := target_state em mf tree (mcp_target mcp) seen in Ret (seen, ret ++ [st]))
        (seen, ret) pools = Ret (seen', ret ++ sts)) as Hg.
    { induction pools as [|p pools IH]; intros s ret sts; rewrite ?fmap_cons; cbn [go_fold target_states].
      { intros [= -> <-]. by rewrite app_nil_r. }
      destruct (target_state em mf tree (mcp_target p) s) as [[s1 st]|]; cbn [go_bind]; [|done].
      destruct (target_states em mf tree (mcp_target <$> pools) s1) as [[s2 sts']|] eqn:E; cbn [go_bind]; [|done].
      intros [= -> <-]. rewrite (IH s1 (ret ++ [st]) sts' E). by rewrite <-app_assoc. }
    apply (Hg _ _ []).
  - destruct (Hname eq_refl) as [p Hp]. destruct (tree_NodeGroup tree) as [ng|]; simpl in *; [|done]. rewrite Hp. simpl.
    change (daemonset_state _ _ _ _ _ _ _ _ _) with (target_state em mf tree (pool_target p) seen).
    by destruct (target_state _ _ _ _ _) as [[s1 st]|]; simpl.
Qed.

(** Where the daemon sets of a tree are in place, its second half writes nothing
    and is done. *)
Lemma ds_half_noop v r j em tree dss :
  let tgs := targets (em_helper em) tree in
  tree_loaded sha256_hex v em -> om_Namespace (ds_Meta (mf_DaemonSet (r_RTEManifests r))) = em_namespace em ->
  (em_helper em = nodeGroupFinder -> is_Some (tree_NodeGroup tree ≫= ng_PoolName)) ->
  Forall (target_loaded em) tgs ->
  Forall2 (wanted sha256_hex v em (r_RTEManifests r) tree (r_RTEMetricsTLS r)) tgs dss ->
  Forall (in_place v j) dss ->
  reconcilePerTreeDaemonSet v r j em tree
  = Ret (v, mkPerTreeResult (zip_with recorded tgs dss) [] ∅ StepSuccess).
Proof.
  intros tgs Hl Hns Hname Hld Hw Hin. unfold reconcilePerTreeDaemonSet. set (em1 := WithManifestsUpdater em _).
  unfold PerTreeState. rewrite (FindState_complete em1 (r_RTEManifests r) tree [] _ _ Hname
    (target_states_wanted sha256_hex v em1 _ tree (r_RTEMetricsTLS r) tgs dss [] Hl eq_refl Hns Hld Hw)).
  cbn [go_bind app]. rewrite applyObjects_noop.
  - cbn [go_bind]. rewrite (daemonsets_step_ready v); [done|]. clear -Hw Hin.
    induction Hw as [|tg ds tgs dss _ _ IH]; [constructor|]. apply Forall_cons in Hin as [[_ Hr] Hin].
    constructor; [done|by apply IH].
  - apply Forall_fmap, Forall_forall. intros ds _. constructor.
  - apply Forall_fmap. eapply Forall_impl; [exact Hin|]. by intros ds [Hs _].
Qed.

Lemma in_place_same i j w ds : same_owner i j -> in_place w i ds -> in_place w j ds.
Proof. intros E [Hs Hr]. split; [by apply (settled_same i j)|done]. Qed.

(** ** A tree, and all of them *)

Section Trees.
Context (r : Reconciler) (existing : ExistingManifests) (instanceName : string).
Hypothesis Hman : mc_manifest (r_RTEManifests r).
Hypothesis Hns : om_Namespace (ds_Meta (mf_DaemonSet (r_RTEManifests r))) = em_namespace existing.
Hypothesis Hplat : em_plat existing = r_Platform r.
Hypothesis Hname : em_instanceName existing = instanceName.

Notation tree_targets := (targets (helper_for (r_Platform r))).
Notation wanted_now w tree :=
  (wanted sha256_hex w existing (r_RTEManifests r) (normalized tree) (r_RTEMetricsTLS r)).

(** A tree whose group names its pool where the platform has no other, and whose
    pools have distinct, proper names, those its daemon sets are kept for. *)
Record named_tree (tree : Tree) : Prop := {
  nt_group : is_Some (tree_NodeGroup tree);
  nt_pool : r_Platform r <> platform.OpenShift -> is_Some (tree_NodeGroup tree ≫= ng_PoolName);
  nt_names : forall mcp, mcp ∈ tree_MCPs tree -> mcp_Name mcp <> "";
  nt_distinct : NoDup (mcp_Name <$> tree_MCPs tree);
  nt_kept : forall tg, tg ∈ tree_targets tree -> tg_pool tg ∈ tree_pools tree }.

(** What a tree may write, exactly. *)
Definition tree_ids (tree : Tree) (id : gotype * NamespacedName) : Prop :=
  tree_mc_ids instanceName (tree_MCPs tree) id \/ target_ids existing (tree_targets tree) id.

(** The machine configs and the daemon sets of a tree, in place. *)
Definition tree_in_place (w : W) (i : NUMAResourcesOperator) (tree : Tree) (dss : list DaemonSet) : Prop :=
  (r_Platform r = platform.OpenShift -> mcs_in_place w i (r_RTEManifests r) (normalized tree)) /\
  Forall2 (wanted_now w tree) (tree_targets tree) dss /\ Forall (in_place w i) dss.

(** The result of a tree that is done. *)
Definition tree_result (tree : Tree) (dss : list DaemonSet) : PerTreeResult :=
  mkPerTreeResult (zip_with recorded (tree_targets tree) dss)
    (if decide (r_Platform r = platform.OpenShift) then ptr_NROMCPs (mc_result r (normalized tree)) else [])
    ∅ StepSuccess.

Lemma tree_targets_normalized tree em :
  is_Some (tree_NodeGroup tree) -> em_helper em = helper_for (em_plat existing) ->
  targets (em_helper em) (normalized tree) = tree_targets tree.
Proof.
  intros [ng Hng] ->. rewrite Hplat. apply (targets_normalized _ tree _ ng (Some (NormalizeConfig ng))); [done|done|].
  unfold normalized. simpl. by rewrite Hng.
Qed.

Lemma tree_pools_loaded em tree w :
  r_Platform r = platform.OpenShift -> named_tree tree -> PerTree sha256_hex w existing (normalized tree) = Ret em ->
  pools_loaded em (normalized tree) /\ em_instanceName em = instanceName.
Proof.
  intros Hp Hnt Hem. destruct (PerTree_loaded sha256_hex _ _ _ _ Hem) as (_ & Hctx & _ & _ & Hmcs).
  destruct Hctx as (_ & _ & Hc & _). split; [|congruence]. intros mcp Hm. split; [by apply (nt_names tree)|].
  rewrite Hc. apply Hmcs; [congruence|done].
Qed.

(** When a tree is done, it is in place, and only its objects were written. *)
Lemma reconcile_tree_settles w i results tree w' i' results' :
  healthy w -> named_tree tree -> nro_Name i = instanceName -> NoDup (tg_pool <$> tree_targets tree) ->
  reconcile_tree sha256_hex r existing (w, i, results) tree = Ret (w', i', results') ->
  exists res, results' = results ++ [res] /\ (Done (ptr_Step res) = true ->
    exists dss, res = tree_result tree dss /\ tree_in_place w' i tree dss /\ only_writes (tree_ids tree) w w').
Proof.
  intros Hh Hnt Hi Hnd (em & w1 & mcRes & En & Hem & Emc & Hcase)%reconcile_tree_inv.
  destruct (normalize_tree_normalized _ _ _ _ En) as [_ Hmeta].
  destruct (PerTree_loaded sha256_hex _ _ _ _ Hem) as (Hl & Hctx & Hhelp & Htl & _).
  pose proof (tree_targets_normalized tree em (nt_group tree Hnt) Hhelp) as Htg.
  destruct Hcase as [(_ & Hs & _ & ->)|(Hgo & dsRes & Eds & ->)]; [exists mcRes; by rewrite Hs|].
  eexists. split; [reflexivity|]. cbn [ptr_Step]. intros Hd.
  assert (ptr_NROMCPs mcRes = (if decide (r_Platform r = platform.OpenShift)
                               then ptr_NROMCPs (mc_result r (normalized tree)) else []) /\
    ptr_PausedMCPNames mcRes = ∅ /\
    (r_Platform r = platform.OpenShift -> mcs_in_place w1 i (r_RTEManifests r) (normalized tree)) /\
    only_writes (tree_mc_ids instanceName (tree_MCPs tree)) w w1) as (Hres & Hpaused & Hmcs & Hw1).
  { destruct (decide (r_Platform r = platform.OpenShift)) as [Hp|Hp].
    - destruct (tree_pools_loaded em tree w Hp Hnt Hem) as [Hld Hen].
      assert (nro_Name i' = instanceName) as Hi' by (unfold nro_Name; by rewrite Hmeta).
      destruct (mc_half_done w r i' em (normalized tree) w1 mcRes) as (-> & Hin & Hw1); try done.
      + congruence.
      + apply (nt_distinct tree Hnt).
      + apply not_false_is_true. intros Hx. by apply Hgo.
      + split_and!; [done|done| |by rewrite <-Hi'].
        intros _. apply (mcs_in_place_same i' i); [|done]. repeat split; by rewrite Hmeta.
    - injection Emc as <- <-. split_and!; [done|done|done|apply only_writes_refl]. }
  destruct (reconcilePerTreeDaemonSet_done healthy sha256_hex w1 w r i' em (normalized tree) w' dsRes) as (_ & _ & Hdone);
    try done.
  - by apply Hw1.
  - intros k. apply Hw1. by intros (m & _ & _ & ?).
  - rewrite Hns. symmetry. apply Hctx.
  - by rewrite Htg.
  - destruct (Hdone Hd) as (dss & Hwant & Hroll & Hinfo & Hstep & Hw2). rewrite Htg in *. exists dss.
    assert (Forall2 (wanted_now w tree) (tree_targets tree) dss) as Hwant'.
    { eapply Forall2_impl; [exact Hwant|]. intros tg ds. apply (wanted_context sha256_hex _ _ _ _ _ _ _ _ Hctx). }
    assert (forall t k, t <> TDaemonSet -> cli_Get w' t k = cli_Get w1 t k) as Hother.
    { intros t k Ht. apply Hw2. intros (tg & _ & E). by injection E as -> _. }
    split_and!.
    + unfold tree_result. by rewrite Hinfo, Hres, Hpaused, Hstep.
    + split_and!.
      * intros Hp. apply (mcs_in_place_frame w1); [done|by intros; apply Hother|by apply Hmcs].
      * eapply Forall2_impl; [exact Hwant'|]. intros tg ds. apply (wanted_frame sha256_hex w').
        intros k. rewrite Hother by done. symmetry. apply Hw1. by intros (m & _ & _ & ?).
      * eapply Forall_impl; [exact Hroll|]. intros ds. by apply in_place_meta.
    + apply (only_writes_trans _ _ _ w1).
      * eapply only_writes_weaken; [|exact Hw1]. intros id ?. by left.
      * eapply only_writes_weaken; [|exact Hw2]. intros id Hid. right. by apply (target_ids_context _ _ _ _ Hctx).
Qed.

Lemma tree_in_place_frame ids w w' i tree dss :
  nro_Name i = instanceName ->
  only_writes ids w w' -> (forall k, ~ ids (TConfigMap, k)) ->
  (r_Platform r = platform.OpenShift -> forall mcp, mcp ∈ tree_MCPs tree -> ~ ids (TMachineConfig, mc_key instanceName mcp)) ->
  (forall tg, tg ∈ tree_targets tree -> ~ ids (TDaemonSet, target_key existing tg)) ->
  tree_in_place w i tree dss -> tree_in_place w' i tree dss.
Proof.
  intros Hi [_ Hw] Hcm Hmc Hds (Hm & Hwant & Hin). split_and!.
  - intros Hp. apply (mcs_in_place_frame w); [done| |by apply Hm]. intros mcp Hmcp. apply Hw. rewrite Hi. by apply Hmc.
  - eapply Forall2_impl; [exact Hwant|]. intros tg ds. apply (wanted_frame sha256_hex w'). intros k. symmetry. by apply Hw.
  - clear Hm. induction Hwant as [|tg ds tgs dss Hwt _ IH]; [constructor|]. apply Forall_cons in Hin as [Hd Hin].
    constructor; [|apply IH; [by intros; apply Hds; right|done]]. apply (in_place_frame w); [|done].
    apply Hw. rewrite (wanted_key sha256_hex w existing _ _ _ Hns tg ds Hwt). apply Hds. by left.
Qed.

(** What the trees may write, all together. *)
Definition trees_ids (trees : list Tree) (id : gotype * NamespacedName) : Prop :=
  exists tree, tree ∈ trees /\ tree_ids tree id.

Notation all_targets trees := (trees ≫= (fun t => tg_pool <$> tree_targets t)).

(** The objects of the trees of other pools are other objects. *)
Lemma tree_disjoint tree trees :
  NoDup (all_targets (tree :: trees)) ->
  (r_Platform r = platform.OpenShift -> forall mcp, mcp ∈ tree_MCPs tree ->
     ~ trees_ids trees (TMachineConfig, mc_key instanceName mcp)) /\
  (forall tg, tg ∈ tree_targets tree -> ~ trees_ids trees (TDaemonSet, target_key existing tg)).
Proof.
  rewrite bind_cons. intros (_ & Hdisj & _)%NoDup_app. split.
  - intros Hp mcp Hm (t & Ht & [(m & Hm' & _ & E)|(tg & _ & ?)]); [|done].
    apply (f_equal snd) in E. destruct (decide (mcp_Name mcp = mcp_Name m)) as [En|Hne]; [|by apply (mc_key_ne instanceName) in Hne].
    assert (forall t m, m ∈ tree_MCPs t -> mcp_Name m ∈ tg_pool <$> tree_targets t) as Hin.
    { intros t0 m0 Hm0. unfold helper_for. rewrite decide_True by done. simpl. rewrite <-list_fmap_compose.
      by apply (list_elem_of_fmap_2 (tg_pool ∘ mcp_target)). }
    apply (Hdisj (mcp_Name mcp)); [by apply Hin|]. apply list_elem_of_bind. exists t. split; [|done].
    rewrite En. by apply Hin.
  - intros tg Htg (t & Ht & [(m & _ & _ & ?)|(tg' & Htg' & E)]); [done|].
    apply (f_equal snd), target_key_inj in E. apply (Hdisj (tg_pool tg)); [by apply list_elem_of_fmap_2|].
    apply list_elem_of_bind. exists t. split; [|done]. rewrite E. by apply list_elem_of_fmap_2.
Qed.

Lemma tree_ids_no_config_map tree k : ~ tree_ids tree (TConfigMap, k).
Proof. by intros [(m & _ & _ & ?)|(tg & _ & ?)]. Qed.

Lemma tree_in_place_same w i j tree dss :
  same_owner i j -> tree_in_place w i tree dss -> tree_in_place w j tree dss.
Proof.
  intros Ho (Hm & Hwant & Hin). split_and!; [|done|].
  - intros Hp. by apply (mcs_in_place_same i), Hm.
  - eapply Forall_impl; [exact Hin|]. intros ds. by apply in_place_same.
Qed.

Lemma meta_same_owner i j : nro_Meta j = nro_Meta i -> same_owner i j.
Proof. intros E. repeat split; by rewrite E. Qed.

(** Trees that are all done are all in place at the end. *)
Lemma loop_settles trees w i results w' i' results' :
  healthy w -> Forall named_tree trees -> nro_Name i = instanceName -> NoDup (all_targets trees) ->
  go_fold (reconcile_tree sha256_hex r existing) (w, i, results) trees = Ret (w', i', results') ->
  exists new, results' = results ++ new /\ (Forall (fun res => Done (ptr_Step res) = true) new ->
    exists dsss, new = zip_with tree_result trees dsss /\ Forall2 (tree_in_place w' i) trees dsss /\
      only_writes (trees_ids trees) w w').
Proof.
  intros Hh Hnt. revert w i results Hh. induction Hnt as [|tree trees Htree Htrees IH]; intros w i results Hh Hi Hnd Hrun.
  { simpl in Hrun. injection Hrun as <- _ <-. exists []. rewrite app_nil_r. split; [done|]. intros _. exists [].
    split; [done|]. split; [constructor|]. apply only_writes_refl. }
  cbn [go_fold] in Hrun. pose proof Hnd as Hnd0. rewrite bind_cons in Hnd. apply NoDup_app in Hnd as (Hnd1 & _ & Hnd2).
  destruct (reconcile_tree sha256_hex r existing (w, i, results) tree) as [[[w1 i1] results1]|] eqn:Et;
    cbn [go_bind] in Hrun; [|done].
  destruct (reconcile_tree_settles _ _ _ _ _ _ _ Hh Htree Hi Hnd1 Et) as (res & -> & Hdone).
  destruct (reconcile_tree_done healthy sha256_hex r existing) with (w := w) (instance := i) (results := results)
    (tree := tree) (w' := w1) (i' := i1) (results' := results ++ [res]) as (Hh1 & Hm1 & _); try done.
  { intros mc Hmc. by apply Hman. }
  { by rewrite Hplat. }
  destruct (IH w1 i1 (results ++ [res]) Hh1) as (new & -> & Hdones); [unfold nro_Name in *; by rewrite Hm1|done|done|].
  exists (res :: new). split; [by rewrite <-app_assoc|]. intros [Hd Hds]%Forall_cons.
  destruct (Hdone Hd) as (dss & -> & Hin & Hw1). destruct (Hdones Hds) as (dsss & -> & Hins & Hw2).
  destruct (tree_disjoint tree trees Hnd0) as [Hd1 Hd2].
  exists (dss :: dsss). split; [done|]. split; [constructor|].
  - apply (tree_in_place_frame (trees_ids trees) w1); try done. by intros k (t & _ & ?%tree_ids_no_config_map).
  - eapply Forall2_impl; [exact Hins|]. intros t l. by apply tree_in_place_same, meta_same_owner.
  - apply (only_writes_trans _ _ _ w1); (eapply only_writes_weaken; [|eassumption]).
    + intros id Hid. exists tree. split; [by left|done].
    + intros id (t & Ht & Hid). exists t. split; [by right|done].
Qed.

(** The groups of the specification once a tree, or all, went through the loop. *)
Definition with_tree_group (ngs : list NodeGroup) (tree : Tree) : list NodeGroup :=
  match tree_NodeGroup tree with
  | Some ng => <[tree_Index tree := ng_with_Config ng (Some (NormalizeConfig ng))]> ngs
  | None => ngs
  end.

Definition with_tree_groups (trees : list Tree) (i : NUMAResourcesOperator) : NUMAResourcesOperator :=
  nro_with_NodeGroups (fold_left with_tree_group trees (spec_NodeGroups (nro_Spec i))) i.

Lemma with_tree_groups_nil i : with_tree_groups [] i = i.
Proof. by destruct i as [? [] ?]. Qed.

Lemma normalize_tree_groups i tree :
  is_Some (tree_NodeGroup tree) -> normalize_tree i tree = Ret (with_tree_groups [tree] i, normalized tree).
Proof. intros [ng Hng]. unfold normalize_tree, normalized, with_tree_groups, with_tree_group. cbn [fold_left]. by rewrite Hng. Qed.

Lemma loop_groups trees w i results w' i' results' :
  Forall named_tree trees ->
  go_fold (reconcile_tree sha256_hex r existing) (w, i, results) trees = Ret (w', i', results') ->
  i' = with_tree_groups trees i.
Proof.
  intros Hnt. revert w i results. induction Hnt as [|tree trees Htree _ IH]; intros w i results Hrun.
  { simpl in Hrun. injection Hrun as _ <- _. by rewrite with_tree_groups_nil. }
  cbn [go_fold] in Hrun.
  destruct (reconcile_tree sha256_hex r existing (w, i, results) tree) as [[[w1 i1] results1]|] eqn:Et;
    cbn [go_bind] in Hrun; [|done].
  apply IH in Hrun. apply reconcile_tree_inv in Et as (_ & _ & _ & En & _).
  rewrite normalize_tree_groups in En by apply Htree. injection En as <-. exact Hrun.
Qed.

Lemma PerTree_total v tree :
  named_tree tree -> exists em, PerTree sha256_hex v existing (normalized tree) = Ret em.
Proof.
  intros Hnt. unfold PerTree, UpdateFromClient, helper_for. simpl. rewrite Hplat. case_decide as Hp; [by eexists|].
  destruct (nt_pool tree Hnt Hp) as [p Hpn]. destruct (tree_NodeGroup tree) as [ng|]; simpl in *; [|done].
  rewrite Hpn. by eexists.
Qed.

(** A tree that is in place is left alone. *)
Lemma reconcile_tree_noop v j results tree dss :
  named_tree tree -> nro_Name j = instanceName -> tree_in_place v j tree dss ->
  reconcile_tree sha256_hex r existing (v, j, results) tree
  = Ret (v, with_tree_groups [tree] j, results ++ [tree_result tree dss]).
Proof.
  intros Hnt Hj (Hm & Hwant & Hin). unfold reconcile_tree. rewrite normalize_tree_groups by apply Hnt. cbn [go_bind].
  destruct (PerTree_total v tree Hnt) as [em Hem]. rewrite Hem. cbn [go_bind].
  destruct (PerTree_loaded sha256_hex _ _ _ _ Hem) as (Hl & Hctx & Hhelp & Htl & _).
  pose proof (tree_targets_normalized tree em (nt_group tree Hnt) Hhelp) as Htg.
  set (j1 := with_tree_groups [tree] j).
  assert (same_owner j j1) as Ho by done.
  assert (reconcilePerTreeDaemonSet v r j1 em (normalized tree)
          = Ret (v, mkPerTreeResult (zip_with recorded (tree_targets tree) dss) [] ∅ StepSuccess)) as Eds.
  { rewrite <-Htg. apply ds_half_noop; [done| | |done| |].
    - rewrite Hns. symmetry. apply Hctx.
    - rewrite Hhelp, Hplat. unfold helper_for. case_decide as Hp; [done|]. intros _.
      destruct (nt_pool tree Hnt Hp) as [p Hpn]. destruct (tree_NodeGroup tree) as [ng|] eqn:Hng; simpl in *; [|done].
      rewrite Hng. simpl. by exists p.
    - rewrite Htg. eapply Forall2_impl; [exact Hwant|]. intros tg ds.
      apply (wanted_context sha256_hex _ _ _ _ _ _ _ _ Hctx).
    - eapply Forall_impl; [exact Hin|]. intros ds. by apply in_place_same. }
  unfold tree_result. destruct (decide (r_Platform r = platform.OpenShift)) as [Hp|Hp].
  - destruct (tree_pools_loaded em tree v Hp Hnt Hem) as [_ Hen].
    rewrite (mc_half_noop v r j1 em (normalized tree)); try done.
    + cbn [go_bind ptr_Step mc_result]. rewrite decide_False by (intros [_ Hx]; done). by rewrite Eds.
    + by rewrite Hen.
    + apply (nt_distinct tree Hnt).
    + apply (mcs_in_place_same j); [done|by apply Hm].
  - cbn [go_bind]. rewrite decide_False by (by intros [? _]). by rewrite Eds.
Qed.

Lemma loop_noop v j results trees dsss :
  Forall named_tree trees -> nro_Name j = instanceName -> Forall2 (tree_in_place v j) trees dsss ->
  go_fold (reconcile_tree sha256_hex r existing) (v, j, results) trees
  = Ret (v, with_tree_groups trees j, results ++ zip_with tree_result trees dsss).
Proof.
  intros Hnt Hj Hall. revert j results Hj Hnt Hall. revert dsss.
  induction trees as [|tree trees IH]; intros dsss j results Hj Hnt Hall; apply Forall2_cons_inv_l in Hall || apply Forall2_nil_inv_l in Hall.
  { subst. simpl. by rewrite with_tree_groups_nil, app_nil_r. }
  destruct Hall as (dss & dsss' & Hin & Hall & ->). apply Forall_cons in Hnt as [Htree Hnt].
  cbn [go_fold]. rewrite (reconcile_tree_noop v j results tree dss) by done. cbn [go_bind].
  rewrite (IH dsss' (with_tree_groups [tree] j)); [|done|done|].
  - cbn [zip_with]. by rewrite <-app_assoc.
  - eapply Forall2_impl; [exact Hall|]. intros t l. by apply tree_in_place_same, meta_same_owner.
Qed.
End Trees.

(** ** Accepted trees *)

Lemma find_by_name_name mcps name mcp : mcp ∈ find_by_name mcps name -> mcp_Name mcp = name.
Proof.
  induction mcps as [|m mcps IH]; simpl; [by intros ?%elem_of_nil|]. case_decide as E; [|done].
  intros ->%list_elem_of_singleton. done.
Qed.

(** The trees of an accepted specification, when every pool has a name. *)
Lemma accepted_named w r ngs annots trees tolerable :
  NodeGroups ngs (r_Platform r) = None ->
  getTreesByNodeGroup show_node_group w ngs (r_Platform r) = inl trees ->
  NodeGroupsTree annots trees (r_Platform r) = (tolerable, None) ->
  (forall tree mcp, tree ∈ trees -> mcp ∈ tree_MCPs tree -> mcp_Name mcp <> "") ->
  Forall (named_tree r) trees.
Proof.
  intros Hv Ht Hn Hnames. pose proof (accepted_pools_distinct _ _ _ _ _ _ _ Hv Ht Hn) as Hnd.
  apply NodeGroups_valid in Hv. apply Forall_forall. intros tree Htree.
  assert (NoDup (tg_pool <$> targets (helper_for (r_Platform r)) tree)) as Hnd1.
  { clear -Hnd Htree. induction trees as [|t trees IH]; [by apply elem_of_nil in Htree|].
    rewrite bind_cons in Hnd. apply NoDup_app in Hnd as (H1 & _ & H2). apply elem_of_cons in Htree as [->|?]; [done|by apply IH]. }
  unfold getTreesByNodeGroup in Ht. unfold helper_for in *. destruct (r_Platform r) eqn:Hp; try done.
  - destruct (cli_ListMCP w) as [mcps|]; [|done]. unfold FindTreesOpenshift in Ht. rewrite find_trees_from_spec in Ht.
    destruct (list_find _ _) as [[]|]; [done|]. injection Ht as <-.
    pose proof Htree as (i & ng & l & Hi & Hl & Et)%elem_of_trees_from.
    assert (single_specifier ng) as Hss.
    { pose proof (vng_specifier _ _ Hv) as Hs. rewrite Forall_forall in Hs. by apply Hs, (list_elem_of_lookup_2 _ i). }
    assert (forall tg, tg ∈ mcp_target <$> tree_MCPs tree -> exists mcp, mcp ∈ tree_MCPs tree /\ tg_pool tg = mcp_Name mcp) as Htg.
    { intros tg (mcp & -> & Hm)%list_elem_of_fmap. by exists mcp. }
    split; unfold helper_for; rewrite ?Hp.
    + rewrite Et. by eexists.
    + done.
    + intros mcp Hm. by apply (Hnames tree).
    + simpl in Hnd1. by rewrite <-list_fmap_compose in Hnd1.
    + intros tg (mcp & Hm & ->)%Htg. unfold tree_pools. rewrite Et. simpl.
      destruct (ng_PoolName ng) as [p|] eqn:Epn; [|rewrite Et in Hm; by apply list_elem_of_fmap_2].
      rewrite Et in Hm. unfold tree_MCPs in Hm. simpl in Hm. unfold node_group_mcps in Hl. rewrite Epn in Hl.
      destruct Hss as [Hss _]. destruct (ng_MachineConfigPoolSelector ng); [by rewrite Epn in Hss; discriminate Hss|].
      injection Hl as <-. rewrite (find_by_name_name _ _ _ Hm). by left.
  - injection Ht as <-. pose proof (vng_hypershift _ _ Hv eq_refl) as Hh.
    unfold FindTreesHypershift in Htree. apply elem_of_lookup_imap in Htree as (i & ng & -> & Hi).
    rewrite Forall_forall in Hh. destruct (Hh ng (list_elem_of_lookup_2 _ _ _ Hi)) as [_ [p Hpn]].
    split; unfold helper_for; rewrite ?Hp.
    + by eexists.
    + intros _. simpl. rewrite Hpn. by eexists.
    + intros mcp Hm. by apply elem_of_nil in Hm.
    + constructor.
    + intros tg Htg. simpl in Htg. rewrite Hpn in Htg. simpl in Htg. apply list_elem_of_singleton in Htg as ->.
      unfold tree_pools. simpl. rewrite Hpn. by left.
Qed.

(** ** The deletions *)

(** The objects the deletions may touch: daemon sets and machine configs of no
    pool of the trees. *)
Definition unused_ids (instanceName : string) (trees : list Tree) (id : gotype * NamespacedName) : Prop :=
  (fst id = TDaemonSet /\ forall tree p, tree ∈ trees -> p ∈ tree_pools tree ->
     nn_Name (snd id) <> objectnames.GetComponentName instanceName p) \/
  (fst id = TMachineConfig /\ forall tree mcp, tree ∈ trees -> mcp ∈ tree_MCPs tree ->
     nn_Name (snd id) <> objectnames.GetMachineConfigName instanceName (mcp_Name mcp)).

Lemma expectedMachineConfigNames_elem instanceName trees tree mcp :
  tree ∈ trees -> mcp ∈ tree_MCPs tree ->
  objectnames.GetMachineConfigName instanceName (mcp_Name mcp) ∈ expectedMachineConfigNames instanceName trees.
Proof.
  intros Ht Hm. unfold expectedMachineConfigNames.
  assert (forall acc : gset string, tree ∈ trees \/ objectnames.GetMachineConfigName instanceName (mcp_Name mcp) ∈ acc ->
    objectnames.GetMachineConfigName instanceName (mcp_Name mcp) ∈
      fold_left (fun names tree => fold_left (fun names mcp =>
        names ∪ {[objectnames.GetMachineConfigName instanceName (mcp_Name mcp)]}) (tree_MCPs tree) names) trees acc)
    as Hg; [|by apply Hg; left].
  clear Ht. induction trees as [|t trees IH]; intros acc; simpl.
  { intros [Ht|?]; [by apply elem_of_nil in Ht|done]. }
  intros [[->|?]%elem_of_cons|?]; apply IH; [right|by left|right]; rewrite (fold_union_names (objectnames.GetMachineConfigName instanceName)); [right; by exists mcp|by left].
Qed.

Lemma remove_unused_only platf w i trees :
  healthy w -> Forall (fun t => is_Some (tree_NodeGroup t)) trees ->
  exists w', remove_unused platf w i trees = Ret w' /\ only_writes (unused_ids (nro_Name i) trees) w w'.
Proof.
  intros Hh Hgroups. unfold remove_unused.
  assert (exists w1 err, DeleteUnusedDaemonSets w i trees = Ret (w1, err) /\
    only_writes (unused_ids (nro_Name i) trees) w w1) as (w1 & err & -> & Hw1).
  { unfold DeleteUnusedDaemonSets. destruct (cli_List w TDaemonSet _) as [items|e] eqn:El.
    2: { do 2 eexists. split; [done|]. apply only_writes_refl. }
    pose proof (law_list_type _ _ _ _ Hh El) as Hty. rewrite Forall_forall in Hty.
    destruct (buildDaemonSetNames_spec (nro_Name i) trees Hgroups) as (names & -> & Hnames). cbn [go_bind].
    pose proof (delete_unused_only healthy (om_UID (nro_Meta i)) names items w) as Ho.
    destruct (delete_unused _ names items w) as [w1 err]. exists w1, err. split; [done|].
    eapply only_writes_weaken; [|exact Ho]. intros id (o & Hin & [_ Hn] & ->). left. simpl.
    split; [by apply Hty|]. intros tree p Ht Hp E. apply Hn.
    assert (obj_Name o = objectnames.GetComponentName (nro_Name i) p) as -> by exact E. apply Hnames. by exists tree. }
  cbn [go_bind]. eexists. split; [reflexivity|]. case_decide; [|done].
  apply (only_writes_trans _ _ _ w1); [done|]. unfold DeleteUnusedMachineConfigs.
  destruct (cli_List w1 TMachineConfig None) as [items|e] eqn:El; [|apply only_writes_refl].
  pose proof (law_list_type _ _ _ _ (proj1 Hw1 Hh) El) as Hty. rewrite Forall_forall in Hty.
  eapply only_writes_weaken; [|apply (delete_unused_only healthy)]. intros id (o & Hin & [_ Hn] & ->). right. simpl.
  split; [by apply Hty|]. intros tree mcp Ht Hm E. apply Hn.
  assert (obj_Name o = objectnames.GetMachineConfigName (nro_Name i) (mcp_Name mcp)) as -> by exact E.
  by apply (expectedMachineConfigNames_elem _ _ tree).
Qed.

(** What is in place survives them. *)
Lemma trees_survive r existing w w' i trees dsss :
  mc_manifest (r_RTEManifests r) -> om_Namespace (ds_Meta (mf_DaemonSet (r_RTEManifests r))) = em_namespace existing ->
  em_instanceName existing = nro_Name i ->
  Forall (named_tree r) trees -> only_writes (unused_ids (nro_Name i) trees) w w' ->
  Forall2 (tree_in_place r existing w i) trees dsss -> Forall2 (tree_in_place r existing w' i) trees dsss.
Proof.
  intros Hman Hns Hin Hnt Hw Hall.
  assert (forall tree dss, tree ∈ trees -> tree_in_place r existing w i tree dss -> tree_in_place r existing w' i tree dss) as Hg.
  { intros tree dss Ht. rewrite Forall_forall in Hnt.
    apply (tree_in_place_frame r existing (nro_Name i) Hman Hns (unused_ids (nro_Name i) trees)); [done|done| | |].
    - by intros k [[? _]|[? _]].
    - intros _ mcp Hm [[? _]|[_ Hx]]; [done|]. exact (Hx tree mcp Ht Hm eq_refl).
    - intros tg Htg [[_ Hx]|[? _]]; [|done]. apply (Hx tree (tg_pool tg) Ht); [exact (nt_kept r tree (Hnt tree Ht) tg Htg)|].
      unfold target_key. simpl. by rewrite Hin. }
  clear Hw Hnt. induction Hall as [|tree dss trees dsss Ht _ IH]; [constructor|].
  constructor; [apply Hg; [by left|done]|]. apply IH. intros t l Hin'. apply Hg. by right.
Qed.

Lemma trees_place r em em' w i trees dsss :
  em_plat em' = em_plat em -> em_instanceName em' = em_instanceName em -> em_namespace em' = em_namespace em ->
  Forall2 (tree_in_place r em w i) trees dsss -> Forall2 (tree_in_place r em' w i) trees dsss.
Proof.
  intros E1 E2 E3 Hall. eapply Forall2_impl; [exact Hall|]. intros tree dss (Hm & Hwant & Hin). split_and!; [done| |done].
  eapply Forall2_impl; [exact Hwant|]. intros tg ds. by apply (wanted_place sha256_hex).
Qed.

(** ** The topology API and the shared objects *)

(** The definition of the topologies is in place, or left to the cluster. *)
Definition api_in_place (w : W) (r : Reconciler) (i : NUMAResourcesOperator) : Prop :=
  annotations.IsNRTAPIDefinitionCluster (map_of (om_Annotations (nro_Meta i))) = true \/
  kept complete_plain w (r_APIManifests_Crd r).

Lemma api_states w r :
  manifests_ok r ->
  apistate.State (apistate.FromClient w (r_APIManifests_Crd r)) (r_APIManifests_Crd r)
  = [state_of w (obj_type (r_APIManifests_Crd r)) (r_APIManifests_Crd r) ObjectForUpdate].
Proof.
  intros Hok. unfold apistate.State, apistate.FromClient, state_of. rewrite (proj1 (mo_crd r Hok)).
  by destruct (load w _ _).
Qed.

Lemma api_done w r i w1 step :
  healthy w -> manifests_ok r -> reconcileResourceAPI w r i = Ret (w1, step) -> EarlyStop step = false ->
  api_in_place w1 r i.
Proof.
  intros Hh Hok. unfold reconcileResourceAPI, api_in_place, syncNodeResourceTopologyAPI.
  destruct (annotations.IsNRTAPIDefinitionCluster _); [by left|]. rewrite api_states by done.
  intros Hrun Hes. right.
  destruct (mo_crd r Hok) as [Ht Hk]. set (crd := r_APIManifests_Crd r) in *. revert Hrun Hes. cbn [apply_api].
  destruct (ApplyObject w _) as [[w2 [[o ch] [err|]]]|] eqn:Ha; cbn [go_bind].
  - rewrite (proj1 (state_of_fields w _ crd _)). cbn [iface_deref go_bind]. by intros [= <- <-].
  - intros [= <- <-] _. apply (ApplyObject_kept healthy w w2 o ch crd ObjectForUpdate); [done|constructor| |done].
    destruct (cli_Get w (obj_type crd) (obj_key crd)) as [o'|e] eqn:Hg.
    + by apply (read_mergeable healthy w).
    + destruct (IsNotFound e) eqn:Hn; [done|]. by rewrite (ApplyObject_failed_read w _ _ e Hg Hn) in Ha.
  - done.
Qed.

Lemma api_noop v r j :
  manifests_ok r -> api_in_place v r j -> reconcileResourceAPI v r j = Ret (v, StepSuccess).
Proof.
  intros Hok Hin. unfold reconcileResourceAPI, syncNodeResourceTopologyAPI.
  destruct (annotations.IsNRTAPIDefinitionCluster _) eqn:Ea; [done|]. destruct Hin as [Hin|Hin]; [by rewrite Ea in Hin|].
  rewrite api_states by done. cbn [apply_api].
  destruct (kept_noop v (r_APIManifests_Crd r) ObjectForUpdate complete_plain) as [m ->]; [constructor|done|]. done.
Qed.

Lemma shared_ids r r' i :
  setupTreeAgnosticManifests r i = Ret (r', None) ->
  (fun e => obj_id (en_obj e)) <$> shared_entries (r_RTEManifests r') = (fun e => obj_id (en_obj e)) <$> shared_entries (r_RTEManifests r).
Proof.
  intros (ds & scc & scc' & Hs & Hs' & ->)%setup_inv. unfold SecurityContextConstraint in Hs'.
  destruct (scc_SELinuxOptions scc); simpl in Hs'; [|done]. injection Hs' as <-.
  unfold shared_entries, slot_entry. simpl. rewrite Hs. by destruct (mf_SCCv2 (r_RTEManifests r)).
Qed.

Lemma setup_typed r r' i :
  manifests_typed (r_RTEManifests r) -> setupTreeAgnosticManifests r i = Ret (r', None) -> manifests_typed (r_RTEManifests r').
Proof.
  intros Hty Hset s o Hs. destruct (setup_slots _ _ _ _ _ Hset Hs) as (o0 & Hs0 & _ & -> & Hk).
  destruct (Hty s o0 Hs0). by auto.
Qed.

(** No shared object is a daemon set, a machine config, a config map or the
    definition of the topologies. *)
Lemma shared_entry_type mf e :
  manifests_typed mf -> e ∈ shared_entries mf ->
  entry_merges e /\ kind_ok (en_obj e) /\
  obj_type (en_obj e) ∉ [TDaemonSet; TMachineConfig; TConfigMap; TCustomResourceDefinition].
Proof.
  intros Hty (s & Hs)%elem_of_shared_entries. unfold slot_entry in Hs. apply fmap_Some in Hs as (d & Hd & ->).
  destruct (Hty s d Hd) as [Ht Hk]. unfold entry_merges. simpl. rewrite Ht. split; [apply slot_merger|]. split; [done|].
  refine (bool_decide_eq_true_1 _ _). by destruct s.
Qed.

(** The shared objects are in place once they were applied without error. *)
Lemma shared_done r r' i w em w2 :
  healthy w -> r_Platform r <> platform.Kubernetes -> manifests_typed (r_RTEManifests r) ->
  NoDup ((fun e => obj_id (en_obj e)) <$> shared_entries (r_RTEManifests r)) ->
  FromClientTreeAgnostic w (r_Platform r) (r_RTEManifests r) (nro_Name i) (r_Namespace r) = Ret em ->
  setupTreeAgnosticManifests r i = Ret (r', None) ->
  applyObjects w i (TreeAgnostic em (r_RTEManifests r')) = Ret (w2, None) ->
  Forall (settled i w2) (shared_entries (r_RTEManifests r')) /\
  forall t k, t ∈ [TDaemonSet; TMachineConfig; TConfigMap; TCustomResourceDefinition] -> cli_Get w2 t k = cli_Get w t k.
Proof.
  intros Hh Hp Hty Hnd Hem Hset Hrun. pose proof (setup_typed _ _ _ Hty Hset) as Hty'.
  rewrite (TreeAgnostic_entries w) in Hrun; [|done|].
  2: { intros s o Hs. destruct (setup_slots _ _ _ _ _ Hset Hs) as (o0 & Hs0 & -> & _ & _).
       by apply (FromClient_loads w _ _ _ _ _ _ _ Hp Hem). }
  destruct (applyObjects_settles_from healthy w w i (shared_entries (r_RTEManifests r')) w2 Hh) as [Hall Hfr];
    [| |by apply Forall_forall|done|].
  - apply Forall_forall. intros e He. destruct (shared_entry_type _ e Hty' He) as (HM & Hk & _).
    split; [done|]. intros o. by apply (read_mergeable healthy).
  - by rewrite (shared_ids _ _ _ Hset).
  - split; [done|]. intros t k Ht. apply Hfr, Forall_forall. intros e He E. injection E as -> _.
    by destruct (shared_entry_type _ e Hty' He) as (_ & _ & []).
Qed.

Lemma FromClient_total v r n ns :
  is_Some (mf_SCC (r_RTEManifests r)) -> is_Some (mf_SCCv2 (r_RTEManifests r)) ->
  exists em, FromClientTreeAgnostic v (r_Platform r) (r_RTEManifests r) n ns = Ret em.
Proof. intros [a Ha] [b Hb]. unfold FromClientTreeAgnostic. rewrite Ha, Hb. case_decide; by eexists. Qed.

Lemma shared_noop r v j em :
  r_Platform r <> platform.Kubernetes -> manifests_typed (r_RTEManifests r) ->
  FromClientTreeAgnostic v (r_Platform r) (r_RTEManifests r) (nro_Name j) (r_Namespace r) = Ret em ->
  Forall (settled j v) (shared_entries (r_RTEManifests r)) ->
  applyObjects v j (TreeAgnostic em (r_RTEManifests r)) = Ret (v, None).
Proof.
  intros Hp Hty Hem Hall. rewrite (TreeAgnostic_entries v) by (try done; intros; by eapply FromClient_loads).
  apply applyObjects_noop; [|done]. apply Forall_forall. intros e He. by apply (shared_entry_type (r_RTEManifests r)).
Qed.

(** ** The status *)

(** What a status reports besides its conditions. *)
Definition report (i : NUMAResourcesOperator)
  : list NamespacedName * list NROMachineConfigPool * list NodeGroupStatus * list ObjectReference :=
  let st := nro_Status i in (st_DaemonSets st, st_MachineConfigPools st, st_NodeGroups st, st_RelatedObjects st).

Lemma record_overall_report now now' r i j overall i' :
  nro_Spec j = nro_Spec i -> Done (ptr_Step overall) = true ->
  record_overall UnsortedList now r i overall = Ret i' ->
  exists j', record_overall UnsortedList now' r j overall = Ret j' /\ report j' = report i'.
Proof.
  intros Hspec Hd. unfold record_overall. rewrite Hd. unfold syncNodeGroupsStatus. cbn [nro_Status nro_Spec st_MachineConfigPools].
  rewrite Hspec. match goal with |- context [go_bind ?m _ = Ret i'] => destruct m as [ngs|]; cbn [go_bind]; [|done] end.
  intros [= <-]. eexists. split; [reflexivity|done].
Qed.

(** ** The whole reconciliation *)

Lemma setup_manifests_ok r r' i :
  manifests_ok r -> setupTreeAgnosticManifests r i = Ret (r', None) -> manifests_ok r'.
Proof.
  intros Hok Hset. pose proof (setup_typed _ _ _ (mo_typed r Hok) Hset) as Hty.
  apply setup_inv in Hset as (ds & scc & scc' & Hs & Hs' & ->). split; simpl; [done|apply (mo_mc r Hok)| |apply (mo_sccv2 r Hok)|apply (mo_crd r Hok)].
  exists scc'. split; [done|]. unfold SecurityContextConstraint in Hs'.
  destruct (scc_SELinuxOptions scc); simpl in Hs'; [|done]. injection Hs' as <-. by eexists.
Qed.

(** All a cluster holds of what reconciling [i] maintains. *)
Record steady (w : W) (r : Reconciler) (em : ExistingManifests) (i : NUMAResourcesOperator) (trees : list Tree)
  (dsss : list (list DaemonSet)) : Prop := {
  sd_api : api_in_place w r i;
  sd_shared : Forall (settled i w) (shared_entries (r_RTEManifests r));
  sd_trees : Forall2 (tree_in_place r em w i) trees dsss }.

(** Reconciling where all is in place. *)
Lemma reconcileResource_steady clk v r em j trees dsss :
  healthy v -> manifests_ok r -> mc_manifest (r_RTEManifests r) -> r_Platform r <> platform.Kubernetes ->
  om_Namespace (ds_Meta (mf_DaemonSet (r_RTEManifests r))) = r_Namespace r ->
  em_plat em = r_Platform r -> em_instanceName em = nro_Name j -> em_namespace em = r_Namespace r ->
  Forall (named_tree r) trees -> setupTreeAgnosticManifests r j = Ret (r, None) ->
  steady v r em j trees dsss ->
  exists v', remove_unused (r_Platform r) v j trees = Ret v' /\
    reconcileResource sha256_hex UnsortedList clk v r j trees
    = let overall := ReducePerTreeResults (zip_with (tree_result r) trees dsss) in
      let! j' := record_overall UnsortedList (ck_paused clk) r (with_tree_groups trees j) overall in
      Ret (v', r, j', ptr_Step overall).
Proof.
  intros Hh Hok Hman Hp Hns Epl Ein Ens Hnt Hset [Hapi Hshared Htrees].
  destruct (remove_unused_only (r_Platform r) v j trees Hh) as (v' & Hrm & Hv').
  { eapply Forall_impl; [exact Hnt|]. intros t Ht. apply Ht. }
  exists v'. split; [done|]. unfold reconcileResource. rewrite api_noop by done. cbn [go_bind].
  change (EarlyStop StepSuccess) with false. cbv iota.
  destruct (mo_scc r Hok) as (scc & Hs & _).
  destruct (FromClient_total v r (nro_Name j) (r_Namespace r)) as [em2 Hem2]; [by exists scc|apply (mo_sccv2 r Hok)|].
  rewrite Hem2. cbn [go_bind]. rewrite Hset. cbn [go_bind].
  rewrite (shared_noop r v j em2) by (try done; apply (mo_typed r Hok)). cbn [go_bind].
  destruct (FromClient_context _ _ _ _ _ _ Hem2) as (F1 & F2 & F3).
  assert (go_fold (reconcile_tree sha256_hex r em2) (v', j, []) trees
          = Ret (v', with_tree_groups trees j, zip_with (tree_result r) trees dsss)) as Hloop.
  { apply (loop_noop r em2 (nro_Name j)) with (results := []); try done; [congruence|].
    apply (trees_survive r em2 v v' j trees dsss); try done; [congruence|].
    apply (trees_place r em em2); [congruence|congruence|congruence|done]. }
  unfold remove_unused in Hrm. destruct (DeleteUnusedDaemonSets v j trees) as [[v1 e]|]; cbn [go_bind] in *; [|done].
  injection Hrm as Hrm. rewrite Hrm, Hloop. cbn [go_bind]. done.
Qed.

(** A reconciliation that is done leaves all in place. *)
Lemma reconcileResource_settles clk w r i trees w' r' i' step :
  healthy w -> manifests_ok r -> mc_manifest (r_RTEManifests r) -> r_Platform r <> platform.Kubernetes ->
  NoDup ((fun e => obj_id (en_obj e)) <$> shared_entries (r_RTEManifests r)) ->
  om_Namespace (ds_Meta (mf_DaemonSet (r_RTEManifests r))) = r_Namespace r ->
  Forall (named_tree r) trees ->
  NoDup (trees ≫= (fun t => tg_pool <$> targets (helper_for (r_Platform r)) t)) ->
  reconcileResource sha256_hex UnsortedList clk w r i trees = Ret (w', r', i', step) -> Done step = true ->
  exists em dsss, em_plat em = r_Platform r /\ em_instanceName em = nro_Name i /\ em_namespace em = r_Namespace r /\
    setupTreeAgnosticManifests r i = Ret (r', None) /\ steady w' r' em i trees dsss /\
    step = ptr_Step (ReducePerTreeResults (zip_with (tree_result r') trees dsss)) /\
    record_overall UnsortedList (ck_paused clk) r' (with_tree_groups trees i)
      (ReducePerTreeResults (zip_with (tree_result r') trees dsss)) = Ret i'.
Proof.
  intros Hh Hok Hman Hp Hnd Hns Hnt Hpools Hrun Hdone.
  destruct (reconcileResource_inv _ _ _ _ _ _ _ _ _ _ _ Hrun Hdone)
    as (w1 & step1 & em & w2 & w3 & i1 & results & Eapi & Hes & Efc & Eset & Eap & Erm & Eloop & -> & Erec).
  destruct (FromClient_context _ _ _ _ _ _ Efc) as (E1 & E2 & E3).
  destruct (setup_same _ _ _ Eset) as (Sp & Sn & _ & Sd & Sm).
  pose proof (reconcileResourceAPI_healthy healthy _ _ _ _ _ Hh Eapi) as Hh1.
  pose proof (proj1 (applyObjects_only healthy _ _ _ _ _ (TreeAgnostic_merge healthy em (r_RTEManifests r')) Eap) Hh1) as Hh2.
  destruct (shared_done _ _ _ _ _ _ Hh1 Hp (mo_typed r Hok) Hnd Efc Eset Eap) as [Hshared Hfr2].
  destruct (remove_unused_only (r_Platform r') w2 i trees Hh2) as (w3' & Erm' & Hw3).
  { eapply Forall_impl; [exact Hnt|]. intros t Ht. apply Ht. }
  rewrite Erm in Erm'. injection Erm' as <-.
  assert (Forall (named_tree r') trees) as Hnt'.
  { eapply Forall_impl; [exact Hnt|]. intros t [? ? ? ? ?]. by split; rewrite ?Sp. }
  assert (mc_manifest (r_RTEManifests r')) as Hman' by (unfold mc_manifest; by rewrite Sm).
  assert (om_Namespace (ds_Meta (mf_DaemonSet (r_RTEManifests r'))) = em_namespace em) as Hns' by (rewrite Sd; congruence).
  rewrite <-Sp in Hpools.
  destruct (loop_settles r' em (nro_Name i) Hman' Hns') with (trees := trees) (w := w3) (i := i)
    (results := @nil PerTreeResult) (w' := w') (i' := i1) (results' := results) as (new & Enew & Hall); try done;
    [congruence|by apply Hw3|].
  destruct (rollout_loop healthy sha256_hex r' em) with (trees := trees) (w := w3) (instance := i)
    (results := @nil PerTreeResult) (w' := w') (i' := i1) (results' := results)
    as (Hh' & _ & new' & Enew' & Hv & _); try done.
  { intros mc Hmc. by apply Hman'. }
  { by apply Hw3. }
  { by rewrite E1, <-Sp. }
  simpl in Enew, Enew'. subst new new'.
  destruct (ReducePerTreeResults_parts _ Hv) as (_ & _ & _ & _ & Hd & _).
  destruct (Hall (proj1 Hd Hdone)) as (dsss & -> & Htrees & Hw').
  pose proof (loop_groups _ _ _ _ _ _ _ _ _ Hnt' Eloop) as ->.
  assert (forall t k, t <> TDaemonSet -> t <> TMachineConfig -> cli_Get w' t k = cli_Get w2 t k) as Hfr.
  { intros t k H1 H2. rewrite (proj2 Hw'); [apply (proj2 Hw3)|].
    - intros [[E _]|[E _]]; simpl in E; congruence.
    - intros (tree & _ & [(m & _ & _ & E)|(tg & _ & E)]); injection E; congruence. }
  exists em, dsss. split_and!; try done. split; [| |done].
  - assert (r_APIManifests_Crd r' = r_APIManifests_Crd r) as Ecrd by (apply setup_inv in Eset as (? & ? & ? & _ & _ & ->); done).
    destruct (api_done _ _ _ _ _ Hh Hok Eapi Hes) as [Ha|Hk]; [by left|right]. rewrite Ecrd.
    apply (kept_frame _ w1); [|done]. destruct (mo_crd r Hok) as [Ht _]. rewrite Ht, Hfr by done. apply Hfr2. set_solver.
  - rewrite Forall_forall in Hshared. apply Forall_forall. intros e He. apply (settled_frame i w2); [|by apply Hshared].
    destruct (shared_entry_type _ e (setup_typed _ _ _ (mo_typed r Hok) Eset) He) as (_ & _ & Hn).
    rewrite !not_elem_of_cons in Hn. destruct Hn as (Hn1 & Hn2 & _). by apply Hfr.
Qed.

(** C2: once a reconciliation of an accepted specification is done, reconciling
    the same request again, on a cluster whose objects read as it left them and
    from the manifests it left, writes nothing but the deletions of unused
    objects, which it tries again; it is done again, with the same step, leaves
    the manifests alone and reports the same daemon sets, pools, node groups and
    related objects. *)
Theorem reconcile_again clk clk' w v r i j annots trees tolerable w' r' i' step :
  healthy w -> manifests_ok r -> mc_manifest (r_RTEManifests r) ->
  NoDup ((fun e => obj_id (en_obj e)) <$> shared_entries (r_RTEManifests r)) ->
  om_Namespace (ds_Meta (mf_DaemonSet (r_RTEManifests r))) = r_Namespace r ->
  NodeGroups (spec_NodeGroups (nro_Spec i)) (r_Platform r) = None ->
  getTreesByNodeGroup show_node_group w (spec_NodeGroups (nro_Spec i)) (r_Platform r) = inl trees ->
  NodeGroupsTree annots trees (r_Platform r) = (tolerable, None) ->
  (forall tree mcp, tree ∈ trees -> mcp ∈ tree_MCPs tree -> mcp_Name mcp <> "") ->
  reconcileResource sha256_hex UnsortedList clk w r i trees = Ret (w', r', i', step) -> Done step = true ->
  healthy v -> (forall t k, cli_Get v t k = cli_Get w' t k) -> same_request i j ->
  exists v' j', remove_unused (r_Platform r) v j trees = Ret v' /\
    reconcileResource sha256_hex UnsortedList clk' v r' j trees = Ret (v', r', j', step) /\
    report j' = report i'.
Proof.
  intros Hh Hok Hman Hnd Hns Hng Htr Hnt Hnames Hrun Hdone Hv Hsame (Howner & Hannots & Hspec).
  pose proof (accepted_named _ _ _ _ _ _ Hng Htr Hnt Hnames) as Hnamed.
  pose proof (accepted_pools_distinct _ _ _ _ _ _ _ Hng Htr Hnt) as Hpools.
  assert (r_Platform r <> platform.Kubernetes) as Hp by (intros E; rewrite E in Htr; done).
  destruct (reconcileResource_settles clk w r i trees w' r' i' step)
    as (em & dsss & E1 & E2 & E3 & Eset & [Hapi Hshared Htrees] & -> & Erec); try done.
  destruct (setup_same _ _ _ Eset) as (Sp & Sn & _ & Sd & Sm).
  assert (only_writes (fun _ => False) w' v) as Hread by (split; [done|by intros t k _]).
  assert (Forall (named_tree r') trees) as Hnamed'.
  { eapply Forall_impl; [exact Hnamed|]. intros t [? ? ? ? ?]. by split; rewrite ?Sp. }
  assert (mc_manifest (r_RTEManifests r')) as Hman' by (unfold mc_manifest; by rewrite Sm).
  destruct (reconcileResource_steady clk' v r' em j trees dsss) as (v' & Hrm & Hrun'); try done.
  - by apply (setup_manifests_ok r r' i).
  - by rewrite Sp.
  - by rewrite Sd, Sn.
  - congruence.
  - by rewrite E2, (nro_Name_same i j).
  - congruence.
  - by apply (setup_idempotent r r' i j).
  - split.
    + destruct Hapi as [Ha|Hk]; [left; by rewrite Hannots|right]. by apply (kept_frame _ w').
    + eapply Forall_impl; [exact Hshared|]. intros e He. apply (settled_same i j); [done|]. by apply (settled_frame i w').
    + eapply Forall2_impl; [exact Htrees|]. intros tree dss Ht. apply (tree_in_place_same _ _ _ i j); [done|].
      apply (tree_in_place_frame r' em (nro_Name i) Hman') with (ids := fun _ => False) (w := w'); try done.
      * by rewrite Sd, Hns.
      * by intros k [].
      * by intros _ mcp _ [].
      * by intros tg _ [].
  - assert (nro_Spec (with_tree_groups trees j) = nro_Spec (with_tree_groups trees i)) as Hs
      by (unfold with_tree_groups, nro_with_NodeGroups; simpl; by rewrite Hspec).
    destruct (record_overall_report _ (ck_paused clk') _ _ _ _ _ Hs Hdone Erec) as (j' & Hj & Hrep).
    exists v', j'. rewrite <-Sp. split; [done|]. rewrite Hrun'. cbv zeta. rewrite Hj. done.
Qed.
End Steady.

(** The instance as it is read after a reconciliation: the specification it was
    created with, under the status that was reported. *)
Definition read_back (i i' : NUMAResourcesOperator) : NUMAResourcesOperator :=
  mkNRO (nro_Meta i) (nro_Spec i) (nro_Status i').

(** Whether a cluster answers reads, by evaluation. *)
Definition answers_reads_b (s : Store) : bool :=
  forallb (fun t => match st_fault s VGet t with None => true | Some _ => false end)
    [TDaemonSet; TDeployment; TService; TServiceAccount; TCustomResourceDefinition; TRole; TRoleBinding; TClusterRole;
     TClusterRoleBinding; TNetworkPolicy; TSecurityContextConstraints; TMachineConfig; TConfigMap] &&
  forallb (fun '(id, o) => bool_decide (obj_id o = id /\ kind_ok o)) (map_to_list (st_objects s)).

Lemma answers_reads_eval s : answers_reads_b s = true -> answers_reads s.
Proof.
  intros [Hf Hm]%andb_true_iff. apply answers_reads_check; [|done]. intros t.
  rewrite forallb_forall in Hf. specialize (Hf t). destruct (st_fault s VGet t); [|done].
  assert (false = true) as [=]. apply Hf. destruct t; simpl; tauto.
Qed.

Lemma reconcile_again_witness :
  let i := scenario.instance [scenario.group "worker"] None "" in
  let w := scenario.cluster i (fun _ _ => None) in
  let r := scenario.reconciler platform.OpenShift in
  let trees := [scenario.tree (scenario.group "worker") [scenario.pool "worker"]] in
  exists w' r' i' step v' j',
    reconcileResource scenario.sha256 elements scenario.clock w r i trees = Ret (w', r', i', step) /\
    remove_unused platform.OpenShift w' (read_back i i') trees = Ret v' /\
    reconcileResource scenario.sha256 elements (mkClock 110 120 130) w' r' (read_back i i') trees = Ret (v', r', j', step) /\
    report j' = report i'.
Proof.
  intros i w r trees.
  assert (match reconcileResource scenario.sha256 elements scenario.clock w r i trees with
          | Ret (w', _, _, step) => Done step && answers_reads_b w'
          | Panic _ => false end = true) as Hd by (vm_compute; reflexivity).
  destruct (reconcileResource scenario.sha256 elements scenario.clock w r i trees) as [[[[w' r'] i'] step]|] eqn:E;
    [|discriminate Hd].
  apply andb_true_iff in Hd as [Hd Hw']. exists w', r', i', step.
  destruct (reconcile_again answers_reads scenario.show scenario.sha256 elements scenario.clock (mkClock 110 120 130)
    w w' r i (read_back i i') ∅ trees None w' r' i' step) as (v' & j' & Hrm & Hrun & Hrep).
  - by apply answers_reads_check.
  - apply scenario_manifests_ok.
  - intros mc [= <-]. split_and!; [reflexivity|reflexivity|by right].
  - refine (bool_decide_eq_true_1 _ _). vm_compute. reflexivity.
  - reflexivity.
  - vm_compute. reflexivity.
  - reflexivity.
  - vm_compute. reflexivity.
  - intros tree mcp ->%list_elem_of_singleton ->%list_elem_of_singleton. discriminate.
  - exact E.
  - exact Hd.
  - by apply answers_reads_eval.
  - reflexivity.
  - repeat split.
  - exists v', j'. split; [reflexivity|]. split; [exact Hrm|]. split; [exact Hrun|exact Hrep].
Defined.

(** There the second reconciliation finds nothing to remove, and leaves the
    cluster as it was. *)
Example reconcile_twice :
  let i := scenario.instance [scenario.group "worker"] None "" in
  let w := scenario.cluster i (fun _ _ => None) in
  let r := scenario.reconciler platform.OpenShift in
  let trees := [scenario.tree (scenario.group "worker") [scenario.pool "worker"]] in
  match reconcileResource scenario.sha256 elements scenario.clock w r i trees with
  | Ret (w', r', i', _) =>
      match reconcileResource scenario.sha256 elements scenario.clock w' r' (read_back i i') trees with
      | Ret (v', r'', _, _) => bool_decide (st_objects v' = st_objects w' /\ size (st_objects w') = 13%nat)
      | Panic _ => false
      end
  | Panic _ => false
  end = true.
Proof. vm_compute. reflexivity. Qed.
