(* ===== verification/Progress.v ===== *)
(** * The operator makes progress

    On a cluster that takes every legitimate write, reconciling an accepted
    specification never fails: it is done, or waits for pools or daemon sets. The
    parts of a reconciliation are taken in turn. *)
From S2P Require Import Prelude GoErrors Meta Selectors ApiV1 Conditions Steps Trees Validation FlagCodec.
From S2P Require Import Workload RteUpdate RteUpdateSpec Objects MergeSpec Cluster Apply RteState Dangling.
From S2P Require Import Controller Scenario Install WriteFrame Willing MachineConfigSpec DaemonSetSpec Rollout Setup.
From S2P Require Import NoPanic Steady.

(** A step that failed nowhere. *)
Definition goes_on (s : Step) : Prop := valid_step s /\ Failed s = false.

Lemma goes_on_success : goes_on StepSuccess.
Proof. split; [apply valid_StepSuccess|done]. Qed.
Lemma goes_on_waiting a r m : goes_on (WithMessage (WithReason (StepOngoing a) r) m).
Proof.
  split; [apply valid_StepOngoing_with|].
  by destruct (kind_preds (WithMessage (WithReason (StepOngoing a) r) m) KOngoing) as (_ & _ & ->);
    [rewrite kind_WithMessage, kind_WithReason|].
Qed.
Lemma goes_on_ongoing a : goes_on (StepOngoing a).
Proof. split; [apply valid_StepOngoing|done]. Qed.

(** Such a step has no error. *)
Lemma goes_on_error s : goes_on s -> step_Error s = None.
Proof.
  intros [[k Hk] Hf]. destruct (kind_preds _ _ Hk) as (_ & _ & Hf'). rewrite Hf in Hf'.
  unfold kind in Hk. destruct (step_Error s); [|done]. case_decide; [|done]. by injection Hk as <-.
Qed.

Section Progress.
Context {W : Type} `{!Client W} `{SelectorLib} (healthy willing : W -> Prop) `{!ClientLaws W healthy}
  `{!WillingLaws W healthy willing} `{!NROWillingLaws W willing}.
Variable show_node_group : NodeGroup -> string.
Variable sha256_hex : string -> string.
Variable UnsortedList : gset string -> list string.

Notation only_writes := (only_writes healthy).

Lemma writes_nro w w' k : rtc one_write w w' -> cli_GetNRO w' k = cli_GetNRO w k.
Proof. induction 1 as [|w w1 w2 H1 _ IH]; [done|]. by rewrite IH, (law_write_nro w w1). Qed.

(** A daemon set that is ready stays so while its status is kept. *)
Lemma ready_kept w w' k : willing w -> willing w' -> keeps_status w w' TDaemonSet k -> ready w k -> ready w' k.
Proof.
  intros Hw Hw' Hk (cur & ds & Hg & Hds & Hr). destruct (Hk cur Hg) as (o & Ho & Hs).
  pose proof (f_equal fst (law_get_id _ _ _ _ (law_willing_healthy w' Hw') Ho)) as Ht.
  unfold obj_id, obj_type, object_ds in *. simpl in Ht.
  destruct (obj_Body cur); try done. destruct (obj_Body o) eqn:Eb; try done. simpl in Hs. injection Hs as Hst.
  injection Hds as <-. eexists o, _. split; [done|]. unfold object_ds. rewrite Eb. split; [reflexivity|].
  unfold isDaemonSetReady in *. simpl in *. by rewrite <-Hst.
Qed.

(** ** The machine configs of a tree *)

(** The machine configs of the pools of a tree carry labels the pools select. *)
Definition machine_configs_fit (instanceName : string) (mf : Manifests) (tree : Tree) : Prop :=
  forall mc mcp sel, mf_MachineConfig mf = Some mc -> mcp ∈ tree_MCPs tree -> mcp_MachineConfigSelector mcp = Some sel ->
    validateMachineConfigLabels (desired_mc instanceName mc mcp sel) tree = None.

Lemma validate_owned i o tree : validateMachineConfigLabels (owned i o) tree = validateMachineConfigLabels o tree.
Proof.
  unfold owned, controllerutil.SetControllerReference, controllerutil.SetControllerReferenceOf,
    controllerutil.SetControllerReferenceAt. by repeat case_match.
Qed.

Section MachineConfigs.
Context (w0 : W) (i : NUMAResourcesOperator) (em : ExistingManifests) (tree : Tree) (mc : Object) (mf : Manifests).
Hypothesis Hloaded : tree_loaded sha256_hex w0 em.
Hypothesis Hname : em_instanceName em = nro_Name i.
Hypothesis Htype : obj_type mc = TMachineConfig.
Hypothesis Hns : om_Namespace (obj_Meta mc) = "".
Hypothesis Hkind : kind_ok mc.
Hypothesis Hfree : free mc.
Hypothesis Howner : om_Namespace (nro_Meta i) = "".
Hypothesis Hmc : mf_MachineConfig mf = Some mc.
Hypothesis Hfit : machine_configs_fit (nro_Name i) mf tree.

Notation states := (omap (pool_state em mc (custom_policy tree))).
Notation key := (mc_key (nro_Name i)).

(** The state of one pool is applied. *)
Lemma sync_one w mcp sel st :
  willing w -> mcp ∈ tree_MCPs tree -> cli_Get w TMachineConfig (key mcp) = cli_Get w0 TMachineConfig (key mcp) ->
  mcp_MachineConfigSelector mcp = Some sel -> pool_state em mc (custom_policy tree) mcp = Some st ->
  exists w1, willing w1 /\ rtc one_write w w1 /\ only_writes (.= (TMachineConfig, key mcp)) w w1 /\
    forall rest waits, sync_machine_configs w i tree (st :: rest) waits
      = sync_machine_configs w1 i tree rest (<[mcos_PoolName st := mcos_WaitForUpdated st]> waits).
Proof.
  intros Hw Hin Hsame Hsel Hst.
  destruct (pool_state_spec sha256_hex w w0 _ em mc _ mcp sel st Hloaded Hname Htype Hns Hsame Hsel Hst) as (Ht & Hk & Hs).
  destruct (custom_policy tree).
  - set (d := desired_mc (nro_Name i) mc mcp sel) in *. destruct (owned_id i d) as [Hot Hok].
    assert (controllerutil.SetControllerReference (nro_Meta i) d = (owned i d, None)) as Href.
    { assert (controllable controllerutil.ownerKind (nro_Meta i) d) as Hc by (by apply controllable_free).
      unfold controllable in Hc. unfold owned.
      change (controllerutil.SetControllerReferenceOf _) with controllerutil.SetControllerReference in Hc.
      by destruct (controllerutil.SetControllerReference _ d); simpl in *; subst. }
    destruct (apply_willing healthy willing w (owned i d) ObjectForUpdate complete_plain Hw) as (w1 & o1 & ch & Ha & Hw1 & Hr & _).
    { by apply kind_ok_owned_by. }
    { constructor. }
    exists w1. split; [done|]. split; [done|]. split.
    { pose proof Ha as Ho. apply (ApplyObject_only healthy w _ (owned i d) ObjectForUpdate) in Ho;
        [|apply state_of_fields|apply state_of_fields|apply ObjectForUpdate_id].
      unfold obj_id in Ho. by rewrite Hot, Hok, Ht, Hk in Ho. }
    intros rest waits. cbn [sync_machine_configs]. rewrite Hs. unfold IsCreateOrUpdate.
    rewrite (proj1 (state_of_fields w _ d _)). cbn [iface_is_nil negb iface_deref go_bind]. rewrite Href. cbn [go_bind].
    assert (validateMachineConfigLabels d tree = None) as Hval by (by apply Hfit).
    rewrite validate_owned, Hval, state_of_owned.
    unfold ApplyState, IsCreateOrUpdate. rewrite (proj1 (state_of_fields w _ (owned i d) _)). cbn [iface_is_nil negb].
    rewrite Ha. done.
  - destruct (delete_willing healthy willing w TMachineConfig (key mcp) Hw) as (w1 & [o1 ch] & Ha & Hw1 & Ho).
    exists w1. split; [done|]. split; [by eapply ApplyState_writes_star|]. split; [done|].
    intros rest waits. cbn [sync_machine_configs]. rewrite Hs.
    assert (IsCreateOrUpdate (delete_state w TMachineConfig (key mcp)) = false) as ->
      by (unfold IsCreateOrUpdate, delete_state; by destruct (load _ _ _)).
    cbn [go_bind]. rewrite Ha. done.
Qed.

(** Their states are applied one after the other; what is waited for are the
    pools with a selector. *)
Lemma sync_willing w pools waits :
  willing w -> (forall mcp, mcp ∈ pools -> mcp ∈ tree_MCPs tree) -> NoDup (mcp_Name <$> pools) ->
  (forall mcp, mcp ∈ pools -> cli_Get w TMachineConfig (key mcp) = cli_Get w0 TMachineConfig (key mcp)) ->
  exists w' waits', sync_machine_configs w i tree (states pools) waits = Ret (w', (waits', None)) /\
    willing w' /\ rtc one_write w w' /\ only_writes is_machine_config w w' /\
    forall q (f : MCPWaitForUpdatedFunc), waits' !! q = Some f ->
      (f = pool_updated (custom_policy tree) /\
       exists mcp, mcp ∈ pools /\ mcp_Name mcp = q /\ is_Some (mcp_MachineConfigSelector mcp)) \/ waits !! q = Some f.
Proof.
  revert w waits. induction pools as [|p pools IH]; intros w waits Hw Hin Hnd Hsame.
  { exists w, waits. split_and!; [done|done|done|apply only_writes_refl|by right]. }
  apply NoDup_cons in Hnd as [Hnp Hnd]. cbn [omap list_omap].
  destruct (pool_state em mc (custom_policy tree) p) as [st|] eqn:Hst.
  2: { destruct (IH w waits) as (w' & waits' & Hrun & Hw' & Hr & Ho & Hf); [done|set_solver|done|set_solver|].
       exists w', waits'. split_and!; try done. intros q f Hq. destruct (Hf q f Hq) as [(-> & m & ? & ?)|?]; [left|by right].
       split; [done|]. exists m. split; [by right|done]. }
  destruct (pool_state_fields _ _ _ _ _ Hst) as [Hpn Hpf].
  assert (exists sel, mcp_MachineConfigSelector p = Some sel) as [sel Hsel].
  { unfold pool_state, machine_config_state in Hst. repeat case_match; simplify_eq; by eexists. }
  destruct (sync_one w p sel st Hw (Hin p (list_elem_of_here _ _)) (Hsame p (list_elem_of_here _ _)) Hsel Hst)
    as (w1 & Hw1 & Hr1 & Ho1 & E).
  destruct (IH w1 (<[mcos_PoolName st := mcos_WaitForUpdated st]> waits)) as (w' & waits' & Hrun & Hw' & Hr & Ho & Hf);
    [done|set_solver|done| |].
  { intros m Hm. rewrite (proj2 Ho1); [apply Hsame; by right|]. intros Heq. apply Hnp.
    apply (f_equal snd) in Heq. simpl in Heq. destruct (decide (mcp_Name m = mcp_Name p)) as [<-|Hne];
      [by apply list_elem_of_fmap_2|by apply (mc_key_ne (nro_Name i)) in Hne]. }
  exists w', waits'. rewrite E. split; [done|]. split; [done|]. split; [by trans w1|]. split.
  { apply (only_writes_trans healthy _ _ w1); [|done]. eapply only_writes_weaken; [|exact Ho1]. by intros id ->. }
  intros q f Hq. destruct (Hf q f Hq) as [(-> & m & ? & ?)|Hi].
  - left. split; [done|]. exists m. split; [by right|done].
  - apply lookup_insert_Some in Hi as [[<- <-]|[_ ?]]; [left|by right]. split; [done|].
    exists p. split; [by left|]. split; [done|by exists sel].
Qed.
End MachineConfigs.

(** Every pool of the tree runs, and has picked up, or dropped, its machine config. *)
Definition pools_up (instanceName : string) (tree : Tree) : Prop :=
  forall mcp, mcp ∈ tree_MCPs tree -> mcp_Paused mcp = false /\
    (is_Some (mcp_MachineConfigSelector mcp) -> pool_updated (custom_policy tree) instanceName mcp = true).

Lemma paused_names_none pools : (forall m, m ∈ pools -> mcp_Paused m = false) -> paused_names pools = ∅.
Proof.
  intros Hp. unfold paused_names.
  assert (filter (fun m => mcp_Paused m = true) pools = []) as ->; [|done].
  apply elem_of_nil_inv. intros m [Ht Hm]%list_elem_of_filter. by rewrite (Hp m Hm) in Ht.
Qed.

(** The machine-config half of a tree goes on, and is done when its pools are up. *)
Lemma mc_half_willing w r i em tree :
  willing w -> tree_loaded sha256_hex w em -> em_instanceName em = nro_Name i ->
  mc_manifest (r_RTEManifests r) -> (forall mc, mf_MachineConfig (r_RTEManifests r) = Some mc -> free mc) ->
  om_Namespace (nro_Meta i) = "" -> machine_configs_fit (nro_Name i) (r_RTEManifests r) tree ->
  NoDup (mcp_Name <$> tree_MCPs tree) ->
  exists w' res, reconcilePerTreeMachineConfig w r i em tree = Ret (w', res) /\ willing w' /\ rtc one_write w w' /\
    only_writes is_machine_config w w' /\ goes_on (ptr_Step res) /\
    (pools_up (nro_Name i) tree -> Done (ptr_Step res) = true).
Proof.
  intros Hw Hl Hname Hman Hfree Howner Hfit Hnd.
  destruct (mf_MachineConfig (r_RTEManifests r)) as [mc|] eqn:Hmc.
  2: { rewrite mc_half_none by done. exists w, (mc_result r tree). do 3 (split; [done|]).
       split; [apply only_writes_refl|]. split; [apply goes_on_success|done]. }
  destruct (Hman mc Hmc) as (Hty & Hns & Hkind).
  destruct (sync_willing w i em tree mc (r_RTEManifests r) Hl Hname Hty Hns Hkind (Hfree mc eq_refl) Howner Hmc Hfit
              w (tree_MCPs tree) ∅ Hw) as (w' & waits & Hrun & Hw' & Hr & Ho & Hf); [done|done|done|].
  unfold reconcilePerTreeMachineConfig, syncMachineConfig. rewrite (MachineConfigsState_split em _ tree mc Hmc), Hrun.
  cbn [go_bind]. unfold syncMachineConfigPoolsStatuses.
  destruct (sync_pools_spec (nro_Name i) (r_ForwardMCPConds r) waits (tree_MCPs tree) [])
    as [[-> _]|(pre & m & post & f & E & Hwm & Hfm & _ & ->)].
  - rewrite decide_False by (intros Hx; by apply Hx). do 2 eexists. split; [reflexivity|]. do 3 (split; [done|]).
    cbn [ptr_Step]. split; [case_decide; [apply goes_on_ongoing|apply goes_on_success]|].
    intros Hup. rewrite paused_names_none by (intros m Hm; by apply Hup). by rewrite decide_False by (intros Hx; by apply Hx).
  - case_decide as Hne; do 2 eexists; (split; [reflexivity|]); (do 3 (split; [done|])); cbn [ptr_Step].
    + split; [apply goes_on_waiting|]. intros Hup. exfalso.
      destruct (Hf _ _ Hwm) as [(-> & m' & Hm' & Hn & Hsel)|Hx]; [|by rewrite lookup_empty in Hx].
      assert (m ∈ tree_MCPs tree) as Hm by (rewrite E; set_solver).
      apply (NoDup_fmap_inj_in mcp_Name _ m' m Hnd Hm' Hm) in Hn as ->.
      destruct (Hup m Hm) as [_ Hu]. by rewrite Hu in Hfm.
    + split; [case_decide; [apply goes_on_ongoing|apply goes_on_success]|].
      intros Hup. rewrite paused_names_none by (intros m' Hm; by apply Hup). by rewrite decide_False by (intros Hx; by apply Hx).
Qed.

(** ** The daemon sets of a tree *)

(** The manifests have an exporter to configure and what it runs under. *)
Record exporter_ready (mf : Manifests) : Prop := {
  er_main : is_Some (FindContainerByName (ds_Containers (mf_DaemonSet mf)) MainContainerName);
  er_scc : is_Some (mf_SCC mf);
  er_sccv2 : is_Some (mf_SCCv2 mf);
  er_free : free (ds_object (mf_DaemonSet mf)) }.

Lemma wanted_exists w0 em mf tree tls tg :
  exporter_ready mf -> configured_tree tree -> tg_error tg = None ->
  exists ds, wanted sha256_hex w0 em mf tree tls tg ds /\ free (ds_object ds).
Proof.
  intros [[m Hm] [s1 Hs1] [s2 Hs2] Hfree] (ng & c & Hng & Hc) He.
  assert (exists so, securityContextOptions mf (annotations.IsCustomPolicyEnabled (ng_Annotations ng)) = Ret so) as [so Hso].
  { unfold securityContextOptions. rewrite Hs1, Hs2. case_match; by eexists. }
  set (h := config_hash sha256_hex w0 (target_key em tg)).
  set (gdm := mkGeneratedDesiredManifest (em_plat em) (tg_mcp tg) ng so (generated (em_instanceName em) mf tg) h).
  destruct (daemonsetUpdater_found (tg_pool tg) gdm tls c m Hc) as (ds & E & HM & _).
  { rewrite <-Hm. unfold gdm, generated. simpl. by destruct (tg_selector tg). }
  exists ds. split; [by exists ng, so|]. unfold free in *. simpl in *. rewrite HM. unfold generated.
  destruct (tg_selector tg); exact Hfree.
Qed.

Lemma wanted_all w0 em mf tree tls tgs :
  exporter_ready mf -> configured_tree tree -> Forall (fun tg => tg_error tg = None) tgs ->
  exists dss, Forall2 (wanted sha256_hex w0 em mf tree tls) tgs dss /\ Forall (fun ds => free (ds_object ds)) dss.
Proof.
  intros Hr Hc. induction 1 as [|tg tgs Htg _ (dss & Hw & Hf)]; [by exists []|].
  destruct (wanted_exists w0 em mf tree tls tg Hr Hc Htg) as (ds & ? & ?). exists (ds :: dss). by split; constructor.
Qed.

(** What the trees may write. *)
Definition exporter_ids (id : gotype * NamespacedName) : Prop := fst id = TDaemonSet \/ fst id = TMachineConfig.

(** The readiness loop does not fail on daemon sets that are there. *)
Lemma daemonsets_step_goes_on w infos :
  Forall (fun info => exists o, cli_Get w TDaemonSet (pds_DaemonSet info) = inl o) infos -> goes_on (daemonsets_step w infos).
Proof.
  induction 1 as [|info infos [o Ho] _ IH]; cbn [daemonsets_step]; [apply goes_on_success|]. rewrite Ho.
  case_match; [apply goes_on_waiting|done].
Qed.

(** The daemon-set half of a tree goes on, and is done when its daemon sets are
    there and ready. *)
Lemma ds_half_willing w w0 r i em tree :
  let tgs := targets (em_helper em) tree in
  willing w -> tree_loaded sha256_hex w0 em -> (forall k, cli_Get w TDaemonSet k = cli_Get w0 TDaemonSet k) ->
  om_Namespace (ds_Meta (mf_DaemonSet (r_RTEManifests r))) = em_namespace em ->
  (em_helper em = nodeGroupFinder -> is_Some (tree_NodeGroup tree ≫= ng_PoolName)) ->
  Forall (target_loaded em) tgs -> NoDup (tg_pool <$> tgs) -> Forall (fun tg => tg_error tg = None) tgs ->
  exporter_ready (r_RTEManifests r) -> configured_tree tree -> om_Namespace (nro_Meta i) = "" ->
  exists w' res, reconcilePerTreeDaemonSet w r i em tree = Ret (w', res) /\ willing w' /\ rtc one_write w w' /\
    only_writes exporter_ids w w' /\ (forall t k, keeps_status w w' t k) /\ goes_on (ptr_Step res) /\
    (Forall (fun tg => ready w (target_key em tg)) tgs -> Done (ptr_Step res) = true).
Proof.
  intros tgs Hw Hl Hsame Hns Hname Hld Hnd Herr Her Hct Howner.
  destruct (wanted_all w0 em (r_RTEManifests r) tree (r_RTEMetricsTLS r) tgs Her Hct Herr) as (dss & Hwant & Hfree).
  unfold reconcilePerTreeDaemonSet. set (em1 := WithManifestsUpdater em _). unfold PerTreeState.
  rewrite (FindState_complete em1 (r_RTEManifests r) tree [] _ _ Hname
    (target_states_wanted sha256_hex w0 em1 _ tree (r_RTEMetricsTLS r) tgs dss [] Hl eq_refl Hns Hld Hwant)).
  cbn [go_bind app].
  destruct (applyObjects_willing healthy willing i w w0 (ds_entry <$> dss) Hw) as (w' & Hrun & Hw' & Hr & Ho & Hks).
  { apply Forall_fmap. eapply Forall_impl; [exact Hfree|]. intros ds Hf. split; [constructor|]. split; [by right|].
    by apply controllable_free. }
  { by apply (wanted_entries_nodup sha256_hex w0 em (r_RTEManifests r) tree (r_RTEMetricsTLS r) tgs dss). }
  { apply Forall_fmap, Forall_forall. intros ds _. apply Hsame. }
  rewrite Hrun. cbn [go_bind]. do 2 eexists. split; [reflexivity|]. do 2 (split; [done|]). cbn [ptr_Step].
  split. { eapply only_writes_weaken; [|exact Ho]. intros id (e & (ds & -> & _)%list_elem_of_fmap & ->). by left. }
  split; [done|].
  assert (Forall2 (fun tg ds => om_key (ds_Meta ds) = target_key em tg) tgs dss) as Hkeys.
  { eapply Forall2_impl; [exact Hwant|]. intros tg ds Hd. exact (wanted_key sha256_hex w0 em _ _ _ Hns tg ds Hd). }
  split.
  - apply daemonsets_step_goes_on.
    destruct (applyObjects_settles_from healthy w w0 i (ds_entry <$> dss) w' (law_willing_healthy w Hw)) as [Hset _]; [| | |done|].
    { apply Forall_fmap, Forall_forall. intros ds _. split; [constructor|]. simpl. intros o Hg.
      apply (read_mergeable healthy w); [by apply law_willing_healthy|by right|]. by rewrite Hsame. }
    { by apply (wanted_entries_nodup sha256_hex w0 em (r_RTEManifests r) tree (r_RTEMetricsTLS r) tgs dss). }
    { apply Forall_fmap, Forall_forall. intros ds _. apply Hsame. }
    rewrite Forall_fmap in Hset. clear -Hset Hkeys. induction Hkeys as [|tg ds tgs dss _ _ IH]; [constructor|].
    apply Forall_cons in Hset as [[(o & Hg & _) _] Hset]. constructor; [|by apply IH].
    destruct (owned_id i (ds_object ds)) as [Et Ek]. cbn [ds_entry en_obj] in Hg. rewrite Et, Ek in Hg. by exists o.
  - intros Hready. rewrite daemonsets_step_ready; [done|]. clear -Hready Hkeys Hks Hw Hw' ClientLaws0 WillingLaws0.
    induction Hkeys as [|tg ds tgs dss Hk _ IH]; [constructor|]. apply Forall_cons in Hready as [Hd Hready].
    constructor; [|by apply IH]. cbn [recorded pds_DaemonSet]. rewrite Hk. by apply (ready_kept w).
Qed.

(** ** A tree, and all of them *)

(** Nothing keeps a tree waiting: its pools are up, and its daemon sets are there
    and ready. *)
Definition tree_up (r : Reconciler) (instanceName : string) (w : W) (tree : Tree) : Prop :=
  (r_Platform r = platform.OpenShift -> pools_up instanceName tree) /\
  Forall (fun tg => ready w (mkNamespacedName (r_Namespace r) (objectnames.GetComponentName instanceName (tg_pool tg))))
    (targets (helper_for (r_Platform r)) tree).

Lemma tree_up_kept r instanceName w w' tree :
  (forall k, ready w k -> ready w' k) -> tree_up r instanceName w tree -> tree_up r instanceName w' tree.
Proof. intros Hr [Hp Hall]. split; [done|]. eapply Forall_impl; [exact Hall|]. intros tg. apply Hr. Qed.

Section Trees.
Context (r : Reconciler) (existing : ExistingManifests) (instanceName : string).
Hypothesis Hman : mc_manifest (r_RTEManifests r).
Hypothesis Hfree : forall mc, mf_MachineConfig (r_RTEManifests r) = Some mc -> free mc.
Hypothesis Hexporter : exporter_ready (r_RTEManifests r).
Hypothesis Hns : om_Namespace (ds_Meta (mf_DaemonSet (r_RTEManifests r))) = em_namespace existing.
Hypothesis Hplat : em_plat existing = r_Platform r.
Hypothesis Hname : em_instanceName existing = instanceName.
Hypothesis Hspace : em_namespace existing = r_Namespace r.

Notation tree_targets := (targets (helper_for (r_Platform r))).

(** The pools of the tree select their nodes, and take their machine configs. *)
Record workable_tree (tree : Tree) : Prop := {
  wt_named : named_tree r tree;
  wt_selectors : Forall (fun tg => tg_error tg = None) (tree_targets tree);
  wt_fit : machine_configs_fit instanceName (r_RTEManifests r) tree }.

Lemma normalized_custom_policy tree : custom_policy (normalized tree) = custom_policy tree.
Proof. unfold custom_policy, normalized. by destruct (tree_NodeGroup tree). Qed.

Lemma reconcile_tree_willing w i results tree :
  willing w -> workable_tree tree -> nro_Name i = instanceName -> om_Namespace (nro_Meta i) = "" ->
  NoDup (tg_pool <$> tree_targets tree) ->
  exists w' res, reconcile_tree sha256_hex r existing (w, i, results) tree
      = Ret (w', with_tree_groups [tree] i, results ++ [res]) /\
    willing w' /\ rtc one_write w w' /\ only_writes exporter_ids w w' /\ (forall k, ready w k -> ready w' k) /\
    goes_on (ptr_Step res) /\ (tree_up r instanceName w tree -> Done (ptr_Step res) = true).
Proof.
  intros Hw [Hnt Hsel Hfit] Hi Howner Hnd. unfold reconcile_tree. rewrite normalize_tree_groups by apply Hnt. cbn [go_bind].
  destruct (PerTree_total sha256_hex r existing Hplat w tree Hnt) as [em Hem]. rewrite Hem. cbn [go_bind].
  destruct (PerTree_loaded sha256_hex _ _ _ _ Hem) as (Hl & Hctx & Hhelp & Htl & _).
  pose proof (tree_targets_normalized r existing Hplat tree em (nt_group r tree Hnt) Hhelp) as Htg.
  set (i1 := with_tree_groups [tree] i).
  assert (configured_tree (normalized tree)) as Hct.
  { destruct (nt_group r tree Hnt) as [ng Hng]. unfold normalized. rewrite Hng. by do 2 eexists. }
  assert (forall w1, willing w1 -> (forall k, cli_Get w1 TDaemonSet k = cli_Get w TDaemonSet k) ->
    exists w' res, reconcilePerTreeDaemonSet w1 r i1 em (normalized tree) = Ret (w', res) /\ willing w' /\
      rtc one_write w1 w' /\ only_writes exporter_ids w1 w' /\ (forall t k, keeps_status w1 w' t k) /\ goes_on (ptr_Step res) /\
      (Forall (fun tg => ready w1 (target_key em tg)) (tree_targets tree) -> Done (ptr_Step res) = true)) as Hds.
  { intros w1 Hw1 Hsame. rewrite <-Htg. apply (ds_half_willing w1 w); try done.
    - rewrite Hns. symmetry. apply Hctx.
    - rewrite Hhelp, Hplat. unfold helper_for. case_decide as Hp; [done|]. intros _.
      destruct (nt_pool r tree Hnt Hp) as [p Hpn]. destruct (tree_NodeGroup tree) as [ng|] eqn:Hng; simpl in *; [|done].
      rewrite Hng. simpl. by exists p.
    - by rewrite Htg.
    - by rewrite Htg. }
  assert (forall w1, (forall k, cli_Get w1 TDaemonSet k = cli_Get w TDaemonSet k) -> tree_up r instanceName w tree ->
    Forall (fun tg => ready w1 (target_key em tg)) (tree_targets tree)) as Hup.
  { intros w1 Hsame [_ Hr]. eapply Forall_impl; [exact Hr|]. intros tg (o & ds & Hg & Hrest).
    exists o, ds. split; [|done]. rewrite Hsame, <-Hg. f_equal. unfold target_key. destruct Hctx as (_ & _ & -> & -> & _).
    by rewrite Hname, Hspace. }
  destruct (decide (r_Platform r = platform.OpenShift)) as [Hp|Hp].
  - destruct (tree_pools_loaded sha256_hex r existing instanceName Hplat Hname em tree w Hp Hnt Hem) as [_ Hen].
    destruct (mc_half_willing w r i1 em (normalized tree) Hw Hl) as (w1 & mcRes & Emc & Hw1 & Hr1 & Ho1 & Hg1 & Hd1); try done.
    { by rewrite Hen. }
    { unfold nro_Name in *. simpl. by rewrite Hi. }
    { apply (nt_distinct r tree Hnt). }
    rewrite Emc. cbn [go_bind]. rewrite EarlyStop_negb_Done.
    assert (forall k, cli_Get w1 TDaemonSet k = cli_Get w TDaemonSet k) as Hsame by (intros k; by apply Ho1).
    assert (forall k, ready w k -> ready w1 k) as Hrk by (intros k (o & ds & Hg & ?); exists o, ds; by rewrite Hsame).
    assert (only_writes exporter_ids w w1) as Ho1' by (eapply only_writes_weaken; [|exact Ho1]; intros id Hid; by right).
    case_decide as Hstop.
    { do 2 eexists. split; [reflexivity|]. do 5 (split; [done|]). intros [Hpu _]. apply Hd1.
      unfold pools_up. rewrite normalized_custom_policy. intros mcp Hm.
      assert (nro_Name i1 = instanceName) as -> by exact Hi. by apply Hpu. }
    destruct (Hds w1 Hw1 Hsame) as (w2 & res & Eds & Hw2 & Hr2 & Ho2 & Hks & Hg2 & Hd2). rewrite Eds. cbn [go_bind].
    do 2 eexists. split; [reflexivity|]. split; [done|]. split; [by trans w1|].
    split; [by apply (only_writes_trans healthy _ _ w1)|]. split.
    { intros k Hk. by apply (ready_kept w1 w2), Hrk. }
    split; [done|]. intros Hu. by apply Hd2, Hup.
  - cbn [go_bind]. rewrite decide_False by (by intros [? _]).
    destruct (Hds w Hw) as (w2 & res & Eds & Hw2 & Hr2 & Ho2 & Hks & Hg2 & Hd2); [done|]. rewrite Eds. cbn [go_bind].
    do 2 eexists. split; [reflexivity|]. split; [done|]. split; [done|]. split; [done|]. split.
    { intros k Hk. by apply (ready_kept w w2). }
    split; [done|]. intros Hu. by apply Hd2, Hup.
Qed.

Lemma loop_willing trees w i results :
  willing w -> Forall workable_tree trees -> nro_Name i = instanceName -> om_Namespace (nro_Meta i) = "" ->
  NoDup (trees ≫= (fun t => tg_pool <$> tree_targets t)) ->
  exists w' i' new, go_fold (reconcile_tree sha256_hex r existing) (w, i, results) trees = Ret (w', i', results ++ new) /\
    nro_Meta i' = nro_Meta i /\ willing w' /\ rtc one_write w w' /\ only_writes exporter_ids w w' /\
    (forall k, ready w k -> ready w' k) /\ Forall (fun res => goes_on (ptr_Step res)) new /\
    (Forall (tree_up r instanceName w) trees -> Forall (fun res => Done (ptr_Step res) = true) new).
Proof.
  intros Hw Hall. revert w i results Hw. induction Hall as [|tree trees Ht _ IH]; intros w i results Hw Hi Howner Hnd.
  { exists w, i, []. rewrite app_nil_r. by split_and!. }
  rewrite bind_cons in Hnd. apply NoDup_app in Hnd as (Hnd1 & _ & Hnd2).
  destruct (reconcile_tree_willing w i results tree Hw Ht Hi Howner Hnd1) as (w1 & res & E & Hw1 & Hr1 & Ho1 & Hk1 & Hg1 & Hd1).
  cbn [go_fold]. rewrite E. cbn [go_bind].
  destruct (IH w1 (with_tree_groups [tree] i) (results ++ [res])) as (w' & i' & new & E' & Hm' & Hw' & Hr' & Ho' & Hk' & Hg' & Hd'); try done.
  exists w', i', (res :: new). split; [by rewrite E', <-app_assoc|]. split; [done|]. split; [done|]. split; [by trans w1|].
  split; [by apply (only_writes_trans healthy _ _ w1)|]. split; [by auto|]. split; [by constructor|]. intros [Hu Hus]%Forall_cons. constructor; [by apply Hd1|]. apply Hd'.
  eapply Forall_impl; [exact Hus|]. intros t. by apply tree_up_kept.
Qed.
End Trees.

(** ** The parts before the trees *)

(** What the reconciler needs to work for the instance: manifests as they are
    shipped, of which no other controller owns anything, that can be set up for
    its specification; and an instance of the cluster. *)
Record workable (r : Reconciler) (i : NUMAResourcesOperator) : Prop := {
  wk_manifests : manifests_ok r;
  wk_mc : mc_manifest (r_RTEManifests r);
  wk_distinct : NoDup ((fun e => obj_id (en_obj e)) <$> shared_entries (r_RTEManifests r));
  wk_namespace : om_Namespace (ds_Meta (mf_DaemonSet (r_RTEManifests r))) = r_Namespace r;
  wk_free_shared : forall s o, slot_object (r_RTEManifests r) s = Some o -> free o;
  wk_free_mc : forall mc, mf_MachineConfig (r_RTEManifests r) = Some mc -> free mc;
  wk_free_ds : free (ds_object (mf_DaemonSet (r_RTEManifests r)));
  wk_owner : om_Namespace (nro_Meta i) = "";
  wk_set_up : exists m h rte scc, can_set_up r i m h rte scc }.

(** The set-up succeeds, and leaves manifests as good. *)
Lemma workable_setup r i :
  workable r i ->
  exists r', setupTreeAgnosticManifests r i = Ret (r', None) /\ workable r' i /\ exporter_ready (r_RTEManifests r').
Proof.
  intros [Hok Hman Hnd Hns Hfs Hfm Hfd Howner (m & h & rte & scc & Hcan)].
  pose proof (setup_forward r i m h rte scc Hcan) as Hset. eexists. split; [exact Hset|].
  set (r' := r_with_Manifests _ r) in *. pose proof (setup_manifests_ok _ _ _ Hok Hset) as Hok'.
  destruct (setup_can r' i r') as (m' & h' & rte' & scc' & Hcan'); [by apply (setup_idempotent r r' i i)|].
  assert (free (ds_object (mf_DaemonSet (r_RTEManifests r')))) as Hfd' by (unfold free in *; simpl in *; exact Hfd).
  split; [split; [done|exact Hman| |exact Hns| |exact Hfm|done|done|]|].
  - by rewrite (shared_ids _ _ _ Hset).
  - intros s o Hs. destruct Hcan as [_ _ _ _ _ (scc0 & Hs0 & Hs')]. unfold SecurityContextConstraint in Hs'.
    destruct (scc_SELinuxOptions scc0); simpl in Hs'; [|done]. injection Hs' as <-.
    assert (s = SSCC \/ slot_object (r_RTEManifests r) s = Some o) as [->|Hs1] by (destruct s; auto); [|by apply (Hfs s)].
    simpl in Hs. injection Hs as <-.
    apply (Hfs SSCC (scc_object scc0)). simpl. by rewrite Hs0.
  - by exists m', h', rte', scc'.
  - split; [exists m'; apply Hcan'| |apply (mo_sccv2 r' Hok')|done]. destruct (mo_scc r' Hok') as (x & ? & _). by exists x.
Qed.

Lemma api_willing w r i :
  willing w -> manifests_ok r ->
  exists w1, reconcileResourceAPI w r i = Ret (w1, StepSuccess) /\ willing w1 /\ rtc one_write w w1 /\
    forall k, cli_Get w1 TDaemonSet k = cli_Get w TDaemonSet k.
Proof.
  intros Hw Hok. unfold reconcileResourceAPI, syncNodeResourceTopologyAPI. case_match; [by exists w|].
  rewrite (api_states w r Hok). destruct (mo_crd r Hok) as [Ht Hk]. set (crd := r_APIManifests_Crd r) in *. cbn [apply_api].
  destruct (apply_willing healthy willing w crd ObjectForUpdate complete_plain Hw Hk) as (w1 & o1 & ch & Ha & Hw1 & Hr & _);
    [constructor|].
  exists w1. rewrite Ha. cbn [go_bind]. split; [done|]. split; [done|]. split; [done|]. intros k.
  apply (ApplyObject_only healthy w _ crd ObjectForUpdate) in Ha; [|apply state_of_fields|apply state_of_fields|apply ObjectForUpdate_id].
  apply Ha. unfold obj_id. rewrite Ht. by intros [=].
Qed.

Lemma shared_willing w r r' i :
  willing w -> r_Platform r <> platform.Kubernetes -> workable r i ->
  setupTreeAgnosticManifests r i = Ret (r', None) -> workable r' i ->
  exists em w1, FromClientTreeAgnostic w (r_Platform r) (r_RTEManifests r) (nro_Name i) (r_Namespace r) = Ret em /\
    applyObjects w i (TreeAgnostic em (r_RTEManifests r')) = Ret (w1, None) /\ willing w1 /\ rtc one_write w w1 /\
    (forall k, ready w k -> ready w1 k) /\ Forall (settled i w1) (shared_entries (r_RTEManifests r')).
Proof.
  intros Hw Hp Hwk Hset Hwk'. pose proof (mo_typed r' (wk_manifests r' i Hwk')) as Hty'.
  destruct (mo_scc r (wk_manifests r i Hwk)) as (scc & Hs & _).
  destruct (FromClient_total w r (nro_Name i) (r_Namespace r)) as [em Hem];
    [by exists scc|apply (mo_sccv2 r (wk_manifests r i Hwk))|].
  exists em. pose proof (fun w1 => shared_done healthy r r' i w em w1 (law_willing_healthy w Hw) Hp
    (mo_typed r (wk_manifests r i Hwk)) (wk_distinct r i Hwk) Hem Hset) as Hsettled.
  rewrite (TreeAgnostic_entries w) in * by
    (try done; intros s o Ho; destruct (setup_slots _ _ _ _ _ Hset Ho) as (o0 & Hs0 & -> & _ & _);
     by apply (FromClient_loads w _ _ _ _ _ _ _ Hp Hem)).
  destruct (applyObjects_willing healthy willing i w w (shared_entries (r_RTEManifests r')) Hw) as (w1 & Hrun & Hw1 & Hr & _ & Hks).
  - apply Forall_forall. intros e (s & Hse)%elem_of_shared_entries. unfold slot_entry in Hse.
    apply fmap_Some in Hse as (d & Hd & ->). destruct (Hty' s d Hd) as [Ht Hk]. split; simpl.
    { rewrite Ht. apply slot_merger. }
    split; [done|]. apply controllable_free; [apply (wk_owner r i Hwk)|by apply (wk_free_shared r' i Hwk' s)].
  - apply (wk_distinct r' i Hwk').
  - by apply Forall_forall.
  - exists w1. split; [done|]. split; [done|]. split; [done|]. split; [done|]. split; [intros k; by apply ready_kept|].
    by apply (Hsettled w1 Hrun).
Qed.

(** Shared objects are not the trees'. *)
Lemma shared_survive r i w w' :
  manifests_ok r -> only_writes exporter_ids w w' ->
  Forall (settled i w) (shared_entries (r_RTEManifests r)) -> Forall (settled i w') (shared_entries (r_RTEManifests r)).
Proof.
  intros Hok Ho. rewrite !Forall_forall. intros Hs e He. apply (settled_frame i w); [|by apply Hs].
  destruct (shared_entry_type _ e (mo_typed r Hok) He) as (_ & _ & Hn). rewrite !not_elem_of_cons in Hn.
  destruct Hn as (Hn1 & Hn2 & _). apply Ho. by intros [?|?].
Qed.

(** ** The whole reconciliation *)

Lemma remove_willing platf w i trees r :
  willing w -> Forall (named_tree r) trees ->
  exists w', remove_unused platf w i trees = Ret w' /\ willing w' /\ rtc one_write w w' /\ only_writes exporter_ids w w' /\
    (Forall (tree_up r (nro_Name i) w) trees -> Forall (tree_up r (nro_Name i) w') trees).
Proof.
  intros Hw Hnt. assert (Forall (fun t => is_Some (tree_NodeGroup t)) trees) as Hgroups
    by (eapply Forall_impl; [exact Hnt|]; intros t Ht; apply Ht).
  destruct (remove_unused_only healthy platf w i trees (law_willing_healthy w Hw) Hgroups) as (w' & E & Ho).
  assert (rtc one_write w w') as Hr.
  { destruct (DeleteUnused_returns w i trees Hgroups) as (w1 & err & Ed & Hr1 & Hr2). unfold remove_unused in E.
    rewrite Ed in E. cbn [go_bind] in E. injection E as <-. case_decide; [by trans w1|done]. }
  exists w'. split; [done|]. split; [by apply (writes_willing healthy willing w)|]. split; [done|].
  split. { eapply only_writes_weaken; [|exact Ho]. intros id [[? _]|[? _]]; [by left|by right]. }
  rewrite !Forall_forall. rewrite Forall_forall in Hnt. intros Hup tree Ht. destruct (Hup tree Ht) as [Hp Hd]. split; [done|].
  rewrite Forall_forall in Hd |- *. intros tg Htg. destruct (Hd tg Htg) as (o & ds & Hg & Hrest). exists o, ds.
  split; [|done]. rewrite <-Hg. apply Ho. intros [[_ Hx]|[? _]]; [|done].
  by apply (Hx tree (tg_pool tg) Ht); [exact (nt_kept r tree (Hnt tree Ht) tg Htg)|].
Qed.

(** The set-up changes neither what trees ask for nor what they wait for. *)
Lemma workable_tree_setup r r' i tree :
  setupTreeAgnosticManifests r i = Ret (r', None) -> workable_tree r (nro_Name i) tree -> workable_tree r' (nro_Name i) tree.
Proof.
  intros (Sp & _ & _ & _ & Sm)%setup_same [[? ? ? ? ?] Hs Hf]. split; [split; by rewrite ?Sp|by rewrite Sp|].
  unfold machine_configs_fit. by rewrite Sm.
Qed.

Lemma tree_up_setup r r' i n w tree :
  setupTreeAgnosticManifests r i = Ret (r', None) -> tree_up r' n w tree <-> tree_up r n w tree.
Proof. intros (Sp & Sn & _)%setup_same. unfold tree_up. by rewrite Sp, Sn. Qed.

Lemma ReducePerTreeResults_goes_on results :
  Forall (fun res => goes_on (ptr_Step res)) results ->
  let step := ptr_Step (ReducePerTreeResults results) in
  goes_on step /\ (Forall (fun res => Done (ptr_Step res) = true) results -> Done step = true).
Proof.
  intros Hg. destruct (ReducePerTreeResults_parts results) as (_ & _ & _ & Hv & Hd & Hf).
  { eapply Forall_impl; [exact Hg|]. by intros res [? _]. }
  split; [split; [done|]|apply Hd]. apply not_true_is_false. rewrite Hf. intros (res & Hin & Hx)%Exists_exists.
  rewrite Forall_forall in Hg. destruct (Hg res Hin) as [_ Hff]. congruence.
Qed.

Lemma record_overall_meta now r i overall i' :
  record_overall UnsortedList now r i overall = Ret i' -> nro_Meta i' = nro_Meta i.
Proof.
  unfold record_overall. destruct (Done _); [|by intros [= <-]].
  destruct (syncNodeGroupsStatus _ _); simpl; [|done]. by intros [= <-].
Qed.

Lemma reconcileResource_willing clk w r i trees :
  willing w -> workable r i -> r_Platform r <> platform.Kubernetes ->
  Forall (workable_tree r (nro_Name i)) trees ->
  NoDup (trees ≫= (fun t => tg_pool <$> targets (helper_for (r_Platform r)) t)) ->
  is_ret (reconcileResource sha256_hex UnsortedList clk w r i trees) ->
  exists w' r' i' step, reconcileResource sha256_hex UnsortedList clk w r i trees = Ret (w', r', i', step) /\
    nro_Meta i' = nro_Meta i /\ willing w' /\ rtc one_write w w' /\ workable r' i /\ goes_on step /\
    setupTreeAgnosticManifests r i = Ret (r', None) /\ Forall (settled i w') (shared_entries (r_RTEManifests r')) /\
    (Forall (tree_up r (nro_Name i) w) trees ->
     Done step = true /\ Forall (tree_up r (nro_Name i) w') trees).
Proof.
  intros Hw Hwk Hp Hall Hpools Hret.
  destruct (workable_setup r i Hwk) as (r' & Hset & Hwk' & Hexp).
  destruct (setup_same _ _ _ Hset) as (Sp & Sn & _ & Sd & Sm).
  destruct (api_willing w r i Hw (wk_manifests r i Hwk)) as (w1 & Eapi & Hw1 & Hr1 & Hd1).
  destruct (shared_willing w1 r r' i Hw1 Hp Hwk Hset Hwk') as (em & w2 & Eem & Eap & Hw2 & Hr2 & Hd2 & Hs2).
  assert (Forall (named_tree r) trees) as Hnt by (eapply Forall_impl; [exact Hall|]; intros t Ht; apply Ht).
  destruct (remove_willing (r_Platform r') w2 i trees r Hw2 Hnt) as (w3 & Erm & Hw3 & Hr3 & Ho3 & Hd3).
  destruct (FromClient_context _ _ _ _ _ _ Eem) as (E1 & E2 & E3).
  destruct (loop_willing r' em (nro_Name i)) with (trees := trees) (w := w3) (i := i) (results := @nil PerTreeResult)
    as (w4 & i4 & new & Eloop & Hm4 & Hw4 & Hr4 & Ho4 & Hk4 & Hg4 & Hd4).
  { apply (wk_mc r' i Hwk'). }
  { apply (wk_free_mc r' i Hwk'). }
  { done. }
  { rewrite (wk_namespace r' i Hwk'), Sn. by symmetry. }
  { by rewrite E1, Sp. }
  { done. }
  { by rewrite E3, Sn. }
  { done. }
  { eapply Forall_impl; [exact Hall|]. intros t. by apply workable_tree_setup. }
  { done. }
  { apply (wk_owner r i Hwk). }
  { by rewrite Sp. }
  destruct (ReducePerTreeResults_goes_on new Hg4) as [Hgo Hdone]. simpl in Eloop.
  unfold reconcileResource in Hret |- *. rewrite Eapi in *. cbn [go_bind] in *. change (EarlyStop StepSuccess) with false in *.
  cbv iota in *. rewrite Eem in *. cbn [go_bind] in *. rewrite Hset in *. cbn [go_bind] in *. rewrite Eap in *. cbn [go_bind] in *.
  unfold remove_unused in Erm. destruct (DeleteUnusedDaemonSets w2 i trees) as [[w2' derr]|]; cbn [go_bind] in *; [|done].
  injection Erm as Erm. rewrite Erm, Eloop in *. cbn [go_bind] in *.
  destruct (record_overall _ _ _ _ _) as [i5|] eqn:Erec; cbn [go_bind] in *; [|by destruct Hret].
  apply record_overall_meta in Erec. exists w4, r', i5, (ptr_Step (ReducePerTreeResults new)).
  split; [done|]. split; [congruence|]. split; [done|]. split; [by trans w1; [|trans w2; [|trans w3]]|].
  split; [done|]. split; [done|]. split; [done|].
  split. { apply (shared_survive r' i w2 w4); [apply Hwk'|by apply (only_writes_trans healthy _ _ w3)|done]. }
  intros Hup.
  assert (Forall (tree_up r (nro_Name i) w3) trees) as Hup3.
  { apply Hd3. eapply Forall_impl; [exact Hup|]. intros t. apply tree_up_kept. intros k (o & ds & Hg & Hx).
    apply Hd2. exists o, ds. by rewrite Hd1. }
  split.
  - apply Hdone, Hd4. eapply Forall_impl; [exact Hup3|]. intros t. exact (proj2 (tree_up_setup r r' i _ w3 t Hset)).
  - eapply Forall_impl; [exact Hup3|]. intros t. by apply tree_up_kept.
Qed.

(** The request is not refused, nor paused; its groups are bound to the trees. *)
Definition operator_accepts (w : W) (r : Reconciler) (req : NamespacedName) (i : NUMAResourcesOperator)
  (trees : list Tree) (tolerable : option TolerableError) : Prop :=
  let annots := map_of (om_Annotations (nro_Meta i)) in
  let ngs := spec_NodeGroups (nro_Spec i) in
  nn_Name req = objectnames.DefaultNUMAResourcesOperatorCrName /\
  annotations.IsPauseReconciliationEnabled annots = false /\
  (r_OverridableRTEImage r = true \/ spec_ExporterImage (nro_Spec i) = "") /\
  NodeGroups ngs (r_Platform r) = None /\
  getTreesByNodeGroup show_node_group w ngs (r_Platform r) = inl trees /\
  NodeGroupsTree annots trees (r_Platform r) = (tolerable, None).

(** What is left of a reconciliation that accepts its request. *)
Lemma Reconcile_accepts w r req i trees tolerable clk :
  cli_GetNRO w req = inl i -> operator_accepts w r req i trees tolerable ->
  Reconcile show_node_group sha256_hex UnsortedList clk w r req
  = let! (w, r, instance, step) := reconcileResource sha256_hex UnsortedList clk w r
        (nro_with_Conditions (initial_conditions (ck_init clk) i) i) trees in
    let conds := fst (status.ComputeConditions (ck_final clk) (st_Conditions (nro_Status instance))
                        (ToMetav1Condition (step_ConditionInfo step) (om_Generation (nro_Meta instance))) (ck_final clk)) in
    let instance := nro_with_Conditions conds instance in
    let patched := cli_PatchStatus w i instance in
    match tolerable, Done step with
    | Some tol, true =>
        let '(w, res) := degradeStatus clk w i instance (te_Reason tol) (te_Error tol) in Ret (w, r, res)
    | _, _ =>
        match snd patched with
        | Some err => Ret (fst patched, r, (mkResult 0, Some err))
        | None => Ret (fst patched, r, (step_Result step, step_Error step))
        end
    end.
Proof.
  intros Hg (Hreq & Hpause & Himg & Hng & Htr & Hnt). unfold Reconcile. rewrite Hg. cbv zeta.
  rewrite decide_False by (intros Hx; by apply Hx). cbn [nro_Meta nro_Spec nro_with_Conditions]. rewrite Hpause.
  rewrite decide_False by (intros [? ?]; destruct Himg; congruence). rewrite Hng, Htr, Hnt.
  destruct (reconcileResource _ _ _ _ _ _ _) as [[[[w1 r1] i1] step]|]; cbn [go_bind]; [|done]. cbv zeta.
  destruct (cli_PatchStatus w1 i _) as [w2 [err|]], tolerable as [tol|], (Done step); done.
Qed.

(** Every pool has a name and selects its nodes, and takes the machine config the
    operator makes for it. *)
Definition pools_workable (r : Reconciler) (instanceName : string) (trees : list Tree) : Prop :=
  (forall tree mcp, tree ∈ trees -> mcp ∈ tree_MCPs tree -> mcp_Name mcp <> "" /\ is_Some (mcp_NodeSelector mcp)) /\
  Forall (machine_configs_fit instanceName (r_RTEManifests r)) trees.

Lemma workable_same r i j :
  nro_Spec j = nro_Spec i -> nro_Meta j = nro_Meta i -> workable r i -> workable r j.
Proof.
  intros Hs Hm [? ? ? ? ? ? ? Ho (m & h & rte & scc & [? ? ? Hr Hi ?])]. split; try done; [by rewrite Hm|].
  exists m, h, rte, scc. split; try done; unfold secured in *; by rewrite Hs.
Qed.

Lemma accepted_workable w r req i trees tolerable :
  operator_accepts w r req i trees tolerable -> pools_workable r (nro_Name i) trees ->
  Forall (workable_tree r (nro_Name i)) trees.
Proof.
  intros (_ & _ & _ & Hng & Htr & Hnt) [Hpools Hfit].
  assert (Forall (named_tree r) trees) as Hnamed.
  { apply (accepted_named show_node_group _ _ _ _ _ _ Hng Htr Hnt). intros tree mcp Ht Hm. by apply (Hpools tree). }
  apply Forall_forall. intros tree Ht. rewrite Forall_forall in Hnamed, Hfit. split; [by apply Hnamed| |by apply Hfit].
  apply Forall_forall. intros tg. unfold targets. case_match.
  - intros (mcp & -> & Hm)%list_elem_of_fmap. simpl. by destruct (Hpools tree mcp Ht Hm) as [_ [? ->]].
  - destruct (tree_NodeGroup tree ≫= ng_PoolName); simpl; [by intros ->%list_elem_of_singleton|by intros ?%elem_of_nil].
Qed.

Lemma Reconcile_progress clk w r req i trees tolerable :
  willing w -> cli_GetNRO w req = inl i -> operator_accepts w r req i trees tolerable ->
  workable r i -> pools_workable r (nro_Name i) trees ->
  exists w1 w' r' i1 step res,
    let instance := nro_with_Conditions (initial_conditions (ck_init clk) i) i in
    reconcileResource sha256_hex UnsortedList clk w r instance trees = Ret (w1, r', i1, step) /\
    Reconcile show_node_group sha256_hex UnsortedList clk w r req = Ret (w', r', (res, None)) /\
    (tolerable = None \/ Done step = false -> res = step_Result step) /\
    goes_on step /\ willing w' /\ workable r' i /\ setupTreeAgnosticManifests r i = Ret (r', None) /\
    (forall s d, slot_object (r_RTEManifests r') s = Some d -> installed (slot_fill s) w' (owned i d)) /\
    (Forall (tree_up r (nro_Name i) w) trees ->
     Done step = true /\ Forall (tree_up r (nro_Name i) w') trees).
Proof.
  intros Hw Hg Hacc Hwk Hpools. pose proof (law_willing_healthy w Hw) as Hh.
  pose proof (accepted_workable _ _ _ _ _ _ Hacc Hpools) as Htrees.
  destruct Hacc as (Hreq & Hpause & Himg & Hng & Htr & Hnt).
  set (instance := nro_with_Conditions (initial_conditions (ck_init clk) i) i).
  destruct (getTrees_ok show_node_group w r instance trees) as (Hp & Hok & Hcov); [by apply NodeGroups_valid|done|].
  destruct (reconcileResource_willing clk w r instance trees) as (w1 & r' & i1 & step & Erun & Hm1 & Hw1 & Hr1 & Hwk1 & Hgo & Hset & Hsh & Hup);
    [done|by apply (workable_same r i)|done|done|by apply (accepted_pools_distinct show_node_group w r _ _ _ _ Hng Htr Hnt)| |].
  { apply (reconcileResource_returns healthy sha256_hex UnsortedList); try done; [|apply Hwk].
    split; [done|]. intros t k e _. by apply law_willing_absent. }
  assert (forall s d, slot_object (r_RTEManifests r') s = Some d -> installed (slot_fill s) w1 (owned i d)) as Hin.
  { intros s d Hs. rewrite Forall_forall in Hsh. apply kept_installed.
    apply (Hsh (mkEntry d (slot_merge s) (slot_fill s))). apply elem_of_shared_entries. exists s. unfold slot_entry. by rewrite Hs. }
  assert (forall i', nro_Meta i' = nro_Meta i1 -> exists w', cli_PatchStatus w1 i i' = (w', None) /\ willing w' /\
    forall t k, cli_Get w' t k = cli_Get w1 t k) as Hpatch.
  { intros i' Hi'. destruct (law_willing_patch_nro w1 req i i' Hw1) as (w' & Ep & Hw'); [by rewrite (writes_nro w)|by rewrite Hi', Hm1|].
    exists w'. split; [done|]. split; [done|]. intros t k. by rewrite <-(law_patch w1 i i'), Ep. }
  assert (exists w' res, Reconcile show_node_group sha256_hex UnsortedList clk w r req = Ret (w', r', (res, None)) /\
    (tolerable = None \/ Done step = false -> res = step_Result step) /\ willing w' /\
    forall t k, cli_Get w' t k = cli_Get w1 t k) as (w' & res & Erec & Hres & Hw' & Hkeep).
  { rewrite (Reconcile_accepts w r req i trees tolerable clk Hg) by done. fold instance. rewrite Erun. cbn [go_bind]. cbv zeta.
    set (i2 := nro_with_Conditions _ i1). destruct (Hpatch i2 eq_refl) as (w' & Ep & Hw' & Hkeep).
    destruct tolerable as [tol|]; [destruct (Done step) eqn:Hd|].
    - unfold degradeStatus. match goal with |- context [cli_PatchStatus w1 i ?x] => destruct (Hpatch x eq_refl) as (w2 & -> & Hw2 & Hk2) end.
      exists w2, (mkResult 0). split; [done|]. split; [by intros [?|?]|done].
    - rewrite Ep, (goes_on_error step Hgo). exists w', (step_Result step). done.
    - rewrite Ep, (goes_on_error step Hgo). exists w', (step_Result step). done. }
  exists w1, w', r', i1, step, res. cbv zeta. fold instance. do 5 (split; [done|]).
  split; [by apply (workable_same r' instance i)|]. split; [exact Hset|]. split.
  { intros s d Hs. apply (installed_frame _ w1); [apply Hkeep|by apply Hin]. }
  intros Hu. destruct (Hup Hu) as [Hd Hall]. split; [done|]. eapply Forall_impl; [exact Hall|]. intros t. apply tree_up_kept.
  intros k (o & ds & Ho & Hx). exists o, ds. by rewrite Hkeep.
Qed.

(** C3: on a cluster that takes every legitimate write, with manifests that can be
    set up for the specification and pools that select their nodes, reconciling a
    request that is accepted never fails: it is done, or it comes back for the
    pools or the daemon sets it waits for. It leaves every shared object of its
    manifests in the cluster as it is wanted, and a cluster and manifests from which
    the next one does as well. Once every pool is up to date and every
    exporter daemon set is there with its pods ready, the reconciliation is done,
    and leaves them so. *)
Theorem operator_progress clk w r req i trees tolerable :
  willing w -> cli_GetNRO w req = inl i -> operator_accepts w r req i trees tolerable ->
  workable r i -> pools_workable r (nro_Name i) trees ->
  exists w1 w' r' i1 step res,
    let instance := nro_with_Conditions (initial_conditions (ck_init clk) i) i in
    reconcileResource sha256_hex UnsortedList clk w r instance trees = Ret (w1, r', i1, step) /\
    Reconcile show_node_group sha256_hex UnsortedList clk w r req = Ret (w', r', (res, None)) /\
    (tolerable = None \/ Done step = false -> res = step_Result step) /\
    goes_on step /\ willing w' /\ workable r' i /\
    (forall s d, slot_object (r_RTEManifests r') s = Some d -> installed (slot_fill s) w' (owned i d)) /\
    (Forall (tree_up r (nro_Name i) w) trees ->
     Done step = true /\ Forall (tree_up r (nro_Name i) w') trees).
Proof.
  intros Hw Hg Hacc Hwk Hpools.
  destruct (Reconcile_progress clk w r req i trees tolerable Hw Hg Hacc Hwk Hpools)
    as (w1 & w' & r' & i1 & step & res & H1 & H2 & H3 & H4 & H5 & H6 & _ & H7).
  by exists w1, w', r', i1, step, res.
Qed.
End Progress.

(** The manifests of the scenario can be set up for its instances. *)
Lemma scenario_workable plat ngs :
  workable (scenario.reconciler plat) (scenario.instance ngs None "").
Proof.
  split.
  - apply scenario_manifests_ok.
  - intros mc [= <-]. split_and!; [reflexivity|reflexivity|by right].
  - refine (bool_decide_eq_true_1 _ _). vm_compute. reflexivity.
  - reflexivity.
  - intros [] o [= <-]; reflexivity.
  - intros mc [= <-]. reflexivity.
  - reflexivity.
  - reflexivity.
  - destruct (setupTreeAgnosticManifests (scenario.reconciler plat) (scenario.instance ngs None "")) as [[r' [e|]]|] eqn:E;
      [vm_compute in E; discriminate E|by apply (setup_can _ _ r')|vm_compute in E; discriminate E].
Qed.

Lemma scenario_takes_writes i : om_key (nro_Meta i) = scenario.request -> takes_writes (scenario.cluster i (fun _ _ => None)).
Proof. intros Hi. split; [split; [by apply answers_reads_check|done]|]. by apply map_Forall_singleton. Qed.

(** A group with the custom policy: its pool has not picked up the machine config
    yet, so the operator waits for it. *)
Lemma operator_progress_witness :
  let i := scenario.instance [scenario.custom_group "worker"] None "" in
  let w := scenario.cluster i (fun _ _ => None) in
  let r := scenario.reconciler platform.OpenShift in
  let trees := [scenario.tree (scenario.custom_group "worker") [scenario.pool "worker"]] in
  operator_accepts scenario.show w r scenario.request i trees None /\
  exists w' r' step res, scenario.run platform.OpenShift w = Ret (w', r', (res, None)) /\ goes_on step /\
    res = step_Result step /\ takes_writes w' /\ workable r' i /\
    installed complete_account w' (owned i (mf_ServiceAccount (r_RTEManifests r'))).
Proof.
  intros i w r trees.
  assert (operator_accepts scenario.show w r scenario.request i trees None) as Hacc.
  { split_and!; [reflexivity|reflexivity|by right|vm_compute; reflexivity|reflexivity|vm_compute; reflexivity]. }
  split; [exact Hacc|].
  destruct (operator_progress answers_reads takes_writes scenario.show scenario.sha256 elements scenario.clock w r
    scenario.request i trees None) as (w1 & w' & r' & i1 & step & res & _ & E & Hres & Hg & Hw' & Hwk & Hin & _).
  - by apply scenario_takes_writes.
  - reflexivity.
  - exact Hacc.
  - apply scenario_workable.
  - split.
    + intros tree mcp ->%list_elem_of_singleton ->%list_elem_of_singleton. split; [discriminate|by eexists].
    + apply Forall_singleton. intros mc mcp sel [= <-] ->%list_elem_of_singleton [= <-]. vm_compute. reflexivity.
  - exists w', r', step, res. split; [exact E|]. split; [exact Hg|]. split; [by apply Hres; left|].
    split; [exact Hw'|]. split; [exact Hwk|]. exact (Hin SServiceAccount _ eq_refl).
Defined.

(** There it comes back in a minute; and once the pool has picked the machine config
    up, it is done. *)
Definition updated_pool (name : string) : MachineConfigPool :=
  mkMachineConfigPool name {["pool" := name]} false (Some (match_label "pool" name)) (Some (match_label "pool" name))
    [mkMachineConfigPoolCondition "Updated" "True" "" ""] [objectnames.GetMachineConfigName "numaresourcesoperator" name].

Example operator_waits_then_ends :
  let i := scenario.instance [scenario.custom_group "worker"] None "" in
  let w := scenario.cluster i (fun _ _ => None) in
  scenario.answer (scenario.run platform.OpenShift w) = Some (mkResult numaResourcesRetryPeriod, None) /\
  match scenario.run platform.OpenShift w with
  | Ret (w', _, _) =>
      scenario.answer (scenario.run platform.OpenShift
        (mkStore (st_objects w') (st_nros w') [updated_pool "worker"] (st_fault w'))) = Some (mkResult 0, None)
  | Panic _ => False
  end.
Proof. vm_compute. auto. Qed.
