(* ===== verification/SchedParams.v ===== *)
(** * The scheduler configuration
    (pkg/numaresourcesscheduler/manifests/schedparams.go,
    pkg/numaresourcesscheduler/objectupdate/sched/render.go)

    The configuration of the secondary scheduler is a YAML document in a config
    map. The operator decodes the parameters of its plugin from it, profile by
    profile, and renders wanted parameters into it, leaving everything it does not
    know alone. The YAML library is an interface; the tree it gives, and the
    accessors of the unstructured package, are modelled here. *)
From S2P Require Import Prelude GoErrors.
From Stdlib Require Import SpecFloat.

(** ** Unstructured values *)

(** The types [interface{}] takes in an unstructured document. *)
Inductive json :=
| JNull
| JBool (b : bool)
| JInt (z : Z)
| JFloat (f : spec_float)
| JString (s : string)
| JArray (l : list json)
| JObject (m : gmap string json).

#[global] Instance spec_float_eq_dec : EqDecision spec_float.
Proof. solve_decision. Defined.

#[global] Instance json_eq_dec : EqDecision json.
Proof.
  refine (fix go x y := let _ : EqDecision json := @go in
    match x, y return Decision (x = y) with
    | JNull, JNull => left eq_refl
    | JBool a, JBool b => cast_if (decide (a = b))
    | JInt a, JInt b => cast_if (decide (a = b))
    | JFloat a, JFloat b => cast_if (decide (a = b))
    | JString a, JString b => cast_if (decide (a = b))
    | JArray a, JArray b => cast_if (decide (a = b))
    | JObject a, JObject b => cast_if (decide (a = b))
    | _, _ => right _
    end); congruence.
Defined.

(** What is used of the YAML library and of number conversion. [show_json] is
    the text of a value and its type in an error message; [int64_of_huge] the
    conversion of a float64 outside the range of int64, which the language
    leaves to the implementation. *)
Class YamlLib := {
  yaml_Unmarshal : string -> gmap string json + error;
  yaml_Marshal : gmap string json -> string + error;
  float64_of_int64 : Z -> spec_float;
  show_json : json -> string;
  int64_of_huge : spec_float -> Z;
}.

(** The integer part of a finite float64. *)
Definition float_trunc (f : spec_float) : option Z :=
  match f with
  | S754_zero _ => Some 0%Z
  | S754_finite s m e => let v := Z.shiftl (Z.pos m) e in Some (if s then (- v)%Z else v)
  | S754_infinity _ | S754_nan => None
  end.

Definition int64_min : Z := (- 2 ^ 63)%Z.
Definition int64_max : Z := (2 ^ 63 - 1)%Z.

(** The type assertions of the accessors. *)
Definition as_string (j : json) : option string := match j with JString s => Some s | _ => None end.
Definition as_bool (j : json) : option bool := match j with JBool b => Some b | _ => None end.
Definition as_float (j : json) : option spec_float := match j with JFloat f => Some f | _ => None end.
Definition as_int (j : json) : option Z := match j with JInt z => Some z | _ => None end.
Definition as_array (j : json) : option (list json) := match j with JArray l => Some l | _ => None end.
Definition as_object (j : json) : option (gmap string json) := match j with JObject m => Some m | _ => None end.

(** ** Parameters *)

Definition SchedulerPluginName : string := "NodeResourceTopologyMatch".

Definition ForeignPodsDetectNone : string := "None".
Definition ForeignPodsDetectAll : string := "All".
Definition ForeignPodsDetectOnlyExclusiveResources : string := "OnlyExclusiveResources".
Definition CacheResyncAutodetect : string := "Autodetect".
Definition CacheResyncAll : string := "All".
Definition CacheResyncOnlyExclusiveResources : string := "OnlyExclusiveResources".
Definition CacheInformerShared : string := "Shared".
Definition CacheInformerDedicated : string := "Dedicated".
Definition ScoringStrategyMostAllocated : string := "MostAllocated".
Definition ScoringStrategyBalancedAllocation : string := "BalancedAllocation".
Definition ScoringStrategyLeastAllocated : string := "LeastAllocated".
Definition PreemptionEnabled : string := "Enabled".
Definition PreemptionDisabled : string := "Disabled".
Definition LeaderElectionDefaultName : string := "nrtmatch-scheduler".
Definition LeaderElectionDefaultNamespace : string := "tas-scheduler".

Record ConfigCacheParams := mkConfigCacheParams {
  ccp_ResyncPeriodSeconds : option Z;
  ccp_ResyncMethod : option string;
  ccp_ForeignPodsDetectMode : option string;
  ccp_InformerMode : option string }.

Record ResourceSpecParams := mkResourceSpecParams { rsp_Name : string; rsp_Weight : Z }.

Record ScoringStrategyParams := mkScoringStrategyParams {
  ssp_Type : string; ssp_Resources : list ResourceSpecParams }.

Record LeaderElectionParams := mkLeaderElectionParams {
  lep_LeaderElect : bool; lep_ResourceNamespace : string; lep_ResourceName : string }.

Record ConfigParams := mkConfigParams {
  cfg_ProfileName : string;
  cfg_Cache : option ConfigCacheParams;
  cfg_ScoringStrategy : option ScoringStrategyParams;
  cfg_LeaderElection : option LeaderElectionParams;
  cfg_PreemptionMode : option string }.

Definition SetDefaultsConfigCacheParams (p : ConfigCacheParams) : ConfigCacheParams :=
  mkConfigCacheParams (Some (5 * 1000000000)%Z) (Some CacheResyncAutodetect)
    (Some ForeignPodsDetectOnlyExclusiveResources) (ccp_InformerMode p).

Definition NewConfigCacheParams : ConfigCacheParams :=
  SetDefaultsConfigCacheParams (mkConfigCacheParams None None None None).

Definition SetDefaultsLeaderElection (lep : LeaderElectionParams) : LeaderElectionParams :=
  mkLeaderElectionParams (lep_LeaderElect lep)
    (if decide (lep_ResourceNamespace lep = "") then LeaderElectionDefaultNamespace else lep_ResourceNamespace lep)
    (if decide (lep_ResourceName lep = "") then LeaderElectionDefaultName else lep_ResourceName lep).

(** ** Validation of the modes *)

Definition one_of (what : string) (allowed : list string) (value : string) : option error :=
  if decide (value ∈ allowed) then None else Some (ErrNew ("unsupported " +:+ what +:+ ": " +:+ value)).

Definition ValidateForeignPodsDetectMode : string -> option error :=
  one_of "foreignPodsDetectMode"
    [ForeignPodsDetectNone; ForeignPodsDetectAll; ForeignPodsDetectOnlyExclusiveResources].
Definition ValidateCacheResyncMethod : string -> option error :=
  one_of "cacheResyncMethod" [CacheResyncAutodetect; CacheResyncAll; CacheResyncOnlyExclusiveResources].
Definition ValidateCacheInformerMode : string -> option error :=
  one_of "cacheInformerMode" [CacheInformerShared; CacheInformerDedicated].
Definition ValidateScoringStrategyType : string -> option error :=
  one_of "scoringStrategyType"
    [ScoringStrategyMostAllocated; ScoringStrategyBalancedAllocation; ScoringStrategyLeastAllocated].
Definition ValidatePreemptionMode : string -> option error :=
  one_of "preemptionMode" [PreemptionEnabled; PreemptionDisabled].

Definition FindSchedulerProfileByName (profileParams : list ConfigParams) (schedulerName : string)
  : option ConfigParams :=
  snd <$> list_find (fun p => cfg_ProfileName p = schedulerName) profileParams.

Section Yaml.
Context {yaml : YamlLib}.

(** [int64(f)] *)
Definition int64_of_float (f : spec_float) : Z :=
  match float_trunc f with
  | Some z => if decide (int64_min <= z <= int64_max)%Z then z else int64_of_huge f
  | None => int64_of_huge f
  end.

(** The accessors of the unstructured package, for one field: the value, nothing
    when the field is missing, or an error when it has another type. *)
Definition Nested {A} (proj : json -> option A) (expected : string)
  (obj : gmap string json) (field : string) : option A + error :=
  match obj !! field with
  | None => inl None
  | Some v =>
      match proj v with
      | Some a => inl (Some a)
      | None => inr (ErrNew ("." +:+ field +:+ " accessor error: " +:+ show_json v +:+ ", expected " +:+ expected))
      end
  end.

Definition NestedString := Nested as_string "string".
Definition NestedBool := Nested as_bool "bool".
Definition NestedFloat64 := Nested as_float "float64".
Definition NestedInt64 := Nested as_int "int64".
Definition NestedSlice := Nested as_array "[]interface{}".
Definition NestedMap := Nested as_object "map[string]interface{}".

(** Setting one field cannot fail. *)
Definition SetNestedField (obj : gmap string json) (value : json) (field : string) : gmap string json :=
  <[field := value]> obj.

(** ** Decoding *)

Definition wrap {A} (prefix : string) (m : A + error) : A + error :=
  match m with inl a => inl a | inr e => inr (ErrWrap prefix e) end.

(** A validated optional mode; [path] names it in the error. *)
Definition extract_mode (path : string) (validate : string -> option error)
  (obj : gmap string json) (field : string) : option string + error :=
  let? v := wrap ("cannot process field " +:+ path +:+ ": ") (NestedString obj field) in
  match v with
  | None => inl None
  | Some s => match validate s with
              | Some err => inr err
              | None => inl (Some s)
              end
  end.

Definition show_err (r : option error) : string :=
  match r with None => "<nil>" | Some e => Error e end.

(** A field that must be there. *)
Definition required {A} (what : string) (m : option A + error) : A + error :=
  match m with
  | inl (Some a) => inl a
  | inl None => inr (ErrNew ("unexpected " +:+ what +:+ " data (err=" +:+ show_err None +:+ ")"))
  | inr e => inr (ErrNew ("unexpected " +:+ what +:+ " data (err=" +:+ show_err (Some e) +:+ ")"))
  end.

Definition extract_resource (idx : nat) (scRes : json) : ResourceSpecParams + error :=
  let path := "scoringStrategy.resources[" +:+ pretty idx +:+ "]" in
  match as_object scRes with
  | None => inr (ErrNew ("unexpected " +:+ path +:+ " data"))
  | Some res =>
      let? name := required (path +:+ ".name") (NestedString res "name") in
      let? weight := required (path +:+ ".weight") (NestedFloat64 res "weight") in
      inl (mkResourceSpecParams name (int64_of_float weight))
  end.

Fixpoint extract_resources (idx : nat) (l : list json) : list ResourceSpecParams + error :=
  match l with
  | [] => inl []
  | scRes :: l' =>
      let? r := extract_resource idx scRes in
      let? rs := extract_resources (S idx) l' in
      inl (r :: rs)
  end.

Definition extract_cache (period : option Z) (args : gmap string json) : ConfigCacheParams + error :=
  let? cacheArgs := wrap "cannot process field cache: " (NestedMap args "cache") in
  match cacheArgs with
  | None => inl (mkConfigCacheParams period None None None)
  | Some cacheArgs =>
      let? resyncMethod := extract_mode "cache.resyncMethod" ValidateCacheResyncMethod cacheArgs "resyncMethod" in
      let? foreignPods :=
        extract_mode "cache.foreignPodsDetect" ValidateForeignPodsDetectMode cacheArgs "foreignPodsDetect" in
      let? informerMode := extract_mode "cache.informerMode" ValidateCacheInformerMode cacheArgs "informerMode" in
      inl (mkConfigCacheParams period resyncMethod foreignPods informerMode)
  end.

Definition extract_scoring (args : gmap string json) : option ScoringStrategyParams + error :=
  let? scoringStratArgs := wrap "cannot process field scoringStrategy: " (NestedMap args "scoringStrategy") in
  match scoringStratArgs with
  | None => inl None
  | Some scoringStratArgs =>
      let? scoringType :=
        extract_mode "scoringStrategy.type" ValidateScoringStrategyType scoringStratArgs "type" in
      let? scoringRess :=
        wrap "cannot process field scoringStrategy.resources: " (NestedSlice scoringStratArgs "resources") in
      let? resources := extract_resources 0 (default [] scoringRess) in
      inl (Some (mkScoringStrategyParams (default "" scoringType) resources))
  end.

Definition extractParams (profileName : string) (args : gmap string json) : ConfigParams + error :=
  let? resyncPeriod :=
    wrap "cannot process field cacheResyncPeriodSeconds: " (NestedFloat64 args "cacheResyncPeriodSeconds") in
  let? cache := extract_cache (int64_of_float <$> resyncPeriod) args in
  let? scoring := extract_scoring args in
  let? preemptionMode := extract_mode "preemptionMode" ValidatePreemptionMode args "preemptionMode" in
  inl (mkConfigParams profileName (Some cache) scoring None preemptionMode).

Definition extractLeaderElectionParams (lead : gmap string json) : LeaderElectionParams + error :=
  let? enabled := required "leaderElect" (NestedBool lead "leaderElect") in
  let? resourceNamespace := wrap "unexpected resourceNamespace data: " (NestedString lead "resourceNamespace") in
  let? resourceName := wrap "unexpected resourceName data: " (NestedString lead "resourceName") in
  inl (mkLeaderElectionParams enabled (default "" resourceNamespace) (default "" resourceName)).

Definition cfg_with_LeaderElection (e : option LeaderElectionParams) (p : ConfigParams) : ConfigParams :=
  mkConfigParams (cfg_ProfileName p) (cfg_Cache p) (cfg_ScoringStrategy p) e (cfg_PreemptionMode p).

(** A loop that goes on with [inl], and leaves the whole function with [inr]. *)
Fixpoint decode_plugins (profileName : string) (electParams : option LeaderElectionParams)
  (pluginConfigs : list json) (params : list ConfigParams) : list ConfigParams + list ConfigParams :=
  match pluginConfigs with
  | [] => inl params
  | plConf :: rest =>
      match as_object plConf with
      | None => inr params
      | Some pluginConf =>
          match NestedString pluginConf "name" with
          | inr _ | inl None => inr params
          | inl (Some name) =>
              if decide (name <> SchedulerPluginName) then decode_plugins profileName electParams rest params
              else
                match NestedMap pluginConf "args" with
                | inr _ | inl None => inr params
                | inl (Some args) =>
                    match extractParams profileName args with
                    | inr _ => decode_plugins profileName electParams rest params
                    | inl profileParams =>
                        decode_plugins profileName electParams rest
                          (params ++ [cfg_with_LeaderElection electParams profileParams])
                    end
                end
          end
      end
  end.

Fixpoint decode_profiles (electParams : option LeaderElectionParams)
  (profiles : list json) (params : list ConfigParams) : list ConfigParams + list ConfigParams :=
  match profiles with
  | [] => inl params
  | prof :: rest =>
      match as_object prof with
      | None => inr params
      | Some profile =>
          match NestedString profile "schedulerName" with
          | inr _ | inl None => inr params
          | inl (Some profileName) =>
              match NestedSlice profile "pluginConfig" with
              | inr _ | inl None => inr params
              | inl (Some pluginConfigs) =>
                  match decode_plugins profileName electParams pluginConfigs params with
                  | inr params => inr params
                  | inl params => decode_profiles electParams rest params
                  end
              end
          end
      end
  end.

Definition decode_tree (r : gmap string json) : list ConfigParams * option error :=
  match NestedMap r "leaderElection" with
  | inr err => ([], Some err)
  | inl lead =>
      match (match lead with
             | None => inl None
             | Some lead => match extractLeaderElectionParams lead with
                            | inl e => inl (Some e)
                            | inr err => inr err
                            end
             end) with
      | inr _ => ([], None)
      | inl electParams =>
          match NestedSlice r "profiles" with
          | inr _ | inl None => ([], None)
          | inl (Some profiles) =>
              match decode_profiles electParams profiles [] with
              | inl params | inr params => (params, None)
              end
          end
      end
  end.

Definition DecodeSchedulerProfilesFromData (data : string) : list ConfigParams * option error :=
  match yaml_Unmarshal data with
  | inr _ => ([], None)
  | inl r => decode_tree r
  end.

(** ** Rendering *)

Definition updateLeaderElection (lead : gmap string json) (lep : LeaderElectionParams) : gmap string json :=
  let lead := SetNestedField lead (JBool (lep_LeaderElect lep)) "leaderElect" in
  let lead := SetNestedField lead (JString (lep_ResourceName lep)) "resourceName" in
  SetNestedField lead (JString (lep_ResourceNamespace lep)) "resourceNamespace".

(** An optional mode, validated before it is written; counts the writes. *)
Definition update_mode (validate : string -> option error) (mode : option string) (field : string)
  (st : gmap string json * nat) : (gmap string json * nat) + error :=
  match mode with
  | None => inl st
  | Some m => match validate m with
              | Some err => inr err
              | None => inl (SetNestedField (fst st) (JString m) field, S (snd st))
              end
  end.

Definition updateCacheArgs (args : gmap string json) (cache : ConfigCacheParams)
  : (gmap string json * nat) + error :=
  let? st := update_mode ValidateCacheResyncMethod (ccp_ResyncMethod cache) "resyncMethod" (args, 0%nat) in
  let? st := update_mode ValidateForeignPodsDetectMode (ccp_ForeignPodsDetectMode cache) "foreignPodsDetect" st in
  update_mode ValidateCacheInformerMode (ccp_InformerMode cache) "informerMode" st.

Definition render_resource (r : ResourceSpecParams) : json :=
  JObject {["name" := JString (rsp_Name r); "weight" := JInt (rsp_Weight r)]}.

Definition updateScoringStrategyArgs (args : gmap string json) (s : ScoringStrategyParams)
  : (gmap string json * nat) + error :=
  let? st := update_mode ValidateScoringStrategyType
               (if decide (ssp_Type s = "") then None else Some (ssp_Type s)) "type" (args, 0%nat) in
  match ssp_Resources s with
  | [] => inl st
  | rs => inl (SetNestedField (fst st) (JArray (render_resource <$> rs)) "resources", S (snd st))
  end.

Definition updatePreemptionArgs (args : gmap string json) (params : ConfigParams)
  : (gmap string json * nat) + error :=
  match cfg_PreemptionMode params with
  | None =>
      match NestedString args "preemptionMode" with
      | inr err => inr err
      | inl (Some _) => inl (delete "preemptionMode" args, 1%nat)
      | inl None => inl (args, 0%nat)
      end
  | Some _ => update_mode ValidatePreemptionMode (cfg_PreemptionMode params) "preemptionMode" (args, 0%nat)
  end.

(** A period that is not an int64 is left alone: the error is dropped. *)
Definition ensureBackwardCompatibility (args : gmap string json) : gmap string json :=
  match NestedInt64 args "cacheResyncPeriodSeconds" with
  | inr _ | inl None => args
  | inl (Some resyncPeriod) =>
      if decide (0 < resyncPeriod)%Z then args else delete "cacheResyncPeriodSeconds" args
  end.

(** The section [field] of the arguments, made when missing, updated by [f] and
    written back when [f] wrote something. *)
Definition update_section {P} (field : string) (f : gmap string json -> P -> (gmap string json * nat) + error)
  (params : option P) (args : gmap string json) (updated : nat) : (gmap string json * nat) + error :=
  let? section := NestedMap args field in
  let section := default ∅ section in
  match params with
  | None => inl (args, updated)
  | Some p =>
      let? (section, n) := f section p in
      inl (if decide (n = 0%nat) then args else SetNestedField args (JObject section) field, (updated + n)%nat)
  end.

Definition updateArgs (args : gmap string json) (params : ConfigParams) : (gmap string json * bool) + error :=
  let '(args, updated) :=
    match cfg_Cache params with
    | Some cache =>
        match ccp_ResyncPeriodSeconds cache with
        | Some resyncPeriod => (SetNestedField args (JInt resyncPeriod) "cacheResyncPeriodSeconds", 1%nat)
        | None => (args, 0%nat)
        end
    | None => (args, 0%nat)
    end in
  let? (args, updated) := update_section "cache" updateCacheArgs (cfg_Cache params) args updated in
  let? (args, updated) :=
    update_section "scoringStrategy" updateScoringStrategyArgs (cfg_ScoringStrategy params) args updated in
  let? (args, n) := updatePreemptionArgs args params in
  inl (ensureBackwardCompatibility args, (0 <? updated + n)%nat).

(** The loops of the renderer give the updated list, or the error to return with
    the data as it was; that error can be nil. *)
Fixpoint render_plugins (params : ConfigParams) (pluginConfigs : list json) (updated : bool)
  : (list json * bool) + option error :=
  match pluginConfigs with
  | [] => inl ([], updated)
  | plConf :: rest =>
      match as_object plConf with
      | None => inr None
      | Some pluginConf =>
          match NestedString pluginConf "name" with
          | inr err => inr (Some err)
          | inl None => inr None
          | inl (Some name) =>
              if decide (name <> SchedulerPluginName) then
                let? (rest, updated) := render_plugins params rest updated in
                inl (plConf :: rest, updated)
              else
                match NestedMap pluginConf "args" with
                | inr err => inr (Some err)
                | inl None => inr None
                | inl (Some args) =>
                    match updateArgs args params with
                    | inr err => inr (Some err)
                    | inl (args, argsUpdated) =>
                        let? (rest, updated) := render_plugins params rest (updated || argsUpdated) in
                        inl (JObject (SetNestedField pluginConf (JObject args) "args") :: rest, updated)
                    end
                end
          end
      end
  end.

Fixpoint render_profiles (schedulerName : string) (params : ConfigParams) (profiles : list json) (updated : bool)
  : (list json * bool) + option error :=
  match profiles with
  | [] => inl ([], updated)
  | prof :: rest =>
      match as_object prof with
      | None => inr None
      | Some profile =>
          match NestedString profile "schedulerName" with
          | inr err => inr (Some err)
          | inl None => inr None
          | inl (Some profileName) =>
              if decide (profileName <> schedulerName) then
                let? (rest, updated) := render_profiles schedulerName params rest updated in
                inl (prof :: rest, updated)
              else
                let '(profile, updated) :=
                  if decide (cfg_ProfileName params = "") then (profile, updated)
                  else (SetNestedField profile (JString (cfg_ProfileName params)) "schedulerName", true) in
                match NestedSlice profile "pluginConfig" with
                | inr err => inr (Some err)
                | inl None => inr None
                | inl (Some pluginConfigs) =>
                    let? (pluginConfigs, updated) := render_plugins params pluginConfigs updated in
                    let? (rest, updated) := render_profiles schedulerName params rest updated in
                    inl (JObject (SetNestedField profile (JArray pluginConfigs) "pluginConfig") :: rest, updated)
                end
          end
      end
  end.

Definition render_tree (r : gmap string json) (schedulerName : string) (params : ConfigParams)
  : (gmap string json * bool) + option error :=
  let? (r, updated) :=
    match cfg_LeaderElection params with
    | None => inl (r, false)
    | Some lep =>
        match NestedMap r "leaderElection" with
        | inr err => inr (Some err)
        | inl None => inr None
        | inl (Some lead) =>
            inl (SetNestedField r (JObject (updateLeaderElection lead lep)) "leaderElection", true)
        end
    end in
  match NestedSlice r "profiles" with
  | inr err => inr (Some err)
  | inl None => inr None
  | inl (Some profiles) =>
      let? (profiles, updated) := render_profiles schedulerName params profiles updated in
      inl (SetNestedField r (JArray profiles) "profiles", updated)
  end.

Definition RenderConfig (data schedulerName : string) (params : option ConfigParams)
  : string * bool * option error :=
  if decide (schedulerName = "") then (data, false, None)
  else
    match params with
    | None => (data, false, None)
    | Some params =>
        match yaml_Unmarshal data with
        | inr err => (data, false, Some err)
        | inl r =>
            match render_tree r schedulerName params with
            | inr err => (data, false, err)
            | inl (r, updated) =>
                match yaml_Marshal r with
                | inr _ => (data, false, None)
                | inl newData => (newData, updated, None)
                end
            end
        end
    end.
End Yaml.
