(* ===== verification/SchedParamsSpec.v ===== *)
(** * Rendering refines an overlay of parameters

    The abstract configuration of the scheduler is the list of the parameters of
    its profiles. Rendering wanted parameters into a well-formed document is, on
    that list, an overlay: what is wanted replaces what was there, what is not
    mentioned stays. *)
From S2P Require Import Prelude GoErrors SchedParams.
From Stdlib Require Import SpecFloat.

(** ** The YAML library *)

Section Spec.
Context {yaml : YamlLib}.

(** Numbers are read as floats, whatever they were before they were printed. *)
Fixpoint reread (j : json) : json :=
  match j with
  | JInt z => JFloat (float64_of_int64 z)
  | JArray l => JArray (reread <$> l)
  | JObject m => JObject (reread <$> m)
  | j => j
  end.

Definition reread_map (m : gmap string json) : gmap string json := reread <$> m.
Definition reread_list (l : list json) : list json := reread <$> l.

Lemma reread_list_cons j l : reread_list (j :: l) = reread j :: reread_list l.
Proof. done. Qed.

Lemma lookup_reread m f : reread_map m !! f = reread <$> m !! f.
Proof. apply lookup_fmap. Qed.

(** Integers a float64 holds exactly. *)
Definition exact (z : Z) : Prop := (- 2 ^ 53 <= z <= 2 ^ 53)%Z.
#[global] Instance exact_dec z : Decision (exact z).
Proof. unfold exact. apply _. Defined.

(** A document that is printed is read back, a document that was read has no
    integers, and small integers survive as floats. *)
Class YamlLaws := {
  yaml_roundtrip m data : yaml_Marshal m = inl data -> yaml_Unmarshal data = inl (reread_map m);
  yaml_floats data m : yaml_Unmarshal data = inl m -> reread_map m = m;
  float_exact z : exact z -> float_trunc (float64_of_int64 z) = Some z;
}.

(** ** The abstract configuration *)

(** The parameters of a document all of whose profiles are well formed. *)
Definition plugin_params (profileName : string) (elect : option LeaderElectionParams) (conf : json)
  : option (list ConfigParams) :=
  pluginConf ← as_object conf;
  match NestedString pluginConf "name" with
  | inl (Some name) =>
      if decide (name <> SchedulerPluginName) then Some []
      else
        match NestedMap pluginConf "args" with
        | inl (Some args) =>
            match extractParams profileName args with
            | inl p => Some [cfg_with_LeaderElection elect p]
            | inr _ => None
            end
        | _ => None
        end
  | _ => None
  end.

Definition profile_params (elect : option LeaderElectionParams) (prof : json) : option (list ConfigParams) :=
  profile ← as_object prof;
  match NestedString profile "schedulerName", NestedSlice profile "pluginConfig" with
  | inl (Some profileName), inl (Some confs) => mjoin <$> mapM (plugin_params profileName elect) confs
  | _, _ => None
  end.

Definition election_of (r : gmap string json) : option (option LeaderElectionParams) :=
  match NestedMap r "leaderElection" with
  | inl None => Some None
  | inl (Some lead) => match extractLeaderElectionParams lead with inl e => Some (Some e) | inr _ => None end
  | inr _ => None
  end.

Definition configuration (r : gmap string json) : option (list ConfigParams) :=
  elect ← election_of r;
  match NestedSlice r "profiles" with
  | inl (Some profiles) => mjoin <$> mapM (profile_params elect) profiles
  | _ => None
  end.

(** ** The overlay *)

Definition or_else {A} (new old : option A) : option A := match new with Some _ => new | None => old end.

Definition overlay_cache (new old : option ConfigCacheParams) : option ConfigCacheParams :=
  match new, old with
  | Some n, Some o =>
      Some (mkConfigCacheParams
              (match ccp_ResyncPeriodSeconds n with
               | Some z => if decide (0 < z)%Z then Some z else None
               | None => ccp_ResyncPeriodSeconds o
               end)
              (or_else (ccp_ResyncMethod n) (ccp_ResyncMethod o))
              (or_else (ccp_ForeignPodsDetectMode n) (ccp_ForeignPodsDetectMode o))
              (or_else (ccp_InformerMode n) (ccp_InformerMode o)))
  | _, _ => old
  end.

Definition overlay_scoring (new old : option ScoringStrategyParams) : option ScoringStrategyParams :=
  match new with
  | None => old
  | Some n =>
      if decide (ssp_Type n = "" /\ ssp_Resources n = []) then old
      else
        let o := default (mkScoringStrategyParams "" []) old in
        Some (mkScoringStrategyParams
                (if decide (ssp_Type n = "") then ssp_Type o else ssp_Type n)
                (match ssp_Resources n with [] => ssp_Resources o | rs => rs end))
  end.

(** On the profile [name]; the leader election is shared by all the profiles. *)
Definition overlay (name : string) (new old : ConfigParams) : ConfigParams :=
  let elect := or_else (cfg_LeaderElection new) (cfg_LeaderElection old) in
  if decide (cfg_ProfileName old = name) then
    mkConfigParams
      (if decide (cfg_ProfileName new = "") then name else cfg_ProfileName new)
      (overlay_cache (cfg_Cache new) (cfg_Cache old))
      (overlay_scoring (cfg_ScoringStrategy new) (cfg_ScoringStrategy old))
      elect (cfg_PreemptionMode new)
  else cfg_with_LeaderElection elect old.

(** The numbers to write are exact in a float64. *)
Definition exact_numbers (p : ConfigParams) : Prop :=
  (forall c z, cfg_Cache p = Some c -> ccp_ResyncPeriodSeconds c = Some z -> exact z) /\
  (forall s r, cfg_ScoringStrategy p = Some s -> r ∈ ssp_Resources s -> exact (rsp_Weight r)).

(** ** Decoding gives the configuration *)

Lemma decode_plugins_params name elect confs params pss :
  mapM (plugin_params name elect) confs = Some pss ->
  decode_plugins name elect confs params = inl (params ++ mjoin pss).
Proof.
  revert params pss. induction confs as [|conf confs IH]; intros params pss; simpl.
  { intros [= <-]. by rewrite app_nil_r. }
  intros (ps & Hps & (pss' & Hpss & [= <-])%bind_Some)%bind_Some.
  unfold plugin_params in Hps. destruct (as_object conf) as [m|]; simpl in Hps; [|done].
  destruct (NestedString m "name") as [[n|]|]; [|done..]. case_decide.
  { injection Hps as <-. exact (IH _ _ Hpss). }
  destruct (NestedMap m "args") as [[args|]|]; [|done..].
  destruct (extractParams name args) as [p|]; [|done]. injection Hps as <-.
  rewrite (IH _ _ Hpss). by rewrite <-app_assoc.
Qed.

Lemma decode_profiles_params elect profiles params pss :
  mapM (profile_params elect) profiles = Some pss ->
  decode_profiles elect profiles params = inl (params ++ mjoin pss).
Proof.
  revert params pss. induction profiles as [|prof profiles IH]; intros params pss; simpl.
  { intros [= <-]. by rewrite app_nil_r. }
  intros (ps & Hps & (pss' & Hpss & [= <-])%bind_Some)%bind_Some.
  unfold profile_params in Hps. destruct (as_object prof) as [m|]; simpl in Hps; [|done].
  destruct (NestedString m "schedulerName") as [[n|]|]; [|done..].
  destruct (NestedSlice m "pluginConfig") as [[confs|]|]; [|done..].
  apply fmap_Some in Hps as (qss & Hq & ->). rewrite (decode_plugins_params _ _ _ _ _ Hq).
  rewrite (IH _ _ Hpss). by rewrite <-app_assoc.
Qed.

Lemma decode_tree_configuration r ps :
  configuration r = Some ps -> decode_tree r = (ps, None).
Proof.
  unfold configuration, election_of, decode_tree. intros (elect & He & Hps)%bind_Some.
  destruct (NestedSlice r "profiles") as [[profiles|]|] eqn:Ep; [|done..].
  apply fmap_Some in Hps as (pss & Hpss & ->).
  pose proof (decode_profiles_params elect profiles [] pss Hpss) as Hd.
  destruct (NestedMap r "leaderElection") as [[lead|]|]; [| |done].
  - destruct (extractLeaderElectionParams lead); [|done]. injection He as <-. by rewrite Hd.
  - injection He as <-. by rewrite Hd.
Qed.

(** ** Reading fields back *)

Lemma Nested_inl {A} (proj : json -> option A) expected m f o :
  Nested proj expected m f = inl o <->
  (m !! f = None /\ o = None) \/ exists v a, m !! f = Some v /\ proj v = Some a /\ o = Some a.
Proof.
  unfold Nested. destruct (m !! f) as [v|]; [|naive_solver].
  destruct (proj v) as [a|] eqn:Ev; split; intros H; naive_solver.
Qed.

(** A field, as an accessor sees it. *)
Definition has (m : gmap string json) (f : string) {A} (proj : json -> option A) (o : option A) : Prop :=
  (m !! f = None /\ o = None) \/ exists v a, m !! f = Some v /\ proj v = Some a /\ o = Some a.

(** A valid optional mode. *)
Definition has_mode (validate : string -> option error) (m : gmap string json) (f : string) (o : option string) : Prop :=
  has m f as_string o /\ forall s, o = Some s -> validate s = None.

Lemma extract_mode_inl path validate m f o :
  extract_mode path validate m f = inl o <-> has_mode validate m f o.
Proof.
  unfold extract_mode, has_mode, has. rewrite <-(Nested_inl as_string "string"). unfold NestedString.
  destruct (Nested as_string "string" m f) as [[s|]|]; simpl; [| |naive_solver].
  - destruct (validate s) eqn:E; naive_solver.
  - naive_solver.
Qed.

Lemma has_lookup {A} m m' f (proj : json -> option A) o : m !! f = m' !! f -> has m f proj o -> has m' f proj o.
Proof. unfold has. by intros ->. Qed.

Lemma has_reread {A} m f (proj : json -> option A) o :
  (forall v a, proj v = Some a -> proj (reread v) = Some a) -> has m f proj o -> has (reread_map m) f proj o.
Proof.
  unfold has. rewrite lookup_reread. intros Hp [[-> ->]|(v & a & -> & Ha & ->)]; [by left|].
  right. exists (reread v), a. auto.
Qed.

Lemma has_reread_object m f o :
  has m f as_object o -> has (reread_map m) f as_object (reread_map <$> o).
Proof.
  unfold has. rewrite lookup_reread. intros [[-> ->]|(v & a & -> & Ha & ->)]; [by left|].
  right. destruct v; simplify_eq/=. eauto.
Qed.

Lemma has_reread_array m f o :
  has m f as_array o -> has (reread_map m) f as_array (reread_list <$> o).
Proof.
  unfold has. rewrite lookup_reread. intros [[-> ->]|(v & a & -> & Ha & ->)]; [by left|].
  right. destruct v; simplify_eq/=. eauto.
Qed.

Lemma as_string_reread v a : as_string v = Some a -> as_string (reread v) = Some a.
Proof. by destruct v. Qed.
Lemma as_bool_reread v a : as_bool v = Some a -> as_bool (reread v) = Some a.
Proof. by destruct v. Qed.

Lemma has_mode_reread validate m f o : has_mode validate m f o -> has_mode validate (reread_map m) f o.
Proof. intros [H ?]. split; [|done]. apply has_reread; [apply as_string_reread|done]. Qed.

(** ** Writing modes *)

Lemma update_mode_inl validate mode f st st' :
  update_mode validate mode f st = inl st' ->
  (forall g, g <> f -> fst st' !! g = fst st !! g) /\
  (forall o, has_mode validate (fst st) f o -> has_mode validate (fst st') f (or_else mode o)) /\
  (st' = st /\ mode = None \/ snd st' = S (snd st)).
Proof.
  unfold update_mode. destruct mode as [m|]; [|intros [= <-]; naive_solver].
  destruct (validate m) eqn:Ev; [done|]. intros [= <-]. unfold SetNestedField. simpl.
  split; [intros g ?; by rewrite lookup_insert_ne|]. split; [|by right].
  intros o _. split; [|naive_solver]. right. exists (JString m), m. by rewrite lookup_insert_eq.
Qed.

Lemma has_mode_other validate m m' f o : m' !! f = m !! f -> has_mode validate m f o -> has_mode validate m' f o.
Proof. intros E [? ?]. split; [|done]. by apply (has_lookup m). Qed.

(** A section of the cache parameters. *)
Definition has_cache (m : gmap string json) (c : ConfigCacheParams) : Prop :=
  has_mode ValidateCacheResyncMethod m "resyncMethod" (ccp_ResyncMethod c) /\
  has_mode ValidateForeignPodsDetectMode m "foreignPodsDetect" (ccp_ForeignPodsDetectMode c) /\
  has_mode ValidateCacheInformerMode m "informerMode" (ccp_InformerMode c).

Lemma has_cache_reread m c : has_cache m c -> has_cache (reread_map m) c.
Proof. intros (? & ? & ?). split_and!; by apply has_mode_reread. Qed.

Lemma updateCacheArgs_inl m new m' n period old :
  updateCacheArgs m new = inl (m', n) -> has_cache m old ->
  has_cache m' (mkConfigCacheParams period (or_else (ccp_ResyncMethod new) (ccp_ResyncMethod old))
    (or_else (ccp_ForeignPodsDetectMode new) (ccp_ForeignPodsDetectMode old))
    (or_else (ccp_InformerMode new) (ccp_InformerMode old))) /\
  (n = 0%nat -> m' = m).
Proof.
  unfold updateCacheArgs. intros H (H1 & H2 & H3).
  destruct (update_mode _ _ "resyncMethod" _) as [st1|] eqn:E1; simpl in H; [|done].
  destruct (update_mode _ _ "foreignPodsDetect" _) as [st2|] eqn:E2; simpl in H; [|done].
  apply update_mode_inl in E1 as (O1 & M1 & C1), E2 as (O2 & M2 & C2), H as (O3 & M3 & C3). simpl in *.
  split.
  - unfold has_cache; simpl. split_and!.
    + apply (has_mode_other _ (fst st1)); [by rewrite O3, O2|]. by apply M1.
    + apply (has_mode_other _ (fst st2)); [by rewrite O3|]. apply M2. by apply (has_mode_other _ m); [apply O1|].
    + apply M3. apply (has_mode_other _ m); [by rewrite O2, O1|done].
  - intros ->. destruct C1 as [[-> _]|C1], C2 as [[-> _]|C2], C3 as [[C3 _]|C3]; simplify_eq/=; try done; lia.
Qed.

(** ** Resources and the scoring strategy *)

Definition has_resource (j : json) (r : ResourceSpecParams) : Prop :=
  exists m w, as_object j = Some m /\ has m "name" as_string (Some (rsp_Name r)) /\
    has m "weight" as_float (Some w) /\ rsp_Weight r = int64_of_float w.

Lemma required_inl {A} what (m : option A + error) a : required what m = inl a <-> m = inl (Some a).
Proof. destruct m as [[]|]; naive_solver. Qed.

Lemma extract_resources_inl idx l rs : extract_resources idx l = inl rs <-> Forall2 has_resource l rs.
Proof.
  revert idx rs. induction l as [|j l IH]; intros idx rs; simpl.
  { split; [intros [= <-]; constructor|]. intros H. by inversion H. }
  unfold extract_resource. split.
  - intros H. destruct (as_object j) as [m|] eqn:Ej; simpl in H; [|done].
    destruct (required _ (NestedString m "name")) as [n|] eqn:En; simpl in H; [|done].
    destruct (required _ (NestedFloat64 m "weight")) as [w|] eqn:Ew; simpl in H; [|done].
    destruct (extract_resources (S idx) l) as [rs'|] eqn:Er; simpl in H; [|done]. injection H as <-.
    apply required_inl, Nested_inl in En. apply required_inl, Nested_inl in Ew.
    constructor; [|by apply (IH (S idx))]. by exists m, w.
  - intros H. inversion H as [|? r ? rs' (m & w & Hm & Hn & Hw & Er) Hrs]; subst. clear H. rewrite Hm.
    assert (forall what, required what (NestedString m "name") = inl (rsp_Name r)) as ->.
    { intros what. apply required_inl, Nested_inl, Hn. }
    assert (forall what, required what (NestedFloat64 m "weight") = inl w) as ->.
    { intros what. apply required_inl, Nested_inl, Hw. }
    simpl. apply (IH (S idx)) in Hrs as ->. simpl. rewrite <-Er. by destruct r.
Qed.

Lemma as_float_reread v a : as_float v = Some a -> as_float (reread v) = Some a.
Proof. by destruct v. Qed.

Lemma has_resource_reread j r : has_resource j r -> has_resource (reread j) r.
Proof.
  intros (m & w & Hm & Hn & Hw & E). destruct j; simplify_eq/=. exists (reread_map m), w.
  split_and!; [done|apply has_reread; [apply as_string_reread|done]|apply has_reread; [apply as_float_reread|done]|done].
Qed.

Section Exact.
Context (float_exact : forall z, exact z -> float_trunc (float64_of_int64 z) = Some z).

Lemma int64_exact z : exact z -> int64_of_float (float64_of_int64 z) = z.
Proof using float_exact.
  intros H. unfold int64_of_float. rewrite float_exact by done. rewrite decide_True; [done|].
  unfold exact, int64_min, int64_max in *. lia.
Qed.

Lemma has_resource_rendered r : exact (rsp_Weight r) -> has_resource (reread (render_resource r)) r.
Proof using float_exact.
  intros H. eexists _, _. split; [reflexivity|].
  split; [right; exists (JString (rsp_Name r)), (rsp_Name r); split; [by vm_compute|done]|].
  split; [right; exists (JFloat (float64_of_int64 (rsp_Weight r))), (float64_of_int64 (rsp_Weight r)); split; [by vm_compute|done]|].
  by rewrite int64_exact.
Qed.

Definition has_scoring (m : gmap string json) (s : ScoringStrategyParams) : Prop :=
  (exists t, has_mode ValidateScoringStrategyType m "type" t /\ ssp_Type s = default "" t) /\
  (exists l, has m "resources" as_array l /\ Forall2 has_resource (default [] l) (ssp_Resources s)).

Lemma has_scoring_reread m s : has_scoring m s -> has_scoring (reread_map m) s.
Proof using Type.
  intros [(t & Ht & E) (l & Hl & Hr)]. split; [exists t; split; [by apply has_mode_reread|done]|].
  exists (reread_list <$> l). split; [by apply has_reread_array|]. clear Hl.
  assert (default [] (reread_list <$> l) = reread_list (default [] l)) as -> by by destruct l.
  unfold reread_list. apply Forall2_fmap_l. eapply Forall2_impl; [exact Hr|]. apply has_resource_reread.
Qed.

Lemma has_scoring_empty : has_scoring ∅ (mkScoringStrategyParams "" []).
Proof using Type.
  split; [exists None|exists None]; (split; [|try constructor]); try (split; [|done]); by left.
Qed.

Lemma updateScoringStrategyArgs_inl m new m' n old :
  updateScoringStrategyArgs m new = inl (m', n) -> has_scoring m old ->
  (forall r, r ∈ ssp_Resources new -> exact (rsp_Weight r)) ->
  has_scoring (reread_map m')
    (mkScoringStrategyParams (if decide (ssp_Type new = "") then ssp_Type old else ssp_Type new)
       (match ssp_Resources new with [] => ssp_Resources old | rs => rs end)) /\
  (n = 0%nat <-> ssp_Type new = "" /\ ssp_Resources new = []) /\
  (n = 0%nat -> m' = m).
Proof using float_exact.
  unfold updateScoringStrategyArgs. intros H [(t & Ht & Et) (l & Hl & Hr)] Hex.
  destruct (update_mode _ _ "type" _) as [st|] eqn:E; simpl in H; [|done].
  assert (snd st = 0%nat <-> ssp_Type new = "") as Hn.
  { revert E. unfold update_mode. case_decide; [by intros [= <-]|].
    destruct (ValidateScoringStrategyType _); [done|]. by intros [= <-]. }
  assert (snd st = 0%nat -> fst st = m) as H0.
  { intros E0. apply Hn in E0. rewrite decide_True in E by done. simpl in E. by injection E as <-. }
  apply update_mode_inl in E as (Ho & Hm & _). simpl in *.
  assert (ssp_Type (mkScoringStrategyParams (if decide (ssp_Type new = "") then ssp_Type old else ssp_Type new) [])
    = default "" (or_else (if decide (ssp_Type new = "") then None else Some (ssp_Type new)) t)) as Ety.
  { simpl. by case_decide. }
  specialize (Hm t Ht). destruct (ssp_Resources new) as [|r rs].
  - injection H as ->. simpl in *. split; [|naive_solver]. apply has_scoring_reread. split; simpl; [by eexists|].
    exists l. split; [|done]. apply (has_lookup m); [by rewrite Ho|done].
  - injection H as <- <-. split; [|naive_solver]. split; simpl.
    + eexists. split; [|exact Ety]. apply has_mode_reread, (has_mode_other _ (fst st)); [|done].
      by apply lookup_insert_ne.
    + exists (Some (reread_list (render_resource <$> r :: rs))). split.
      * right. unfold SetNestedField. rewrite lookup_reread, lookup_insert_eq. by do 2 eexists.
      * cbn [default from_option id]. unfold reread_list. apply Forall2_fmap_l, Forall2_fmap_l, Forall_Forall2_diag, Forall_forall.
        intros r' Hr'. apply has_resource_rendered, Hex, Hr'.
Qed.

(** ** The arguments of the plugin *)

Definition has_params (name : string) (args : gmap string json) (p : ConfigParams) : Prop :=
  cfg_ProfileName p = name /\ cfg_LeaderElection p = None /\
  (exists w oc c, has args "cacheResyncPeriodSeconds" as_float w /\ has args "cache" as_object oc /\
     cfg_Cache p = Some c /\ ccp_ResyncPeriodSeconds c = int64_of_float <$> w /\ has_cache (default ∅ oc) c) /\
  (exists os, has args "scoringStrategy" as_object os /\
     match os, cfg_ScoringStrategy p with
     | None, None => True
     | Some m, Some s => has_scoring m s
     | _, _ => False
     end) /\
  has_mode ValidatePreemptionMode args "preemptionMode" (cfg_PreemptionMode p).

Lemma wrap_inl {A} pre (m : A + error) a : wrap pre m = inl a <-> m = inl a.
Proof using Type. destruct m; naive_solver. Qed.

Lemma extract_cache_inl period args c :
  extract_cache period args = inl c <->
  ccp_ResyncPeriodSeconds c = period /\ exists oc, has args "cache" as_object oc /\ has_cache (default ∅ oc) c.
Proof using Type.
  unfold extract_cache, has_cache. split.
  - intros H. destruct (wrap _ (NestedMap args "cache")) as [oc|] eqn:E; simpl in H; [|done].
    apply wrap_inl, Nested_inl in E. destruct oc as [m|].
    + destruct (extract_mode _ _ _ "resyncMethod") as [a|] eqn:E1; simpl in H; [|done].
      destruct (extract_mode _ _ _ "foreignPodsDetect") as [b|] eqn:E2; simpl in H; [|done].
      destruct (extract_mode _ _ _ "informerMode") as [d|] eqn:E3; simpl in H; [|done]. injection H as <-.
      apply extract_mode_inl in E1, E2, E3. split; [done|]. by exists (Some m).
    + injection H as <-. split; [done|]. exists None. split; [done|].
      simpl. split_and!; (split; [by left|done]).
  - intros (Hp & oc & Hoc & H1 & H2 & H3).
    assert (wrap "cannot process field cache: " (NestedMap args "cache") = inl oc) as -> by by apply wrap_inl, Nested_inl.
    destruct oc as [m|]; simpl in *.
    + apply (extract_mode_inl "cache.resyncMethod") in H1 as ->. apply (extract_mode_inl "cache.foreignPodsDetect") in H2 as ->.
      apply (extract_mode_inl "cache.informerMode") in H3 as ->. simpl. subst. by destruct c.
    + assert (forall f o, has (∅ : gmap string json) f as_string o -> o = None) as He.
      { intros f o [[_ ?]|(v & a & Hv & _)]; [done|]. by rewrite lookup_empty in Hv. }
      destruct H1 as [H1%He _], H2 as [H2%He _], H3 as [H3%He _]. destruct c; simpl in *; by subst.
Qed.

Lemma extract_scoring_inl args o :
  extract_scoring args = inl o <->
  exists os, has args "scoringStrategy" as_object os /\
    match os, o with None, None => True | Some m, Some s => has_scoring m s | _, _ => False end.
Proof using Type.
  unfold extract_scoring, has_scoring. split.
  - intros H. destruct (wrap _ (NestedMap args _)) as [os|] eqn:E; simpl in H; [|done].
    apply wrap_inl, Nested_inl in E. exists os. split; [done|]. destruct os as [m|]; [|by injection H as <-].
    destruct (extract_mode _ _ _ _) as [t|] eqn:E1; simpl in H; [|done].
    destruct (wrap _ (NestedSlice m _)) as [l|] eqn:E2; simpl in H; [|done].
    destruct (extract_resources _ _) as [rs|] eqn:E3; simpl in H; [|done]. injection H as <-.
    apply extract_mode_inl in E1. apply wrap_inl, Nested_inl in E2. apply extract_resources_inl in E3.
    split; [by exists t|]. by exists l.
  - intros (os & Hos & Hm).
    assert (forall p, wrap p (NestedMap args "scoringStrategy") = inl os) as -> by (intros; by apply wrap_inl, Nested_inl).
    destruct os as [m|], o as [s|]; simpl; try done. destruct Hm as [(t & Ht & Et) (l & Hl & Hr)].
    apply (extract_mode_inl "scoringStrategy.type") in Ht as ->. simpl.
    assert (forall p, wrap p (NestedSlice m "resources") = inl l) as -> by (intros; by apply wrap_inl, Nested_inl). simpl.
    apply (extract_resources_inl 0) in Hr as ->. simpl. rewrite <-Et. by destruct s.
Qed.

Lemma extractParams_inl name args p : extractParams name args = inl p <-> has_params name args p.
Proof using Type.
  unfold extractParams, has_params. split.
  - intros H. destruct (wrap _ (NestedFloat64 args _)) as [w|] eqn:E1; simpl in H; [|done].
    destruct (extract_cache _ _) as [c|] eqn:E2; simpl in H; [|done].
    destruct (extract_scoring _) as [s|] eqn:E3; simpl in H; [|done].
    destruct (extract_mode _ _ _ _) as [m|] eqn:E4; simpl in H; [|done]. injection H as <-. simpl.
    apply wrap_inl, Nested_inl in E1. apply extract_cache_inl in E2 as (E2 & oc & ? & ?).
    apply extract_scoring_inl in E3. apply extract_mode_inl in E4. split_and!; try done. by exists w, oc, c.
  - intros (<- & HL & (w & oc & c & Hw & Hoc & Ec & Ep & Hc) & Hs & Hm).
    assert (forall p, wrap p (NestedFloat64 args "cacheResyncPeriodSeconds") = inl w) as -> by (intros; by apply wrap_inl, Nested_inl).
    simpl. assert (extract_cache (int64_of_float <$> w) args = inl c) as -> by (apply extract_cache_inl; eauto). simpl.
    apply extract_scoring_inl in Hs as ->. simpl. apply (extract_mode_inl "preemptionMode") in Hm as ->. simpl.
    destruct p; simpl in *. by subst.
Qed.

Lemma update_section_inl {P} f (field : string) (p : option P) args n args' n' :
  update_section field f p args n = inl (args', n') ->
  (forall g, g <> field -> args' !! g = args !! g) /\
  exists osec, has args field as_object osec /\
    match p with
    | None => args' = args
    | Some p => exists sec' k, f (default ∅ osec) p = inl (sec', k) /\
        args' = if decide (k = 0%nat) then args else <[field := JObject sec']> args
    end.
Proof using Type.
  unfold update_section. intros H. destruct (NestedMap args field) as [osec|] eqn:E; simpl in H; [|done].
  apply Nested_inl in E. destruct p as [p|]; [|injection H as <- <-; split; [done|by exists osec]].
  destruct (f _ p) as [[sec k]|] eqn:Ef; simpl in H; [|done]. injection H as <- _. split.
  - intros g Hg. case_decide; [done|]. by apply lookup_insert_ne.
  - exists osec. split; [done|]. by exists sec, k.
Qed.

(** The period, written and then dropped when it is not positive. *)
Definition set_period (args : gmap string json) (c : option ConfigCacheParams) : gmap string json :=
  match c ≫= ccp_ResyncPeriodSeconds with
  | Some z => <["cacheResyncPeriodSeconds" := JInt z]> args
  | None => args
  end.

Lemma updatePreemptionArgs_inl args new args' n :
  updatePreemptionArgs args new = inl (args', n) ->
  (forall g, g <> "preemptionMode" -> args' !! g = args !! g) /\
  has_mode ValidatePreemptionMode args' "preemptionMode" (cfg_PreemptionMode new).
Proof using Type.
  unfold updatePreemptionArgs. destruct (cfg_PreemptionMode new) as [m|].
  - unfold update_mode. intros H. destruct (ValidatePreemptionMode m) eqn:Ev; [done|]. injection H as <- <-.
    unfold SetNestedField. split; [intros g ?; by rewrite lookup_insert_ne|].
    split; [|by intros s [= <-]]. right. exists (JString m), m. by rewrite lookup_insert_eq.
  - destruct (NestedString args "preemptionMode") as [[m|]|] eqn:E; [| |done]; intros [= <- <-].
    + split; [intros g ?; by rewrite lookup_delete_ne|]. split; [|done]. left. by rewrite lookup_delete_eq.
    + split; [done|]. split; [|done]. apply Nested_inl in E. by apply E.
Qed.

Lemma ensure_lookup args g :
  g <> "cacheResyncPeriodSeconds" -> ensureBackwardCompatibility args !! g = args !! g.
Proof using Type.
  unfold ensureBackwardCompatibility. intros Hg. destruct (NestedInt64 _ _) as [[z|]|]; [|done..].
  case_decide; [done|]. by apply lookup_delete_ne.
Qed.

(** The period read back. *)
Lemma ensure_period args0 args c w :
  args !! "cacheResyncPeriodSeconds" = set_period args0 c !! "cacheResyncPeriodSeconds" ->
  has args0 "cacheResyncPeriodSeconds" as_float w ->
  (forall z, c ≫= ccp_ResyncPeriodSeconds = Some z -> exact z) ->
  exists w', has (reread_map (ensureBackwardCompatibility args)) "cacheResyncPeriodSeconds" as_float w' /\
    int64_of_float <$> w' = match c ≫= ccp_ResyncPeriodSeconds with
                            | Some z => if decide (0 < z)%Z then Some z else None
                            | None => int64_of_float <$> w
                            end.
Proof using float_exact.
  unfold set_period, ensureBackwardCompatibility. intros E Hw Hex. destruct (c ≫= _) as [z|].
  - rewrite lookup_insert_eq in E. unfold NestedInt64, Nested. rewrite E. simpl. case_decide.
    + exists (Some (float64_of_int64 z)). split; [|simpl; by rewrite int64_exact by auto].
      right. rewrite lookup_reread, E. by do 2 eexists.
    + exists None. split; [|done]. left. by rewrite lookup_reread, lookup_delete_eq.
  - exists w. split; [|done]. apply has_reread; [apply as_float_reread|].
    assert (NestedInt64 args "cacheResyncPeriodSeconds" = inl None \/
            exists e, NestedInt64 args "cacheResyncPeriodSeconds" = inr e) as [->|[e ->]].
    { unfold NestedInt64, Nested. rewrite E. destruct Hw as [[-> _]|(v & a & -> & Ha & _)]; [by left|].
      right. destruct v; simplify_eq/=. by eexists. }
    all: by apply (has_lookup args0).
Qed.

Lemma section_after field args osec sec' k args' :
  has args field as_object osec -> (k = 0%nat -> sec' = default ∅ osec) ->
  args' = (if decide (k = 0%nat) then args else <[field := JObject sec']> args) ->
  exists o', has args' field as_object o' /\ default ∅ o' = sec' /\ (o' = None <-> osec = None /\ k = 0%nat).
Proof using Type.
  intros Ho Hk ->. destruct (decide (k = 0%nat)) as [E|E].
  - exists osec. split; [done|]. rewrite Hk by done. naive_solver.
  - exists (Some sec'). split; [right; exists (JObject sec'), sec'; by rewrite lookup_insert_eq|naive_solver].
Qed.

Lemma default_reread o : default ∅ (reread_map <$> o) = reread_map (default ∅ o).
Proof using Type. destruct o; [done|]. simpl. unfold reread_map. by rewrite fmap_empty. Qed.

Lemma cache_section args osec new args' old period :
  has args "cache" as_object osec -> has_cache (default ∅ osec) old ->
  match new with
  | None => args' = args
  | Some p => exists sec' k, updateCacheArgs (default ∅ osec) p = inl (sec', k) /\
      args' = if decide (k = 0%nat) then args else <["cache" := JObject sec']> args
  end ->
  exists o' c', has args' "cache" as_object o' /\ has_cache (reread_map (default ∅ o')) c' /\
    overlay_cache new (Some old)
    = Some (mkConfigCacheParams
        (match new ≫= ccp_ResyncPeriodSeconds with
         | Some z => if decide (0 < z)%Z then Some z else None | None => ccp_ResyncPeriodSeconds old end)
        (ccp_ResyncMethod c') (ccp_ForeignPodsDetectMode c') (ccp_InformerMode c')) /\
    ccp_ResyncPeriodSeconds c' = period.
Proof using Type.
  intros Hs Hc Hnew. destruct new as [nc|].
  - destruct Hnew as (sec' & k & Hu & ->).
    apply (updateCacheArgs_inl _ _ _ _ period old) in Hu as [Hc' Hk]; [|done].
    destruct (section_after "cache" args osec sec' k _ Hs Hk eq_refl) as (o' & Ho' & Ed & _).
    eexists o', (mkConfigCacheParams period _ _ _). rewrite Ed. split; [done|]. split; [apply has_cache_reread, Hc'|done].
  - subst args'. exists osec, (mkConfigCacheParams period (ccp_ResyncMethod old) (ccp_ForeignPodsDetectMode old) (ccp_InformerMode old)).
    split; [done|]. split; [by apply has_cache_reread|]. by destruct old.
Qed.

Lemma scoring_section args osec new args' old :
  has args "scoringStrategy" as_object osec ->
  match osec, old with None, None => True | Some m, Some s => has_scoring m s | _, _ => False end ->
  (forall s r, new = Some s -> r ∈ ssp_Resources s -> exact (rsp_Weight r)) ->
  match new with
  | None => args' = args
  | Some p => exists sec' k, updateScoringStrategyArgs (default ∅ osec) p = inl (sec', k) /\
      args' = if decide (k = 0%nat) then args else <["scoringStrategy" := JObject sec']> args
  end ->
  exists o', has args' "scoringStrategy" as_object o' /\
    match reread_map <$> o', overlay_scoring new old with
    | None, None => True | Some m, Some s => has_scoring m s | _, _ => False end.
Proof using float_exact.
  intros Hs Hold Hex Hnew. destruct new as [ns|]; simpl in *.
  - destruct Hnew as (sec' & k & Hu & ->).
    assert (has_scoring (default ∅ osec) (default (mkScoringStrategyParams "" []) old)) as Ho.
    { destruct osec, old; simpl in *; try done. apply has_scoring_empty. }
    destruct (updateScoringStrategyArgs_inl _ _ _ _ _ Hu Ho) as (Hs' & Hk0 & Hk); [by eauto|].
    destruct (section_after "scoringStrategy" args osec sec' k _ Hs Hk eq_refl) as (o' & Ho' & Ed & Hn).
    exists o'. split; [done|]. unfold overlay_scoring.
    destruct (decide (ssp_Type ns = "" /\ ssp_Resources ns = [])) as [Hd|Hd].
    + apply (proj2 Hk0) in Hd. subst k.
      destruct o' as [m|]; simpl in *; [|by destruct Hn as [[-> _] _]]. rewrite Ed, (Hk eq_refl).
      destruct osec, old; simpl in *; try done.
      * by apply has_scoring_reread.
      * exfalso. destruct Hn as [_ Hn]. by discriminate Hn.
    + destruct o' as [m|]; simpl; [|exfalso; tauto]. simpl in Ed. by rewrite Ed.
  - subst args'. exists osec. split; [done|]. destruct osec, old; simpl; try done. by apply has_scoring_reread.
Qed.

Lemma updateArgs_inl name name' args new args' upd old :
  updateArgs args new = inl (args', upd) -> has_params name args old -> exact_numbers new ->
  has_params name' (reread_map args')
    (mkConfigParams name' (overlay_cache (cfg_Cache new) (cfg_Cache old))
       (overlay_scoring (cfg_ScoringStrategy new) (cfg_ScoringStrategy old)) None (cfg_PreemptionMode new)).
Proof using float_exact.
  intros H (_ & _ & (w & oc & c & Hw & Hoc & Ec & Ep & Hc) & (os & Hos & Hs) & _) [Hexc Hexs].
  unfold updateArgs in H.
  assert (exists n0, (match cfg_Cache new with
     | Some cache => match ccp_ResyncPeriodSeconds cache with
        | Some z => (SetNestedField args (JInt z) "cacheResyncPeriodSeconds", 1%nat) | None => (args, 0%nat) end
     | None => (args, 0%nat) end) = (set_period args (cfg_Cache new), n0)) as [n0 E0].
  { unfold set_period. destruct (cfg_Cache new) as [nc|]; simpl; [|by eexists].
    destruct (ccp_ResyncPeriodSeconds nc); by eexists. }
  rewrite E0 in H. clear E0. set (args0 := set_period args (cfg_Cache new)) in *.
  assert (forall g, g <> "cacheResyncPeriodSeconds" -> args0 !! g = args !! g) as O0.
  { intros g Hg. unfold args0, set_period. destruct (_ ≫= _); [|done]. by apply lookup_insert_ne. }
  destruct (update_section "cache" _ _ _ _) as [[args1 n1]|] eqn:E1; simpl in H; [|done].
  destruct (update_section "scoringStrategy" _ _ _ _) as [[args2 n2]|] eqn:E2; simpl in H; [|done].
  destruct (updatePreemptionArgs _ _) as [[args3 n3]|] eqn:E3; simpl in H; [|done]. injection H as <- _.
  apply update_section_inl in E1 as (O1 & oc1 & Hoc1 & S1), E2 as (O2 & os1 & Hos1 & S2).
  apply updatePreemptionArgs_inl in E3 as (O3 & M3).
  assert (oc1 = oc) as ->.
  { apply (has_lookup _ args) in Hoc1; [|by apply O0]. unfold has in *. naive_solver. }
  assert (os1 = os) as ->.
  { apply (has_lookup _ args) in Hos1; [|rewrite O1 by done; by apply O0]. unfold has in *. naive_solver. }
  split_and!; [done|done| | |].
  - destruct (ensure_period args args3 (cfg_Cache new) w) as (w' & Hw' & Ew'); [|done| |].
    { by rewrite O3, O2, O1 by done. }
    { intros z (nc & Hnc & Hz)%bind_Some. by apply (Hexc nc). }
    destruct (cache_section args0 oc (cfg_Cache new) args1 c (int64_of_float <$> w') Hoc1 Hc S1)
      as (o' & c' & Ho' & Hc' & Eo & Ep').
    exists w', (reread_map <$> o'), c'. split; [done|]. split.
    { apply has_reread_object, (has_lookup args1); [|done]. by rewrite ensure_lookup, O3, O2 by done. }
    split; [|by rewrite default_reread]. simpl. rewrite Ec, Eo, Ep, <-Ew', <-Ep'. by destruct c'.
  - destruct (scoring_section args1 os (cfg_ScoringStrategy new) args2 (cfg_ScoringStrategy old) Hos1 Hs Hexs S2)
      as (o' & Ho' & Hso). exists (reread_map <$> o'). split; [|done].
    apply has_reread_object, (has_lookup args2); [|done]. by rewrite ensure_lookup, O3 by done.
  - apply has_mode_reread, (has_mode_other _ args3); [by rewrite ensure_lookup|done].
Qed.

(** ** Leader election *)

Lemma extractLeaderElectionParams_reread lead e :
  extractLeaderElectionParams lead = inl e -> extractLeaderElectionParams (reread_map lead) = inl e.
Proof using Type.
  unfold extractLeaderElectionParams. intros H.
  destruct (required _ (NestedBool lead _)) as [b|] eqn:E1; simpl in H; [|done].
  destruct (wrap _ (NestedString lead "resourceNamespace")) as [ns|] eqn:E2; simpl in H; [|done].
  destruct (wrap _ (NestedString lead "resourceName")) as [n|] eqn:E3; simpl in H; [|done].
  apply required_inl, Nested_inl in E1. apply wrap_inl, Nested_inl in E2. apply wrap_inl, Nested_inl in E3.
  apply (has_reread _ _ as_bool _ as_bool_reread), (Nested_inl as_bool "bool") in E1.
  apply (has_reread _ _ as_string _ as_string_reread), (Nested_inl as_string "string") in E2.
  apply (has_reread _ _ as_string _ as_string_reread), (Nested_inl as_string "string") in E3.
  unfold NestedBool, NestedString in *. by rewrite E1, E2, E3.
Qed.

Lemma updateLeaderElection_read lead lep :
  extractLeaderElectionParams (reread_map (updateLeaderElection lead lep)) = inl lep.
Proof using Type.
  unfold extractLeaderElectionParams, NestedBool, NestedString, Nested, updateLeaderElection, SetNestedField.
  rewrite !lookup_reread. simplify_map_eq. by destruct lep.
Qed.

(** ** Plugins and profiles *)

Lemma has_params_reread name args p : has_params name args p -> has_params name (reread_map args) p.
Proof using Type.
  intros (? & ? & (w & oc & c & ? & ? & ? & ? & ?) & (os & ? & Hs) & ?).
  split_and!; [done|done| | |by apply has_mode_reread].
  - exists w, (reread_map <$> oc), c. split_and!; [apply has_reread; [apply as_float_reread|done]|by apply has_reread_object|done|done|].
    rewrite default_reread. by apply has_cache_reread.
  - exists (reread_map <$> os). split; [by apply has_reread_object|].
    destruct os, (cfg_ScoringStrategy p); simpl; try done. by apply has_scoring_reread.
Qed.

(** What a rendered plugin decodes to. *)
Definition rendered (name : string) (elect : option LeaderElectionParams) (new old : ConfigParams) : ConfigParams :=
  mkConfigParams name (overlay_cache (cfg_Cache new) (cfg_Cache old))
    (overlay_scoring (cfg_ScoringStrategy new) (cfg_ScoringStrategy old)) elect (cfg_PreemptionMode new).

(** A well-formed plugin section. *)
Lemma plugin_params_Some name elect conf ps :
  plugin_params name elect conf = Some ps <->
  exists m n, conf = JObject m /\ has m "name" as_string (Some n) /\
    if decide (n <> SchedulerPluginName) then ps = []
    else exists args p, has m "args" as_object (Some args) /\ has_params name args p /\
           ps = [cfg_with_LeaderElection elect p].
Proof using Type.
  unfold plugin_params. split.
  - intros (m & Hm & H)%bind_Some. destruct conf; simplify_eq/=.
    destruct (NestedString m "name") as [[n|]|] eqn:En; [|done..]. apply Nested_inl in En.
    exists m, n. split; [done|]. split; [done|]. case_decide; [by injection H as <-|].
    destruct (NestedMap m "args") as [[args|]|] eqn:Ea; [|done..]. apply Nested_inl in Ea.
    destruct (extractParams name args) as [p|] eqn:Ep; [|done]. apply extractParams_inl in Ep. injection H as <-.
    by exists args, p.
  - intros (m & n & -> & Hn & H). simpl. apply (Nested_inl as_string "string") in Hn. unfold NestedString. rewrite Hn.
    case_decide; [by subst|]. destruct H as (args & p & Ha & Hp & ->).
    apply (Nested_inl as_object "map[string]interface{}") in Ha. unfold NestedMap. rewrite Ha.
    by apply extractParams_inl in Hp as ->.
Qed.

Lemma plugin_params_ids name elect conf ps p :
  plugin_params name elect conf = Some ps -> p ∈ ps -> cfg_ProfileName p = name /\ cfg_LeaderElection p = elect.
Proof using Type.
  intros (m & n & _ & _ & H)%plugin_params_Some Hp. case_decide; [subst; by apply elem_of_nil in Hp|].
  destruct H as (args & q & _ & (Hq & _) & ->). by apply list_elem_of_singleton in Hp as ->.
Qed.

Lemma plugin_params_reread name elect elect' conf ps :
  plugin_params name elect conf = Some ps ->
  plugin_params name elect' (reread conf) = Some (cfg_with_LeaderElection elect' <$> ps).
Proof using Type.
  intros (m & n & -> & Hn & H)%plugin_params_Some. apply plugin_params_Some. exists (reread_map m), n.
  split; [done|]. split; [apply has_reread; [apply as_string_reread|done]|]. case_decide; [by subst|].
  destruct H as (args & p & Ha & Hp & ->). exists (reread_map args), p.
  split; [by apply (has_reread_object _ _ (Some args))|]. split; [by apply has_params_reread|done].
Qed.

Lemma render_plugins_params name name' elect elect' new confs u confs' u' (pss : list (list ConfigParams)) :
  exact_numbers new ->
  render_plugins new confs u = inl (confs', u') -> mapM (plugin_params name elect) confs = Some pss ->
  mapM (plugin_params name' elect') (reread_list confs') = Some ((fun ps : list ConfigParams => rendered name' elect' new <$> ps) <$> pss).
Proof using float_exact.
  intros Hex. revert u confs' u' pss. induction confs as [|conf confs IH]; intros u confs' u' pss; simpl.
  { intros [= <- <-] [= <-]. done. }
  intros Hr (ps & Hps & (pss' & Hpss & [= <-])%bind_Some)%bind_Some.
  apply plugin_params_Some in Hps as (m & n & -> & Hn & Hm). simpl in Hr.
  pose proof (proj2 (Nested_inl as_string "string" m "name" (Some n)) Hn) as En. unfold NestedString in Hr. rewrite En in Hr.
  case_decide as Hd.
  - subst ps. destruct (render_plugins new confs u) as [[cs u1]|] eqn:Er; simpl in Hr; [|done]. injection Hr as <- <-.
    rewrite reread_list_cons. cbn [mapM].
    rewrite (IH _ _ _ _ Er Hpss).
    assert (plugin_params name' elect' (reread (JObject m)) = Some []) as Ep; [|by rewrite Ep].
    apply plugin_params_Some. exists (reread_map m), n. split; [done|].
    split; [apply has_reread; [apply as_string_reread|done]|by rewrite decide_True].
  - destruct Hm as (args & p & Ha & Hp & ->).
    pose proof (proj2 (Nested_inl as_object "map[string]interface{}" m "args" (Some args)) Ha) as Ea.
    unfold NestedMap in Hr. rewrite Ea in Hr. destruct (updateArgs args new) as [[args' up]|] eqn:Eu; [|done].
    destruct (render_plugins new confs _) as [[cs u1]|] eqn:Er; simpl in Hr; [|done]. injection Hr as <- <-.
    apply (updateArgs_inl name name' _ _ _ _ _ Eu) in Hp; [|done].
    rewrite reread_list_cons. cbn [mapM].
    rewrite (IH _ _ _ _ Er Hpss).
    assert (plugin_params name' elect' (reread (JObject (SetNestedField m (JObject args') "args")))
      = Some [cfg_with_LeaderElection elect' (mkConfigParams name' (overlay_cache (cfg_Cache new) (cfg_Cache p))
           (overlay_scoring (cfg_ScoringStrategy new) (cfg_ScoringStrategy p)) None (cfg_PreemptionMode new))])
      as Ep; [|by rewrite Ep].
    apply plugin_params_Some. exists (reread_map (SetNestedField m (JObject args') "args")), n. split; [done|].
    unfold SetNestedField. split.
    { apply has_reread; [apply as_string_reread|]. apply (has_lookup m); [by rewrite lookup_insert_ne|done]. }
    rewrite (decide_False (P := n <> SchedulerPluginName)) by (by intros []). eexists (reread_map args'), _. split; [|split; [exact Hp|done]].
    right. rewrite lookup_reread, lookup_insert_eq. by do 2 eexists.
Qed.

Lemma plugins_params_ids name elect confs (pss : list (list ConfigParams)) p :
  mapM (plugin_params name elect) confs = Some pss -> p ∈ mjoin pss ->
  cfg_ProfileName p = name /\ cfg_LeaderElection p = elect.
Proof using Type.
  intros Hm (ps & Hp & Hps)%list_elem_of_join. apply mapM_Some in Hm.
  apply list_elem_of_lookup in Hps as [i Hps].
  destruct (Forall2_lookup_r _ _ _ _ _ Hm Hps) as (conf & _ & Hc).
  by apply (plugin_params_ids _ _ _ _ _ Hc).
Qed.

Lemma mapM_fmap_Some {A B} (f g : A -> option B) (h : A -> A) (r : B -> B) (l : list A) (k : list B) :
  mapM f l = Some k -> (forall x y, f x = Some y -> g (h x) = Some (r y)) ->
  mapM g (h <$> l) = Some (r <$> k).
Proof using Type.
  intros Hm Hf. apply mapM_Some, Forall2_fmap. apply mapM_Some in Hm. eapply Forall2_impl; [exact Hm|].
  intros x y. apply Hf.
Qed.

Lemma fmap_mjoin {A B} (f : A -> B) (l : list (list A)) : f <$> mjoin l = mjoin ((fun x : list A => f <$> x) <$> l).
Proof using Type.
  induction l as [|x l IH]; [done|]. rewrite fmap_cons. change (f <$> x ++ mjoin l = (f <$> x) ++ mjoin ((fun x : list A => f <$> x) <$> l)).
  by rewrite fmap_app, IH.
Qed.

(** A well-formed profile. *)
Lemma profile_params_Some elect prof ps :
  profile_params elect prof = Some ps <->
  exists m n confs pss, prof = JObject m /\ has m "schedulerName" as_string (Some n) /\
    has m "pluginConfig" as_array (Some confs) /\ mapM (plugin_params n elect) confs = Some pss /\ ps = mjoin pss.
Proof using Type.
  unfold profile_params. split.
  - intros (m & Hm & H)%bind_Some. destruct prof; simplify_eq/=.
    destruct (NestedString m _) as [[n|]|] eqn:En; [|done..]. apply Nested_inl in En.
    destruct (NestedSlice m _) as [[confs|]|] eqn:Ec; [|done..]. apply Nested_inl in Ec.
    apply fmap_Some in H as (pss & H & ->). by exists m, n, confs, pss.
  - intros (m & n & confs & pss & -> & Hn & Hc & Hp & ->). simpl.
    apply (Nested_inl as_string "string") in Hn. apply (Nested_inl as_array "[]interface{}") in Hc.
    unfold NestedString, NestedSlice. by rewrite Hn, Hc, Hp.
Qed.

Lemma profile_params_reread elect elect' prof ps :
  profile_params elect prof = Some ps ->
  profile_params elect' (reread prof) = Some (cfg_with_LeaderElection elect' <$> ps).
Proof using Type.
  intros (m & n & confs & pss & -> & Hn & Hc & Hp & ->)%profile_params_Some. apply profile_params_Some.
  exists (reread_map m), n, (reread_list confs), ((fun ps : list ConfigParams => cfg_with_LeaderElection elect' <$> ps) <$> pss).
  split; [done|]. split; [apply has_reread; [apply as_string_reread|done]|].
  split; [by apply (has_reread_array _ _ (Some confs))|]. split; [|by rewrite fmap_mjoin].
  apply (mapM_fmap_Some _ _ _ _ _ _ Hp). intros x y. apply plugin_params_reread.
Qed.

Lemma rendered_overlay name elect new old :
  cfg_ProfileName old = name -> cfg_LeaderElection old = elect ->
  rendered (if decide (cfg_ProfileName new = "") then name else cfg_ProfileName new)
    (or_else (cfg_LeaderElection new) elect) new old = overlay name new old.
Proof using Type. intros <- <-. unfold overlay, rendered. by rewrite (decide_True (P := cfg_ProfileName old = cfg_ProfileName old)) by done. Qed.

Lemma render_profile_params name elect new m n confs confs' u u' (pss : list (list ConfigParams)) m' :
  exact_numbers new -> n = name ->
  has m "schedulerName" as_string (Some n) ->
  mapM (plugin_params n elect) confs = Some pss ->
  render_plugins new confs u = inl (confs', u') ->
  m' = (if decide (cfg_ProfileName new = "") then m else <["schedulerName" := JString (cfg_ProfileName new)]> m) ->
  profile_params (or_else (cfg_LeaderElection new) elect) (reread (JObject (<["pluginConfig" := JArray confs']> m')))
  = Some (overlay name new <$> mjoin pss).
Proof using float_exact.
  intros Hex -> Hn Hp Hr ->. apply profile_params_Some.
  set (name' := if decide (cfg_ProfileName new = "") then name else cfg_ProfileName new).
  eexists (reread_map _), name', (reread_list confs'), _. split; [done|]. split; [|split; [|split]].
  - apply has_reread; [apply as_string_reread|]. eapply has_lookup; [symmetry; by apply lookup_insert_ne|].
    unfold name'. case_decide; [done|]. right. eexists _, _. by rewrite lookup_insert_eq.
  - right. rewrite lookup_reread, lookup_insert_eq. by do 2 eexists.
  - apply (render_plugins_params name name' elect _ _ _ _ _ _ _ Hex Hr Hp).
  - rewrite fmap_mjoin. f_equal. apply list_fmap_ext. intros i ps Hps. apply list_fmap_ext. intros j p Hpj.
    symmetry. apply rendered_overlay;
      apply (plugins_params_ids name elect confs pss p Hp), list_elem_of_join; exists ps;
      (split; [by apply list_elem_of_lookup_2 in Hpj|by apply list_elem_of_lookup_2 in Hps]).
Qed.

Lemma overlay_other name new p :
  cfg_ProfileName p <> name -> overlay name new p = cfg_with_LeaderElection (or_else (cfg_LeaderElection new) (cfg_LeaderElection p)) p.
Proof using Type. intros H. unfold overlay. by rewrite decide_False. Qed.

Lemma render_profiles_params name elect new profs u profs' u' (pss : list (list ConfigParams)) :
  exact_numbers new ->
  render_profiles name new profs u = inl (profs', u') -> mapM (profile_params elect) profs = Some pss ->
  mapM (profile_params (or_else (cfg_LeaderElection new) elect)) (reread_list profs')
  = Some ((fun ps : list ConfigParams => overlay name new <$> ps) <$> pss).
Proof using float_exact.
  intros Hex. revert u profs' u' pss. induction profs as [|prof profs IH]; intros u profs' u' pss; simpl.
  { intros [= <- <-] [= <-]. done. }
  intros Hr (ps & Hps & (pss' & Hpss & [= <-])%bind_Some)%bind_Some. pose proof Hps as Hprof.
  apply profile_params_Some in Hps as (m & n & confs & qss & -> & Hn & Hc & Hq & ->). simpl in Hr.
  pose proof (proj2 (Nested_inl as_string "string" m "schedulerName" (Some n)) Hn) as En. unfold NestedString in Hr. rewrite En in Hr.
  case_decide as Hd.
  - destruct (render_profiles name new profs u) as [[cs u1]|] eqn:Er; simpl in Hr; [|done]. injection Hr as <- <-.
    rewrite reread_list_cons. cbn [mapM]. rewrite (IH _ _ _ _ Er Hpss).
    rewrite (profile_params_reread elect _ _ _ Hprof). cbn. do 2 f_equal.
    apply list_fmap_ext. intros i p Hp. apply list_elem_of_lookup_2 in Hp.
    destruct (plugins_params_ids _ _ _ _ _ Hq Hp) as [E1 E2]. rewrite overlay_other by congruence. by rewrite E2.
  - destruct (decide (cfg_ProfileName new = "")) as [He|He].
    all: destruct (NestedSlice _ "pluginConfig") as [[confs1|]|] eqn:Ec; [|done..].
    all: destruct (render_plugins new confs1 _) as [[cs' u1]|] eqn:Er; simpl in Hr; [|done].
    all: destruct (render_profiles name new profs _) as [[cs u2]|] eqn:Er2; simpl in Hr; [|done]; injection Hr as <- <-.
    all: assert (confs1 = confs) as -> by (apply Nested_inl in Ec; unfold has, SetNestedField in *;
      rewrite ?lookup_insert_ne in Ec by done; naive_solver).
    all: rewrite reread_list_cons; cbn [mapM]; rewrite (IH _ _ _ _ Er2 Hpss); unfold SetNestedField;
      erewrite (render_profile_params name elect new m n confs cs' _ u1 qss); try done; try (by rewrite ?decide_True, ?decide_False by done);
      by apply dec_stable in Hd.
Qed.

(** ** The whole document *)

Lemma election_reread r e : election_of r = Some e -> election_of (reread_map r) = Some e.
Proof using Type.
  unfold election_of. intros H. destruct (NestedMap r "leaderElection") as [[l|]|] eqn:El; [| |done].
  - apply Nested_inl, has_reread_object, (Nested_inl as_object "map[string]interface{}") in El.
    unfold NestedMap. rewrite El. simpl. destruct (extractLeaderElectionParams l) as [e'|] eqn:Ee; [|done].
    by rewrite (extractLeaderElectionParams_reread _ _ Ee).
  - apply Nested_inl, has_reread_object, (Nested_inl as_object "map[string]interface{}") in El.
    unfold NestedMap. by rewrite El.
Qed.

Lemma render_tree_configuration r name new r' u ps :
  exact_numbers new -> configuration r = Some ps -> render_tree r name new = inl (r', u) ->
  configuration (reread_map r') = Some (overlay name new <$> ps).
Proof using float_exact.
  intros Hex Hcfg Hr. unfold configuration in Hcfg. apply bind_Some in Hcfg as (elect & He & Hcfg).
  destruct (NestedSlice r "profiles") as [[profs|]|] eqn:Ep; [|done..].
  apply fmap_Some in Hcfg as (pss & Hpss & ->). unfold render_tree in Hr.
  assert (exists r1 u1, (match cfg_LeaderElection new with
     | None => inl (r, false)
     | Some lep => match NestedMap r "leaderElection" with
        | inr err => inr (Some err) | inl None => inr None
        | inl (Some lead) => inl (SetNestedField r (JObject (updateLeaderElection lead lep)) "leaderElection", true) end
     end : (gmap string json * bool) + option error) = inl (r1, u1) /\
     r1 !! "profiles" = r !! "profiles" /\
     election_of (reread_map r1) = Some (or_else (cfg_LeaderElection new) elect)) as (r1 & u1 & E1 & Hp1 & He1).
  { destruct (cfg_LeaderElection new) as [lep|]; [|exists r, false; split_and!; [done..|by apply election_reread]].
    destruct (NestedMap r "leaderElection") as [[lead|]|]; [|done..].
    eexists _, _. split; [done|]. unfold SetNestedField. split; [by apply lookup_insert_ne|].
    unfold election_of, NestedMap, Nested. rewrite lookup_reread, lookup_insert_eq. simpl.
    change (reread <$> ?m) with (reread_map m). by rewrite updateLeaderElection_read. }
  rewrite E1 in Hr. cbn [sum_bind] in Hr. unfold NestedSlice, Nested in Hr, Ep. rewrite Hp1 in Hr.
  destruct (r !! "profiles") as [v|]; [|done]. destruct (as_array v) as [profs1|]; [|done]. injection Ep as ->.
  destruct (render_profiles name new profs u1) as [[profs' u2]|] eqn:Er; simpl in Hr; [|done]. injection Hr as <- _.
  unfold configuration, SetNestedField.
  assert (election_of (reread_map (<["profiles" := JArray profs']> r1)) = election_of (reread_map r1)) as ->.
  { unfold election_of, NestedMap, Nested. rewrite !lookup_reread. by rewrite lookup_insert_ne. }
  rewrite He1. cbn [mbind option_bind]. unfold NestedSlice, Nested. rewrite lookup_reread, lookup_insert_eq. simpl.
  change (reread <$> ?m) with (reread_list m).
  rewrite (render_profiles_params name elect new profs u1 profs' u2 pss Hex Er Hpss). simpl. by rewrite fmap_mjoin.
Qed.
End Exact.

(** ** Valid parameters are rendered *)

Definition valid_mode (validate : string -> option error) (m : option string) : Prop :=
  forall s, m = Some s -> validate s = None.

Definition valid_params (p : ConfigParams) : Prop :=
  (forall c, cfg_Cache p = Some c ->
     valid_mode ValidateCacheResyncMethod (ccp_ResyncMethod c) /\
     valid_mode ValidateForeignPodsDetectMode (ccp_ForeignPodsDetectMode c) /\
     valid_mode ValidateCacheInformerMode (ccp_InformerMode c)) /\
  (forall s, cfg_ScoringStrategy p = Some s -> ssp_Type s <> "" -> ValidateScoringStrategyType (ssp_Type s) = None) /\
  valid_mode ValidatePreemptionMode (cfg_PreemptionMode p).

Lemma update_mode_valid validate m f st : valid_mode validate m -> exists st', update_mode validate m f st = inl st'.
Proof.
  unfold update_mode, valid_mode. destruct m as [s|]; [|by eexists]. intros H. rewrite H by done. by eexists.
Qed.

Lemma update_section_valid {P} field f (p : option P) args n o :
  has args field as_object o ->
  (forall x sec, p = Some x -> exists st, f sec x = inl st) ->
  exists st, update_section field f p args n = inl st.
Proof.
  intros Ho Hf. unfold update_section, NestedMap.
  rewrite (proj2 (Nested_inl as_object "map[string]interface{}" args field o) Ho). simpl.
  destruct p as [x|]; [|by eexists]. destruct (Hf x (default ∅ o) eq_refl) as [[sec k] ->]. by eexists.
Qed.

Lemma updateArgs_valid name args new p :
  has_params name args p -> valid_params new -> exists st, updateArgs args new = inl st.
Proof.
  intros (_ & _ & (w & oc & c & _ & Hoc & _) & (os & Hos & _) & Hm) (Hc & Hs & Hp). unfold updateArgs.
  destruct (match cfg_Cache new with Some _ => _ | None => _ end) as [args0 n0] eqn:E0.
  assert (forall g, g <> "cacheResyncPeriodSeconds" -> args0 !! g = args !! g) as O0.
  { intros g Hg. repeat case_match; simplify_eq; try done. by apply lookup_insert_ne. }
  destruct (update_section_valid "cache" updateCacheArgs (cfg_Cache new) args0 n0 oc) as [[args1 n1] E1].
  { apply (has_lookup args); [by rewrite O0|done]. }
  { intros x sec Hx. destruct (Hc x Hx) as (H1 & H2 & H3). unfold updateCacheArgs.
    destruct (update_mode_valid _ _ "resyncMethod" (sec, 0%nat) H1) as [st1 ->]. simpl.
    destruct (update_mode_valid _ _ "foreignPodsDetect" st1 H2) as [st2 ->]. simpl. by apply update_mode_valid. }
  rewrite E1. cbn [sum_bind]. apply update_section_inl in E1 as (O1 & _).
  destruct (update_section_valid "scoringStrategy" updateScoringStrategyArgs (cfg_ScoringStrategy new) args1 n1 os)
    as [[args2 n2] E2].
  { apply (has_lookup args); [by rewrite O1, O0|done]. }
  { intros x sec Hx. unfold updateScoringStrategyArgs.
    destruct (update_mode_valid ValidateScoringStrategyType (if decide (ssp_Type x = "") then None else Some (ssp_Type x))
      "type" (sec, 0%nat)) as [st1 ->].
    { intros s E. case_decide; [done|]. injection E as <-. by apply (Hs x). }
    simpl. destruct (ssp_Resources x); by eexists. }
  rewrite E2. cbn [sum_bind]. apply update_section_inl in E2 as (O2 & _).
  assert (exists st, updatePreemptionArgs args2 new = inl st) as [[args3 n3] ->]; [|by eexists].
  unfold updatePreemptionArgs. destruct (cfg_PreemptionMode new) as [m|] eqn:Em; [by apply update_mode_valid|].
  assert (NestedString args2 "preemptionMode" = inl (cfg_PreemptionMode p)) as ->.
  { apply Nested_inl. apply (has_lookup args); [by rewrite O2, O1, O0|apply Hm]. }
  destruct (cfg_PreemptionMode p); by eexists.
Qed.

Lemma render_plugins_valid name elect new confs u (pss : list (list ConfigParams)) :
  valid_params new -> mapM (plugin_params name elect) confs = Some pss -> exists st, render_plugins new confs u = inl st.
Proof.
  intros Hv. revert u pss. induction confs as [|conf confs IH]; intros u pss; simpl; [by eexists|].
  intros (ps & (m & n & -> & Hn & Hm)%plugin_params_Some & (pss' & Hpss & _)%bind_Some)%bind_Some. simpl.
  unfold NestedString. rewrite (proj2 (Nested_inl as_string "string" m "name" (Some n)) Hn). case_decide.
  - by destruct (IH u _ Hpss) as [[cs u'] ->]; eexists.
  - destruct Hm as (args & p & Ha & Hp & _). unfold NestedMap.
    rewrite (proj2 (Nested_inl as_object "map[string]interface{}" m "args" (Some args)) Ha).
    destruct (updateArgs_valid _ _ _ _ Hp Hv) as [[args' up] ->].
    by destruct (IH (u || up) _ Hpss) as [[cs u'] ->]; eexists.
Qed.

Lemma render_profiles_valid name elect new profs u (pss : list (list ConfigParams)) :
  valid_params new -> mapM (profile_params elect) profs = Some pss -> exists st, render_profiles name new profs u = inl st.
Proof.
  intros Hv. revert u pss. induction profs as [|prof profs IH]; intros u pss; simpl; [by eexists|].
  intros (ps & (m & n & confs & qss & -> & Hn & Hc & Hq & _)%profile_params_Some & (pss' & Hpss & _)%bind_Some)%bind_Some. simpl.
  unfold NestedString. rewrite (proj2 (Nested_inl as_string "string" m "schedulerName" (Some n)) Hn). case_decide.
  { by destruct (IH u _ Hpss) as [[cs u'] ->]; eexists. }
  destruct (if decide (cfg_ProfileName new = "") then _ else _) as [m' u1] eqn:Em.
  assert (NestedSlice m' "pluginConfig" = inl (Some confs)) as ->.
  { apply Nested_inl, (has_lookup m); [|done]. case_decide; simplify_eq; [done|].
    unfold SetNestedField. by rewrite lookup_insert_ne. }
  destruct (render_plugins_valid _ _ new confs u1 _ Hv Hq) as [[cs u2] ->]. cbn [sum_bind].
  by destruct (IH u2 _ Hpss) as [[cs' u'] ->]; eexists.
Qed.

Lemma render_tree_valid r name new ps :
  valid_params new -> configuration r = Some ps ->
  (cfg_LeaderElection new = None \/ exists lead, NestedMap r "leaderElection" = inl (Some lead)) ->
  exists st, render_tree r name new = inl st.
Proof.
  intros Hv Hcfg Hl. unfold configuration in Hcfg. apply bind_Some in Hcfg as (elect & _ & Hcfg).
  destruct (NestedSlice r "profiles") as [[profs|]|] eqn:Ep; [|done..].
  apply fmap_Some in Hcfg as (pss & Hpss & _). unfold render_tree.
  assert (forall r1 u1, r1 !! "profiles" = r !! "profiles" ->
    exists st, (match NestedSlice r1 "profiles" with
      | inl (Some profiles) => let? (profiles, updated) := render_profiles name new profiles u1 in
          inl (SetNestedField r1 (JArray profiles) "profiles", updated)
      | inl None => inr None | inr err => inr (Some err) end) = inl st) as Hgo.
  { intros r1 u1 E. assert (NestedSlice r1 "profiles" = inl (Some profs)) as ->.
    { apply Nested_inl, (has_lookup r); [done|]. by apply Nested_inl in Ep. }
    destruct (render_profiles_valid name elect new profs u1 _ Hv Hpss) as [[cs u2] ->]. by eexists. }
  destruct (cfg_LeaderElection new) as [lep|]; [|by apply Hgo].
  destruct Hl as [?|[lead ->]]; [done|]. simpl. apply Hgo. by apply lookup_insert_ne.
Qed.
End Spec.

(** C12: rendering refines an overlay: into a well-formed document, valid
    parameters are always rendered, and what the operator decodes from the new
    document is the parameters of the old one with, on the profile asked for,
    everything that was wanted in place of what was there. Only a document the YAML
    library refuses to print is passed through. *)
Theorem RenderConfig_refines `{YamlLib, !YamlLaws} data name new r ps :
  name <> "" -> valid_params new -> exact_numbers new ->
  yaml_Unmarshal data = inl r -> configuration r = Some ps ->
  (cfg_LeaderElection new = None \/ exists lead, NestedMap r "leaderElection" = inl (Some lead)) ->
  exists r' updated, render_tree r name new = inl (r', updated) /\
    match yaml_Marshal r' with
    | inl data' => RenderConfig data name (Some new) = (data', updated, None) /\
                   DecodeSchedulerProfilesFromData data' = (overlay name new <$> ps, None)
    | inr _ => RenderConfig data name (Some new) = (data, false, None)
    end.
Proof.
  intros Hn Hv Hex Hd Hcfg Hl. destruct (render_tree_valid r name new ps Hv Hcfg Hl) as [[r' u] Hr].
  exists r', u. split; [done|]. unfold RenderConfig. rewrite decide_False by done. rewrite Hd, Hr.
  destruct (yaml_Marshal r') as [data'|err] eqn:Em; [|done]. split; [done|]. unfold DecodeSchedulerProfilesFromData. rewrite (yaml_roundtrip _ _ Em).
  apply decode_tree_configuration. by apply (render_tree_configuration float_exact r name new r' u ps).
Qed.

(** ** A concrete library *)

Module table.

(** A document that is read, and one that is printed and read back. *)
Definition lib (input output : gmap string json) : YamlLib :=
  let float z := match z with
                 | Z0 => S754_zero false
                 | Zpos p => S754_finite false p 0
                 | Zneg p => S754_finite true p 0
                 end in
  {| yaml_Unmarshal s :=
       if decide (s = "input") then inl input
       else if decide (s = "output") then
         inl ((fix go j := match j with
                           | JInt z => JFloat (float z)
                           | JArray l => JArray (go <$> l)
                           | JObject m => JObject (go <$> m)
                           | j => j
                           end) <$> output)
       else inr (ErrNew "cannot parse");
     yaml_Marshal m := if decide (m = output) then inl "output" else inr (ErrNew "cannot print");
     float64_of_int64 := float;
     show_json _ := "";
     int64_of_huge _ := int64_min |}.

Lemma laws input output :
  let _ := lib input output in
  bool_decide (reread_map input = input) = true ->
  bool_decide (reread_map (reread_map output) = reread_map output) = true -> @YamlLaws (lib input output).
Proof.
  intros yaml Hi Ho. apply bool_decide_eq_true in Hi, Ho. split.
  - intros m data E. simpl in E. case_decide; [|done]. injection E as <-. by subst.
  - intros data m E. simpl in E. repeat case_decide; simplify_eq; [exact Hi|exact Ho].
  - intros [|p|p] _; simpl; [done| |]; by rewrite Z.shiftl_0_r.
Qed.

(** The configuration the operator ships, with one profile and another plugin. *)
Definition profile (name : string) (args : gmap string json) : json :=
  JObject {["schedulerName" := JString name;
            "pluginConfig" := JArray [JObject {["name" := JString "Other"]};
                                      JObject {["name" := JString SchedulerPluginName; "args" := JObject args]}]]}.
Definition document (lead : gmap string json) (prof : json) : gmap string json :=
  {["apiVersion" := JString "kubescheduler.config.k8s.io/v1"; "leaderElection" := JObject lead;
    "profiles" := JArray [prof]]}.

Definition builtin : gmap string json :=
  document {["leaderElect" := JBool false]}
    (profile "topology-aware-scheduler"
       {["cacheResyncPeriodSeconds" := JFloat (S754_finite false 5 0);
         "scoringStrategy" := JObject {["type" := JString "LeastAllocated"]}]}).

Definition wanted : ConfigParams :=
  mkConfigParams "my-scheduler"
    (Some (mkConfigCacheParams (Some 10%Z) (Some CacheResyncAutodetect) (Some ForeignPodsDetectAll) (Some CacheInformerShared)))
    (Some (mkScoringStrategyParams "MostAllocated" [mkResourceSpecParams "cpu" 3]))
    (Some (mkLeaderElectionParams true "numaresources" "numa-scheduler-leader")) None.

Definition expected : gmap string json :=
  document {["leaderElect" := JBool true; "resourceName" := JString "numa-scheduler-leader";
             "resourceNamespace" := JString "numaresources"]}
    (profile "my-scheduler"
       {["cacheResyncPeriodSeconds" := JInt 10;
         "cache" := JObject {["resyncMethod" := JString "Autodetect"; "foreignPodsDetect" := JString "All";
                              "informerMode" := JString "Shared"]};
         "scoringStrategy" := JObject {["type" := JString "MostAllocated";
            "resources" := JArray [JObject {["name" := JString "cpu"; "weight" := JInt 3]}]]}]}).

Definition yaml : YamlLib := lib builtin expected.
End table.

Lemma RenderConfig_refines_witness :
  let _ := table.yaml in
  let name := "topology-aware-scheduler" in
  exists data' updated, RenderConfig "input" name (Some table.wanted) = (data', updated, None) /\
    updated = true /\ exists ps, DecodeSchedulerProfilesFromData data' = (ps, None) /\
    cfg_ProfileName <$> ps = ["my-scheduler"] /\ cfg_Cache <$> ps = [cfg_Cache table.wanted].
Proof.
  intros yaml name.
  assert (@YamlLaws table.yaml) as Hl by (apply table.laws; vm_compute; reflexivity).
  destruct (configuration table.builtin) as [ps|] eqn:Ec; [|vm_compute in Ec; discriminate Ec].
  destruct (RenderConfig_refines "input" name table.wanted table.builtin ps) as (r' & u & Hr & H).
  - discriminate.
  - split; [intros c [= <-]; split; [|split]; intros s [= <-]; reflexivity|].
    split; [intros s [= <-] _; reflexivity|intros s; discriminate].
  - split; [intros c z [= <-] [= <-]; vm_compute; split; discriminate|].
    intros s rs [= <-] ->%list_elem_of_singleton; vm_compute; split; discriminate.
  - reflexivity.
  - exact Ec.
  - right. exists {["leaderElect" := JBool false]}. reflexivity.
  - clear Hr. destruct (yaml_Marshal r') as [d|err]; [destruct H as [H Hd]|exfalso; vm_compute in H; discriminate H].
    exists d, u. split; [exact H|]. vm_compute in H. injection H as <- <-. split; [reflexivity|].
    eexists. split; [exact Hd|]. vm_compute in Ec. injection Ec as <-. vm_compute. auto.
Defined.
