(* ===== verification/SchedApi.v ===== *)
(** * The scheduler resource (api/v1/numaresourcesscheduler_*.go)

    The [NUMAResourcesScheduler] resource, its defaults and normalisation, the
    platform information, and the rounding of durations. *)
From S2P Require Import Prelude GoErrors Meta ApiV1.

(** ** Types; the string types of the API are strings *)

Definition CacheResyncDebugDisabled : string := "Disabled".
Definition CacheResyncDebugDumpJSONFile : string := "DumpJSONFile".
Definition SchedulerInformerShared : string := "Shared".
Definition SchedulerInformerDedicated : string := "Dedicated".
Definition api_PreemptionEnabled : string := "Enabled".
Definition api_PreemptionDisabled : string := "Disabled".
Definition MostAllocated : string := "MostAllocated".
Definition BalancedAllocation : string := "BalancedAllocation".
Definition LeastAllocated : string := "LeastAllocated".
Definition CacheResyncDetectionRelaxed : string := "Relaxed".
Definition CacheResyncDetectionAggressive : string := "Aggressive".

Record api_ResourceSpecParams := mkApiResource { ar_Name : string; ar_Weight : Z }.

Record api_ScoringStrategyParams := mkApiScoring {
  as_Type : string; as_Resources : list api_ResourceSpecParams }.

Record NUMAResourcesSchedulerSpec := mkNROSSpec {
  ns_SchedulerImage : string;
  ns_SchedulerName : string;
  ns_LogLevel : string;
  ns_CacheResyncPeriod : option Z;
  ns_CacheResyncDebug : option string;
  ns_SchedulerInformer : option string;
  ns_CacheResyncDetection : option string;
  ns_ScoringStrategy : option api_ScoringStrategyParams;
  ns_PreemptionMode : option string;
  ns_Replicas : option Z }.

Record NUMAResourcesSchedulerStatus := mkNROSStatus {
  nst_Deployment : NamespacedName;
  nst_SchedulerName : string;
  nst_CacheResyncPeriod : option Z;
  nst_Conditions : list Condition;
  nst_RelatedObjects : list ObjectReference }.

Record NUMAResourcesScheduler := mkNROS {
  nros_Meta : ObjectMeta; nros_Spec : NUMAResourcesSchedulerSpec; nros_Status : NUMAResourcesSchedulerStatus }.

#[global] Instance api_ResourceSpecParams_eq_dec : EqDecision api_ResourceSpecParams. Proof. solve_decision. Defined.
#[global] Instance api_ScoringStrategyParams_eq_dec : EqDecision api_ScoringStrategyParams. Proof. solve_decision. Defined.
#[global] Instance NUMAResourcesSchedulerSpec_eq_dec : EqDecision NUMAResourcesSchedulerSpec. Proof. solve_decision. Defined.

Definition nros_with_Spec (spec : NUMAResourcesSchedulerSpec) (i : NUMAResourcesScheduler) : NUMAResourcesScheduler :=
  mkNROS (nros_Meta i) spec (nros_Status i).
Definition nros_with_Status (st : NUMAResourcesSchedulerStatus) (i : NUMAResourcesScheduler) : NUMAResourcesScheduler :=
  mkNROS (nros_Meta i) (nros_Spec i) st.
Definition nst_with_Conditions (conds : list Condition) (st : NUMAResourcesSchedulerStatus)
  : NUMAResourcesSchedulerStatus :=
  mkNROSStatus (nst_Deployment st) (nst_SchedulerName st) (nst_CacheResyncPeriod st) conds (nst_RelatedObjects st).
Definition ns_with_Informer (m : option string) (s : NUMAResourcesSchedulerSpec) : NUMAResourcesSchedulerSpec :=
  mkNROSSpec (ns_SchedulerImage s) (ns_SchedulerName s) (ns_LogLevel s) (ns_CacheResyncPeriod s)
    (ns_CacheResyncDebug s) m (ns_CacheResyncDetection s) (ns_ScoringStrategy s) (ns_PreemptionMode s) (ns_Replicas s).
Definition ns_with_Replicas (n : option Z) (s : NUMAResourcesSchedulerSpec) : NUMAResourcesSchedulerSpec :=
  mkNROSSpec (ns_SchedulerImage s) (ns_SchedulerName s) (ns_LogLevel s) (ns_CacheResyncPeriod s)
    (ns_CacheResyncDebug s) (ns_SchedulerInformer s) (ns_CacheResyncDetection s) (ns_ScoringStrategy s)
    (ns_PreemptionMode s) n.

(** ** Defaults *)

Definition defaultCacheResyncPeriod : Z := (5 * Duration.Second)%Z.
Definition defaultCacheResyncDebug : string := CacheResyncDebugDumpJSONFile.
Definition defaultSchedulerInformer : string := SchedulerInformerDedicated.
Definition defaultCacheResyncDetection : string := CacheResyncDetectionRelaxed.
Definition defaultScoringStrategy : string := LeastAllocated.

(** The preemption mode and the replicas have no default. *)
Definition SetDefaults_NUMAResourcesSchedulerSpec (s : NUMAResourcesSchedulerSpec) : NUMAResourcesSchedulerSpec :=
  mkNROSSpec (ns_SchedulerImage s) (ns_SchedulerName s) (ns_LogLevel s)
    (Some (default defaultCacheResyncPeriod (ns_CacheResyncPeriod s)))
    (Some (default defaultCacheResyncDebug (ns_CacheResyncDebug s)))
    (Some (default defaultSchedulerInformer (ns_SchedulerInformer s)))
    (Some (default defaultCacheResyncDetection (ns_CacheResyncDetection s)))
    (Some (default (mkApiScoring defaultScoringStrategy []) (ns_ScoringStrategy s)))
    (ns_PreemptionMode s) (ns_Replicas s).

Definition Normalize (current : NUMAResourcesSchedulerSpec) : NUMAResourcesSchedulerSpec :=
  SetDefaults_NUMAResourcesSchedulerSpec current.

(** ** Platform information (internal/platforminfo), as it was discovered *)

Record PlatformInfo := mkPlatformInfo {
  pi_Platform : platform.Platform;
  pi_PodResourcesListFilterActivePods : bool }.

(** ** Related objects (internal/relatedobjects) *)

Definition relatedobjects_Scheduler (namespace : string) (dpStatus : NamespacedName) : list ObjectReference :=
  [ mkObjectReference "" "namespaces" "" namespace;
    mkObjectReference "apps" "deployments" (nn_Namespace dpStatus) (nn_Name dpStatus) ].

(** ** [Duration.Round] of the Go standard library *)

Module duration.
Open Scope Z_scope.

(** Two's complement int64. *)
Definition wrap64 (z : Z) : Z := (z + 2 ^ 63) mod 2 ^ 64 - 2 ^ 63.

Definition maxDuration : Z := 2 ^ 63 - 1.
Definition minDuration : Z := - 2 ^ 63.

(** Both arguments are not negative here, so the uint64 conversions change nothing
    and their sum does not wrap. *)
Definition lessThanHalf (x y : Z) : bool := x + x <? y.

Definition Round (d m : Z) : Z :=
  if m <=? 0 then d
  else
    let r := Z.rem d m in
    if d <? 0 then
      let r := - r in
      if lessThanHalf r m then d + r
      else let d1 := wrap64 (d - m + r) in
           if d1 <? d then d1 else minDuration
    else
      if lessThanHalf r m then d - r
      else let d1 := wrap64 (d + m - r) in
           if d <? d1 then d1 else maxDuration.

(** [int64(d.Seconds())], the float64 being exact on whole seconds. *)
Definition Seconds (d : Z) : Z := Z.quot d Duration.Second.

Example Round_up : Round (1500 * Duration.Millisecond) Duration.Second = 2 * Duration.Second.
Proof. reflexivity. Qed.
Example Round_down : Round (499 * Duration.Millisecond) Duration.Second = 0.
Proof. reflexivity. Qed.
Example Round_negative : Round (- 1500 * Duration.Millisecond) Duration.Second = - 2 * Duration.Second.
Proof. reflexivity. Qed.
Example Round_saturates : Round maxDuration Duration.Second = maxDuration.
Proof. reflexivity. Qed.
End duration.

(** ** Lemmas *)

(** Normalising fills every field that has a default, keeps what was set, and
    normalising again changes nothing. *)
Lemma Normalize_idempotent s : Normalize (Normalize s) = Normalize s.
Proof. done. Qed.

Lemma Normalize_fields s :
  is_Some (ns_CacheResyncPeriod (Normalize s)) /\ is_Some (ns_CacheResyncDebug (Normalize s)) /\
  is_Some (ns_SchedulerInformer (Normalize s)) /\ is_Some (ns_CacheResyncDetection (Normalize s)) /\
  is_Some (ns_ScoringStrategy (Normalize s)) /\ ns_Replicas (Normalize s) = ns_Replicas s.
Proof. unfold is_Some. split_and!; try done; by eexists. Qed.

(** Rounding is to the nearest multiple; half-way goes away from zero. It gives
    at most an int64 even where the nearest multiple would not. *)
Lemma Round_nearest d m :
  (0 < m <= 2 ^ 62)%Z -> (- 2 ^ 63 + m <= d <= 2 ^ 63 - 1 - m)%Z ->
  (Z.rem (duration.Round d m) m = 0 /\ 2 * Z.abs (duration.Round d m - d) <= m)%Z.
Proof.
  intros Hm Hd. unfold duration.Round, duration.lessThanHalf.
  destruct (Z.leb_spec m 0); [lia|].
  pose proof (Z.quot_rem' d m) as Hq. pose proof (Z.rem_bound_abs d m ltac:(lia)) as Hb.
  assert (forall k, (Z.rem (m * k) m = 0)%Z) as Hmul by (intros k; rewrite Z.mul_comm; apply Z.rem_mul; lia).
  destruct (Z.ltb_spec d 0) as [Hneg|Hpos].
  - pose proof (Z.rem_nonpos d m ltac:(lia) ltac:(lia)) as Hr.
    destruct (Z.ltb_spec (- Z.rem d m + - Z.rem d m) m).
    + replace (d + - Z.rem d m)%Z with (m * Z.quot d m)%Z by lia. rewrite Hmul. lia.
    + assert (duration.wrap64 (d - m + - Z.rem d m) = m * (Z.quot d m - 1))%Z as ->.
      { unfold duration.wrap64. rewrite Z.mod_small; lia. }
      rewrite (proj2 (Z.ltb_lt _ _)) by lia. rewrite Hmul. lia.
  - pose proof (Z.rem_nonneg d m ltac:(lia) ltac:(lia)) as Hr.
    destruct (Z.ltb_spec (Z.rem d m + Z.rem d m) m).
    + replace (d - Z.rem d m)%Z with (m * Z.quot d m)%Z by lia. rewrite Hmul. lia.
    + assert (duration.wrap64 (d + m - Z.rem d m) = m * (Z.quot d m + 1))%Z as ->.
      { unfold duration.wrap64. rewrite Z.mod_small; lia. }
      rewrite (proj2 (Z.ltb_lt _ _)) by lia. rewrite Hmul. lia.
Qed.
