(* ===== verification/SchedUpdate.v ===== *)
(** * Updates of the scheduler objects
    (pkg/objectupdate/sched, pkg/numaresourcesoperator/objectupdate/rbac)

    The updates write the objects of the manifests in place; the model returns
    the new object, with the error if the function has one. *)
From S2P Require Import Prelude GoErrors Meta ApiV1 FlagCodec Workload RteUpdate Objects SchedParams SchedApi.

(** ** The typed objects of the manifests *)

Record Deployment := mkDeployment {
  dp_Meta : ObjectMeta; dp_Spec : DeploymentSpec; dp_Status : DeploymentStatus }.

Record Role := mkRole { ro_Meta : ObjectMeta; ro_Rules : list PolicyRule; ro_other : string }.

Record RoleBinding := mkRoleBinding { rb_Meta : ObjectMeta; rb_Subjects : list Subject; rb_other : string }.

Definition dp_map_Template (f : PodTemplateSpec -> PodTemplateSpec) (dp : Deployment) : Deployment :=
  mkDeployment (dp_Meta dp)
    (mkDeploymentSpec (dps_Replicas (dp_Spec dp)) (f (dps_Template (dp_Spec dp))) (dps_other (dp_Spec dp)))
    (dp_Status dp).
Definition dp_map_PodSpec (f : PodSpec -> PodSpec) : Deployment -> Deployment :=
  dp_map_Template (fun t => mkPodTemplateSpec (pt_Labels t) (pt_Annotations t) (f (pt_Spec t))).
Definition dp_set_Replicas (n : option Z) (dp : Deployment) : Deployment :=
  mkDeployment (dp_Meta dp) (mkDeploymentSpec n (dps_Template (dp_Spec dp)) (dps_other (dp_Spec dp))) (dp_Status dp).
Definition dp_PodSpec (dp : Deployment) : PodSpec := pt_Spec (dps_Template (dp_Spec dp)).
Definition dp_Containers (dp : Deployment) : list Container := ps_Containers (dp_PodSpec dp).
Definition dp_alter (i : nat) (f : Container -> Container) : Deployment -> Deployment := dp_map_PodSpec (ps_alter i f).

Definition om_set_Namespace (ns : string) (m : ObjectMeta) : ObjectMeta :=
  mkObjectMeta (om_Name m) ns (om_SelfLink m) (om_UID m) (om_ResourceVersion m) (om_Generation m)
    (om_CreationTimestamp m) (om_Labels m) (om_Annotations m) (om_OwnerReferences m) (om_Finalizers m)
    (om_ManagedFields m).

(** ** The main container *)

Definition SchedulerContainerName : string := "secondary-scheduler".
Definition SchedulerConfigFileName : string := "config.yaml".
Definition SchedulerConfigMapVolumeName : string := "etckubernetes".

(** An update of the main container; without it the object is left alone. *)
Definition update_main (f : Container -> Container) (dp : Deployment) : Deployment * option error :=
  match FindContainerByName (dp_Containers dp) SchedulerContainerName with
  | None => (dp, Some (ErrNew ("cannot find container " +:+ quote SchedulerContainerName)))
  | Some i => (dp_alter i f dp, None)
  end.

Definition DeploymentImageSettings (dp : Deployment) (userImageSpec : string) : Deployment * option error :=
  update_main (fun cnt => cnt_set_Image userImageSpec (cnt_ImagePullPolicy cnt) cnt) dp.

(** The container is looked for before the mode is read. *)
Definition DeploymentEnvVarSettings (dp : Deployment) (spec : NUMAResourcesSchedulerSpec)
  : go (Deployment * option error) :=
  match FindContainerByName (dp_Containers dp) SchedulerContainerName with
  | None => Ret (update_main (fun cnt => cnt) dp)
  | Some _ =>
      let! cacheResyncDebug := deref "CacheResyncDebug" (ns_CacheResyncDebug spec) in
      Ret (update_main (fun cnt =>
             if decide (cacheResyncDebug = CacheResyncDebugDumpJSONFile)
             then envvar.SetForContainer cnt envvar.PFPStatusDump envvar.PFPStatusDirDefault
             else envvar.DeleteFromContainer cnt envvar.PFPStatusDump) dp)
  end.

Definition NewSchedConfigVolume (schedVolumeConfigName configMapName : string) : Volume :=
  mkVolume schedVolumeConfigName (VSConfigMap configMapName None).

(** The first volume of the template is a placeholder. *)
Definition DeploymentConfigMapSettings (dp : Deployment) (cmName cmHash : string) : go Deployment :=
  match ps_Volumes (dp_PodSpec dp) with
  | [] => Panic (IndexOutOfRange "template.Spec.Volumes")
  | _ :: vs =>
      Ret (dp_map_Template (fun t =>
             mkPodTemplateSpec (pt_Labels t)
               (Some (<[ConfigMapAnnotation := cmHash]> (map_of (pt_Annotations t))))
               (ps_set_Volumes (NewSchedConfigVolume SchedulerConfigMapVolumeName cmName :: vs) (pt_Spec t))) dp)
  end.

Definition tls_flags (tlsSettings : Settings) (flags : Flags) : Flags :=
  let flags := set_or_delete flags "--tls-min-version" (tls_MinVersion tlsSettings) in
  let flags := set_or_delete flags "--tls-cipher-suites" (tls_CipherSuites tlsSettings) in
  set_or_delete flags "--tls-curve-preferences" (tls_CurvePreferences tlsSettings).

Definition DeploymentTLSSettings (dp : Deployment) (tlsSettings : Settings) : Deployment * option error :=
  update_main (fun cnt =>
    cnt_set_Args (Argv (tls_flags tlsSettings (ParseArgvKeyValue (cnt_Args cnt) [WithFlagNormalization]))) cnt) dp.

Definition DoNotSchedule : string := "DoNotSchedule".

Definition DeploymentTopologySpreadConstraints (dp : Deployment) : Deployment * option error :=
  let labels := map_of (pt_Labels (dps_Template (dp_Spec dp))) in
  if decide (labels = ∅) then (dp, Some (ErrNew "no labels found in deployment template"))
  else (dp_map_PodSpec (ps_set_TopologySpreadConstraints
          [SpreadOnHost labels 1 "kubernetes.io/hostname" DoNotSchedule ["pod-template-hash"]]) dp, None).

(** ** Resources *)

(** Parsing gives the canonical text of a quantity. *)
Class QuantityLib := { ParseQuantity : string -> string + error }.

Inductive PodQOSClass := PodQOSGuaranteed | PodQOSBurstable.
#[global] Instance PodQOSClass_eq_dec : EqDecision PodQOSClass. Proof. solve_decision. Defined.

Section Resources.
Context `{!QuantityLib}.

Definition makeResourceRequirements (cpuVal memVal : string) (desiredQOS : PodQOSClass)
  : ResourceRequirements + error :=
  let? cpuQty := ParseQuantity cpuVal in
  let? memQty := ParseQuantity memVal in
  let res := {["cpu" := cpuQty; "memory" := memQty]} in
  inl (mkResourceRequirements res (if decide (desiredQOS = PodQOSGuaranteed) then res else ∅)).

Definition SchedulerResourcesRequest (dp : Deployment) (annots : gmap string string) : Deployment * option error :=
  match FindContainerByName (dp_Containers dp) SchedulerContainerName with
  | None => update_main (fun cnt => cnt) dp
  | Some _ =>
      let '(cpuVal, memVal, desiredQOS) :=
        if annotations.IsSchedulerQOSRequestGuaranteed annots then ("600m", "1200Mi", PodQOSGuaranteed)
        else ("150m", "500Mi", PodQOSBurstable) in
      match makeResourceRequirements cpuVal memVal desiredQOS with
      | inr err => (dp, Some err)
      | inl rr => update_main (cnt_set_Resources rr) dp
      end
  end.
End Resources.

(** ** The config map *)

Definition cm_set_Data (d : gmap string string) (cm : ConfigMap) : ConfigMap :=
  mkConfigMap (cm_Meta cm) (Some d) (cm_BinaryData cm).

Definition SchedulerConfig `{!YamlLib} (cm : ConfigMap) (name : string) (params : ConfigParams)
  : ConfigMap * option error :=
  let where_ := om_Namespace (cm_Meta cm) +:+ "/" +:+ om_Name (cm_Meta cm) in
  match cm_Data cm with
  | None => (cm, Some (ErrNew ("no data found in ConfigMap: " +:+ where_)))
  | Some d =>
      match d !! SchedulerConfigFileName with
      | None => (cm, Some (ErrNew ("no data key named: " +:+ SchedulerConfigFileName
                                     +:+ " found in ConfigMap: " +:+ where_)))
      | Some data =>
          match RenderConfig data name (Some params) with
          | (_, _, Some err) => (cm, Some err)
          | (newData, _, None) => (cm_set_Data (<[SchedulerConfigFileName := newData]> d) cm, None)
          end
      end
  end.

(** ** Roles (pkg/numaresourcesoperator/objectupdate/rbac) *)

Definition first {A} (what : string) (l : list A) : go A :=
  match l with
  | [] => Panic (IndexOutOfRange what)
  | x :: _ => Ret x
  end.

Definition apiGroupCore : string := "".
Definition apiGroupCoordination : string := "coordination.k8s.io".
Definition resourceEndpoints : string := "endpoints".
Definition resourceLeases : string := "leases".

(** A rule on [res] in the group [grp] is narrowed to the name; the resources are
    looked at only in that group. *)
Definition narrow_rule (resourceName grp res : string) (ru : PolicyRule) : go PolicyRule :=
  let! g := first "APIGroups" (pr_APIGroups ru) in
  if decide (g = grp) then
    let! r := first "Resources" (pr_Resources ru) in
    Ret (if decide (r = res) then mkPolicyRule (pr_APIGroups ru) (pr_Resources ru) [resourceName] (pr_other ru) else ru)
  else Ret ru.

Definition leader_rule (resourceName : string) (ru : PolicyRule) : go PolicyRule :=
  let! ru := narrow_rule resourceName apiGroupCore resourceEndpoints ru in
  narrow_rule resourceName apiGroupCoordination resourceLeases ru.

Fixpoint leader_rules (resourceName : string) (rules : list PolicyRule) : go (list PolicyRule) :=
  match rules with
  | [] => Ret []
  | ru :: rest =>
      let! ru := leader_rule resourceName ru in
      let! rest := leader_rules resourceName rest in
      Ret (ru :: rest)
  end.

Definition RoleForLeaderElection (ro : Role) (namespace resourceName : string) : go Role :=
  let! rules := leader_rules resourceName (ro_Rules ro) in
  Ret (mkRole (om_set_Namespace namespace (ro_Meta ro)) rules (ro_other ro)).

Definition bind_subject (serviceAccount namespace : string) (s : Subject) : Subject :=
  mkSubject (if decide (serviceAccount <> "") then serviceAccount else sub_Name s) namespace (sub_other s).

Definition rbac_RoleBinding (rb : RoleBinding) (serviceAccount namespace : string) : RoleBinding :=
  mkRoleBinding (rb_Meta rb) (bind_subject serviceAccount namespace <$> rb_Subjects rb) (rb_other rb).

(** ** Lemmas *)

Lemma update_main_found dp f i :
  FindContainerByName (dp_Containers dp) SchedulerContainerName = Some i -> update_main f dp = (dp_alter i f dp, None).
Proof. unfold update_main. by intros ->. Qed.

Lemma dp_Containers_alter i f dp : dp_Containers (dp_alter i f dp) = alter f i (dp_Containers dp).
Proof. done. Qed.

(** An update that keeps the names of containers keeps the main one in place. *)
Lemma find_scheduler_alter i j f dp :
  (forall c, cnt_Name (f c) = cnt_Name c) ->
  FindContainerByName (dp_Containers dp) SchedulerContainerName = Some i ->
  FindContainerByName (dp_Containers (dp_alter j f dp)) SchedulerContainerName = Some i.
Proof.
  intros Hf. rewrite dp_Containers_alter. unfold FindContainerByName.
  rewrite find_index_alter; [done|]. intros c. by rewrite Hf.
Qed.

(** A rule with a group and a resource is never a problem, and keeps them. *)
Lemma narrow_rule_returns n grp res ru :
  pr_APIGroups ru <> [] -> pr_Resources ru <> [] ->
  exists ru', narrow_rule n grp res ru = Ret ru' /\ pr_APIGroups ru' = pr_APIGroups ru /\
    pr_Resources ru' = pr_Resources ru /\ pr_other ru' = pr_other ru /\
    (pr_ResourceNames ru' = pr_ResourceNames ru \/ pr_ResourceNames ru' = [n]).
Proof.
  unfold narrow_rule, first. destruct ru as [[|g gs] [|r rs] ns o]; simpl; try done. intros _ _.
  repeat (case_decide; simpl); eexists; split_and!; auto.
Qed.

Lemma leader_rule_returns n ru :
  pr_APIGroups ru <> [] -> pr_Resources ru <> [] -> is_ret (leader_rule n ru).
Proof.
  intros Hg Hr. unfold leader_rule.
  destruct (narrow_rule_returns n apiGroupCore resourceEndpoints ru Hg Hr) as (ru1 & -> & Eg & Er & _). simpl.
  destruct (narrow_rule_returns n apiGroupCoordination resourceLeases ru1) as (ru2 & -> & _); [congruence..|].
  by eexists.
Qed.

Lemma leader_rules_returns n rules :
  Forall (fun ru => pr_APIGroups ru <> [] /\ pr_Resources ru <> []) rules -> is_ret (leader_rules n rules).
Proof.
  induction 1 as [|ru rules [Hg Hr] _ [rs IH]]; simpl; [by eexists|].
  destruct (leader_rule_returns n ru Hg Hr) as [ru' ->]. simpl. rewrite IH. by eexists.
Qed.
