(* ===== verification/SchedState.v ===== *)
(** * The scheduler's object states (pkg/numaresourcesscheduler/objectstate/sched)

    The objects of the secondary scheduler, what is loaded of them from the
    cluster, the states built from both, and what is read back from an applied
    object. *)
From S2P Require Import Prelude GoErrors Meta Selectors ApiV1 Conditions Steps Trees Workload RteUpdate.
From S2P Require Import Objects MergeSpec Cluster Apply SchedParams SchedApi SchedUpdate.

(** ** Objects of the typed manifests *)

Definition dp_object (dp : Deployment) : Object :=
  mkObject "apps/v1" "Deployment" (dp_Meta dp) (BDeployment (dp_Spec dp) (dp_Status dp)).
Definition ro_object (ro : Role) : Object :=
  mkObject "rbac.authorization.k8s.io/v1" "Role" (ro_Meta ro) (BRole (ro_Rules ro) (ro_other ro)).
Definition rb_object (rb : RoleBinding) : Object :=
  mkObject "rbac.authorization.k8s.io/v1" "RoleBinding" (rb_Meta rb) (BRoleBinding (rb_Subjects rb) (rb_other rb)).

Definition object_dp (o : Object) : option Deployment :=
  match obj_Body o with
  | BDeployment spec st => Some (mkDeployment (obj_Meta o) spec st)
  | _ => None
  end.

(** [schedmanifests.Manifests] *)
Record SchedManifests := mkSchedManifests {
  sm_ServiceAccount : Object;
  sm_ConfigMap : ConfigMap;
  sm_ClusterRole : Object;
  sm_ClusterRoleBindingNRT : Object;
  sm_Role : Role;
  sm_RoleBinding : RoleBinding;
  sm_Deployment : Deployment;
  sm_DefaultNetworkPolicy : Object;
  sm_APIserverNetworkPolicy : Object }.

Definition sm_with_ConfigMap (cm : ConfigMap) (mf : SchedManifests) : SchedManifests :=
  mkSchedManifests (sm_ServiceAccount mf) cm (sm_ClusterRole mf) (sm_ClusterRoleBindingNRT mf) (sm_Role mf)
    (sm_RoleBinding mf) (sm_Deployment mf) (sm_DefaultNetworkPolicy mf) (sm_APIserverNetworkPolicy mf).
Definition sm_with_Deployment (dp : Deployment) (mf : SchedManifests) : SchedManifests :=
  mkSchedManifests (sm_ServiceAccount mf) (sm_ConfigMap mf) (sm_ClusterRole mf) (sm_ClusterRoleBindingNRT mf)
    (sm_Role mf) (sm_RoleBinding mf) dp (sm_DefaultNetworkPolicy mf) (sm_APIserverNetworkPolicy mf).
Definition sm_with_Roles (ro : Role) (rb : RoleBinding) (mf : SchedManifests) : SchedManifests :=
  mkSchedManifests (sm_ServiceAccount mf) (sm_ConfigMap mf) (sm_ClusterRole mf) (sm_ClusterRoleBindingNRT mf)
    ro rb (sm_Deployment mf) (sm_DefaultNetworkPolicy mf) (sm_APIserverNetworkPolicy mf).

(** ** Places *)

(** The objects by their place, in the order they are applied. *)
Inductive sched_slot :=
| PServiceAccount | PConfigMap | PClusterRole | PClusterRoleBindingNRT | PRole | PRoleBinding
| PDeployment | PDefaultNetworkPolicy | PAPIserverNetworkPolicy.

#[global] Instance sched_slot_eq_dec : EqDecision sched_slot. Proof. solve_decision. Defined.

Definition sched_slots : list sched_slot :=
  [PServiceAccount; PConfigMap; PClusterRole; PClusterRoleBindingNRT; PRole; PRoleBinding;
   PDeployment; PDefaultNetworkPolicy; PAPIserverNetworkPolicy].

Definition sched_slot_type (p : sched_slot) : gotype :=
  match p with
  | PServiceAccount => TServiceAccount
  | PConfigMap => TConfigMap
  | PClusterRole => TClusterRole
  | PClusterRoleBindingNRT => TClusterRoleBinding
  | PRole => TRole
  | PRoleBinding => TRoleBinding
  | PDeployment => TDeployment
  | PDefaultNetworkPolicy | PAPIserverNetworkPolicy => TNetworkPolicy
  end.

Definition sched_object (mf : SchedManifests) (p : sched_slot) : Object :=
  match p with
  | PServiceAccount => sm_ServiceAccount mf
  | PConfigMap => cm_object (sm_ConfigMap mf)
  | PClusterRole => sm_ClusterRole mf
  | PClusterRoleBindingNRT => sm_ClusterRoleBindingNRT mf
  | PRole => ro_object (sm_Role mf)
  | PRoleBinding => rb_object (sm_RoleBinding mf)
  | PDeployment => dp_object (sm_Deployment mf)
  | PDefaultNetworkPolicy => sm_DefaultNetworkPolicy mf
  | PAPIserverNetworkPolicy => sm_APIserverNetworkPolicy mf
  end.

Definition sched_merge (p : sched_slot) : iface -> iface -> go merge_result :=
  match p with
  | PServiceAccount => ServiceAccountForUpdate
  | PDeployment => ObjectForUpdate
  | _ => MetadataForUpdate
  end.

(** ** Loading, and the states *)

(** What was read for each place, with the error of the read. *)
Definition SchedExisting : Type := sched_slot -> option Object * option error.

Section State.
Context {W : Type} `{!Client W}.

Definition sched_FromClient (w : W) (mf : SchedManifests) : SchedExisting := fun p =>
  load w (sched_slot_type p) (obj_key (sched_object mf p)).

Definition sched_State (em : SchedExisting) (mf : SchedManifests) : list ObjectState :=
  (fun p =>
     let '(existing, err) := em p in
     mkObjectState (iface_of_ptr (sched_slot_type p) existing) (IObj (sched_object mf p)) err None
       (Some compare_Object) (Some (sched_merge p))) <$> sched_slots.

(** Removes what a previous version left behind. *)
Definition legacyClusterRoleBindingK8SName : string := "secondary-scheduler".

Definition Cleanup (w : W) : W * option error :=
  let crb := mkObject "" "" (emptyMeta legacyClusterRoleBindingK8SName "") (BClusterRoleBinding [] "") in
  match cli_Delete w crb with
  | (w, None) => (w, None)
  | (w, Some err) =>
      if IsNotFound err then (w, None)
      else (w, Some (ErrWrap ("failed to delete legacy ClusterRoleBinding "
                                +:+ quote legacyClusterRoleBindingK8SName +:+ ": ") err))
  end.
End State.

(** ** Reading names back *)

(** The name of any object, and whether it is a deployment. *)
Definition DeploymentNamespacedNameFromObject (obj : iface) : go (NamespacedName * bool) :=
  if iface_is_nil obj then Ret (mkNamespacedName "" "", false)
  else
    let! o := iface_deref obj in
    Ret (obj_key o, bool_decide (obj_type o = TDeployment)).

Definition SchedulerNameFromObject `{!YamlLib} (obj : iface) : go (string * bool) :=
  match obj with
  | INil => Ret ("", false)
  | ITypedNil t => if decide (t = TConfigMap) then Panic (NilDereference "ConfigMap") else Ret ("", false)
  | IObj o =>
      match obj_Body o with
      | BConfigMap (Some d) _ =>
          match d !! SchedulerConfigFileName with
          | None => Ret ("", false)
          | Some data =>
              match DecodeSchedulerProfilesFromData data with
              | (_, Some _) | ([], None) => Ret ("", false)
              | (params :: _, None) => Ret (cfg_ProfileName params, true)
              end
          end
      | _ => Ret ("", false)
      end
  end.

(** ** Lemmas *)

(** The states are those of the places read from the cluster. *)
Lemma sched_State_FromClient {W} `{!Client W} (w : W) mf :
  sched_State (sched_FromClient w mf) mf
  = (fun p => state_of w (sched_slot_type p) (sched_object mf p) (sched_merge p)) <$> sched_slots.
Proof.
  unfold sched_State. apply list_fmap_ext. intros i p _. unfold sched_FromClient, state_of. by destruct (load _ _ _).
Qed.

Definition sched_fill (p : sched_slot) : Body -> Body -> Body :=
  match p with PServiceAccount => complete_account | _ => complete_plain end.

Lemma sched_merger p : merger_for (sched_merge p) (sched_fill p) (sched_slot_type p).
Proof. destruct p; constructor; set_solver. Qed.

(** Every object has the type and kind of its place; only the untyped ones could not. *)
Definition sched_typed (mf : SchedManifests) : Prop :=
  forall p, obj_type (sched_object mf p) = sched_slot_type p /\ kind_ok (sched_object mf p).

Lemma sched_typed_check mf :
  forallb (fun p => bool_decide (obj_type (sched_object mf p) = sched_slot_type p /\ kind_ok (sched_object mf p)))
    [PServiceAccount; PClusterRole; PClusterRoleBindingNRT; PDefaultNetworkPolicy; PAPIserverNetworkPolicy] = true ->
  sched_typed mf.
Proof.
  simpl. rewrite !andb_true_iff, !bool_decide_eq_true. intros (H1 & H2 & H3 & H4 & H5 & _) p.
  destruct p; simpl; try assumption; (split; [done|by right]).
Qed.
