(* ===== verification/SchedController.v ===== *)
(** * The scheduler controller (internal/controller/numaresourcesscheduler_controller.go)

    [sched_Reconcile] and everything it calls. The manifests the reconciler holds are
    written in place, from one reconciliation to the next, so they are part of
    the state; so is the specification of the instance, which the platform can
    complete. *)
From S2P Require Import Prelude GoErrors Meta Selectors ApiV1 Conditions Steps Trees Validation FlagCodec Workload.
From S2P Require Import RteUpdate Objects MergeSpec Cluster Apply RteState Dangling Controller.
From S2P Require Import SchedParams SchedApi SchedUpdate SchedState.

(** What the controller asks of the client besides objects: scheduler resources,
    and the names of the nodes that carry some labels. *)
Class SchedClient (W : Type) := {
  cli_GetNROS : W -> NamespacedName -> NUMAResourcesScheduler + error;
  cli_ListNROS : W -> list NUMAResourcesScheduler + error;
  cli_PatchSchedStatus : W -> NUMAResourcesScheduler -> NUMAResourcesScheduler -> W * option error;
  cli_ListNodes : W -> gmap string string -> list string + error;
}.

Record SchedReconciler := mkSchedReconciler {
  sr_SchedulerManifests : SchedManifests;
  sr_Namespace : string;
  sr_PlatformInfo : PlatformInfo;
  sr_TLSSettings : Settings;
  sr_ImageValidation : schedulerapi.ImageValidation }.

Definition sr_with_Manifests (mf : SchedManifests) (r : SchedReconciler) : SchedReconciler :=
  mkSchedReconciler mf (sr_Namespace r) (sr_PlatformInfo r) (sr_TLSSettings r) (sr_ImageValidation r).

Definition schedOwnerKind : string := "NUMAResourcesScheduler".
Definition LeaderElectionResourceName : string := "numa-scheduler-leader".
Definition SchedulerPriorityClassName : string := "system-node-critical".
Definition MaxSchedulerReplicas : Z := 3.

(** [int32(n)] *)
Definition to_int32 (z : Z) : Z := ((z + 2 ^ 31) mod 2 ^ 32 - 2 ^ 31)%Z.

(** ** Specification *)

Definition platformNormalize (spec : NUMAResourcesSchedulerSpec) (platInfo : PlatformInfo) : NUMAResourcesSchedulerSpec :=
  if decide (pi_Platform platInfo <> platform.OpenShift /\ pi_Platform platInfo <> platform.HyperShift) then spec
  else
    match ns_SchedulerInformer spec with
    | Some _ => spec
    | None =>
        if negb (pi_PodResourcesListFilterActivePods platInfo) then spec
        else ns_with_Informer (Some SchedulerInformerShared) spec
    end.

Definition updateDedicatedInformerCondition (now : Z) (conds : list Condition) (instanceGeneration : Z)
  (normalized : NUMAResourcesSchedulerSpec) : go (list Condition) :=
  let! mode := deref "SchedulerInformer" (ns_SchedulerInformer normalized) in
  let dedicatedStatus := if decide (mode = SchedulerInformerDedicated) then ConditionTrue else ConditionFalse in
  let informerCondition := mkCondition status.ConditionDedicatedInformerActive dedicatedStatus instanceGeneration now
                             status.ConditionDedicatedInformerActive "" in
  Ret (fst (status.ComputeConditions now conds informerCondition 0)).

Definition unpackAPIResyncPeriod (reconcilePeriod : option Z) : go Z :=
  let! d := deref "reconcilePeriod" reconcilePeriod in
  Ret (duration.Round d Duration.Second).

Definition scoring_type (sst : string) : string :=
  if decide (sst = LeastAllocated) then ScoringStrategyLeastAllocated
  else if decide (sst = BalancedAllocation) then ScoringStrategyBalancedAllocation
  else if decide (sst = MostAllocated) then ScoringStrategyMostAllocated
  else ScoringStrategyLeastAllocated.

Definition configParamsFromSchedSpec (schedSpec : NUMAResourcesSchedulerSpec) (cacheResyncPeriod : Z)
  (namespace : string) : go ConfigParams :=
  let resyncPeriod := duration.Seconds cacheResyncPeriod in
  let! replicas := deref "Replicas" (ns_Replicas schedSpec) in
  let leaderElect := (1 <? replicas)%Z in
  let! detection := deref "CacheResyncDetection" (ns_CacheResyncDetection schedSpec) in
  let foreignPodsDetect := if decide (detection = CacheResyncDetectionRelaxed)
                           then ForeignPodsDetectOnlyExclusiveResources else ForeignPodsDetectAll in
  let! informer := deref "SchedulerInformer" (ns_SchedulerInformer schedSpec) in
  let informerMode := if decide (informer = CacheInformerDedicated)
                      then CacheInformerDedicated else CacheInformerShared in
  let! scoring := deref "ScoringStrategy" (ns_ScoringStrategy schedSpec) in
  let resources := (fun r => mkResourceSpecParams (ar_Name r) (ar_Weight r)) <$> as_Resources scoring in
  let preemption := match ns_PreemptionMode schedSpec with
                    | Some m => if decide (m = api_PreemptionEnabled) then Some PreemptionEnabled else None
                    | None => None
                    end in
  Ret (mkConfigParams (ns_SchedulerName schedSpec)
         (Some (mkConfigCacheParams (Some resyncPeriod) (Some CacheResyncAutodetect) (Some foreignPodsDetect)
                  (Some informerMode)))
         (Some (mkScoringStrategyParams (scoring_type (as_Type scoring)) resources))
         (Some (mkLeaderElectionParams leaderElect namespace LeaderElectionResourceName))
         preemption).

(** ** Objects of the cluster *)

Section SchedReconcile.
Context {W : Type} `{!Client W} `{!SchedClient W} `{!YamlLib} `{!QuantityLib}.
(** Hexadecimal SHA-256 digest. *)
Variable sha256_hex : string -> string.

Definition isDeploymentRunning (w : W) (key : NamespacedName) : bool + error :=
  match cli_Get w TDeployment key with
  | inr err => inr err
  | inl o =>
      let conds := from_option (fun dp => dpst_Conditions (dp_Status dp)) [] (object_dp o) in
      match list_find (fun c => dpc_Type c = "Available") conds with
      | Some (_, c) => inl (bool_decide (dpc_Status c = ConditionTrue))
      | None => inl false
      end
  end.

(** The label of the nodes that can run the scheduler, and what they are called. *)
Definition scheduler_nodes (plat : platform.Platform) : gmap string string * string :=
  if decide (plat = platform.HyperShift) then ({["node-role.kubernetes.io/worker" := ""]}, "worker")
  else ({["node-role.kubernetes.io/control-plane" := ""]}, "control-plane").

(** The value next to an error is not used, and left out. *)
Definition computeSchedulerReplicas (w : W) (r : SchedReconciler) (schedSpec : NUMAResourcesSchedulerSpec)
  : option Z + error :=
  let plat := pi_Platform (sr_PlatformInfo r) in
  let '(labelSelector, nodeRoleDescription) := scheduler_nodes plat in
  match cli_ListNodes w labelSelector with
  | inr err => inr err
  | inl nodes =>
      let replicaCount := to_int32 (Z.of_nat (length nodes)) in
      match ns_Replicas schedSpec with
      | Some replicas =>
          if decide (replicaCount < replicas)%Z
          then inr (ErrNew ("explicitly set replicas count should not be greater than the number of the nodes with role "
                              +:+ nodeRoleDescription))
          else inl (Some replicas)
      | None =>
          if decide (replicaCount = 0%Z)
          then inr (ErrNew ("failed to compute scheduler replicas: no " +:+ nodeRoleDescription
                              +:+ " nodes found for platform " +:+ platform_String plat))
          else if decide (MaxSchedulerReplicas < replicaCount)%Z then inl (Some MaxSchedulerReplicas)
          else if decide (replicaCount < MaxSchedulerReplicas)%Z then inl (Some 1%Z)
          else inl (Some replicaCount)
      end
  end.

(** ** The deployment *)

(** An update that failed stops those after it; the object stays as far as it got. *)
Definition and_then (m : go (Deployment * option error)) (k : Deployment -> go (Deployment * option error))
  : go (Deployment * option error) :=
  let! (dp, err) := m in
  match err with
  | Some err => Ret (dp, Some err)
  | None => k dp
  end.

(** The updates of the deployment, in order, for the config map [cm]. Resources
    that cannot be computed are left as they are. *)
Definition update_deployment (dp : Deployment) (cm : ConfigMap) (tls : Settings) (annots : gmap string string)
  (schedSpec : NUMAResourcesSchedulerSpec) : go (Deployment * option error) :=
  let dp := dp_set_Replicas (ns_Replicas schedSpec) dp in
  let! _ := deref "Replicas" (ns_Replicas schedSpec) in
  let dp := dp_map_PodSpec (ps_set_PriorityClassName SchedulerPriorityClassName) dp in
  let '(dp, _) := SchedulerResourcesRequest dp annots in
  and_then (Ret (DeploymentImageSettings dp (ns_SchedulerImage schedSpec))) (fun dp =>
  let cmHash := ConfigMapData sha256_hex (cm_Data cm) (cm_BinaryData cm) in
  let! dp := DeploymentConfigMapSettings dp (om_Name (cm_Meta cm)) cmHash in
  and_then (let! (podSpec, err) := loglevel.UpdatePodSpec (dp_PodSpec dp) "" (ns_LogLevel schedSpec) in
            Ret (dp_map_PodSpec (fun _ => podSpec) dp, err)) (fun dp =>
  and_then (DeploymentEnvVarSettings dp schedSpec) (fun dp =>
  and_then (Ret (DeploymentTLSSettings dp tls)) (fun dp =>
  Ret (DeploymentTopologySpreadConstraints dp))))).

(** ** Synchronisation *)

(** The apply loop, with the status it fills. *)
Fixpoint apply_states (w : W) (instance : NUMAResourcesScheduler) (states : list ObjectState)
  (schedStatus : NUMAResourcesSchedulerStatus) : go (W * (NUMAResourcesSchedulerStatus * option error)) :=
  match states with
  | [] => Ret (w, (schedStatus, None))
  | objState :: rest =>
      let! (objState, rerr) :=
        (if IsCreateOrUpdate objState then
           let! desired := iface_deref (os_Desired objState) in
           let '(desired, err) := controllerutil.SetControllerReferenceOf schedOwnerKind (nros_Meta instance) desired in
           Ret (os_with_Desired (IObj desired) objState,
                (fun err => ErrWrap ("failed to set controller reference to " +:+ obj_Namespace desired +:+ " "
                                       +:+ obj_Name desired +:+ ": ") err) <$> err)
         else Ret (objState, None)) in
      match rerr with
      | Some err => Ret (w, (schedStatus, Some err))
      | None =>
          let! (w, (obj, _, err)) := ApplyState w objState in
          match err with
          | Some err => Ret (w, (schedStatus, Some (ErrWrap "could not apply scheduler object: " err)))
          | None =>
              let! (nname, ok) := DeploymentNamespacedNameFromObject obj in
              let schedStatus := if ok : bool
                then mkNROSStatus nname (nst_SchedulerName schedStatus) (nst_CacheResyncPeriod schedStatus)
                       (nst_Conditions schedStatus) (nst_RelatedObjects schedStatus)
                else schedStatus in
              let! (schedName, ok) := SchedulerNameFromObject obj in
              let schedStatus := if ok : bool
                then mkNROSStatus (nst_Deployment schedStatus) schedName (nst_CacheResyncPeriod schedStatus)
                       (nst_Conditions schedStatus) (nst_RelatedObjects schedStatus)
                else schedStatus in
              apply_states w instance rest schedStatus
          end
      end
  end.

(** The status next to an error is not used, and left out. The instance comes
    back with its specification completed for the platform. *)
Definition syncNUMASchedulerResources (now : Z) (w : W) (r : SchedReconciler) (instance : NUMAResourcesScheduler)
  : go (W * SchedReconciler * NUMAResourcesScheduler * (NUMAResourcesSchedulerStatus + error)) :=
  let instance := nros_with_Spec (platformNormalize (nros_Spec instance) (sr_PlatformInfo r)) instance in
  let schedSpec := Normalize (nros_Spec instance) in
  let! cacheResyncPeriod := unpackAPIResyncPeriod (ns_CacheResyncPeriod schedSpec) in
  match computeSchedulerReplicas w r schedSpec with
  | inr err => Ret (w, r, instance, inr (ErrWrap "failed to compute scheduler replicas: " err))
  | inl replicas =>
  let schedSpec := ns_with_Replicas replicas schedSpec in
  let! params := configParamsFromSchedSpec schedSpec cacheResyncPeriod (sr_Namespace r) in
  let mf := sr_SchedulerManifests r in
  let! (schedName, ok) := SchedulerNameFromObject (IObj (cm_object (sm_ConfigMap mf))) in
  if negb ok then Ret (w, r, instance, inr (ErrNew "missing scheduler name in builtin config map"))
  else
  match SchedulerConfig (sm_ConfigMap mf) schedName params with
  | (cm, Some err) => Ret (w, sr_with_Manifests (sm_with_ConfigMap cm mf) r, instance, inr err)
  | (cm, None) =>
  let mf := sm_with_ConfigMap cm mf in
  let st := nros_Status instance in
  let! conds := updateDedicatedInformerCondition now (nst_Conditions st) (om_Generation (nros_Meta instance)) schedSpec in
  let schedStatus := mkNROSStatus (nst_Deployment st) (ns_SchedulerName schedSpec) (Some cacheResyncPeriod) conds
                       (nst_RelatedObjects st) in
  let! (dp, err) := update_deployment (sm_Deployment mf) cm (sr_TLSSettings r)
                      (map_of (om_Annotations (nros_Meta instance))) schedSpec in
  let mf := sm_with_Deployment dp mf in
  match err with
  | Some err => Ret (w, sr_with_Manifests mf r, instance, inr err)
  | None =>
  let! ro := RoleForLeaderElection (sm_Role mf) (sr_Namespace r) LeaderElectionResourceName in
  let rb := rbac_RoleBinding (sm_RoleBinding mf) (obj_Name (sm_ServiceAccount mf)) (sr_Namespace r) in
  let mf := sm_with_Roles ro rb mf in
  let r := sr_with_Manifests mf r in
  let! (w, (schedStatus, err)) := apply_states w instance (sched_State (sched_FromClient w mf) mf) schedStatus in
  Ret (w, r, instance, match err with Some err => inr err | None => inl schedStatus end)
  end end end.

(** ** Reconcile *)

Definition sched_reconcileResource (now : Z) (w : W) (r : SchedReconciler) (instance : NUMAResourcesScheduler)
  : go (W * SchedReconciler * NUMAResourcesScheduler * Step) :=
  let! (w, r, instance, res) := syncNUMASchedulerResources now w r instance in
  match res with
  | inr err => Ret (w, r, instance, StepFailed (ErrWrap "FailedSchedulerSync: " err))
  | inl schedStatus =>
      let st := mkNROSStatus (nst_Deployment schedStatus) (nst_SchedulerName schedStatus)
                  (nst_CacheResyncPeriod schedStatus) (nst_Conditions schedStatus)
                  (relatedobjects_Scheduler (sr_Namespace r) (nst_Deployment schedStatus)) in
      let instance := nros_with_Status st instance in
      match isDeploymentRunning w (nst_Deployment schedStatus) with
      | inr err => Ret (w, r, instance, StepFailed err)
      | inl ok =>
          Ret (w, r, instance, if negb ok then StepOngoing (5 * Duration.Second)%Z else StepSuccess)
      end
  end.

Definition nros_with_Conditions (conds : list Condition) (i : NUMAResourcesScheduler) : NUMAResourcesScheduler :=
  nros_with_Status (nst_with_Conditions conds (nros_Status i)) i.

Definition sched_degradeStatus (now : Z) (w : W) (initialInstance instance : NUMAResourcesScheduler)
  (reason message : string) : W * (Result * option error) :=
  let condition := mkCondition status.ConditionDegraded ConditionTrue (om_Generation (nros_Meta instance)) 0
                     reason message in
  let conds := fst (status.ComputeConditions now (nst_Conditions (nros_Status instance)) condition now) in
  let '(w, err) := cli_PatchSchedStatus w initialInstance (nros_with_Conditions conds instance) in
  (w, (mkResult 0, err)).

Definition sched_initial_conditions (now : Z) (instance : NUMAResourcesScheduler) : list Condition :=
  match nst_Conditions (nros_Status instance) with
  | [] => status.NewNUMAResourcesSchedulerBaseConditions now
  | conds => conds
  end.

Definition sched_Reconcile (clk : Clock) (w : W) (r : SchedReconciler) (req : NamespacedName)
  : go (W * SchedReconciler * (Result * option error)) :=
  match cli_GetNROS w req with
  | inr err => Ret (w, r, (mkResult 0, if IsNotFound err then None else Some err))
  | inl initialInstance =>
      let instance := nros_with_Conditions (sched_initial_conditions (ck_init clk) initialInstance) initialInstance in
      let degrade reason message :=
        let '(w, res) := sched_degradeStatus (ck_final clk) w initialInstance instance reason message in
        Ret (w, r, res) in
      if decide (nn_Name req <> objectnames.DefaultNUMAResourcesSchedulerCrName) then
        degrade status.ConditionTypeIncorrectNUMAResourcesSchedulerResourceName
          ("incorrect NUMAResourcesScheduler resource name: " +:+ om_Name (nros_Meta instance))
      else if annotations.IsPauseReconciliationEnabled (map_of (om_Annotations (nros_Meta instance)))
      then Ret (w, r, (mkResult 0, None))
      else
        match (if schedulerapi.Enabled (sr_ImageValidation r)
               then SchedulerImage (ns_SchedulerImage (nros_Spec instance)) (schedulerapi.iv_Digests (sr_ImageValidation r))
               else None) with
        | Some err => degrade status.ReasonInvalidSchedulerImage (Error err)
        | None =>
            let! (w, r, instance, step) := sched_reconcileResource (ck_paused clk) w r instance in
            let conds := fst (status.ComputeConditions (ck_final clk) (nst_Conditions (nros_Status instance))
                                (ToMetav1Condition (step_ConditionInfo step) (om_Generation (nros_Meta instance)))
                                (ck_final clk)) in
            let instance := nros_with_Conditions conds instance in
            match cli_PatchSchedStatus w initialInstance instance with
            | (w, Some err) => Ret (w, r, (mkResult 0, Some err))
            | (w, None) => Ret (w, r, (step_Result step, step_Error step))
            end
        end
  end.

(** ** Watches *)

Definition nodeToNUMAResourcesScheduler (w : W) : list NamespacedName :=
  match cli_ListNROS w with
  | inr _ => []
  | inl items => (fun i => mkNamespacedName "" (om_Name (nros_Meta i))) <$> items
  end.
End SchedReconcile.

(** Updates that matter: of the generation, the labels or the annotations. *)
Definition sched_owned_predicate (old new : ObjectMeta) : bool :=
  bool_decide (om_Generation new <> om_Generation old)
  || negb (bool_decide (map_of (om_Labels new) = map_of (om_Labels old)))
  || negb (bool_decide (map_of (om_Annotations new) = map_of (om_Annotations old))).
