(* ===== verification/SchedCluster.v ===== *)
(** * The scheduler controller's cluster

    The laws on its part of the client, those of a cluster that takes every
    legitimate write, an in-memory cluster that has them, and small manifests on
    which the theorems are instantiated. *)
From S2P Require Import Prelude GoErrors Meta Selectors ApiV1 Conditions Steps Trees Validation FlagCodec Workload.
From S2P Require Import RteUpdate RteUpdateSpec Objects MergeSpec Cluster Apply RteState Dangling Controller.
From S2P Require Import SchedParams SchedParamsSpec SchedApi SchedUpdate SchedState SchedController.

(** Patching the status of a scheduler resource touches no object. *)
Class SchedClientLaws (W : Type) `{!Client W} `{!SchedClient W} (healthy : W -> Prop) := {
  law_patch_sched w i i' t k : cli_Get (fst (cli_PatchSchedStatus w i i')) t k = cli_Get w t k;
  law_patch_sched_healthy w i i' : healthy w -> healthy (fst (cli_PatchSchedStatus w i i')) }.

(** A willing cluster has the scheduler resources too: writing an object leaves
    them alone, and the status of one it has, stored under its name, can be
    patched. *)
Class NROSWillingLaws (W : Type) `{!Client W} `{!SchedClient W} (willing : W -> Prop) := {
  law_write_nros w w' k : one_write w w' -> cli_GetNROS w' k = cli_GetNROS w k;
  law_willing_patch w req i i' : willing w -> cli_GetNROS w req = inl i -> nros_Meta i' = nros_Meta i ->
    exists w', cli_PatchSchedStatus w i i' = (w', None) /\ willing w' }.

(** ** An in-memory cluster *)

Record SchedStore := mkSchedStore {
  ss_store : Store;
  ss_scheds : gmap NamespacedName NUMAResourcesScheduler;
  ss_nodes : list (string * gmap string string) }.

Definition ss_with_store (s : Store) (ss : SchedStore) : SchedStore := mkSchedStore s (ss_scheds ss) (ss_nodes ss).

Definition ss_write (f : Store -> Object -> Store * option error) (ss : SchedStore) (o : Object)
  : SchedStore * option error :=
  let '(s, err) := f (ss_store ss) o in (ss_with_store s ss, err).

#[global] Instance sched_store_client : Client SchedStore := {|
  cli_Get ss := store_get (ss_store ss);
  cli_List ss := store_list (ss_store ss);
  cli_Create := ss_write store_create;
  cli_Update := ss_write store_update;
  cli_Delete := ss_write store_delete;
  cli_GetNRO ss := store_get_nro (ss_store ss);
  cli_ListNRO ss := inl (snd <$> map_to_list (st_nros (ss_store ss)));
  cli_GetMCP ss := store_get_mcp (ss_store ss);
  cli_ListMCP ss := inl (st_mcps (ss_store ss));
  cli_PatchStatus ss i i' := let '(s, err) := store_patch (ss_store ss) i i' in (ss_with_store s ss, err) |}.

(** Patches write the status only; nodes are selected by their labels. *)
Definition ss_patch (ss : SchedStore) (initial instance : NUMAResourcesScheduler) : SchedStore * option error :=
  let k := om_key (nros_Meta instance) in
  match ss_scheds ss !! k with
  | Some i =>
      (mkSchedStore (ss_store ss) (<[k := mkNROS (nros_Meta i) (nros_Spec i) (nros_Status instance)]> (ss_scheds ss))
         (ss_nodes ss), None)
  | None => (ss, Some (NewNotFound (nn_String k)))
  end.

#[global] Instance sched_store_sched_client : SchedClient SchedStore := {|
  cli_GetNROS ss k := match ss_scheds ss !! k with Some i => inl i | None => inr (NewNotFound (nn_String k)) end;
  cli_ListNROS ss := inl (snd <$> map_to_list (ss_scheds ss));
  cli_PatchSchedStatus := ss_patch;
  cli_ListNodes ss sel := inl (fst <$> filter (fun n => sel ⊆ n.2) (ss_nodes ss)) |}.

Definition sched_reads (ss : SchedStore) : Prop := answers_reads (ss_store ss).

#[global] Instance sched_store_laws : ClientLaws SchedStore sched_reads.
Proof.
  split; unfold sched_reads; simpl; unfold ss_write.
  - intros ss t k o. exact (@law_get_id _ _ _ store_laws (ss_store ss) t k o).
  - intros ss t k o. exact (@law_get_kind _ _ _ store_laws (ss_store ss) t k o).
  - intros ss t ns l. exact (@law_list_type _ _ _ store_laws (ss_store ss) t ns l).
  - intros ss o ss' Hh E. destruct (store_create _ o) as [s err] eqn:Es. injection E as <- ->.
    exact (@law_create_get _ _ _ store_laws _ _ _ Hh Es).
  - intros ss o ss' Hh E. destruct (store_update _ o) as [s err] eqn:Es. injection E as <- ->.
    exact (@law_update_get _ _ _ store_laws _ _ _ Hh Es).
  - intros ss o ss' Hh E. destruct (store_delete _ o) as [s err] eqn:Es. injection E as <- ->.
    exact (@law_delete_get _ _ _ store_laws _ _ _ Hh Es).
  - intros ss o ss' err Hw.
    assert (exists s', ss' = ss_with_store s' ss /\ (store_create (ss_store ss) o = (s', err) \/
      store_update (ss_store ss) o = (s', err) \/ store_delete (ss_store ss) o = (s', err))) as (s' & -> & Hs).
    { destruct Hw as [E|[E|E]]; repeat (case_match; simplify_eq); eauto 10. }
    destruct (@law_write _ _ _ store_laws (ss_store ss) o s' err Hs) as (H1 & H2 & H3). split; [exact H1|]. split; [exact H2|].
    intros He. rewrite (H3 He). by destruct ss.
  - intros ss i i' t k. pose proof (@law_patch _ _ _ store_laws (ss_store ss) i i' t k) as Hp. simpl in Hp.
    destruct (store_patch _ i i'). exact Hp.
Qed.

#[global] Instance sched_store_sched_laws : SchedClientLaws SchedStore sched_reads.
Proof. split; intros ss i i'; simpl; unfold ss_patch; [intros t k|]; by case_match. Qed.

(** No failure is injected, and the resources are stored under their names. *)
Definition sched_willing (ss : SchedStore) : Prop :=
  takes_objects (ss_store ss) /\ map_Forall (fun k i => om_key (nros_Meta i) = k) (ss_scheds ss).

(** A write goes to the store of objects. *)
Lemma sched_one_write ss ss' :
  one_write ss ss' -> exists s', ss' = ss_with_store s' ss /\ one_write (ss_store ss) s'.
Proof.
  intros [o Ho]. simpl in Ho. unfold ss_write in Ho.
  destruct Ho as [->|[->| ->]]; case_match eqn:E; simpl; eexists; (split; [reflexivity|]); exists o; simpl; rewrite E; auto.
Qed.

#[global] Instance sched_store_takes_objects :
  WillingLaws SchedStore sched_reads (fun ss => takes_objects (ss_store ss)).
Proof.
  split; unfold sched_reads; simpl; unfold ss_write.
  - intros ss. apply law_willing_healthy.
  - intros ss. exact (@law_willing_absent _ _ _ _ store_takes_objects (ss_store ss)).
  - intros ss ss' Hs (s' & -> & Hw)%sched_one_write. by apply (store_write_reads (ss_store ss)).
  - intros ss o e Hs Hk E. pose proof (law_willing_create (ss_store ss) o e Hs Hk E) as Hc. simpl in Hc. by case_match.
  - intros ss o cur Hs Hk E. pose proof (law_willing_update (ss_store ss) o cur Hs Hk E) as Hu. simpl in Hu. by case_match.
  - intros ss o cur Hs E. pose proof (law_willing_delete (ss_store ss) o cur Hs E) as Hd. simpl in Hd. by case_match.
Qed.

#[global] Instance sched_store_willing : WillingLaws SchedStore sched_reads sched_willing.
Proof. apply willing_strengthen; [apply _|]. intros ss ss' (s' & -> & _)%sched_one_write. done. Qed.

#[global] Instance sched_store_nros_willing : NROSWillingLaws SchedStore sched_willing.
Proof.
  split.
  - intros ss ss' k (s' & -> & _)%sched_one_write. done.
  - intros ss req i i' [Hs Hi] E Hm. simpl in *. unfold ss_patch.
    destruct (ss_scheds ss !! req) as [i1|] eqn:Ei; [|done]. injection E as ->.
    assert (om_key (nros_Meta i') = req) as -> by (rewrite Hm; by apply (Hi req i)).
    rewrite Ei. eexists. split; [reflexivity|]. split; [exact Hs|]. simpl.
    apply map_Forall_insert_2; [|done]. by apply (Hi req i).
Qed.

(** ** Concrete manifests, resource and cluster *)

Module sched_scenario.

Definition object (apiVersion kind name ns : string) (b : Body) : Object :=
  mkObject apiVersion kind (emptyMeta name ns) b.

Definition container (name : string) : Container :=
  mkContainer name "" "" [] ["--config=/etc/kubernetes/config.yaml"] [] [] [] None "" emptyResources "".

Definition deployment : Deployment :=
  mkDeployment (emptyMeta "secondary-scheduler" "numaresources")
    (mkDeploymentSpec (Some 1%Z)
       (mkPodTemplateSpec (Some {["app" := "secondary-scheduler"]}) None
          (mkPodSpec None [] [container SchedulerContainerName; container "sidecar"]
             [mkVolume "etckubernetes" (VSOther ""); mkVolume "runpfpstatus" (VSEmptyDir "Memory" 67108864)]
             None [] "" [] "" "")) "")
    (mkDeploymentStatus [] "").

Definition rule (g r : string) : PolicyRule := mkPolicyRule [g] [r] [] "create".

Definition manifests : SchedManifests :=
  mkSchedManifests
    (object "v1" "ServiceAccount" "secondary-scheduler" "numaresources" (BServiceAccount [] [] ""))
    (mkConfigMap (emptyMeta "topo-aware-scheduler-config" "numaresources")
       (Some {[SchedulerConfigFileName := "input"]}) None)
    (object "rbac.authorization.k8s.io/v1" "ClusterRole" "scheduler" "" (BClusterRole "rules"))
    (object "rbac.authorization.k8s.io/v1" "ClusterRoleBinding" "scheduler" "" (BClusterRoleBinding [] "role"))
    (mkRole (emptyMeta "leader-elect" "tas-scheduler") [rule "coordination.k8s.io" "leases"; rule "" "endpoints"] "")
    (mkRoleBinding (emptyMeta "leader-elect" "numaresources") [mkSubject "topology-aware-scheduler" "tas-scheduler" ""] "")
    deployment
    (object "networking.k8s.io/v1" "NetworkPolicy" "default" "numaresources" (BNetworkPolicy "default"))
    (object "networking.k8s.io/v1" "NetworkPolicy" "apiserver" "numaresources" (BNetworkPolicy "apiserver")).

Definition reconciler : SchedReconciler :=
  mkSchedReconciler manifests "numaresources" (mkPlatformInfo platform.OpenShift false)
    (mkSettings "VersionTLS12" "" "") (schedulerapi.mkImageValidation false ∅).

Definition spec : NUMAResourcesSchedulerSpec :=
  mkNROSSpec "quay.io/scheduler:1" "my-scheduler" "Normal" None None None None
    (Some (mkApiScoring MostAllocated [mkApiResource "cpu" 3])) None None.

Definition instance : NUMAResourcesScheduler :=
  mkNROS (mkObjectMeta "numaresourcesscheduler" "" "" "uid-nros" "" 1 0 None None [] [] []) spec
    (mkNROSStatus (mkNamespacedName "" "") "" None [] []).

Definition request : NamespacedName := mkNamespacedName "" "numaresourcesscheduler".

Definition control_plane (name : string) : string * gmap string string :=
  (name, {["node-role.kubernetes.io/control-plane" := ""]}).

Definition cluster_of (os : list Object) (fault : verb -> gotype -> option error) : SchedStore :=
  mkSchedStore (mkStore (list_to_map ((fun o => (obj_id o, o)) <$> os)) ∅ [] fault) {[request := instance]}
    [control_plane "cp-0"; control_plane "cp-1"; control_plane "cp-2"; ("worker-0", ∅)].
Definition cluster : SchedStore := cluster_of [] (fun _ _ => None).

Definition params : ConfigParams :=
  match configParamsFromSchedSpec (ns_with_Replicas (Some 3%Z) (Normalize spec)) (5 * Duration.Second)%Z "numaresources" with
  | Ret p => p
  | Panic _ => table.wanted
  end.

(** The document the controller prints. *)
Definition rendered : gmap string json :=
  match @render_tree (table.lib table.builtin ∅) table.builtin "topology-aware-scheduler" params with
  | inl (r, _) => r
  | inr _ => ∅
  end.
Definition yaml : YamlLib := table.lib table.builtin rendered.
Lemma yaml_laws : @YamlLaws yaml.
Proof. apply table.laws; vm_compute; reflexivity. Qed.

#[global] Instance quantities : QuantityLib := {| ParseQuantity s := inl s |}.

Definition sha256 (s : string) : string := "0".
Definition clock : Clock := mkClock 10 20 30.

Definition run (ss : SchedStore) (r : SchedReconciler) : go (SchedStore * SchedReconciler * (Result * option error)) :=
  @sched_Reconcile _ _ _ yaml _ sha256 clock ss r request.

Definition names_after (m : go (SchedStore * SchedReconciler * (Result * option error))) : list (gotype * NamespacedName) :=
  match m with Ret (ss, _, _) => fst <$> map_to_list (st_objects (ss_store ss)) | Panic _ => [] end.
Definition status_after (m : go (SchedStore * SchedReconciler * (Result * option error)))
  : option NUMAResourcesSchedulerStatus :=
  match m with Ret (ss, _, _) => nros_Status <$> ss_scheds ss !! request | Panic _ => None end.
Definition answer (m : go (SchedStore * SchedReconciler * (Result * option error))) : option (Result * option error) :=
  match m with Ret (_, _, a) => Some a | Panic _ => None end.

(** A first reconciliation installs the nine objects, and comes back in five
    seconds for the deployment; it runs three replicas. *)
Example sched_run_first :
  let m := run cluster reconciler in
  length (names_after m) = 9%nat /\ answer m = Some (mkResult (5 * Duration.Second)%Z, None) /\
  nst_SchedulerName <$> status_after m = Some "my-scheduler" /\
  nst_Deployment <$> status_after m = Some (mkNamespacedName "numaresources" "secondary-scheduler").
Proof. vm_compute. auto. Qed.

(** A read that times out crashes the reconciliation. *)
Example sched_run_timeout : run (cluster_of [] timeouts) reconciler = Panic (NilDereference "ServiceAccount").
Proof. vm_compute. reflexivity. Qed.

End sched_scenario.
