(* ===== verification/SchedSpec.v ===== *)
(** * What the scheduler controller promises *)
From S2P Require Import Prelude GoErrors Meta Selectors ApiV1 Conditions Steps Trees Validation FlagCodec Workload.
From S2P Require Import RteUpdate RteUpdateSpec Objects MergeSpec Cluster Apply RteState Dangling Controller.
From S2P Require Import Install WriteFrame SchedParams SchedParamsSpec SchedApi SchedUpdate SchedState SchedController SchedCluster.

(** ** Replicas *)

Section Replicas.
Context {W : Type} `{!Client W} `{!SchedClient W}.

End Replicas.


(** ** The parameters of a specification *)

Lemma configParams_returns spec period ns :
  is_Some (ns_Replicas spec) -> is_Some (ns_CacheResyncDetection spec) ->
  is_Some (ns_SchedulerInformer spec) -> is_Some (ns_ScoringStrategy spec) ->
  is_ret (configParamsFromSchedSpec spec period ns).
Proof.
  unfold configParamsFromSchedSpec. intros [? ->] [? ->] [? ->] [? ->]. by eexists.
Qed.

(** A specification always asks for valid parameters. *)
Lemma configParams_valid spec period ns p :
  configParamsFromSchedSpec spec period ns = Ret p -> valid_params p.
Proof.
  unfold configParamsFromSchedSpec. intros H. go_inv H. unfold valid_params, valid_mode. simpl. split_and!.
  - intros c [= <-]. simpl. split_and!; intros s [= <-]; try case_decide; done.
  - intros s [= <-] _. simpl. unfold scoring_type. repeat case_decide; done.
  - intros s. destruct (ns_PreemptionMode spec); [case_decide|]; intros [= <-]; done.
Qed.

(** Periods are int64 nanoseconds, so their seconds are exact; weights may not be. *)
Lemma configParams_exact spec period ns p s :
  configParamsFromSchedSpec spec period ns = Ret p ->
  (- 2 ^ 63 <= period < 2 ^ 63)%Z -> ns_ScoringStrategy spec = Some s ->
  (forall r, r ∈ as_Resources s -> exact (ar_Weight r)) -> exact_numbers p.
Proof.
  unfold configParamsFromSchedSpec. intros H Hp Hs Hw. go_inv H. unfold exact_numbers. simpl. split.
  - intros c z [= <-] [= <-]. unfold exact, duration.Seconds, Duration.Second, Duration.Millisecond,
      Duration.Microsecond, Duration.Nanosecond. pose proof (Z.quot_rem' period (1000 * (1000 * (1000 * 1)))) as Hq.
    pose proof (Z.rem_bound_abs period (1000 * (1000 * (1000 * 1))) ltac:(lia)) as Hb. lia.
  - intros s' r [= <-]. simpl. intros (x & -> & Hx)%list_elem_of_fmap. simpl. apply Hw.
    destruct (ns_ScoringStrategy spec); simplify_eq/=. done.
Qed.

Lemma configParams_leader spec period ns p :
  configParamsFromSchedSpec spec period ns = Ret p -> exists l, cfg_LeaderElection p = Some l.
Proof. unfold configParamsFromSchedSpec. intros H. go_inv H. by eexists. Qed.

(** ** The configuration in the config map *)

Section Config.
Context `{!YamlLib, !YamlLaws}.

(** The document of the config map is well formed, has a profile and a section on
    leader election. *)
Definition config_ok (cm : ConfigMap) (ps : list ConfigParams) : Prop :=
  exists d data r lead, cm_Data cm = Some d /\ d !! SchedulerConfigFileName = Some data /\
    yaml_Unmarshal data = inl r /\ configuration r = Some ps /\ ps <> [] /\
    NestedMap r "leaderElection" = inl (Some lead).

Lemma config_ok_name cm p ps :
  config_ok cm (p :: ps) -> SchedulerNameFromObject (IObj (cm_object cm)) = Ret (cfg_ProfileName p, true).
Proof.
  intros (d & data & r & lead & Hd & Hdata & Hr & Hc & _). unfold SchedulerNameFromObject. simpl. rewrite Hd, Hdata.
  unfold DecodeSchedulerProfilesFromData. rewrite Hr. by rewrite (decode_tree_configuration _ _ Hc).
Qed.

(** Rendering keeps the config map well formed, and overlays its configuration,
    unless the library refuses to print, which leaves it alone. *)
Lemma SchedulerConfig_ok cm ps name p :
  config_ok cm ps -> name <> "" -> valid_params p -> exact_numbers p ->
  (exists l, cfg_LeaderElection p = Some l) ->
  exists cm', SchedulerConfig cm name p = (cm', None) /\ cm_Meta cm' = cm_Meta cm /\
    (cm' = cm /\ (exists r e, yaml_Marshal r = inr e) \/ config_ok cm' (overlay name p <$> ps)).
Proof.
  intros (d & data & r & lead & Hd & Hdata & Hr & Hc & Hne & Hlead) Hn Hv Hex [l Hl].
  unfold SchedulerConfig. rewrite Hd, Hdata.
  destruct (render_tree_valid r name p ps Hv Hc) as [[r' u] Ht]; [right; by eexists|].
  unfold RenderConfig. rewrite decide_False by done. rewrite Hr, Ht.
  destruct (yaml_Marshal r') as [data'|err] eqn:Em; (eexists; split; [reflexivity|]; split; [done|]).
  - right. eexists _, data', (reread_map r'), _. split; [done|]. split; [apply lookup_insert_eq|].
    split; [by apply yaml_roundtrip|]. split; [by apply (render_tree_configuration float_exact r name p r' u ps)|].
    split; [by destruct ps|].
    unfold render_tree in Ht. rewrite Hl, Hlead in Ht. cbn [sum_bind] in Ht.
    destruct (NestedSlice _ "profiles") as [[profs|]|]; [|done..].
    destruct (render_profiles _ _ _ _) as [[profs' u']|]; cbn [sum_bind] in Ht; [|done]. injection Ht as <- _.
    apply Nested_inl, (has_reread_object _ _ (Some (updateLeaderElection lead l))). unfold SetNestedField.
    right. rewrite lookup_insert_ne, lookup_insert_eq by done. by do 2 eexists.
  - left. split; [|by exists r', err]. destruct cm; simpl in *. subst. unfold cm_set_Data. simpl.
    do 2 f_equal. by apply insert_id.
Qed.
End Config.
