(* ===== verification/SchedDeploySpec.v ===== *)
(** * What the scheduler deployment ends up with

    The updates of the deployment run on the object the previous reconciliation
    left; these theorems give the result as a function of the specification. *)
From S2P Require Import Prelude GoErrors Meta ApiV1 FlagCodec Workload RteUpdate RteUpdateSpec Objects.
From S2P Require Import RteState SchedParams SchedApi SchedUpdate SchedState SchedController SchedCluster.

Section Deployment.
Context `{!QuantityLib}.
Variable sha256_hex : string -> string.

(** A deployment the updates can work on: it has the main container, a volume to
    replace, and labels. *)
Definition dp_ok (dp : Deployment) : Prop :=
  is_Some (FindContainerByName (dp_Containers dp) SchedulerContainerName) /\
  ps_Volumes (dp_PodSpec dp) <> [] /\ map_of (pt_Labels (dps_Template (dp_Spec dp))) <> ∅.

(** The resources of the main container; those it has when none can be computed. *)
Definition wanted_resources (annots : gmap string string) (old : ResourceRequirements) : ResourceRequirements :=
  let '(cpu, mem, qos) :=
    if annotations.IsSchedulerQOSRequestGuaranteed annots then ("600m", "1200Mi", PodQOSGuaranteed)
    else ("150m", "500Mi", PodQOSBurstable) in
  match makeResourceRequirements cpu mem qos with inl rr => rr | inr _ => old end.

(** One update of the main container each. *)
Definition with_resources (annots : gmap string string) (c : Container) : Container :=
  cnt_set_Resources (wanted_resources annots (cnt_Resources c)) c.
Definition with_image (image : string) (c : Container) : Container := cnt_set_Image image (cnt_ImagePullPolicy c) c.
Definition with_level (level : string) (c : Container) : Container :=
  cnt_set_Args (Argv (SetOption (ParseArgvKeyValue (cnt_Args c) [WithFlagNormalization]) "-v"
                        (pretty (loglevel.ToKlog level)))) c.
Definition with_debug (mode : string) (c : Container) : Container :=
  if decide (mode = CacheResyncDebugDumpJSONFile)
  then envvar.SetForContainer c envvar.PFPStatusDump envvar.PFPStatusDirDefault
  else envvar.DeleteFromContainer c envvar.PFPStatusDump.
Definition with_tls (tls : Settings) (c : Container) : Container :=
  cnt_set_Args (Argv (tls_flags tls (ParseArgvKeyValue (cnt_Args c) [WithFlagNormalization]))) c.

(** The containers, [i] being the main one; verbosity goes to the first. *)
Definition wanted_containers (i : nat) (tls : Settings) (annots : gmap string string) (image level mode : string)
  (cs : list Container) : list Container :=
  alter (with_tls tls) i (alter (with_debug mode) i (alter (with_level level) 0
    (alter (with_image image) i (alter (with_resources annots) i cs)))).

Lemma alter_id {A} (f : A -> A) i (l : list A) x : l !! i = Some x -> f x = x -> alter f i l = l.
Proof.
  intros Hx Hf. apply list_eq. intros j. destruct (decide (j = i)) as [->|Hj].
  - by rewrite list_lookup_alter_eq, Hx; simpl; rewrite Hf.
  - by rewrite list_lookup_alter_ne by done.
Qed.

Lemma dp_alter_ext dp i (f g : Container -> Container) c :
  dp_Containers dp !! i = Some c -> f c = g c -> dp_alter i f dp = dp_alter i g dp.
Proof.
  intros Hc E. unfold dp_alter, dp_map_PodSpec, dp_map_Template, ps_alter. do 4 f_equal.
  apply list_alter_ext; [|done]. intros x Hx. unfold dp_Containers, dp_PodSpec in Hc. congruence.
Qed.

Lemma dp_alter_id dp i (f : Container -> Container) c :
  dp_Containers dp !! i = Some c -> f c = c -> dp_alter i f dp = dp.
Proof.
  destruct dp as [m [n [l a []] o] st]. intros Hc E. unfold dp_alter, dp_map_PodSpec, dp_map_Template, ps_alter.
  simpl. do 3 f_equal. unfold ps_set_Containers. simpl. f_equal. by apply (alter_id _ _ _ c).
Qed.

Lemma SchedulerResourcesRequest_alter dp annots i :
  FindContainerByName (dp_Containers dp) SchedulerContainerName = Some i ->
  fst (SchedulerResourcesRequest dp annots) = dp_alter i (with_resources annots) dp.
Proof.
  intros Hi. destruct (find_index_Some _ _ _ Hi) as (c & Hc & _). unfold SchedulerResourcesRequest. rewrite Hi.
  destruct (if annotations.IsSchedulerQOSRequestGuaranteed annots then _ else _) as [[cpu mem] qos] eqn:Eq.
  destruct (makeResourceRequirements cpu mem qos) as [rr|e] eqn:Er.
  - rewrite (update_main_found _ _ i) by done. apply (dp_alter_ext _ _ _ _ c Hc).
    unfold with_resources, wanted_resources. by rewrite Eq, Er.
  - symmetry. apply (dp_alter_id _ _ _ c Hc). unfold with_resources, wanted_resources. rewrite Eq, Er. by destruct c.
Qed.

(** The deployment as it is wanted, [i] being its main container. *)
Definition wanted_deployment (i : nat) (dp : Deployment) (cm : ConfigMap) (tls : Settings)
  (annots : gmap string string) (spec : NUMAResourcesSchedulerSpec) (mode : string) : Deployment :=
  let t := dps_Template (dp_Spec dp) in
  mkDeployment (dp_Meta dp)
    (mkDeploymentSpec (ns_Replicas spec)
       (mkPodTemplateSpec (pt_Labels t)
          (Some (<[ConfigMapAnnotation := ConfigMapData sha256_hex (cm_Data cm) (cm_BinaryData cm)]> (map_of (pt_Annotations t))))
          (ps_set_TopologySpreadConstraints
             [SpreadOnHost (map_of (pt_Labels t)) 1 "kubernetes.io/hostname" DoNotSchedule ["pod-template-hash"]]
             (ps_set_PriorityClassName SchedulerPriorityClassName
                (ps_set_Volumes (NewSchedConfigVolume SchedulerConfigMapVolumeName (om_Name (cm_Meta cm))
                                   :: tail (ps_Volumes (pt_Spec t)))
                   (ps_set_Containers (wanted_containers i tls annots (ns_SchedulerImage spec) (ns_LogLevel spec) mode
                                         (ps_Containers (pt_Spec t))) (pt_Spec t))))))
       (dps_other (dp_Spec dp))) (dp_Status dp).

Lemma SetForContainer_name c k v : cnt_Name (envvar.SetForContainer c k v) = cnt_Name c.
Proof. unfold envvar.SetForContainer. by case_match. Qed.
Lemma with_debug_name mode c : cnt_Name (with_debug mode c) = cnt_Name c.
Proof. unfold with_debug. case_decide; [apply SetForContainer_name|done]. Qed.

(** Altering any container by something that keeps names keeps the main one. *)
Lemma find_scheduler_map i j f dp :
  (forall c, cnt_Name (f c) = cnt_Name c) -> FindContainerByName (dp_Containers dp) SchedulerContainerName = Some i ->
  FindContainerByName (dp_Containers (dp_alter j f dp)) SchedulerContainerName = Some i.
Proof. apply find_scheduler_alter. Qed.

Lemma update_deployment_wanted dp cm tls annots spec i mode :
  dp_ok dp -> FindContainerByName (dp_Containers dp) SchedulerContainerName = Some i ->
  is_Some (ns_Replicas spec) -> ns_CacheResyncDebug spec = Some mode ->
  update_deployment sha256_hex dp cm tls annots spec = Ret (wanted_deployment i dp cm tls annots spec mode, None).
Proof.
  intros (_ & Hv & Hl) Hi [n Hn] Hm. unfold update_deployment. rewrite Hn. cbn [deref go_bind].
  set (dp1 := dp_map_PodSpec _ _).
  assert (FindContainerByName (dp_Containers dp1) SchedulerContainerName = Some i) as Hi1 by exact Hi.
  pose proof (SchedulerResourcesRequest_alter dp1 annots i Hi1) as Hr.
  destruct (SchedulerResourcesRequest dp1 annots) as [dp2 e]. simpl in Hr. subst dp2.
  unfold DeploymentImageSettings. rewrite (update_main_found _ _ i) by (by apply find_scheduler_map).
  cbn [and_then go_bind]. fold (with_image (ns_SchedulerImage spec)).
  unfold DeploymentConfigMapSettings.
  change (ps_Volumes (dp_PodSpec (dp_alter i ?f ?d))) with (ps_Volumes (dp_PodSpec d)).
  change (ps_Volumes (dp_PodSpec (dp_alter i ?f ?d))) with (ps_Volumes (dp_PodSpec d)).
  change (ps_Volumes (dp_PodSpec dp1)) with (ps_Volumes (pt_Spec (dps_Template (dp_Spec dp)))).
  unfold wanted_deployment. unfold dp_PodSpec in Hv.
  destruct (ps_Volumes (pt_Spec (dps_Template (dp_Spec dp)))) as [|v0 vs] eqn:Evs; [done|]. cbn [go_bind].
  set (dp3 := dp_map_Template _ _). unfold loglevel.UpdatePodSpec.
  assert (FindContainerByName (dp_Containers dp3) SchedulerContainerName = Some i) as Hi3.
  { change (dp_Containers dp3) with (dp_Containers (dp_alter i (with_image (ns_SchedulerImage spec)) (dp_alter i (with_resources annots) dp1))).
    apply find_scheduler_map; [done|]. by apply find_scheduler_map. }
  assert (ps_Containers (dp_PodSpec dp3) <> []) as Hne.
  { destruct (find_index_Some _ _ _ Hi3) as (c & Hc & _). unfold dp_Containers in Hc. intros E. by rewrite E in Hc. }
  destruct (ps_Containers (dp_PodSpec dp3)) as [|c0 cs] eqn:Ecs; [done|]. rewrite decide_True by done. cbn [go_bind and_then].
  set (dp4 := dp_map_PodSpec _ dp3). assert (dp4 = dp_alter 0 (with_level (ns_LogLevel spec)) dp3) as E4 by done.
  assert (FindContainerByName (dp_Containers dp4) SchedulerContainerName = Some i) as Hi4
    by (rewrite E4; by apply find_scheduler_map).
  unfold DeploymentEnvVarSettings. rewrite Hi4, Hm. cbn [deref go_bind]. rewrite (update_main_found _ _ i) by done.
  cbn [and_then go_bind]. fold (with_debug mode). unfold DeploymentTLSSettings.
  rewrite (update_main_found _ _ i) by (apply find_scheduler_map; [apply with_debug_name|done]).
  cbn [and_then go_bind]. unfold DeploymentTopologySpreadConstraints. rewrite E4. clear E4 Hi4 dp4.
  subst dp3 dp1. cbn -[dp_alter]. rewrite decide_False by exact Hl. rewrite Hn. reflexivity.
Qed.

(** ** The main container *)

(** The main container after the updates, [first] telling whether it comes first. *)
Definition wanted_main (first : bool) (tls : Settings) (annots : gmap string string) (image level mode : string)
  (c : Container) : Container :=
  let c := with_image image (with_resources annots c) in
  with_tls tls (with_debug mode (if first then with_level level c else c)).

Lemma wanted_containers_lookup i tls annots image level mode cs j c :
  cs !! j = Some c ->
  wanted_containers i tls annots image level mode cs !! j
  = Some (if decide (j = i) then wanted_main (bool_decide (i = 0)) tls annots image level mode c
          else if decide (j = 0) then with_level level c else c).
Proof.
  intros Hc. unfold wanted_containers, wanted_main. rewrite !list_lookup_alter.
  repeat case_decide; subst; rewrite ?Hc; simpl; try done; try by rewrite bool_decide_eq_false_2.
Qed.

(** The arguments the specification stands for, as for the exporter: [None] where
    the flag keeps its value, [Some None] where it is absent. *)
Definition scheduler_flag (tls : Settings) (level : option string) (name : string) : option (option Val) :=
  let opt_if s := Some (if decide (s = "") then None else Some (mkVal FlagOption s)) in
  if decide (name = "--tls-curve-preferences") then opt_if (tls_CurvePreferences tls)
  else if decide (name = "--tls-cipher-suites") then opt_if (tls_CipherSuites tls)
  else if decide (name = "--tls-min-version") then opt_if (tls_MinVersion tls)
  else if decide (name = "-v") then (fun l => Some (mkVal FlagOption (pretty (loglevel.ToKlog l)))) <$> level
  else None.

Definition parsed (c : Container) : Flags := ParseArgvKeyValue (cnt_Args c) [WithFlagNormalization].

Lemma with_debug_args mode c : cnt_Args (with_debug mode c) = cnt_Args c.
Proof. unfold with_debug, envvar.SetForContainer. repeat case_match; done. Qed.

Lemma parsed_level level c :
  container_flags (SetOption (parsed c) "-v" (pretty (loglevel.ToKlog level))) /\
  parsed (with_level level c) = SetOption (parsed c) "-v" (pretty (loglevel.ToKlog level)).
Proof.
  assert (container_flags (SetOption (parsed c) "-v" (pretty (loglevel.ToKlog level)))) as Hc
    by (unfold parsed; auto with flags).
  split; [done|]. by apply Argv_parse.
Qed.

Lemma parsed_tls tls c :
  parsed (with_tls tls c) = tls_flags tls (parsed c) /\ container_flags (tls_flags tls (parsed c)).
Proof.
  assert (container_flags (tls_flags tls (parsed c))) as Hc by (unfold tls_flags, parsed; auto 10 with flags).
  split; [|done]. by apply Argv_parse.
Qed.

Lemma wanted_main_flags first tls annots image level mode c n :
  GetFlag (parsed (wanted_main first tls annots image level mode c)) n
  = default (GetFlag (parsed c) n)
      (scheduler_flag tls (if first then Some level else None) (normalizeFlagName n)).
Proof.
  unfold wanted_main. set (c1 := with_image image (with_resources annots c)).
  set (c2 := if first then _ else _).
  rewrite (proj1 (parsed_tls _ _)).
  assert (parsed (with_debug mode c2) = parsed c2) as -> by (unfold parsed; by rewrite with_debug_args).
  assert (reads n (parsed c2) (if first then if decide (normalizeFlagName n = "-v")
            then Some (mkVal FlagOption (pretty (loglevel.ToKlog level))) else GetFlag (parsed c) n
          else GetFlag (parsed c) n)) as Hr.
  { assert (reads n (parsed c) (GetFlag (parsed c) n)) as H0 by (split; [apply cf_parse|done]).
    subst c2. destruct first; [|exact H0]. rewrite (proj2 (parsed_level _ _)).
    exact (reads_option n _ _ "-v" _ H0). }
  apply (reads_set_or_delete n _ _ "--tls-min-version" (tls_MinVersion tls)) in Hr.
  apply (reads_set_or_delete n _ _ "--tls-cipher-suites" (tls_CipherSuites tls)) in Hr.
  apply (reads_set_or_delete n _ _ "--tls-curve-preferences" (tls_CurvePreferences tls)) in Hr.
  destruct Hr as [_ Hr]. unfold tls_flags. rewrite Hr. unfold scheduler_flag.
  simpl (normalizeFlagName (String _ _)). repeat case_decide; try done; by destruct first.
Qed.

Lemma wanted_main_env first tls annots image level mode c :
  envvar.FindByName (cnt_Env (wanted_main first tls annots image level mode c)) envvar.PFPStatusDump = None
  <-> mode <> CacheResyncDebugDumpJSONFile.
Proof.
  unfold wanted_main, with_tls. set (c2 := if first then _ else _). simpl. unfold with_debug. case_decide as Hm.
  - destruct (SetForContainer_find c2 envvar.PFPStatusDump envvar.PFPStatusDirDefault) as (k & e & -> & _).
    split; [done|]. by intros [].
  - split; [done|]. intros _. apply find_index_None, Forall_forall. intros e He.
    rewrite DeleteFromContainer_env in He. by apply list_elem_of_filter in He as [? _].
Qed.

Lemma with_debug_fields mode c :
  let c' := with_debug mode c in
  cnt_Image c' = cnt_Image c /\ cnt_ImagePullPolicy c' = cnt_ImagePullPolicy c /\ cnt_Resources c' = cnt_Resources c.
Proof. simpl. unfold with_debug, envvar.SetForContainer. by repeat case_match. Qed.

Lemma wanted_main_fields first tls annots image level mode c :
  let c' := wanted_main first tls annots image level mode c in
  cnt_Name c' = cnt_Name c /\ cnt_Image c' = image /\ cnt_ImagePullPolicy c' = cnt_ImagePullPolicy c /\
  cnt_Resources c' = wanted_resources annots (cnt_Resources c).
Proof.
  unfold wanted_main, with_tls. set (c2 := if first then _ else _). simpl. rewrite with_debug_name.
  destruct (with_debug_fields mode c2) as (-> & -> & ->). unfold c2. by destruct first.
Qed.

Lemma wanted_deployment_main i dp cm tls annots spec mode :
  FindContainerByName (dp_Containers dp) SchedulerContainerName = Some i ->
  FindContainerByName (dp_Containers (wanted_deployment i dp cm tls annots spec mode)) SchedulerContainerName = Some i.
Proof.
  intros Hi. change (dp_Containers (wanted_deployment i dp cm tls annots spec mode)) with
    (dp_Containers (dp_alter i (with_tls tls) (dp_alter i (with_debug mode) (dp_alter 0 (with_level (ns_LogLevel spec))
      (dp_alter i (with_image (ns_SchedulerImage spec)) (dp_alter i (with_resources annots) dp)))))).
  repeat (apply find_scheduler_map; [first [done|apply with_debug_name]|]). done.
Qed.

(** Nothing the next reconciliation relies on is lost. *)
Lemma wanted_deployment_ok i dp cm tls annots spec mode :
  dp_ok dp -> FindContainerByName (dp_Containers dp) SchedulerContainerName = Some i ->
  dp_ok (wanted_deployment i dp cm tls annots spec mode).
Proof.
  intros (_ & _ & Hl) Hi. split_and!; [exists i; by apply wanted_deployment_main|done|done].
Qed.

(** C13: the updates of the deployment of a valid manifest never fail, although they
    run on what the previous reconciliation left. The main container gets the
    image of the specification, the resources of the quality of service asked for
    (its own when they cannot be computed), the verbosity if it comes first, the
    TLS settings, the status dump exactly when debugging asks for it, and no
    other change of its arguments; the first container gets the verbosity, the
    others are left alone; the template gets the hash of the config map, which it
    mounts instead of its first volume, and spreads by the labels it had. *)
Theorem update_deployment_spec dp cm tls annots spec mode :
  dp_ok dp -> is_Some (ns_Replicas spec) -> ns_CacheResyncDebug spec = Some mode ->
  exists dp' i c c', update_deployment sha256_hex dp cm tls annots spec = Ret (dp', None) /\ dp_ok dp' /\
    dp_Meta dp' = dp_Meta dp /\ dps_Replicas (dp_Spec dp') = ns_Replicas spec /\
    FindContainerByName (dp_Containers dp) SchedulerContainerName = Some i /\
    dp_Containers dp !! i = Some c /\ dp_Containers dp' !! i = Some c' /\
    cnt_Image c' = ns_SchedulerImage spec /\ cnt_ImagePullPolicy c' = cnt_ImagePullPolicy c /\
    cnt_Resources c' = wanted_resources annots (cnt_Resources c) /\
    (forall n, GetFlag (parsed c') n
       = default (GetFlag (parsed c) n)
           (scheduler_flag tls (if decide (i = 0) then Some (ns_LogLevel spec) else None) (normalizeFlagName n))) /\
    (envvar.FindByName (cnt_Env c') envvar.PFPStatusDump = None <-> mode <> CacheResyncDebugDumpJSONFile) /\
    (forall j cj, j <> i -> dp_Containers dp !! j = Some cj ->
       dp_Containers dp' !! j = Some (if decide (j = 0) then with_level (ns_LogLevel spec) cj else cj)) /\
    (let t := dps_Template (dp_Spec dp) in let t' := dps_Template (dp_Spec dp') in
     pt_Labels t' = pt_Labels t /\
     map_of (pt_Annotations t') = <[ConfigMapAnnotation := ConfigMapData sha256_hex (cm_Data cm) (cm_BinaryData cm)]>
                                    (map_of (pt_Annotations t)) /\
     ps_Volumes (pt_Spec t') = NewSchedConfigVolume SchedulerConfigMapVolumeName (om_Name (cm_Meta cm))
                                 :: tail (ps_Volumes (pt_Spec t)) /\
     ps_PriorityClassName (pt_Spec t') = SchedulerPriorityClassName /\
     ps_TopologySpreadConstraints (pt_Spec t')
       = [SpreadOnHost (map_of (pt_Labels t)) 1 "kubernetes.io/hostname" DoNotSchedule ["pod-template-hash"]]).
Proof.
  intros Hok Hn Hm. destruct (proj1 Hok) as [i Hi]. destruct (find_index_Some _ _ _ Hi) as (c & Hc & _).
  exists (wanted_deployment i dp cm tls annots spec mode), i, c.
  exists (wanted_main (bool_decide (i = 0)) tls annots (ns_SchedulerImage spec) (ns_LogLevel spec) mode c).
  assert (forall j cj, dp_Containers dp !! j = Some cj ->
    dp_Containers (wanted_deployment i dp cm tls annots spec mode) !! j
    = Some (if decide (j = i) then wanted_main (bool_decide (i = 0)) tls annots (ns_SchedulerImage spec)
              (ns_LogLevel spec) mode cj
            else if decide (j = 0) then with_level (ns_LogLevel spec) cj else cj)) as Hcs
    by (intros j cj; apply wanted_containers_lookup).
  destruct (wanted_main_fields (bool_decide (i = 0)) tls annots (ns_SchedulerImage spec) (ns_LogLevel spec) mode c)
    as (_ & H1 & H2 & H3).
  split; [by apply update_deployment_wanted|]. split; [by apply wanted_deployment_ok|].
  repeat (split; [done|]). split; [by rewrite (Hcs i c Hc), decide_True|]. repeat (split; [done|]).
  split; [|split; [apply wanted_main_env|split; [|done]]].
  - intros n. rewrite wanted_main_flags. unfold bool_decide. by case_decide.
  - intros j cj Hj Hcj. rewrite (Hcs j cj Hcj). by rewrite decide_False.
Qed.
End Deployment.

Lemma update_deployment_spec_witness :
  let spec := ns_with_Replicas (Some 3%Z) (Normalize sched_scenario.spec) in
  exists dp' i c', update_deployment sched_scenario.sha256 sched_scenario.deployment (sm_ConfigMap sched_scenario.manifests) (sr_TLSSettings sched_scenario.reconciler) ∅ spec
    = Ret (dp', None) /\ dp_Containers dp' !! i = Some c' /\ cnt_Image c' = "quay.io/scheduler:1" /\
    GetFlag (parsed c') "--tls-min-version" = Some (mkVal FlagOption "VersionTLS12").
Proof.
  intros spec.
  destruct (update_deployment_spec sched_scenario.sha256 sched_scenario.deployment (sm_ConfigMap sched_scenario.manifests) (sr_TLSSettings sched_scenario.reconciler) ∅ spec
              CacheResyncDebugDumpJSONFile) as (dp' & i & c & c' & E & _ & _ & _ & _ & _ & Hc' & Him & _ & _ & Hfl & _).
  - split_and!; [exists 0; reflexivity|discriminate|discriminate].
  - eexists. reflexivity.
  - reflexivity.
  - exists dp', i, c'. split; [exact E|]. split; [exact Hc'|]. split; [exact Him|]. rewrite Hfl. reflexivity.
Defined.
