(* ===== verification/SchedInstall.v ===== *)
(** * What applying the scheduler objects leaves in the cluster

    One object, then the loop over the nine: it returns, writes these objects
    only, installs them when it succeeds, and succeeds on a willing cluster. *)
From S2P Require Import Prelude GoErrors Meta Selectors ApiV1 Conditions Steps Trees Validation FlagCodec Workload.
From S2P Require Import RteUpdate RteUpdateSpec Objects MergeSpec Cluster Apply RteState Dangling Controller.
From S2P Require Import Scenario Install WriteFrame Willing SchedParams SchedParamsSpec SchedApi SchedUpdate SchedState.
From S2P Require Import SchedController SchedCluster.

(** ** What is recorded of an applied object *)

Section Record_.
Context `{!YamlLib}.

Definition nst_with_Deployment (k : NamespacedName) (st : NUMAResourcesSchedulerStatus) : NUMAResourcesSchedulerStatus :=
  mkNROSStatus k (nst_SchedulerName st) (nst_CacheResyncPeriod st) (nst_Conditions st) (nst_RelatedObjects st).
Definition nst_with_Name (n : string) (st : NUMAResourcesSchedulerStatus) : NUMAResourcesSchedulerStatus :=
  mkNROSStatus (nst_Deployment st) n (nst_CacheResyncPeriod st) (nst_Conditions st) (nst_RelatedObjects st).

Definition record_object (st : NUMAResourcesSchedulerStatus) (o : Object) : NUMAResourcesSchedulerStatus :=
  let st := if decide (obj_type o = TDeployment) then nst_with_Deployment (obj_key o) st else st in
  match SchedulerNameFromObject (IObj o) with
  | Ret (n, true) => nst_with_Name n st
  | _ => st
  end.

(** Reading a name never fails on an object, and only config maps have one. *)
Lemma SchedulerNameFromObject_returns o :
  exists n ok, SchedulerNameFromObject (IObj o) = Ret (n, ok) /\ (obj_type o <> TConfigMap -> ok = false).
Proof.
  unfold SchedulerNameFromObject, obj_type. destruct (obj_Body o) as [| | | | | | | | | | | |[d|] bin]; simpl; try (by do 2 eexists).
  destruct (d !! SchedulerConfigFileName) as [data|]; [|by do 2 eexists].
  destruct (DecodeSchedulerProfilesFromData data) as [[|p ps] [e|]]; do 2 eexists; (split; [done|]); by intros [].
Qed.

Lemma record_object_other st o : obj_type o <> TDeployment -> obj_type o <> TConfigMap -> record_object st o = st.
Proof.
  intros H1 H2. unfold record_object. rewrite decide_False by done.
  destruct (SchedulerNameFromObject_returns o) as (n & ok & -> & Hok). by rewrite Hok.
Qed.

Lemma record_object_deployment st o : obj_type o = TDeployment -> record_object st o = nst_with_Deployment (obj_key o) st.
Proof.
  intros H1. unfold record_object. rewrite decide_True by done.
  destruct (SchedulerNameFromObject_returns o) as (n & ok & -> & Hok). by rewrite Hok by congruence.
Qed.

Lemma record_object_name st o n :
  SchedulerNameFromObject (IObj o) = Ret (n, true) -> record_object st o = nst_with_Name n st.
Proof.
  intros E. unfold record_object. rewrite E. destruct (SchedulerNameFromObject_returns o) as (m & ok & E' & Hok).
  rewrite E in E'. injection E' as <- <-. rewrite decide_False; [done|]. intros Ht. by rewrite Ht in Hok; discriminate Hok.
Qed.

Lemma SchedulerNameFromObject_body o o' :
  obj_Body o = obj_Body o' -> SchedulerNameFromObject (IObj o) = SchedulerNameFromObject (IObj o').
Proof. intros E. unfold SchedulerNameFromObject. by rewrite E. Qed.
End Record_.

(** ** The loop *)

Section Loop.
Context {W : Type} `{!Client W} `{!SchedClient W} `{!YamlLib} (healthy : W -> Prop) `{!ClientLaws W healthy}.
Context (instance : NUMAResourcesScheduler).

Notation own := (owned_by schedOwnerKind (nros_Meta instance)).
Notation own_state w e :=
  (state_of w (obj_type (own (en_obj e))) (own (en_obj e)) (en_merge e)).

(** An iteration fails to take the object over, or fails to apply it, or goes on. *)
Definition iteration (w w1 : W) (e : entry) (rest : list ObjectState) (st : NUMAResourcesSchedulerStatus)
  (r : go (W * (NUMAResourcesSchedulerStatus * option error))) : Prop :=
  (exists err, snd (controllerutil.SetControllerReferenceOf schedOwnerKind (nros_Meta instance) (en_obj e)) = Some err /\
     w1 = w /\ exists err', r = Ret (w, (st, Some err'))) \/
  (exists o ch err, ApplyObject w (own_state w e) = Ret (w1, (o, ch, Some err)) /\ exists err', r = Ret (w1, (st, Some err'))) \/
  (exists m ch, ApplyObject w (own_state w e) = Ret (w1, (IObj m, ch, None)) /\ applied_as (own (en_obj e)) m /\
     installed (en_fill e) w1 (own (en_obj e)) /\ r = apply_states w1 instance rest (record_object st m)).

Lemma entry_own w e : entry_ok w e -> readable w (en_obj e) ->
  merger_for (en_merge e) (en_fill e) (obj_type (own (en_obj e))) /\
  match cli_Get w (obj_type (own (en_obj e))) (obj_key (own (en_obj e))) with
  | inl o => mergeable o (own (en_obj e))
  | inr err => IsNotFound err = true
  end.
Proof.
  intros Hok Hr. destruct (owned_by_id schedOwnerKind (nros_Meta instance) (en_obj e)) as [-> ->].
  split; [apply Hok|]. pose proof (entry_read w e Hok Hr) as Hread.
  destruct (cli_Get _ _ _); [by apply owned_by_mergeable|done].
Qed.

Lemma apply_states_step w w0 e rest st :
  healthy w -> entry_ok w e -> readable w (en_obj e) ->
  cli_Get w (obj_type (en_obj e)) (obj_key (en_obj e)) = cli_Get w0 (obj_type (en_obj e)) (obj_key (en_obj e)) ->
  exists w1, only_writes healthy (.= obj_id (en_obj e)) w w1 /\
    iteration w w1 e rest st (apply_states w instance (entry_state w0 e :: rest) st).
Proof.
  intros Hh Hok Hr Hsame. unfold entry_state. rewrite (state_of_same w w0) by done.
  destruct (state_of_fields w (obj_type (en_obj e)) (en_obj e) (en_merge e)) as (Hd & _).
  destruct (entry_own w e Hok Hr) as [HM Hread]. cbn [apply_states]. unfold IsCreateOrUpdate at 1. rewrite Hd.
  cbn [iface_is_nil negb iface_deref go_bind].
  destruct (controllerutil.SetControllerReferenceOf _ _ (en_obj e)) as [d' rerr] eqn:Eref.
  assert (d' = own (en_obj e)) as -> by (unfold owned_by; by rewrite Eref). cbn [go_bind].
  destruct rerr as [rerr|]; cbn [fmap option_fmap option_map].
  { exists w. split; [apply only_writes_refl|]. left. exists rerr. rewrite Eref. split; [done|]. split; [done|]. by eexists. }
  rewrite state_of_owned_by. unfold ApplyState, IsCreateOrUpdate.
  destruct (state_of_fields w (obj_type (own (en_obj e))) (own (en_obj e)) (en_merge e)) as (-> & _). cbn [iface_is_nil negb].
  destruct (apply_read healthy w (own (en_obj e)) (en_merge e) (en_fill e) Hh HM Hread)
    as (w1 & o1 & ch & err & Happ & Hh1 & Hfr & Hm).
  exists w1. destruct (owned_by_id schedOwnerKind (nros_Meta instance) (en_obj e)) as [Hot Hoky].
  split. { split; [done|]. intros t k Hn. apply Hfr. intros Heq. apply Hn. rewrite Heq. unfold obj_id. by rewrite Hot, Hoky. }
  rewrite Happ. cbn [go_bind]. right. destruct err as [err|]; [left|right].
  { exists o1, ch, err. split; [done|]. by eexists. }
  destruct (Hm eq_refl) as (m & -> & Ha & Hin). exists m, ch. split; [done|]. split; [done|]. split; [done|].
  cbn [DeploymentNamespacedNameFromObject iface_is_nil iface_deref go_bind].
  destruct (SchedulerNameFromObject_returns m) as (n & ok & E & Hokc). rewrite E. cbn [go_bind]. unfold record_object.
  rewrite E. change (decide (obj_type m = TDeployment)) with (decide_rel eq (obj_type m) TDeployment).
  unfold bool_decide. destruct (decide_rel eq (obj_type m) TDeployment), ok; reflexivity.
Qed.

(** The states of a list of entries, read before anything is written. *)
Definition fresh (w w0 : W) (es : list entry) : Prop :=
  Forall (fun e => entry_ok w0 e /\ readable w0 (en_obj e) /\
    cli_Get w (obj_type (en_obj e)) (obj_key (en_obj e)) = cli_Get w0 (obj_type (en_obj e)) (obj_key (en_obj e))) es.

Lemma fresh_after w w1 w0 e es :
  only_writes healthy (.= obj_id (en_obj e)) w w1 -> NoDup ((fun e => obj_id (en_obj e)) <$> e :: es) ->
  fresh w w0 es -> fresh w1 w0 es.
Proof.
  intros [_ Hfr] [Hn _]%NoDup_cons Hf. unfold fresh in *. rewrite Forall_forall in Hf |- *. intros e' He'.
  destruct (Hf e' He') as (? & ? & <-). split_and!; [done..|].
  apply Hfr. intros Heq. apply Hn. rewrite <-Heq.
  by apply (list_elem_of_fmap_2 (fun e => obj_id (en_obj e))).
Qed.

Lemma installed_after w w1 e es :
  only_writes healthy (entry_ids es) w w1 -> NoDup ((fun e => obj_id (en_obj e)) <$> e :: es) ->
  installed (en_fill e) w (own (en_obj e)) -> installed (en_fill e) w1 (own (en_obj e)).
Proof.
  intros [_ Hfr] [Hn _]%NoDup_cons. apply installed_frame.
  destruct (owned_by_id schedOwnerKind (nros_Meta instance) (en_obj e)) as [-> ->].
  apply Hfr. intros (e' & He' & Heq). apply Hn.
  apply list_elem_of_fmap. exists e'. by split.
Qed.

Lemma apply_states_spec w w0 es st :
  healthy w -> NoDup ((fun e => obj_id (en_obj e)) <$> es) -> fresh w w0 es ->
  exists w' st' err, apply_states w instance (entry_state w0 <$> es) st = Ret (w', (st', err)) /\
    only_writes healthy (entry_ids es) w w' /\
    (err = None -> exists ms, Forall2 (fun e m => applied_as (own (en_obj e)) m) es ms /\
       st' = fold_left record_object ms st /\ Forall (fun e => installed (en_fill e) w' (own (en_obj e))) es).
Proof.
  revert w st. induction es as [|e es IH]; intros w st Hh Hnd Hf.
  { exists w, st, None. split; [done|]. split; [apply only_writes_refl|]. intros _. exists []. by repeat constructor. }
  pose proof Hf as Hf0. apply Forall_cons in Hf as [(Hok & Hr & Hsame) Hf].
  assert (entry_ok w e /\ readable w (en_obj e)) as [Hok' Hr'].
  { unfold entry_ok, readable in *. rewrite Hsame. by destruct Hok. }
  destruct (apply_states_step w w0 e (entry_state w0 <$> es) st Hh Hok' Hr' Hsame) as (w1 & Hw1 & Hit).
  assert (only_writes healthy (entry_ids (e :: es)) w w1) as Hw1'.
  { eapply only_writes_weaken; [|exact Hw1]. intros id ->. exists e. split; [by left|done]. }
  rewrite fmap_cons. destruct Hit as [(err & _ & -> & err' & ->)|[(o & ch & err & _ & err' & ->)|(m & ch & _ & Ha & Hin & ->)]];
    [do 3 eexists; split; [reflexivity|]; split; [done|by intros]..|].
  destruct (IH w1 (record_object st m)) as (w' & st' & err & -> & Hw & Hspec);
    [by apply Hw1|by apply NoDup_cons in Hnd as [_ ?]|by apply (fresh_after w w1 w0 e es)|].
  do 3 eexists. split; [reflexivity|]. split.
  { apply (only_writes_trans healthy _ _ w1); [done|]. eapply only_writes_weaken; [|exact Hw].
    intros id (e' & ? & ->). exists e'. split; [by right|done]. }
  intros ->. destruct (Hspec eq_refl) as (ms & Hms & -> & Hins). exists (m :: ms). split; [by constructor|].
  split; [done|]. constructor; [|done]. by apply (installed_after w1 w' e es).
Qed.
End Loop.

Section WillingLoop.
Context {W : Type} `{!Client W} `{!SchedClient W} `{!YamlLib} (healthy willing : W -> Prop)
  `{!ClientLaws W healthy} `{!WillingLaws W healthy willing} `{!NROSWillingLaws W willing}.
Context (instance : NUMAResourcesScheduler).

Notation own := (owned_by schedOwnerKind (nros_Meta instance)).

Lemma writes_nros w w' k : rtc one_write w w' -> cli_GetNROS w' k = cli_GetNROS w k.
Proof. induction 1 as [|w w1 w2 H1 _ IH]; [done|]. by rewrite IH, (law_write_nros w w1). Qed.

Lemma apply_states_willing w w0 es st :
  willing w -> NoDup ((fun e => obj_id (en_obj e)) <$> es) -> fresh w w0 es ->
  Forall (fun e => kind_ok (en_obj e) /\ controllable schedOwnerKind (nros_Meta instance) (en_obj e)) es ->
  exists w' st', apply_states w instance (entry_state w0 <$> es) st = Ret (w', (st', None)) /\ willing w' /\
    (forall k, cli_GetNROS w' k = cli_GetNROS w k) /\ only_writes healthy (entry_ids es) w w' /\
    Forall (fun e => keeps_status w w' (obj_type (en_obj e)) (obj_key (en_obj e))) es.
Proof.
  revert w st. induction es as [|e es IH]; intros w st Hw Hnd Hf Hall.
  { do 2 eexists. split; [reflexivity|]. split; [done|]. split; [done|]. split; [apply only_writes_refl|constructor]. }
  pose proof (law_willing_healthy w Hw) as Hh.
  pose proof Hf as Hf0. apply Forall_cons in Hf as [(Hok & Hr & Hsame) Hf]. apply Forall_cons in Hall as [[Hk Hc] Hall].
  assert (entry_ok w e /\ readable w (en_obj e)) as [Hok' Hr'].
  { unfold entry_ok, readable in *. rewrite Hsame. by destruct Hok. }
  destruct (apply_states_step healthy instance w w0 e (entry_state w0 <$> es) st Hh Hok' Hr' Hsame) as (w1 & Hw1 & Hit).
  destruct (apply_willing healthy willing w (own (en_obj e)) (en_merge e) (en_fill e) Hw (kind_ok_owned_by _ _ _ Hk))
    as (w2 & o2 & ch2 & Happ & Hw2 & Hws & Hkeep); [apply (entry_own instance w e Hok' Hr')|].
  destruct (owned_by_id schedOwnerKind (nros_Meta instance) (en_obj e)) as [Eo Ek]. rewrite Eo, Ek in Hkeep.
  rewrite fmap_cons. destruct Hit as [(err & Hc' & _)|[(o & ch & err & Happ' & _)|(m & ch & Happ' & _ & _ & ->)]];
    [unfold controllable in Hc; congruence|congruence|].
  rewrite Happ in Happ'. injection Happ' as -> -> ->.
  destruct (IH w1 (record_object st m)) as (w' & st' & -> & Hw' & Hns' & Hwr & Hks);
    [done|by apply NoDup_cons in Hnd as [_ ?]|by apply (fresh_after healthy w w1 w0 e es)|done|].
  do 2 eexists. split; [reflexivity|]. split; [done|]. split; [intros k; by rewrite Hns', (writes_nros w)|]. split.
  { apply (only_writes_trans healthy _ _ w1).
    - eapply only_writes_weaken; [|exact Hw1]. intros id ->. exists e. split; [by left|done].
    - eapply only_writes_weaken; [|exact Hwr]. intros id (e' & ? & ->). exists e'. split; [by right|done]. }
  apply NoDup_cons in Hnd as [Hn _]. constructor.
  - apply (keeps_status_after _ w1); [|done]. apply Hwr. intros (e' & He' & Heq). apply Hn.
    apply list_elem_of_fmap. exists e'. by split.
  - rewrite Forall_forall in Hks |- *. intros e' He'. apply (keeps_status_before _ w1); [|by apply Hks].
    apply Hw1. intros Heq. apply Hn. rewrite <-Heq. by apply (list_elem_of_fmap_2 (fun e => obj_id (en_obj e))).
Qed.
End WillingLoop.
