(* ===== verification/SchedReconcileSpec.v ===== *)
(** * The reconciliation of the scheduler

    The invariant of the manifests the reconciler keeps and rewrites, and what a
    reconciliation does: it returns, keeps the invariant, writes the nine objects
    only, installs them, and makes progress on a willing cluster. *)
From S2P Require Import Prelude GoErrors Meta Selectors ApiV1 Conditions Steps Trees Validation FlagCodec Workload.
From S2P Require Import RteUpdate RteUpdateSpec Objects MergeSpec Cluster Apply RteState Dangling Controller.
From S2P Require Import Scenario Install WriteFrame Willing SchedParams SchedParamsSpec SchedApi SchedUpdate SchedState.
From S2P Require Import SchedController SchedCluster SchedSpec SchedDeploySpec SchedInstall.

(** ** The manifests the reconciler keeps *)

Definition sched_entry (mf : SchedManifests) (p : sched_slot) : entry :=
  mkEntry (sched_object mf p) (sched_merge p) (sched_fill p).
Definition sched_entries (mf : SchedManifests) : list entry := sched_entry mf <$> sched_slots.

Section Invariant.
Context `{!YamlLib, !YamlLaws}.

(** Every object has the type of its place and no controller, the two network
    policies differ, the config map holds a configuration whose first profile has
    a name, the deployment is as the updates need it, and every rule of the role
    has a group and a resource. *)
Record sched_ok (mf : SchedManifests) : Prop := {
  so_typed : sched_typed mf;
  so_free p : controllerutil.GetControllerOf (om_OwnerReferences (obj_Meta (sched_object mf p))) = None;
  so_policies : obj_key (sm_DefaultNetworkPolicy mf) <> obj_key (sm_APIserverNetworkPolicy mf);
  so_config : exists p ps, config_ok (sm_ConfigMap mf) (p :: ps) /\ cfg_ProfileName p <> "";
  so_deployment : dp_ok (sm_Deployment mf);
  so_rules : Forall (fun ru => pr_APIGroups ru <> [] /\ pr_Resources ru <> []) (ro_Rules (sm_Role mf)) }.

Lemma sched_ids_nodup mf : sched_ok mf -> NoDup ((fun e => obj_id (en_obj e)) <$> sched_entries mf).
Proof.
  intros [Hty _ Hp _ _ _]. unfold sched_entries. rewrite <-list_fmap_compose.
  assert (forall p, obj_id (sched_object mf p) = (sched_slot_type p, obj_key (sched_object mf p))) as Hid
    by (intros p; unfold obj_id; by destruct (Hty p) as [-> _]).
  apply NoDup_fmap_2_strong; [|apply (bool_decide_unpack _); vm_compute; exact I].
  intros p q _ _. simpl. rewrite !Hid. intros E.
  pose proof (f_equal fst E) as Ht. pose proof (f_equal snd E) as Hk. simpl in Ht, Hk.
  destruct p, q; try done; by destruct Hp.
Qed.

(** A name the first profile keeps: its own unless it is the one configured, which
    gets the name asked for, or keeps its own if that is empty. *)
Lemma overlay_named name new old : name <> "" -> cfg_ProfileName old <> "" -> cfg_ProfileName (overlay name new old) <> "".
Proof. intros Hn Ho. unfold overlay. repeat case_decide; try done; by destruct old. Qed.

(** The rules keep their groups and resources. *)
Lemma leader_rules_ok n rules rules' :
  Forall (fun ru => pr_APIGroups ru <> [] /\ pr_Resources ru <> []) rules -> leader_rules n rules = Ret rules' ->
  Forall (fun ru => pr_APIGroups ru <> [] /\ pr_Resources ru <> []) rules'.
Proof.
  intros Hrs. revert rules'. induction Hrs as [|ru rules [Hg Hr] _ IH]; intros rules' E; simpl in E; [by injection E as <-|].
  unfold leader_rule in E.
  destruct (narrow_rule_returns n apiGroupCore resourceEndpoints ru Hg Hr) as (ru1 & E1 & Eg & Er & _).
  rewrite E1 in E. cbn [go_bind] in E.
  destruct (narrow_rule_returns n apiGroupCoordination resourceLeases ru1) as (ru2 & E2 & Eg2 & Er2 & _); [congruence..|].
  rewrite E2 in E. cbn [go_bind] in E. destruct (leader_rules n rules) as [rs|]; [|done]. injection E as <-.
  constructor; [split; congruence|]. by apply IH.
Qed.
End Invariant.

(** ** Specifications *)

(** The numbers are exact in a float64, or int64 durations. *)
Definition spec_ok (spec : NUMAResourcesSchedulerSpec) : Prop :=
  (forall s r, ns_ScoringStrategy spec = Some s -> r ∈ as_Resources s -> exact (ar_Weight r)) /\
  (forall z, ns_CacheResyncPeriod spec = Some z -> (- 2 ^ 63 <= z < 2 ^ 63)%Z).

(** The specification a reconciliation works with, but for the replicas. *)
Definition effective (pi : PlatformInfo) (spec : NUMAResourcesSchedulerSpec) : NUMAResourcesSchedulerSpec :=
  Normalize (platformNormalize spec pi).

Lemma platformNormalize_fields pi spec :
  ns_ScoringStrategy (platformNormalize spec pi) = ns_ScoringStrategy spec /\
  ns_CacheResyncPeriod (platformNormalize spec pi) = ns_CacheResyncPeriod spec /\
  ns_CacheResyncDebug (platformNormalize spec pi) = ns_CacheResyncDebug spec /\
  ns_SchedulerName (platformNormalize spec pi) = ns_SchedulerName spec /\
  ns_Replicas (platformNormalize spec pi) = ns_Replicas spec.
Proof. unfold platformNormalize. repeat case_match; done. Qed.

Lemma Round_range d : (- 2 ^ 63 <= d < 2 ^ 63)%Z -> (- 2 ^ 63 <= duration.Round d Duration.Second < 2 ^ 63)%Z.
Proof.
  intros Hd. unfold duration.Round. set (m := Duration.Second). assert (m = 1000000000%Z) as Hm by done.
  destruct (Z.leb_spec m 0); [lia|]. unfold duration.lessThanHalf, duration.maxDuration, duration.minDuration.
  assert (forall z, - 2 ^ 63 <= duration.wrap64 z < 2 ^ 63)%Z as Hw.
  { intros z. unfold duration.wrap64. pose proof (Z.mod_pos_bound (z + 2 ^ 63) (2 ^ 64)). lia. }
  destruct (Z.ltb_spec d 0).
  - pose proof (Z.rem_nonpos d m ltac:(lia) ltac:(lia)). pose proof (Z.quot_rem' d m).
    pose proof (Z.quot_pos (-d) m ltac:(lia) ltac:(lia)). pose proof (Z.quot_opp_l d m ltac:(lia)).
    destruct (Z.ltb_spec (- Z.rem d m + - Z.rem d m) m); [nia|]. destruct (Z.ltb_spec (duration.wrap64 (d - m + - Z.rem d m)) d); [apply Hw|lia].
  - pose proof (Z.rem_nonneg d m ltac:(lia) ltac:(lia)). pose proof (Z.quot_rem' d m).
    pose proof (Z.quot_pos d m ltac:(lia) ltac:(lia)).
    destruct (Z.ltb_spec (Z.rem d m + Z.rem d m) m); [nia|]. destruct (Z.ltb_spec d (duration.wrap64 (d + m - Z.rem d m))); [apply Hw|lia].
Qed.

Lemma computeSchedulerReplicas_some {W} `{!Client W} `{!SchedClient W} (w : W) r spec n :
  computeSchedulerReplicas w r spec = inl n -> is_Some n.
Proof.
  unfold computeSchedulerReplicas. intros E. repeat (case_match; simplify_eq); by eexists.
Qed.

(** ** From the specification to the manifests *)

Section Prepare.
Context {W : Type} `{!Client W} `{!SchedClient W} `{!YamlLib, !YamlLaws} `{!QuantityLib}.
Variable sha256_hex : string -> string.

(** [mf'] are the manifests for [instance] with [n] replicas: the config map gets
    the parameters of the specification, the deployment is the wanted one, the
    role and its binding are those of the namespace. *)
Definition prepared (r : SchedReconciler) (instance : NUMAResourcesScheduler) (n : option Z) (mf' : SchedManifests)
  : Prop :=
  let mf := sr_SchedulerManifests r in
  let spec := ns_with_Replicas n (effective (sr_PlatformInfo r) (nros_Spec instance)) in
  exists period params name mode i,
    ns_CacheResyncPeriod spec = Some period /\
    configParamsFromSchedSpec spec (duration.Round period Duration.Second) (sr_Namespace r) = Ret params /\
    SchedulerNameFromObject (IObj (cm_object (sm_ConfigMap mf))) = Ret (name, true) /\
    SchedulerConfig (sm_ConfigMap mf) name params = (sm_ConfigMap mf', None) /\
    ns_CacheResyncDebug spec = Some mode /\
    FindContainerByName (dp_Containers (sm_Deployment mf)) SchedulerContainerName = Some i /\
    sm_Deployment mf' = wanted_deployment sha256_hex i (sm_Deployment mf) (sm_ConfigMap mf') (sr_TLSSettings r)
                          (map_of (om_Annotations (nros_Meta instance))) spec mode /\
    RoleForLeaderElection (sm_Role mf) (sr_Namespace r) LeaderElectionResourceName = Ret (sm_Role mf') /\
    sm_RoleBinding mf' = rbac_RoleBinding (sm_RoleBinding mf) (obj_Name (sm_ServiceAccount mf)) (sr_Namespace r) /\
    forall p, p ∉ [PConfigMap; PDeployment; PRole; PRoleBinding] -> sched_object mf' p = sched_object mf p.

(** The parameters of the effective specification. *)
Lemma effective_params pi spec n period ns :
  spec_ok spec -> is_Some n -> ns_CacheResyncPeriod (effective pi spec) = Some period ->
  exists params,
    configParamsFromSchedSpec (ns_with_Replicas n (effective pi spec)) (duration.Round period Duration.Second) ns = Ret params /\
    valid_params params /\ exact_numbers params /\ exists l, cfg_LeaderElection params = Some l.
Proof.
  intros [Hw Hp] Hn Hper. set (spec' := ns_with_Replicas n (effective pi spec)).
  destruct (Normalize_fields (platformNormalize spec pi)) as (_ & _ & Hi & Hd & Hs & _).
  destruct (configParams_returns spec' (duration.Round period Duration.Second) ns Hn Hd Hi Hs) as [params Hr].
  exists params. split; [done|]. split; [by apply (configParams_valid _ _ _ _ Hr)|].
  split; [|by apply (configParams_leader _ _ _ _ Hr)].
  destruct (platformNormalize_fields pi spec) as (Es & Ep & _). destruct Hs as [s Hs].
  apply (configParams_exact _ _ _ _ s Hr); [|done|].
  - apply Round_range. simpl in Hper. rewrite Ep in Hper. destruct (ns_CacheResyncPeriod spec) as [z|]; simpl in Hper.
    + injection Hper as <-. by apply Hp.
    + injection Hper as <-. unfold defaultCacheResyncPeriod. vm_compute. split; [discriminate|done].
  - intros x Hx. simpl in Hs. rewrite Es in Hs. destruct (ns_ScoringStrategy spec) as [s0|]; simpl in Hs.
    + injection Hs as <-. by apply (Hw s0).
    + injection Hs as <-. by apply not_elem_of_nil in Hx.
Qed.

(** The prepared manifests are as the next reconciliation needs them. *)
Lemma prepared_ok r instance n mf' :
  sched_ok (sr_SchedulerManifests r) -> spec_ok (nros_Spec instance) -> is_Some n ->
  prepared r instance n mf' -> sched_ok mf'.
Proof.
  intros [Hty Hfree Hpol Hcfg Hdp Hrules] Hspec Hn
    (period & params & name & mode & i & Hper & Hpar & Hname & Hcm & Hmode & Hi & Ed & Ero & Erb & Hoth).
  destruct Hcfg as (p & ps & Hcfg & Hne).
  rewrite (config_ok_name _ _ _ Hcfg) in Hname. injection Hname as <-.
  destruct (effective_params _ _ _ _ (sr_Namespace r) Hspec Hn Hper) as (params' & Hpar' & Hv & Hex & Hl).
  rewrite Hpar in Hpar'. injection Hpar' as <-.
  destruct (SchedulerConfig_ok _ _ _ _ Hcfg Hne Hv Hex Hl) as (cm' & Hcm' & Hmeta & Hcm'').
  rewrite Hcm in Hcm'. injection Hcm' as Hcm'. rewrite <-Hcm' in *. clear Hcm'.
  unfold RoleForLeaderElection in Ero. destruct (leader_rules _ _) as [rules'|] eqn:Er; [|done].
  injection Ero as Ero.
  assert (forall p, obj_type (sched_object mf' p) = obj_type (sched_object (sr_SchedulerManifests r) p) /\
    obj_Kind (sched_object mf' p) = obj_Kind (sched_object (sr_SchedulerManifests r) p) /\
    obj_APIVersion (sched_object mf' p) = obj_APIVersion (sched_object (sr_SchedulerManifests r) p) /\
    om_OwnerReferences (obj_Meta (sched_object mf' p))
    = om_OwnerReferences (obj_Meta (sched_object (sr_SchedulerManifests r) p))) as Hsame.
  { intros q. destruct (decide (q ∈ [PConfigMap; PDeployment; PRole; PRoleBinding])) as [Hq|Hq].
    - destruct q; try (exfalso; set_solver +Hq); simpl; rewrite ?Hmeta, ?Ed, <-?Ero, ?Erb; done.
    - by rewrite Hoth. }
  split.
  - intros q. destruct (Hsame q) as (E1 & E2 & E3 & _). unfold kind_ok. rewrite E1, E2, E3. apply Hty.
  - intros q. destruct (Hsame q) as (_ & _ & _ & ->). apply Hfree.
  - pose proof (Hoth PDefaultNetworkPolicy ltac:(set_solver)) as E1.
    pose proof (Hoth PAPIserverNetworkPolicy ltac:(set_solver)) as E2. simpl in E1, E2. by rewrite E1, E2.
  - destruct Hcm'' as [[-> _]|Hc]; [by exists p, ps|]. eexists _, _. split; [exact Hc|]. by apply overlay_named.
  - rewrite Ed. by apply wanted_deployment_ok.
  - rewrite <-Ero. simpl. by apply (leader_rules_ok _ _ _ Hrules Er).
Qed.
End Prepare.

(** ** Synchronisation *)

Section Sync.
Context {W : Type} `{!Client W} `{!SchedClient W} `{!YamlLib, !YamlLaws} `{!QuantityLib}.
Variable sha256_hex : string -> string.

Definition normalized_instance (r : SchedReconciler) (instance : NUMAResourcesScheduler) : NUMAResourcesScheduler :=
  nros_with_Spec (platformNormalize (nros_Spec instance) (sr_PlatformInfo r)) instance.

Lemma sched_states w mf :
  sched_typed mf -> sched_State (sched_FromClient w mf) mf = entry_state w <$> sched_entries mf.
Proof.
  intros Hty. rewrite sched_State_FromClient. unfold sched_entries. rewrite <-list_fmap_compose.
  apply list_fmap_ext. intros i p _. unfold entry_state. simpl. by destruct (Hty p) as [-> _].
Qed.

(** Everything before the apply loop: it fails on the number of replicas only. *)
Lemma sync_prepared now w r instance :
  sched_ok (sr_SchedulerManifests r) -> spec_ok (nros_Spec instance) ->
  match computeSchedulerReplicas w r (effective (sr_PlatformInfo r) (nros_Spec instance)) with
  | inr err => exists err', syncNUMASchedulerResources sha256_hex now w r instance
                 = Ret (w, r, normalized_instance r instance, inr err')
  | inl n => exists mf' st, prepared sha256_hex r instance n mf' /\
      syncNUMASchedulerResources sha256_hex now w r instance
      = let! (w', (st', err)) := apply_states w (normalized_instance r instance) (entry_state w <$> sched_entries mf') st in
        Ret (w', sr_with_Manifests mf' r, normalized_instance r instance,
             match err with Some err => inr err | None => inl st' end)
  end.
Proof.
  intros Hok Hspec. unfold syncNUMASchedulerResources, effective. set (spec := Normalize _).
  change (nros_Spec (nros_with_Spec ?s ?i)) with s. fold spec. unfold unpackAPIResyncPeriod.
  destruct (Normalize_fields (platformNormalize (nros_Spec instance) (sr_PlatformInfo r)))
    as ([period Hper] & [mode Hmode] & [inf Hinf] & _). fold spec in Hper, Hmode, Hinf. rewrite Hper. cbn [deref go_bind].
  destruct (computeSchedulerReplicas w r spec) as [n|err] eqn:En; [|by eexists].
  pose proof (computeSchedulerReplicas_some _ _ _ _ En) as Hn.
  destruct (effective_params (sr_PlatformInfo r) (nros_Spec instance) n period (sr_Namespace r) Hspec Hn Hper)
    as (params & Hpar & Hv & Hex & Hl).
  unfold effective in Hpar. fold spec in Hpar. rewrite Hpar. cbn [go_bind].
  destruct (so_config _ Hok) as (p & ps & Hcfg & Hne).
  pose proof (config_ok_name _ _ _ Hcfg) as Hname. rewrite Hname. cbn [go_bind negb].
  destruct (SchedulerConfig_ok _ _ _ _ Hcfg Hne Hv Hex Hl) as (cm' & Hcm & _). rewrite Hcm.
  unfold updateDedicatedInformerCondition. cbn [ns_SchedulerInformer ns_with_Replicas]. rewrite Hinf. cbn [deref go_bind].
  destruct (so_deployment _ Hok) as ([i Hi] & _).
  rewrite (update_deployment_wanted sha256_hex _ _ _ _ (ns_with_Replicas n spec) i mode (so_deployment _ Hok) Hi Hn Hmode). cbn [go_bind].
  destruct (leader_rules_returns LeaderElectionResourceName _ (so_rules _ Hok)) as [rules Hrules].
  assert (RoleForLeaderElection (sm_Role (sr_SchedulerManifests r)) (sr_Namespace r) LeaderElectionResourceName
    = Ret (mkRole (om_set_Namespace (sr_Namespace r) (ro_Meta (sm_Role (sr_SchedulerManifests r)))) rules
             (ro_other (sm_Role (sr_SchedulerManifests r))))) as Hro by (unfold RoleForLeaderElection; by rewrite Hrules).
  change (sm_Role (sm_with_Deployment ?d (sm_with_ConfigMap ?c ?m))) with (sm_Role m). rewrite Hro. cbn [go_bind].
  set (mf' := sm_with_Roles _ _ _). set (st := mkNROSStatus _ _ _ _ _). exists mf', st.
  assert (prepared sha256_hex r instance n mf') as Hprep.
  { exists period, params, (cfg_ProfileName p), mode, i. split_and!; try done.
    intros q Hq. destruct q; try done; exfalso; set_solver +Hq. }
  split; [done|]. fold (normalized_instance r instance). rewrite sched_states; [done|].
  apply so_typed. exact (prepared_ok sha256_hex r instance n mf' Hok Hspec Hn Hprep).
Qed.
End Sync.

(** ** Reconciliation *)

Section Reconcile.
Context {W : Type} `{!Client W} `{!SchedClient W} `{!YamlLib, !YamlLaws} `{!QuantityLib}
  (healthy : W -> Prop) `{!ClientLaws W healthy} `{!SchedClientLaws W healthy}.
Variable sha256_hex : string -> string.

Notation own i := (owned_by schedOwnerKind (nros_Meta i)).

(** The instance is not refused: it has the name expected, is not paused, and its
    image is one that is allowed. *)
Definition accepted (r : SchedReconciler) (req : NamespacedName) (i : NUMAResourcesScheduler) : Prop :=
  nn_Name req = objectnames.DefaultNUMAResourcesSchedulerCrName /\
  annotations.IsPauseReconciliationEnabled (map_of (om_Annotations (nros_Meta i))) = false /\
  (if schedulerapi.Enabled (sr_ImageValidation r)
   then SchedulerImage (ns_SchedulerImage (nros_Spec i)) (schedulerapi.iv_Digests (sr_ImageValidation r))
   else None) = None.

#[local] Instance accepted_dec r req i : Decision (accepted r req i).
Proof. unfold accepted. apply _. Defined.

(** Reads fail by absence only. *)
Definition answered (w : W) : Prop := forall t k e, cli_Get w t k = inr e -> IsNotFound e = true.

Definition sched_ids (mf : SchedManifests) : gotype * NamespacedName -> Prop := entry_ids (sched_entries mf).

Lemma sched_fresh w mf : healthy w -> answered w -> sched_ok mf -> fresh w w (sched_entries mf).
Proof.
  intros Hh Ha Hok. apply Forall_fmap, Forall_forall. intros p _. simpl. destruct (so_typed _ Hok p) as [Ht Hk].
  split; [split|split; [|done]].
  - simpl. rewrite Ht. apply sched_merger.
  - intros o. by apply (read_mergeable healthy).
  - intros e. apply Ha.
Qed.

(** What is recorded of the nine objects. *)
Lemma record_applied i mf ms st n :
  sched_typed mf -> Forall2 (fun e m => applied_as (own i (en_obj e)) m) (sched_entries mf) ms ->
  SchedulerNameFromObject (IObj (cm_object (sm_ConfigMap mf))) = Ret (n, true) ->
  nst_Deployment (fold_left record_object ms st) = om_key (dp_Meta (sm_Deployment mf)) /\
  nst_SchedulerName (fold_left record_object ms st) = n.
Proof.
  intros Hty Hms Hn. unfold sched_entries, sched_slots in Hms.
  assert (forall p m, applied_as (own i (sched_object mf p)) m -> obj_type m = sched_slot_type p /\
    obj_key m = obj_key (sched_object mf p)) as Hid.
  { intros p m [Hid _]. destruct (Hty p) as [Ht _].
    destruct (owned_by_id schedOwnerKind (nros_Meta i) (sched_object mf p)) as [Eo Ek].
    pose proof (f_equal fst Hid) as E1. pose proof (f_equal snd Hid) as E2. simpl in E1, E2. split; congruence. }
  repeat match goal with
  | H : Forall2 _ (_ <$> (_ :: _)) _ |- _ => rewrite fmap_cons in H
  | H : Forall2 _ (_ :: _) _ |- _ => apply Forall2_cons_inv_l in H as (? & ? & ? & H & ->)
  | H : Forall2 _ (_ <$> []) _ |- _ => apply Forall2_nil_inv_l in H as ->
  end.
  cbn [en_obj sched_entry] in *.
  repeat match goal with H : applied_as (own i (sched_object mf ?p)) ?m |- _ =>
    let Hb := fresh "Hb" in pose proof (proj2 H) as Hb; apply Hid in H as [? ?] end.
  simpl fold_left.
  assert (forall p m st, obj_type m = sched_slot_type p -> p <> PConfigMap -> p <> PDeployment -> record_object st m = st) as Hskip.
  { intros p m st' Ht Hp1 Hp2. apply record_object_other; rewrite Ht; by destruct p. }
  repeat match goal with H : obj_type ?m = sched_slot_type ?p |- context [record_object ?s ?m] =>
    rewrite (Hskip p m s H) by done end.
  match goal with H : obj_type ?m = sched_slot_type PDeployment |- context [record_object ?s ?m] =>
    rewrite (record_object_deployment s m H) end.
  match goal with H : obj_type ?m = sched_slot_type PConfigMap |- context [record_object ?s ?m] =>
    rewrite (record_object_name s m n) end.
  - simpl. split; [|done]. by match goal with H : obj_key ?m = obj_key (sched_object mf PDeployment) |- obj_key ?m = _ => rewrite H end.
  - rewrite <-Hn. apply SchedulerNameFromObject_body.
    match goal with H : obj_type (own i (sched_object mf PConfigMap)) = TConfigMap -> _ |- _ => rewrite H end.
    + simpl. unfold owned_by, controllerutil.SetControllerReferenceOf, controllerutil.SetControllerReferenceAt. repeat case_match; done.
    + by rewrite (proj1 (owned_by_id _ _ _)).
Qed.

(** The nine objects are in the cluster as prepared for the instance and controlled
    by it, and the status names the deployment and the profile. *)
Definition scheduler_installed (w : W) (r : SchedReconciler) (instance : NUMAResourcesScheduler) (n : option Z)
  (mf' : SchedManifests) (st : NUMAResourcesSchedulerStatus) : Prop :=
  prepared sha256_hex r instance n mf' /\
  (forall p, installed (sched_fill p) w (own instance (sched_object mf' p))) /\
  nst_Deployment st = om_key (dp_Meta (sm_Deployment mf')) /\
  SchedulerNameFromObject (IObj (cm_object (sm_ConfigMap mf'))) = Ret (nst_SchedulerName st, true).

Lemma sched_sync_spec now w r i :
  healthy w -> answered w -> sched_ok (sr_SchedulerManifests r) -> spec_ok (nros_Spec i) ->
  exists w' mf' res, syncNUMASchedulerResources sha256_hex now w r i
      = Ret (w', sr_with_Manifests mf' r, normalized_instance r i, res) /\
    sched_ok mf' /\ only_writes healthy (sched_ids mf') w w' /\
    (forall st, res = inl st -> exists n,
       computeSchedulerReplicas w r (effective (sr_PlatformInfo r) (nros_Spec i)) = inl n /\
       scheduler_installed w' r i n mf' st).
Proof.
  intros Hh Ha Hok Hspec. pose proof (sync_prepared sha256_hex now w r i Hok Hspec) as Hs.
  destruct (computeSchedulerReplicas _ _ _) as [n|err] eqn:En.
  2: { destruct Hs as [err' ->]. exists w, (sr_SchedulerManifests r), (inr err'). split; [by destruct r|].
       split; [done|]. split; [apply only_writes_refl|]. by intros st. }
  destruct Hs as (mf' & st & Hprep & ->).
  pose proof (prepared_ok sha256_hex r i n mf' Hok Hspec (computeSchedulerReplicas_some _ _ _ _ En) Hprep) as Hok'.
  destruct (apply_states_spec healthy (normalized_instance r i) w w (sched_entries mf') st Hh (sched_ids_nodup _ Hok')
              (sched_fresh _ _ Hh Ha Hok')) as (w' & st' & err & -> & Hw & Hin).
  cbn [go_bind]. eexists w', mf', _. split; [reflexivity|]. split; [done|]. split; [done|].
  intros st1 Hst. destruct err as [err|]; [done|]. injection Hst as ->.
  destruct (Hin eq_refl) as (ms & Hms & -> & Hins). exists n. split; [done|].
  destruct (so_config _ Hok') as (p & ps & Hcfg & _). pose proof (config_ok_name _ _ _ Hcfg) as Hname.
  destruct (record_applied _ _ _ st _ (so_typed _ Hok') Hms Hname) as [Hd Hn]. split; [done|]. split; [|by rewrite Hd, Hn].
  intros q. unfold sched_entries in Hins. rewrite Forall_fmap, Forall_forall in Hins. apply Hins. destruct q; set_solver.
Qed.

Lemma sched_reconcileResource_spec now w r i :
  healthy w -> answered w -> sched_ok (sr_SchedulerManifests r) -> spec_ok (nros_Spec i) ->
  exists w' mf' i' step, sched_reconcileResource sha256_hex now w r i = Ret (w', sr_with_Manifests mf' r, i', step) /\
    sched_ok mf' /\ only_writes healthy (sched_ids mf') w w' /\
    (step_Error step = None -> exists n,
       computeSchedulerReplicas w r (effective (sr_PlatformInfo r) (nros_Spec i)) = inl n /\
       scheduler_installed w' r i n mf' (nros_Status i')).
Proof.
  intros Hh Ha Hok Hspec. destruct (sched_sync_spec now w r i Hh Ha Hok Hspec) as (w' & mf' & res & Hsync & Hok' & Hw & Hst).
  unfold sched_reconcileResource. rewrite Hsync. cbn [go_bind]. destruct res as [st|err].
  - destruct (Hst st eq_refl) as (n & En & Hp & Hins & Hd & Hn).
    destruct (isDeploymentRunning w' (nst_Deployment st)) as [ok|err]; (do 4 eexists; split; [reflexivity|]);
      (split; [done|]; split; [done|]); intros He; [|done]. exists n. by split.
  - do 4 eexists. split; [reflexivity|]. by split_and!.
Qed.

(** An instance that is not refused is reconciled; then its status is patched. *)
Lemma sched_Reconcile_accepted clk w r req i0 :
  cli_GetNROS w req = inl i0 -> accepted r req i0 ->
  let i := nros_with_Conditions (sched_initial_conditions (ck_init clk) i0) i0 in
  sched_Reconcile sha256_hex clk w r req
  = let! (w, r, i', step) := sched_reconcileResource sha256_hex (ck_paused clk) w r i in
    let conds := fst (status.ComputeConditions (ck_final clk) (nst_Conditions (nros_Status i'))
                        (ToMetav1Condition (step_ConditionInfo step) (om_Generation (nros_Meta i'))) (ck_final clk)) in
    match cli_PatchSchedStatus w i0 (nros_with_Conditions conds i') with
    | (w, Some err) => Ret (w, r, (mkResult 0, Some err))
    | (w, None) => Ret (w, r, (step_Result step, step_Error step))
    end.
Proof.
  intros Hg (Hn & Hp & Himg) i. unfold sched_Reconcile. rewrite Hg. subst i. cbv zeta.
  rewrite decide_False by (by intros []).
  change (nros_Meta (nros_with_Conditions ?c ?x)) with (nros_Meta x).
  change (nros_Spec (nros_with_Conditions ?c ?x)) with (nros_Spec x). rewrite Hp, Himg. done.
Qed.

Lemma patch_only ids w i i' : only_writes healthy ids w (fst (cli_PatchSchedStatus w i i')).
Proof. split; [apply law_patch_sched_healthy|]. intros t k _. apply law_patch_sched. Qed.

(** An instance that is refused, or is not there: the status at most is patched. *)
Lemma sched_Reconcile_not_accepted clk w r req :
  (forall i, cli_GetNROS w req = inl i -> ~ accepted r req i) ->
  exists w' res, sched_Reconcile sha256_hex clk w r req = Ret (w', r, res) /\
    (w' = w \/ exists i i', w' = fst (cli_PatchSchedStatus w i i')).
Proof.
  intros Hrej. unfold sched_Reconcile, sched_degradeStatus. destruct (cli_GetNROS w req) as [i0|e]; [|by eauto].
  specialize (Hrej i0 eq_refl). set (i := nros_with_Conditions _ i0).
  assert (forall i2, exists w' res, (let '(w, res) := (let '(w0, err) := cli_PatchSchedStatus w i0 i2 in (w0, (mkResult 0, err)))
      in Ret (w, r, res)) = Ret (w', r, res) /\ (w' = w \/ exists i i', w' = fst (cli_PatchSchedStatus w i i'))) as Hpatch.
  { intros i2. destruct (cli_PatchSchedStatus w i0 i2) as [w' err] eqn:E. do 2 eexists. split; [reflexivity|].
    right. exists i0, i2. by rewrite E. }
  destruct (decide (nn_Name req <> _)) as [Hname|Hname]; [apply Hpatch|].
  match goal with |- context [annotations.IsPauseReconciliationEnabled ?x] =>
    destruct (annotations.IsPauseReconciliationEnabled x) eqn:Epause end; [by eauto|].
  match goal with |- context [match ?x with Some _ => _ | None => _ end] => destruct x as [err|] eqn:Eimg end; [apply Hpatch|].
  destruct Hrej. split; [by apply dec_stable|]. split; [exact Epause|exact Eimg].
Qed.

Lemma sched_Reconcile_refused clk w r req w' r' res :
  (forall i, cli_GetNROS w req = inl i -> ~ accepted r req i) ->
  sched_Reconcile sha256_hex clk w r req = Ret (w', r', res) ->
  r' = r /\ (healthy w -> healthy w') /\ forall t k, cli_Get w' t k = cli_Get w t k.
Proof.
  intros Hrej E. destruct (sched_Reconcile_not_accepted clk w r req Hrej) as (w1 & res1 & E1 & Hw1).
  rewrite E in E1. injection E1 as -> -> _. split; [done|]. destruct Hw1 as [->|(i & i' & ->)]; [done|].
  split; [apply law_patch_sched_healthy|]. intros t k. apply law_patch_sched.
Qed.

(** The manifests and the writes of a reconciliation, whatever becomes of it. *)
Lemma sched_Reconcile_total clk w r req :
  healthy w -> answered w -> sched_ok (sr_SchedulerManifests r) ->
  (forall i, cli_GetNROS w req = inl i -> spec_ok (nros_Spec i)) ->
  exists w' mf' res, sched_Reconcile sha256_hex clk w r req = Ret (w', sr_with_Manifests mf' r, res) /\
    sched_ok mf' /\ only_writes healthy (sched_ids mf') w w'.
Proof.
  intros Hh Ha Hok Hspec.
  assert ((forall i, cli_GetNROS w req = inl i -> ~ accepted r req i) ->
    exists w' mf' res, sched_Reconcile sha256_hex clk w r req = Ret (w', sr_with_Manifests mf' r, res) /\
      sched_ok mf' /\ only_writes healthy (sched_ids mf') w w') as Hstay.
  { intros Hrej. destruct (sched_Reconcile_not_accepted clk w r req Hrej) as (w' & res & E & _).
    destruct (sched_Reconcile_refused _ _ _ _ _ _ _ Hrej E) as (_ & Hw & Hf).
    exists w', (sr_SchedulerManifests r), res. split; [rewrite E; by destruct r|]. split; [done|]. split; [done|].
    intros t k _. apply Hf. }
  destruct (cli_GetNROS w req) as [i0|e] eqn:Hg; [|apply Hstay; by intros].
  destruct (decide (accepted r req i0)) as [Hacc|Hrej].
  - rewrite (sched_Reconcile_accepted _ _ _ _ _ Hg Hacc). set (i := nros_with_Conditions _ i0).
    destruct (sched_reconcileResource_spec (ck_paused clk) w r i Hh Ha Hok (Hspec i0 eq_refl))
      as (w1 & mf' & i' & step & -> & Hok' & Hw1 & _). cbn [go_bind]. cbv zeta.
    match goal with |- context [cli_PatchSchedStatus w1 i0 ?x] =>
      pose proof (patch_only (sched_ids mf') w1 i0 x) as Hp; destruct (cli_PatchSchedStatus w1 i0 x) as [w2 [err|]] end;
      (do 3 eexists; split; [reflexivity|]; split; [done|]); by apply (only_writes_trans _ _ _ w1).
  - apply Hstay. intros i [= <-]. exact Hrej.
Qed.
End Reconcile.

(** ** Progress *)

Section Progress.
Context {W : Type} `{!Client W} `{!SchedClient W} `{!YamlLib, !YamlLaws} `{!QuantityLib}
  (healthy willing : W -> Prop) `{!ClientLaws W healthy} `{!SchedClientLaws W healthy} `{!WillingLaws W healthy willing}
  `{!NROSWillingLaws W willing}.
Variable sha256_hex : string -> string.

Lemma willing_answered w : willing w -> answered w.
Proof. intros Hw t k e. by apply law_willing_absent. Qed.

(** A deployment that is there is running or not; it goes on while its status is kept. *)
Lemma isDeploymentRunning_found w k o : cli_Get w TDeployment k = inl o -> exists b, isDeploymentRunning w k = inl b.
Proof. unfold isDeploymentRunning. intros ->. case_match; [destruct p|]; by eexists. Qed.

Lemma isDeploymentRunning_keeps w w' k b :
  healthy w -> healthy w' -> keeps_status w w' TDeployment k -> isDeploymentRunning w k = inl b -> isDeploymentRunning w' k = inl b.
Proof.
  intros Hh Hh' Hk. unfold isDeploymentRunning. destruct (cli_Get w TDeployment k) as [cur|e] eqn:Hg; [|done].
  destruct (Hk cur Hg) as (o & Ho & Hs). rewrite Ho.
  assert (dpst_Conditions ∘ dp_Status <$> object_dp o = dpst_Conditions ∘ dp_Status <$> object_dp cur) as Hc.
  { pose proof (f_equal fst (law_get_id _ _ _ _ Hh Hg)) as Ht. pose proof (f_equal fst (law_get_id _ _ _ _ Hh' Ho)) as Ht'.
    unfold obj_id, obj_type, object_dp in *. simpl in Ht, Ht'.
    destruct (obj_Body cur); try discriminate Ht; destruct (obj_Body o); try discriminate Ht'. simpl in *. by injection Hs as <-. }
  destruct (object_dp o), (object_dp cur); simpl in *; simplify_eq; [by rewrite Hc|done].
Qed.

Lemma sched_controllable i mf p :
  om_Namespace (nros_Meta i) = "" -> sched_ok mf -> controllable schedOwnerKind (nros_Meta i) (sched_object mf p).
Proof. intros Hns Hok. apply controllable_free; [done|exact (so_free _ Hok p)]. Qed.

Lemma sched_sync_willing now w r i n :
  willing w -> sched_ok (sr_SchedulerManifests r) -> spec_ok (nros_Spec i) -> om_Namespace (nros_Meta i) = "" ->
  computeSchedulerReplicas w r (effective (sr_PlatformInfo r) (nros_Spec i)) = inl n ->
  exists w' mf' st, syncNUMASchedulerResources sha256_hex now w r i
      = Ret (w', sr_with_Manifests mf' r, normalized_instance r i, inl st) /\
    willing w' /\ (forall k, cli_GetNROS w' k = cli_GetNROS w k) /\
    keeps_status w w' TDeployment (om_key (dp_Meta (sm_Deployment mf'))).
Proof.
  intros Hw Hok Hspec Hns En. pose proof (law_willing_healthy w Hw) as Hh.
  pose proof (sync_prepared sha256_hex now w r i Hok Hspec) as Hs. rewrite En in Hs.
  destruct Hs as (mf' & st & Hprep & ->).
  pose proof (prepared_ok sha256_hex r i n mf' Hok Hspec (computeSchedulerReplicas_some _ _ _ _ En) Hprep) as Hok'.
  destruct (apply_states_willing healthy willing (normalized_instance r i) w w (sched_entries mf') st Hw (sched_ids_nodup _ Hok')
              (sched_fresh healthy _ _ Hh (willing_answered w Hw) Hok')) as (w' & st' & -> & Hw' & Hg & _ & Hks).
  { apply Forall_fmap, Forall_forall. intros p _. split; [apply (so_typed _ Hok' p)|]. by apply sched_controllable. }
  cbn [go_bind]. exists w', mf', st'. split; [done|]. split; [done|]. split; [done|].
  unfold sched_entries in Hks. rewrite Forall_fmap, Forall_forall in Hks. apply (Hks PDeployment). set_solver.
Qed.
End Progress.
