(* ===== verification/SchedTheorems.v ===== *)
(** * What the scheduler controller promises

    The properties of its reconciliation, on the laws of the cluster and on those
    of a willing one, with their instances on the in-memory cluster. *)
From S2P Require Import Prelude GoErrors Meta Selectors ApiV1 Conditions Steps Trees Validation FlagCodec Workload.
From S2P Require Import RteUpdate RteUpdateSpec Objects MergeSpec Cluster Apply RteState Dangling Controller.
From S2P Require Import Scenario Install WriteFrame Willing SchedParams SchedParamsSpec SchedApi SchedUpdate SchedState.
From S2P Require Import SchedController SchedCluster SchedSpec SchedDeploySpec SchedInstall SchedReconcileSpec.

Section Theorems.
Context {W : Type} `{!Client W} `{!SchedClient W} `{!YamlLib, !YamlLaws} `{!QuantityLib}
  (healthy : W -> Prop) `{!ClientLaws W healthy} `{!SchedClientLaws W healthy}.
Variable sha256_hex : string -> string.

(** C9: on a cluster whose reads fail by absence only, a reconciliation of the
    scheduler always returns, whatever the resource and whichever writes fail; and
    the manifests it has rewritten for the next one are well formed again: every
    object has the type and kind of its place, the config map holds a document
    with a named profile, the deployment has its main container, its volumes and
    its labels, the rules of the role have a group and a resource. *)
Theorem sched_Reconcile_keeps_manifests clk w r req :
  healthy w -> answered w -> sched_ok (sr_SchedulerManifests r) ->
  (forall i, cli_GetNROS w req = inl i -> spec_ok (nros_Spec i)) ->
  exists w' r' res, sched_Reconcile sha256_hex clk w r req = Ret (w', r', res) /\
    sched_ok (sr_SchedulerManifests r').
Proof.
  intros Hh Ha Hok Hspec.
  destruct (sched_Reconcile_total healthy sha256_hex clk w r req Hh Ha Hok Hspec) as (w' & mf' & res & E & Hok' & _).
  by exists w', (sr_with_Manifests mf' r), res.
Qed.

(** C11: a reconciliation of the scheduler writes no object but the nine of its
    manifests, as they are afterwards; and none at all when there is no resource
    of that name, when its name is not the one expected, when it is paused, or
    when its image is not allowed. *)
Theorem sched_Reconcile_frame clk w r req w' r' res :
  healthy w -> answered w -> sched_ok (sr_SchedulerManifests r) ->
  (forall i, cli_GetNROS w req = inl i -> spec_ok (nros_Spec i)) ->
  sched_Reconcile sha256_hex clk w r req = Ret (w', r', res) ->
  (forall t k, (forall p, (t, k) <> obj_id (sched_object (sr_SchedulerManifests r') p)) ->
     cli_Get w' t k = cli_Get w t k) /\
  ((forall i, cli_GetNROS w req = inl i -> ~ accepted r req i) ->
     forall t k, cli_Get w' t k = cli_Get w t k).
Proof.
  intros Hh Ha Hok Hspec Hrun. split.
  - destruct (sched_Reconcile_total healthy sha256_hex clk w r req Hh Ha Hok Hspec) as (w1 & mf' & res' & E & _ & _ & Hfr).
    rewrite E in Hrun. injection Hrun as -> <- <-. intros t k Hn. apply Hfr. intros (e & He & Heq).
    apply list_elem_of_fmap in He as (p & -> & _). by apply (Hn p).
  - intros Hrej. by apply (sched_Reconcile_refused healthy sha256_hex clk w r req w' r' res).
Qed.

(** C10: when the reconciliation of a resource that is not refused reports no
    error, the nine objects of the scheduler are in the cluster, controlled by the
    resource, with the content prepared for it: a config map with its parameters,
    the wanted deployment with the number of replicas computed, the role and
    its binding in the namespace of the operator; the status it patches names the
    deployment and the profile of the config map. *)
Theorem sched_objects_installed clk w r req i0 w' r' res :
  healthy w -> answered w -> sched_ok (sr_SchedulerManifests r) ->
  cli_GetNROS w req = inl i0 -> accepted r req i0 -> spec_ok (nros_Spec i0) ->
  sched_Reconcile sha256_hex clk w r req = Ret (w', r', (res, None)) ->
  exists n st i', computeSchedulerReplicas w r (effective (sr_PlatformInfo r) (nros_Spec i0)) = inl n /\
    scheduler_installed sha256_hex w' r i0 n (sr_SchedulerManifests r') st /\
    nst_Deployment (nros_Status i') = nst_Deployment st /\ nst_SchedulerName (nros_Status i') = nst_SchedulerName st /\
    exists w1, cli_PatchSchedStatus w1 i0 i' = (w', None).
Proof.
  intros Hh Ha Hok Hg Hacc Hspec Hrun. rewrite (sched_Reconcile_accepted sha256_hex _ _ _ _ _ Hg Hacc) in Hrun.
  set (i := nros_with_Conditions _ i0) in Hrun.
  destruct (sched_reconcileResource_spec healthy sha256_hex (ck_paused clk) w r i Hh Ha Hok Hspec)
    as (w1 & mf' & i' & step & E & Hok' & Hw1 & Hdone). rewrite E in Hrun. cbn [go_bind] in Hrun. cbv zeta in Hrun.
  match type of Hrun with context [cli_PatchSchedStatus w1 i0 ?x] => set (i2 := x) in Hrun;
    pose proof (fun t k => law_patch_sched w1 i0 i2 t k) as Hpatch; destruct (cli_PatchSchedStatus w1 i0 i2) as [w2 [err|]] eqn:Ep end;
    [done|]. injection Hrun as <- <- _ Hs.
  destruct (Hdone Hs) as (n & En & Hprep & Hins & Hd & Hname). simpl in Hpatch.
  exists n, (nros_Status i'), i2. split; [exact En|]. split; [|split; [done|split; [done|by exists w1]]].
  split; [exact Hprep|]. split; [|by split].
  intros p. apply (installed_frame _ w1); [apply Hpatch|apply Hins].
Qed.

End Theorems.

Section Liveness.
Context {W : Type} `{!Client W} `{!SchedClient W} `{!YamlLib, !YamlLaws} `{!QuantityLib}
  (healthy willing : W -> Prop) `{!ClientLaws W healthy} `{!SchedClientLaws W healthy} `{!WillingLaws W healthy willing}
  `{!NROSWillingLaws W willing}.
Variable sha256_hex : string -> string.

(** C8: on a cluster that takes every legitimate write, with enough nodes for the
    replicas, a reconciliation of a resource that is not refused never fails: it
    leaves the deployment in the cluster and either is done, the deployment being
    available, or comes back in five seconds; it leaves a cluster and manifests
    from which the next one does as well. So once the deployment is
    available, the next reconciliation is the last. *)
Theorem sched_progress clk w r req i0 n :
  willing w -> sched_ok (sr_SchedulerManifests r) ->
  cli_GetNROS w req = inl i0 -> accepted r req i0 -> spec_ok (nros_Spec i0) -> om_Namespace (nros_Meta i0) = "" ->
  computeSchedulerReplicas w r (effective (sr_PlatformInfo r) (nros_Spec i0)) = inl n ->
  exists w' r' running,
    sched_Reconcile sha256_hex clk w r req
    = Ret (w', r', (mkResult (if running : bool then 0 else 5 * Duration.Second)%Z, None)) /\
    willing w' /\ sched_ok (sr_SchedulerManifests r') /\
    let deployment := om_key (dp_Meta (sm_Deployment (sr_SchedulerManifests r'))) in
    isDeploymentRunning w' deployment = inl running /\
    (isDeploymentRunning w deployment = inl true -> running = true).
Proof.
  intros Hw Hok Hg Hacc Hspec Hns En. pose proof (law_willing_healthy w Hw) as Hh. pose proof (willing_answered healthy willing w Hw) as Ha.
  rewrite (sched_Reconcile_accepted sha256_hex _ _ _ _ _ Hg Hacc). set (i := nros_with_Conditions _ i0).
  destruct (sched_sync_willing healthy willing sha256_hex (ck_paused clk) w r i n Hw Hok Hspec Hns En)
    as (w1 & mf' & st & Hsync & Hw1 & Hgn & Hks).
  destruct (sched_sync_spec healthy sha256_hex (ck_paused clk) w r i Hh Ha Hok Hspec)
    as (w1' & mf1 & res & Hsync' & Hok' & _ & Hst). rewrite Hsync in Hsync'. injection Hsync' as <- <- <-.
  destruct (Hst st eq_refl) as (n' & _ & _ & Hins & Hd & _).
  pose proof (law_willing_healthy w1 Hw1) as Hh1.
  destruct (Hins PDeployment) as (o & _ & Ho & _). destruct (owned_by_id schedOwnerKind (nros_Meta i) (sched_object mf' PDeployment)) as [Et Ek].
  rewrite Et, Ek in Ho. cbn [sched_object] in Ho.
  change (obj_type (dp_object (sm_Deployment mf'))) with TDeployment in Ho.
  change (obj_key (dp_object (sm_Deployment mf'))) with (om_key (dp_Meta (sm_Deployment mf'))) in Ho.
  destruct (isDeploymentRunning_found w1 _ o Ho) as [running Hrun].
  unfold sched_reconcileResource. rewrite Hsync. cbn [go_bind]. rewrite Hd, Hrun. cbn [go_bind]. cbv zeta.
  match goal with |- context [cli_PatchSchedStatus w1 i0 ?x] => set (i2 := x) end.
  destruct (law_willing_patch w1 req i0 i2 Hw1) as (w2 & Hp & Hw2); [by rewrite Hgn|done|]. rewrite Hp.
  exists w2, (sr_with_Manifests mf' r), running. split; [by destruct running|]. split; [done|]. split; [done|].
  simpl. split.
  - apply (isDeploymentRunning_keeps healthy w1 w2); [done|by apply law_willing_healthy| |done].
    apply (keeps_status_after w1 w1); [|apply keeps_status_refl]. pose proof (law_patch_sched w1 i0 i2 TDeployment) as Hl. rewrite Hp in Hl. apply Hl.
  - intros Hr. apply (isDeploymentRunning_keeps healthy w w1 _ _ Hh Hh1 Hks) in Hr. rewrite Hrun in Hr. by injection Hr.
Qed.
End Liveness.

(** ** On the in-memory cluster *)

#[local] Existing Instance sched_scenario.yaml.
#[local] Existing Instance sched_scenario.yaml_laws.

Lemma scenario_sched_ok : sched_ok sched_scenario.manifests.
Proof.
  split.
  - apply sched_typed_check. vm_compute. reflexivity.
  - intros p. destruct p; reflexivity.
  - discriminate.
  - destruct (configuration table.builtin) as [[|p ps]|] eqn:Ec; [vm_compute in Ec; discriminate Ec| |vm_compute in Ec; discriminate Ec].
    exists p, ps. split; [|vm_compute in Ec; injection Ec as <- _; discriminate].
    exists {[SchedulerConfigFileName := "input"]}, "input", table.builtin, {["leaderElect" := JBool false]}.
    split_and!; try reflexivity; [exact Ec|done].
  - split_and!; [by exists 0|discriminate|discriminate].
  - repeat constructor; discriminate.
Qed.

Lemma scenario_willing : sched_willing sched_scenario.cluster.
Proof.
  split; [split; [by apply answers_reads_check|done]|]. apply map_Forall_singleton. reflexivity.
Qed.

Lemma scenario_spec_ok i : cli_GetNROS sched_scenario.cluster sched_scenario.request = inl i -> spec_ok (nros_Spec i).
Proof.
  intros Hg. vm_compute in Hg. injection Hg as <-. split; [|by intros z].
  intros s x [= <-] ->%list_elem_of_singleton. vm_compute. split; discriminate.
Qed.

Lemma scenario_accepted : accepted sched_scenario.reconciler sched_scenario.request sched_scenario.instance.
Proof. split_and!; reflexivity. Qed.

Lemma sched_Reconcile_keeps_manifests_witness :
  exists w' r' res, sched_scenario.run sched_scenario.cluster sched_scenario.reconciler = Ret (w', r', res) /\
    sched_ok (sr_SchedulerManifests r').
Proof.
  apply (sched_Reconcile_keeps_manifests sched_reads sched_scenario.sha256 sched_scenario.clock
           sched_scenario.cluster sched_scenario.reconciler sched_scenario.request).
  - apply scenario_willing.
  - apply (willing_answered sched_reads sched_willing), scenario_willing.
  - apply scenario_sched_ok.
  - apply scenario_spec_ok.
Defined.

Lemma sched_progress_witness :
  exists w' r' running, sched_scenario.run sched_scenario.cluster sched_scenario.reconciler
    = Ret (w', r', (mkResult (if running : bool then 0 else 5 * Duration.Second)%Z, None)) /\ running = false.
Proof.
  destruct (sched_progress sched_reads sched_willing sched_scenario.sha256 sched_scenario.clock
           sched_scenario.cluster sched_scenario.reconciler sched_scenario.request sched_scenario.instance (Some 3%Z))
    as (w' & r' & running & E & _ & _ & Hrun & _).
  - apply scenario_willing.
  - apply scenario_sched_ok.
  - reflexivity.
  - apply scenario_accepted.
  - apply scenario_spec_ok. reflexivity.
  - reflexivity.
  - vm_compute. reflexivity.
  - exists w', r', running. split; [exact E|].
    assert (sched_scenario.answer (Ret (w', r', (mkResult (if running then 0 else 5 * Duration.Second)%Z, None)))
      = Some (mkResult (5 * Duration.Second)%Z, None)) as Ha by (rewrite <-E; vm_compute; reflexivity).
    destruct running; [discriminate Ha|reflexivity].
Defined.

Lemma sched_Reconcile_frame_witness :
  exists w' r' res, sched_scenario.run sched_scenario.cluster sched_scenario.reconciler = Ret (w', r', res) /\
    cli_Get w' TConfigMap (mkNamespacedName "kube-system" "other") = cli_Get sched_scenario.cluster TConfigMap (mkNamespacedName "kube-system" "other").
Proof.
  destruct (sched_Reconcile_total sched_reads sched_scenario.sha256 sched_scenario.clock sched_scenario.cluster
    sched_scenario.reconciler sched_scenario.request) as (w' & mf' & res & E & Hok & _).
  1: apply scenario_willing.
  1: apply (willing_answered sched_reads sched_willing), scenario_willing.
  1: apply scenario_sched_ok.
  1: apply scenario_spec_ok.
  exists w', (sr_with_Manifests mf' sched_scenario.reconciler), res. split; [exact E|].
  refine (proj1 (sched_Reconcile_frame sched_reads sched_scenario.sha256 sched_scenario.clock sched_scenario.cluster
    sched_scenario.reconciler sched_scenario.request w' (sr_with_Manifests mf' sched_scenario.reconciler) res _ _ _ _ E) _ _ _).
  - apply scenario_willing.
  - apply (willing_answered sched_reads sched_willing), scenario_willing.
  - apply scenario_sched_ok.
  - apply scenario_spec_ok.
  - intros p Heq. pose proof (f_equal fst Heq) as Ht. pose proof (f_equal snd Heq) as Hk. unfold obj_id in Ht, Hk. simpl in Ht, Hk.
    destruct (so_typed _ Hok p) as [Hty _]. rewrite Hty in Ht. destruct p; try discriminate Ht.
    assert (match sched_scenario.run sched_scenario.cluster sched_scenario.reconciler with
            | Ret (_, r, _) => obj_key (sched_object (sr_SchedulerManifests r) PConfigMap)
            | Panic _ => obj_key (sched_object mf' PConfigMap) end = mkNamespacedName "numaresources" "topo-aware-scheduler-config")
      as Hkey by (vm_compute; reflexivity).
    unfold sched_scenario.run in Hkey. rewrite E in Hkey. simpl in Hkey. simpl in Hk. rewrite Hkey in Hk. discriminate Hk.
Defined.

Lemma sched_objects_installed_witness :
  exists w' r' res, sched_scenario.run sched_scenario.cluster sched_scenario.reconciler = Ret (w', r', (res, None)) /\
    exists n st, scheduler_installed sched_scenario.sha256 w' sched_scenario.reconciler sched_scenario.instance n
      (sr_SchedulerManifests r') st /\ n = Some 3%Z.
Proof.
  destruct (sched_scenario.run sched_scenario.cluster sched_scenario.reconciler) as [[[w' r'] [res [err|]]]|] eqn:E.
  1, 3: assert (sched_scenario.answer (sched_scenario.run sched_scenario.cluster sched_scenario.reconciler)
      = Some (mkResult (5 * Duration.Second)%Z, None)) as Ha by (vm_compute; reflexivity);
    rewrite E in Ha; discriminate Ha.
  exists w', r', res. split; [reflexivity|].
  destruct (sched_objects_installed sched_reads sched_scenario.sha256 sched_scenario.clock sched_scenario.cluster
    sched_scenario.reconciler sched_scenario.request sched_scenario.instance w' r' res) as (n & st & i' & Hn & Hin & _).
  - apply scenario_willing.
  - apply (willing_answered sched_reads sched_willing), scenario_willing.
  - apply scenario_sched_ok.
  - reflexivity.
  - apply scenario_accepted.
  - apply scenario_spec_ok. reflexivity.
  - exact E.
  - exists n, st. split; [exact Hin|]. vm_compute in Hn. by injection Hn.
Defined.
