(* ===== verification/Conversion.v ===== *)
(** * Conversion between the API versions (api/v1alpha1)

    The v1alpha1 resources, their defaults and normalisation, and the conversions
    to and from v1. A conversion fills a new object. *)
From S2P Require Import Prelude GoErrors Meta Selectors ApiV1 SchedApi.

(** ** Types; slices are lists, nil or not *)

Record alpha_NodeGroupConfig := mkAlphaConfig {
  ac_PodsFingerprinting : option PodsFingerprintingMode;
  ac_InfoRefreshMode : option InfoRefreshMode;
  ac_InfoRefreshPeriod : option Z }.

Record alpha_NodeGroup := mkAlphaNodeGroup {
  ag_MachineConfigPoolSelector : option LabelSelector;
  ag_DisablePodsFingerprinting : option bool;
  ag_Config : option alpha_NodeGroupConfig }.

Record alpha_NROSpec := mkAlphaSpec {
  as_NodeGroups : list alpha_NodeGroup;
  as_ExporterImage : string;
  as_LogLevel : string;
  as_PodExcludes : list NamespacedName }.

Record alpha_MachineConfigPool := mkAlphaMCP {
  am_Name : string;
  am_Conditions : list MachineConfigPoolCondition;
  am_Config : option alpha_NodeGroupConfig }.

Record alpha_NROStatus := mkAlphaStatus {
  ast_DaemonSets : list NamespacedName;
  ast_MachineConfigPools : list alpha_MachineConfigPool;
  ast_Conditions : list Condition }.

Record alpha_NRO := mkAlphaNRO { an_Meta : ObjectMeta; an_Spec : alpha_NROSpec; an_Status : alpha_NROStatus }.

Record alpha_NROSSpec := mkAlphaSchedSpec {
  ass_SchedulerImage : string;
  ass_SchedulerName : string;
  ass_LogLevel : string;
  ass_CacheResyncPeriod : option Z }.

Record alpha_NROSStatus := mkAlphaSchedStatus {
  asst_Deployment : NamespacedName;
  asst_SchedulerName : string;
  asst_Conditions : list Condition }.

Record alpha_NROS := mkAlphaNROS {
  ans_Meta : ObjectMeta; ans_Spec : alpha_NROSSpec; ans_Status : alpha_NROSStatus }.

(** ** Defaults and normalisation *)

Definition alpha_Default (ngc : alpha_NodeGroupConfig) : alpha_NodeGroupConfig :=
  mkAlphaConfig
    (Some (default PodsFingerprintingEnabled (ac_PodsFingerprinting ngc)))
    (Some (default InfoRefreshPeriodicAndEvents (ac_InfoRefreshMode ngc)))
    (Some (default (10 * Duration.Second)%Z (ac_InfoRefreshPeriod ngc))).

Definition alpha_DefaultNodeGroupConfig : alpha_NodeGroupConfig := alpha_Default (mkAlphaConfig None None None).

(** Dereferences the switch, which the caller has tested. *)
Definition ResetFromNodeGroup (conf : alpha_NodeGroupConfig) (disable : bool) : alpha_NodeGroupConfig :=
  mkAlphaConfig (Some (if disable then PodsFingerprintingDisabled else PodsFingerprintingEnabled))
    (ac_InfoRefreshMode conf) (ac_InfoRefreshPeriod conf).

Definition alpha_Merge (current updated : alpha_NodeGroupConfig) : alpha_NodeGroupConfig :=
  mkAlphaConfig
    (match ac_PodsFingerprinting updated with None => ac_PodsFingerprinting current | p => p end)
    (match ac_InfoRefreshMode updated with None => ac_InfoRefreshMode current | p => p end)
    (match ac_InfoRefreshPeriod updated with None => ac_InfoRefreshPeriod current | p => p end).

Definition alpha_NormalizeConfig (nodeGroup : alpha_NodeGroup) : alpha_NodeGroupConfig :=
  let conf := alpha_DefaultNodeGroupConfig in
  let conf := match ag_DisablePodsFingerprinting nodeGroup with
              | Some disable => ResetFromNodeGroup conf disable
              | None => conf
              end in
  match ag_Config nodeGroup with
  | Some c => alpha_Merge conf c
  | None => conf
  end.

(** ** Configurations *)

(** A mode that is not one of the cases of the switch is dropped. *)
Definition refresh_mode_to (m : InfoRefreshMode) : option InfoRefreshMode :=
  if decide (m = InfoRefreshPeriodic \/ m = InfoRefreshEvents \/ m = InfoRefreshPeriodicAndEvents)
  then Some m else None.

Definition convertNodeGroupConfigV1Alpha1ToV1 (src : alpha_NodeGroupConfig) : NodeGroupConfig :=
  mkNodeGroupConfig
    (ac_PodsFingerprinting src ≫= fun m =>
       if decide (m = PodsFingerprintingEnabled) then Some PodsFingerprintingEnabled
       else if decide (m = PodsFingerprintingDisabled) then Some PodsFingerprintingDisabled else None)
    (ac_InfoRefreshMode src ≫= refresh_mode_to)
    (ac_InfoRefreshPeriod src) None None [].

Definition convertNodeGroupConfigV1ToV1Alpha1 (src : NodeGroupConfig) : alpha_NodeGroupConfig :=
  mkAlphaConfig
    (ngc_PodsFingerprinting src ≫= fun m =>
       if decide (m = PodsFingerprintingEnabledExclusiveResources \/ m = PodsFingerprintingEnabled)
       then Some PodsFingerprintingEnabled
       else if decide (m = PodsFingerprintingDisabled) then Some PodsFingerprintingDisabled else None)
    (ngc_InfoRefreshMode src ≫= refresh_mode_to)
    (ngc_InfoRefreshPeriod src).

Definition convertMachineConfigPoolV1Alpha1ToV1 (src : alpha_MachineConfigPool) : NROMachineConfigPool :=
  mkNROMachineConfigPool (am_Name src) (am_Conditions src) (convertNodeGroupConfigV1Alpha1ToV1 <$> am_Config src).

Definition convertMachineConfigPoolV1ToV1Alpha1 (src : NROMachineConfigPool) : alpha_MachineConfigPool :=
  mkAlphaMCP (nromcp_Name src) (nromcp_Conditions src) (convertNodeGroupConfigV1ToV1Alpha1 <$> nromcp_Config src).

(** ** The operator resource *)

(** The configuration is normalised on the way, to take the old switch in. *)
Definition convert_node_group (srcNG : alpha_NodeGroup) : NodeGroup :=
  mkNodeGroup (ag_MachineConfigPoolSelector srcNG)
    (Some (convertNodeGroupConfigV1Alpha1ToV1 (alpha_NormalizeConfig srcNG))) None ∅.

Definition ConvertToV1NodeGroups (src : alpha_NRO) : list NodeGroup := convert_node_group <$> as_NodeGroups (an_Spec src).

Definition ConvertToV1Rote (src : alpha_NRO) (nodeGroups : list NodeGroup) : NUMAResourcesOperator :=
  mkNRO (an_Meta src)
    (mkNROSpec nodeGroups (as_ExporterImage (an_Spec src)) (as_LogLevel (an_Spec src)) (as_PodExcludes (an_Spec src)))
    (mkNROStatus (ast_DaemonSets (an_Status src))
       (convertMachineConfigPoolV1Alpha1ToV1 <$> ast_MachineConfigPools (an_Status src)) []
       (ast_Conditions (an_Status src)) []).

Definition ConvertTo (src : alpha_NRO) : NUMAResourcesOperator := ConvertToV1Rote src (ConvertToV1NodeGroups src).

Fixpoint convert_back_groups (ngs : list NodeGroup) : go (list alpha_NodeGroup) :=
  match ngs with
  | [] => Ret []
  | srcNG :: rest =>
      let! srcConf := deref "Config" (ng_Config srcNG) in
      let! dst := convert_back_groups rest in
      Ret (mkAlphaNodeGroup (ng_MachineConfigPoolSelector srcNG) None
             (Some (convertNodeGroupConfigV1ToV1Alpha1 srcConf)) :: dst)
  end.

(** The loop meant to fill the daemon sets copies the pod exclusions a second
    time; the daemon sets keep the zero value of their elements. *)
Definition ConvertFromV1Rote (src : NUMAResourcesOperator) : go alpha_NRO :=
  let! nodeGroups := convert_back_groups (spec_NodeGroups (nro_Spec src)) in
  Ret (mkAlphaNRO (nro_Meta src)
         (mkAlphaSpec nodeGroups (spec_ExporterImage (nro_Spec src)) (spec_LogLevel (nro_Spec src))
            (spec_PodExcludes (nro_Spec src)))
         (mkAlphaStatus (replicate (length (st_DaemonSets (nro_Status src))) (mkNamespacedName "" ""))
            (convertMachineConfigPoolV1ToV1Alpha1 <$> st_MachineConfigPools (nro_Status src))
            (st_Conditions (nro_Status src)))).

Definition ConvertFrom : NUMAResourcesOperator -> go alpha_NRO := ConvertFromV1Rote.

(** ** The scheduler resource *)

Definition sched_ConvertToV1Rote (src : alpha_NROS) : NUMAResourcesScheduler :=
  mkNROS (ans_Meta src)
    (mkNROSSpec (ass_SchedulerImage (ans_Spec src)) (ass_SchedulerName (ans_Spec src)) (ass_LogLevel (ans_Spec src))
       (ass_CacheResyncPeriod (ans_Spec src)) None None None None None None)
    (mkNROSStatus (asst_Deployment (ans_Status src)) (asst_SchedulerName (ans_Status src)) None
       (asst_Conditions (ans_Status src)) []).

Definition sched_ConvertFromV1Rote (src : NUMAResourcesScheduler) : alpha_NROS :=
  mkAlphaNROS (nros_Meta src)
    (mkAlphaSchedSpec (ns_SchedulerImage (nros_Spec src)) (ns_SchedulerName (nros_Spec src))
       (ns_LogLevel (nros_Spec src)) (ns_CacheResyncPeriod (nros_Spec src)))
    (mkAlphaSchedStatus (nst_Deployment (nros_Status src)) (nst_SchedulerName (nros_Status src))
       (nst_Conditions (nros_Status src))).

(** ** Theorems *)

(** The values the API admits. *)
Definition known_fingerprinting (m : PodsFingerprintingMode) : Prop :=
  m = PodsFingerprintingDisabled \/ m = PodsFingerprintingEnabled \/ m = PodsFingerprintingEnabledExclusiveResources.
Definition known_refresh (m : InfoRefreshMode) : Prop :=
  m = InfoRefreshPeriodic \/ m = InfoRefreshEvents \/ m = InfoRefreshPeriodicAndEvents.
Definition known_config (c : alpha_NodeGroupConfig) : Prop :=
  (forall m, ac_PodsFingerprinting c = Some m -> known_fingerprinting m) /\
  (forall m, ac_InfoRefreshMode c = Some m -> known_refresh m).
Definition known_group (g : alpha_NodeGroup) : Prop := forall c, ag_Config g = Some c -> known_config c.

(** The configuration a group stands for, in either version. *)
Definition effective_config (c : NodeGroupConfig) : alpha_NodeGroupConfig :=
  mkAlphaConfig (ngc_PodsFingerprinting c) (ngc_InfoRefreshMode c) (ngc_InfoRefreshPeriod c).

Lemma alpha_NormalizeConfig_known g : known_group g -> known_config (alpha_NormalizeConfig g).
Proof.
  unfold known_group, alpha_NormalizeConfig. intros Hg.
  assert (forall d : option bool, known_config
    (match d with Some d => ResetFromNodeGroup alpha_DefaultNodeGroupConfig d | None => alpha_DefaultNodeGroupConfig end)) as Hd.
  { intros [[]|]; split; intros m [= <-]; unfold known_fingerprinting, known_refresh; auto. }
  destruct (ag_Config g) as [[pf rm per]|]; [|apply Hd]. destruct (Hg _ eq_refl) as [H1 H2].
  destruct (Hd (ag_DisablePodsFingerprinting g)) as [H3 H4]. split; simpl.
  - destruct pf; [exact H1|exact H3].
  - destruct rm; [exact H2|exact H4].
Qed.

Lemma alpha_NormalizeConfig_complete g :
  is_Some (ac_PodsFingerprinting (alpha_NormalizeConfig g)) /\ is_Some (ac_InfoRefreshMode (alpha_NormalizeConfig g)) /\
  is_Some (ac_InfoRefreshPeriod (alpha_NormalizeConfig g)).
Proof.
  unfold alpha_NormalizeConfig.
  destruct (ag_DisablePodsFingerprinting g) as [[]|], (ag_Config g) as [[[] [] []]|]; simpl; unfold is_Some; eauto 10.
Qed.

Lemma refresh_mode_known m : known_refresh m -> refresh_mode_to m = Some m.
Proof. intros Hm. unfold refresh_mode_to. by rewrite decide_True. Qed.

Lemma convert_effective c :
  known_config c -> is_Some (ac_PodsFingerprinting c) -> is_Some (ac_InfoRefreshMode c) -> is_Some (ac_InfoRefreshPeriod c) ->
  effective_config (SetDefaults (convertNodeGroupConfigV1Alpha1ToV1 c)) = c.
Proof.
  intros [H1 H2] [m Hm] [r Hr] [p Hp]. destruct c as [pf rm rp]. simpl in *. subst.
  unfold effective_config. simpl. rewrite refresh_mode_known by (by apply H2). simpl.
  destruct (H1 m eq_refl) as [->|[->| ->]]; reflexivity.
Qed.

(** C16: the configuration a node group of v1alpha1 stands for, after defaults and
    with the old switch for fingerprinting, is the one its conversion to v1
    stands for, although the versions have other defaults; and its selector is
    kept. *)
Theorem ConvertTo_effective i :
  Forall known_group (as_NodeGroups (an_Spec i)) ->
  Forall2 (fun g ng => ng_MachineConfigPoolSelector ng = ag_MachineConfigPoolSelector g /\
             effective_config (NormalizeConfig ng) = alpha_NormalizeConfig g)
    (as_NodeGroups (an_Spec i)) (spec_NodeGroups (nro_Spec (ConvertTo i))).
Proof.
  intros Hk. simpl. unfold ConvertToV1NodeGroups. apply Forall2_fmap_r. induction Hk as [|g gs Hg _ IH]; [constructor|].
  constructor; [|done]. split; [done|]. rewrite NormalizeConfig_eq. simpl.
  destruct (alpha_NormalizeConfig_complete g) as (H1 & H2 & H3).
  apply convert_effective; [by apply alpha_NormalizeConfig_known|done..].
Qed.

Lemma convert_back_spec ngs :
  match convert_back_groups ngs with
  | Ret gs => Forall2 (fun ng g => exists c, ng_Config ng = Some c /\
      g = mkAlphaNodeGroup (ng_MachineConfigPoolSelector ng) None (Some (convertNodeGroupConfigV1ToV1Alpha1 c))) ngs gs
  | Panic _ => exists ng, ng ∈ ngs /\ ng_Config ng = None
  end.
Proof.
  induction ngs as [|ng ngs IH]; simpl; [constructor|].
  destruct (ng_Config ng) as [c|] eqn:Ec; cbn [deref go_bind]; [|exists ng; split; [by left|done]].
  destruct (convert_back_groups ngs) as [gs|]; cbn [go_bind].
  - constructor; [by exists c|done].
  - destruct IH as (ng' & Hin & Hn). exists ng'. split; [by right|done].
Qed.

(** C20: converting a resource from v1 to v1alpha1 panics exactly when one of its
    node groups has no configuration, although that field is optional. *)
Theorem ConvertFrom_panics i :
  is_ret (ConvertFrom i) <-> Forall (fun ng => is_Some (ng_Config ng)) (spec_NodeGroups (nro_Spec i)).
Proof.
  unfold ConvertFrom, ConvertFromV1Rote. pose proof (convert_back_spec (spec_NodeGroups (nro_Spec i))) as Hs.
  destruct (convert_back_groups _) as [gs|] eqn:E; cbn [go_bind].
  - split; [intros _|by eexists]. eapply Forall2_Forall_l; [exact Hs|]. apply Forall_forall. intros g _ ng (c & Hc & _). by exists c.
  - split; [by intros [? [=]]|]. intros Hall. destruct Hs as (ng & Hin & Hn). rewrite Forall_forall in Hall.
    destruct (Hall ng Hin) as [c Hc]. congruence.
Qed.





(** the scheduler resource of v1alpha1 survives a round trip through v1. *)
Theorem sched_ConvertTo_roundtrip s : sched_ConvertFromV1Rote (sched_ConvertToV1Rote s) = s.
Proof. by destruct s as [m [] []]. Qed.

(** ** Witnesses *)

Definition alpha_example : alpha_NRO :=
  mkAlphaNRO (emptyMeta "numaresourcesoperator" "")
    (mkAlphaSpec
       [mkAlphaNodeGroup (Some (match_label "pool" "worker")) (Some true) None;
        mkAlphaNodeGroup (Some (match_label "pool" "infra")) None (Some (mkAlphaConfig None (Some InfoRefreshEvents) None))]
       "" "Normal" [])
    (mkAlphaStatus [mkNamespacedName "numaresources" "numaresourcesoperator-worker"]
       [mkAlphaMCP "worker" [] (Some (mkAlphaConfig (Some PodsFingerprintingDisabled) None None))] []).

Lemma alpha_example_known g : g ∈ as_NodeGroups (an_Spec alpha_example) -> known_group g.
Proof.
  intros [->|[->|[]%not_elem_of_nil]%elem_of_cons]%elem_of_cons c [= <-]. split; intros m [= <-]. by right; left.
Qed.

Lemma ConvertTo_effective_witness :
  (fun ng => effective_config (NormalizeConfig ng)) <$> spec_NodeGroups (nro_Spec (ConvertTo alpha_example))
  = [mkAlphaConfig (Some PodsFingerprintingDisabled) (Some InfoRefreshPeriodicAndEvents) (Some (10 * Duration.Second)%Z);
     mkAlphaConfig (Some PodsFingerprintingEnabled) (Some InfoRefreshEvents) (Some (10 * Duration.Second)%Z)].
Proof.
  assert (Forall known_group (as_NodeGroups (an_Spec alpha_example))) as Hk
    by (apply Forall_forall; exact alpha_example_known).
  pose proof (ConvertTo_effective alpha_example Hk) as H2.
  inversion H2 as [|g1 ng1 gs1 ngs1 [_ E1] H3 Eg1 Eng1]. inversion H3 as [|g2 ng2 gs2 ngs2 [_ E2] H4 Eg2 Eng2].
  inversion H4 as [Eg3 Eng3|]. simpl. rewrite E1, E2. reflexivity.
Defined.

