(* ===== verification/Kubelet.v ===== *)
(** * The KubeletConfig controller
    (internal/controller/kubeletconfig_controller.go, pkg/kubeletconfig,
    rte/pkg/config, pkg/objectstate/cfg, internal/machineconfigpools)

    For every kubelet configuration of a pool of nodes, the controller keeps a
    config map with the settings the exporter of this pool needs. On HyperShift
    the deleted configurations are queued in the reconciler, so it is threaded. *)
From S2P Require Import Prelude GoErrors Meta ApiV1 Conditions Steps Trees Workload.
From S2P Require Import RteUpdate Objects MergeSpec Cluster Apply RteState Dangling Controller.

(** ** Third-party data *)

(** The kubelet's own configuration: what is read of it, and the rest. *)
Record KubeletConfiguration := mkKubeletConfiguration {
  kl_TopologyManagerPolicy : string; kl_TopologyManagerScope : string; kl_other : string }.

(** The resource that carries one to a pool of nodes, as raw bytes. *)
Record KubeletConfig := mkKubeletConfig {
  kc_Meta : ObjectMeta;
  kc_MachineConfigPoolSelector : option LabelSelector;
  kc_KubeletConfig : option string }.

Definition kc_with_Raw (raw : option string) (kc : KubeletConfig) : KubeletConfig :=
  mkKubeletConfig (kc_Meta kc) (kc_MachineConfigPoolSelector kc) raw.

(** ** The exporter's configuration file (rte/pkg/config) *)

Module rteconfig.
Definition Key : string := "config.yaml".
Definition LabelOperatorName : string := "numaresourcesoperator.nodetopology.openshift.io/name".
Definition LabelNodeGroupName : string := "nodegroup.nodetopology.openshift.io".
Definition LabelNodeGroupKindMachineConfigPool : string := "machineconfigpool".

Record KubeletParams := mkKubeletParams { kp_TopologyManagerPolicy : string; kp_TopologyManagerScope : string }.

(** [podexclude.Item] *)
Record PodExclude := mkPodExclude { pex_NamespacePattern : string; pex_NamePattern : string }.

Record Config := mkConfig {
  conf_Kubelet : KubeletParams;
  conf_ResourceExclude : gmap string (list string);
  conf_PodExclude : list PodExclude }.

(** The value [Render] prints. *)
Definition config_of (klConfig : KubeletConfiguration) (podExcludes : list NamespacedName) : Config :=
  let conf := mkConfig (mkKubeletParams (kl_TopologyManagerPolicy klConfig) (kl_TopologyManagerScope klConfig)) ∅ [] in
  if decide (0 < length podExcludes)%nat
  then mkConfig (conf_Kubelet conf) (conf_ResourceExclude conf)
         (fold_left (fun acc pex => acc ++ [mkPodExclude (nn_Namespace pex) (nn_Name pex)]) podExcludes [])
  else conf.

Definition CreateConfigMap (namespace name configData : string) : ConfigMap :=
  mkConfigMap (emptyMeta name namespace) (Some {[Key := configData]}) None.

(** Fills the labels of the config map in place. *)
Definition AddSoftRefLabels (cm : ConfigMap) (instanceName mcpName : string) : ConfigMap :=
  let labels := map_of (om_Labels (cm_Meta cm)) in
  let labels := <[LabelOperatorName := instanceName]> labels in
  let labels := <[LabelNodeGroupName +:+ "/" +:+ LabelNodeGroupKindMachineConfigPool := mcpName]> labels in
  mkConfigMap (om_set_Labels (Some labels) (cm_Meta cm)) (cm_Data cm) (cm_BinaryData cm).

Definition UnpackConfigMap (cm : option ConfigMap) : string + error :=
  match cm with
  | None => inr (ErrNew "nil config map")
  | Some cm =>
      let name := om_Namespace (cm_Meta cm) +:+ "/" +:+ om_Name (cm_Meta cm) in
      match cm_Data cm with
      | None => inr (ErrNew ("missing data in config map " +:+ name))
      | Some data =>
          match data !! Key with
          | None => inr (ErrNew ("missing expected key " +:+ quote Key +:+ " in config map " +:+ name))
          | Some configData => inl configData
          end
      end
  end.
End rteconfig.

(** What is used of the JSON and YAML libraries on these types. *)
Class KubeletLib := {
  kubelet_Unmarshal : string -> KubeletConfiguration + error;
  kubelet_Marshal : KubeletConfiguration -> string + error;
  mco_Decode : string -> KubeletConfig + error;
  conf_Marshal : rteconfig.Config -> string + error;
  conf_Unmarshal : string -> rteconfig.Config + error;
}.

Section Codec.
Context `{KubeletLib}.

Definition Render (klConfig : KubeletConfiguration) (podExcludes : list NamespacedName) : string + error :=
  conf_Marshal (rteconfig.config_of klConfig podExcludes).

Definition Unrender (data : string) : rteconfig.Config + error := conf_Unmarshal data.

Definition MissingPayloadError : error := ErrNew "missing kubeletconfig payload".

Definition MCOKubeletConfToKubeletConf (mcoKc : KubeletConfig) : KubeletConfiguration + error :=
  match kc_KubeletConfig mcoKc with
  | None => inr MissingPayloadError
  | Some raw => kubelet_Unmarshal raw
  end.

(** Writes the payload of an object that has one; what a failed encoding writes
    is nil. *)
Definition KubeletConfToMCKubeletConf (kcObj : KubeletConfiguration) (kcAsMc : KubeletConfig)
  : KubeletConfig * option error :=
  match kc_KubeletConfig kcAsMc with
  | None => (kcAsMc, Some MissingPayloadError)
  | Some _ =>
      match kubelet_Marshal kcObj with
      | inl raw => (kc_with_Raw (Some raw) kcAsMc, None)
      | inr err => (kc_with_Raw (Some "") kcAsMc, Some err)
      end
  end.

Definition DecodeFromData (data : string) : KubeletConfig + error := mco_Decode data.
End Codec.

(** ** Machine config pools (internal/machineconfigpools) *)

(** What the controller asks of the client besides objects. *)
Class KubeletClient (W : Type) := {
  cli_GetKubeletConfig : W -> NamespacedName -> KubeletConfig + error;
  cli_ListKubeletConfigs : W -> list KubeletConfig + error;
  cli_ListConfigMaps : W -> string -> gmap string string -> list ConfigMap + error;
}.

(** [NotFound] is told apart from the other errors by [errors.As]. *)
Inductive find_error :=
| NotFound (Selector : string)
| FindError (err : error).

Section Pools.
Context `{SelectorLib}.

Fixpoint find_matching (Matches : gmap string string -> bool) (mcps : list MachineConfigPool) : option MachineConfigPool :=
  match mcps with
  | [] => None
  | mcp :: rest => if Matches (mcp_Labels mcp) then Some mcp else find_matching Matches rest
  end.

Definition FindBySelector (mcps : list MachineConfigPool) (sel : option LabelSelector)
  : MachineConfigPool + find_error :=
  match sel with
  | None => inr (NotFound "")
  | Some sel =>
      match LabelSelectorAsSelector sel with
      | inr err => inr (FindError err)
      | inl Matches =>
          match find_matching Matches mcps with
          | Some mcp => inl mcp
          | None => inr (NotFound (LabelSelector_String sel))
          end
      end
  end.

Definition GetListByNodeGroupsV1 {W} `{!Client W} (show_node_group : NodeGroup -> string) (w : W)
  (nodeGroups : list NodeGroup) : list MachineConfigPool + error :=
  match cli_ListMCP w with
  | inr err => inr err
  | inl mcps => FindMachineConfigPools show_node_group mcps nodeGroups
  end.
End Pools.

(** ** The reconciler *)

Record KubeletReconciler := mkKubeletReconciler {
  kr_Namespace : string;
  kr_Platform : platform.Platform;
  kr_garbageCollectionFor : list ConfigMap }.

Definition kr_with_garbage (cms : list ConfigMap) (r : KubeletReconciler) : KubeletReconciler :=
  mkKubeletReconciler (kr_Namespace r) (kr_Platform r) cms.

Definition kubeletConfigRetryPeriod : Z := (30 * Duration.Second)%Z.
Definition HypershiftKubeletConfigConfigMapLabel : string := "hypershift.openshift.io/kubeletconfig-config".
Definition HyperShiftNodePoolLabel : string := "hypershift.openshift.io/nodePool".
Definition HyperShiftConfigMapConfigKey : string := "config".
Definition HyperShiftKubeletConfigConfigMapNamespace : string := "openshift-config-managed".

(** The errors of a reconciliation: the configurations to ignore, with the
    selector that matched no pool if there is one, and the others. *)
Inductive kc_error :=
| InvalidKubeletConfig (ObjectName : string) (Err : option string)
| KcError (err : error).

(** The owner is given by its metadata; [kh_setCtrlRef] returns the object it
    writes. *)
Record kubeletConfigHandler := mkKcHandler {
  kh_ownerObject : ObjectMeta;
  kh_mcoKc : KubeletConfig;
  kh_poolName : string;
  kh_setCtrlRef : ObjectMeta -> Object -> Object * option error }.

Definition mcoAPIVersion : string := "machineconfiguration.openshift.io/v1".

(** [NamespacedName.String()] of two keys. *)
Fixpoint getDeletedOwner (kcKey : NamespacedName) (ownerConfigMaps : list ConfigMap) : option ConfigMap :=
  match ownerConfigMaps with
  | [] => None
  | cm :: rest => if decide (nn_String (om_key (cm_Meta cm)) = nn_String kcKey) then Some cm
                  else getDeletedOwner kcKey rest
  end.

(** The keys themselves, here. *)
Fixpoint removeDeletedOwner (kcKey : NamespacedName) (ownerConfigMaps : list ConfigMap) : list ConfigMap :=
  match ownerConfigMaps with
  | [] => []
  | cm :: rest => if decide (om_key (cm_Meta cm) = kcKey) then rest else cm :: removeDeletedOwner kcKey rest
  end.

Section Kubelet.
Context {W : Type} `{!Client W} `{!KubeletClient W} `{!SelectorLib} `{!KubeletLib}.
(** The text of a [%+v] of a node group. *)
Variable show_node_group : NodeGroup -> string.

(** The config map of a pool, named for the instance; [None] next to the state
    when there is nothing to delete. *)
Definition deleteConfigMap (w : W) (r : KubeletReconciler) (instance : NUMAResourcesOperator) (kcKey : NamespacedName)
  : W * KubeletReconciler * option (ConfigMap * option error) :=
  match getDeletedOwner kcKey (kr_garbageCollectionFor r) with
  | None => (w, r, None)
  | Some cm =>
      let nodePoolName := default "" (map_of (om_Labels (cm_Meta cm)) !! HyperShiftNodePoolLabel) in
      let generatedName := objectnames.GetComponentName (nro_Name instance) nodePoolName in
      let dependentCM := mkObject "" "" (emptyMeta generatedName (kr_Namespace r)) (BConfigMap None None) in
      let '(w, err) := cli_Delete w dependentCM in
      let done := (w, kr_with_garbage (removeDeletedOwner kcKey (kr_garbageCollectionFor r)) r, Some (cm, None)) in
      match err with
      | Some err => if negb (IsNotFound err) then (w, r, Some (cm, Some err)) else done
      | None => done
      end
  end.

Definition makeKCHandlerForPlatform (w : W) (r : KubeletReconciler) (instance : NUMAResourcesOperator)
  (kcKey : NamespacedName) : kubeletConfigHandler + kc_error :=
  match kr_Platform r with
  | platform.OpenShift =>
      match cli_GetKubeletConfig w kcKey with
      | inr err => inr (KcError err)
      | inl mcoKc =>
          match GetListByNodeGroupsV1 show_node_group w (spec_NodeGroups (nro_Spec instance)) with
          | inr err => inr (KcError err)
          | inl mcps =>
              match FindBySelector mcps (kc_MachineConfigPoolSelector mcoKc) with
              | inr (NotFound sel) => inr (InvalidKubeletConfig (nn_Name kcKey) (Some sel))
              | inr (FindError err) => inr (KcError err)
              | inl mcp =>
                  match kc_KubeletConfig mcoKc with
                  | None => inr (InvalidKubeletConfig (nn_Name kcKey) None)
                  | Some _ =>
                      inl (mkKcHandler (kc_Meta mcoKc) mcoKc (mcp_Name mcp)
                             (controllerutil.SetControllerReferenceAt mcoAPIVersion "KubeletConfig"))
                  end
              end
          end
      end
  | platform.HyperShift =>
      match cli_Get w TConfigMap kcKey with
      | inr err => inr (KcError err)
      | inl cmKc =>
          let nodePoolName := default "" (map_of (om_Labels (obj_Meta cmKc)) !! HyperShiftNodePoolLabel) in
          let kcData := default "" (map_of (object_cm cmKc ≫= cm_Data) !! HyperShiftConfigMapConfigKey) in
          match DecodeFromData kcData with
          | inr err => inr (KcError err)
          | inl mcoKc =>
              match kc_KubeletConfig mcoKc with
              | None => inr (InvalidKubeletConfig (nn_Name kcKey) None)
              | Some _ => inl (mkKcHandler (obj_Meta cmKc) mcoKc nodePoolName (fun _ o => (o, None)))
              end
          end
      end
  | _ => inr (KcError (ErrNew ("unsupported platform: " +:+ platform_String (kr_Platform r))))
  end.

(** [cfgstate.FromClient] and [State]: the one state, of the desired config map. *)
Definition cfg_State (w : W) (config : ConfigMap) : list ObjectState :=
  [state_of w TConfigMap (cm_object config) ObjectForUpdate].

Fixpoint apply_configs (w : W) (kcHandler : kubeletConfigHandler) (states : list ObjectState) : go (W * option error) :=
  match states with
  | [] => Ret (w, None)
  | objState :: rest =>
      let! desired := iface_deref (os_Desired objState) in
      let '(desired, err) := kh_setCtrlRef kcHandler (kh_ownerObject kcHandler) desired in
      match err with
      | Some err =>
          Ret (w, Some (ErrWrap ("failed to set controller reference to " +:+ obj_Namespace desired +:+ " "
                                   +:+ obj_Name desired +:+ ": ") err))
      | None =>
          let! (w, (_, _, err)) := ApplyObject w (os_with_Desired (IObj desired) objState) in
          match err with
          | Some err => Ret (w, Some (ErrWrap ("could not create " +:+ gvk_String desired +:+ ": ") err))
          | None => apply_configs w kcHandler rest
          end
      end
  end.

Definition syncConfigMap (w : W) (r : KubeletReconciler) (kubeletConfig : KubeletConfiguration)
  (instance : NUMAResourcesOperator) (kcHandler : kubeletConfigHandler) : go (W * (ConfigMap + error)) :=
  let generatedName := objectnames.GetComponentName (nro_Name instance) (kh_poolName kcHandler) in
  match Render kubeletConfig (spec_PodExcludes (nro_Spec instance)) with
  | inr err => Ret (w, inr err)
  | inl data =>
      let rendered := rteconfig.CreateConfigMap (kr_Namespace r) generatedName data in
      let rendered := rteconfig.AddSoftRefLabels rendered (nro_Name instance) (kh_poolName kcHandler) in
      let! (w, err) := apply_configs w kcHandler (cfg_State w rendered) in
      Ret (w, match err with Some err => inr err | None => inl rendered end)
  end.

(** The sum of an error and a value: what comes next to an error is not used. *)
Definition reconcileConfigMap (w : W) (r : KubeletReconciler) (instance : NUMAResourcesOperator) (kcKey : NamespacedName)
  : go (W * KubeletReconciler * (ConfigMap + kc_error)) :=
  match deleteConfigMap w r instance kcKey with
  | (w, r, Some (cm, None)) => Ret (w, r, inl cm)
  | (w, r, Some (cm, Some err)) => Ret (w, r, inr (KcError err))
  | (w, r, None) =>
      match makeKCHandlerForPlatform w r instance kcKey with
      | inr err => Ret (w, r, inr err)
      | inl kcHandler =>
          match MCOKubeletConfToKubeletConf (kh_mcoKc kcHandler) with
          | inr err => Ret (w, r, inr (KcError err))
          | inl kubeletConfig =>
              let! (w, res) := syncConfigMap w r kubeletConfig instance kcHandler in
              Ret (w, r, match res with inl cm => inl cm | inr err => inr (KcError err) end)
          end
      end
  end.

Definition kc_Reconcile (w : W) (r : KubeletReconciler) (req : NamespacedName)
  : go (W * KubeletReconciler * (Result * option error)) :=
  match cli_GetNRO w (mkNamespacedName "" objectnames.DefaultNUMAResourcesOperatorCrName) with
  | inr err =>
      Ret (w, r, if IsNotFound err then (mkResult kubeletConfigRetryPeriod, None) else (mkResult 0, Some err))
  | inl instance =>
      let! (w, r, res) := reconcileConfigMap w r instance req in
      Ret (w, r, match res with
                 | inl _ | inr (InvalidKubeletConfig _ _) => (mkResult 0, None)
                 | inr (KcError err) => (mkResult 0, Some err)
                 end)
  end.

(** ** Watches *)

Definition numaResourcesOperatorToKubeletConfig (w : W) (r : KubeletReconciler) : list NamespacedName :=
  let requests :=
    if decide (kr_Platform r = platform.OpenShift) then
      let items := match cli_ListKubeletConfigs w with inl l => l | inr _ => [] end in
      fold_left (fun requests kc => requests ++ [mkNamespacedName "" (om_Name (kc_Meta kc))]) items []
    else [] in
  if decide (kr_Platform r = platform.HyperShift) then
    let items := match cli_ListConfigMaps w HyperShiftKubeletConfigConfigMapNamespace
                         {[HypershiftKubeletConfigConfigMapLabel := "true"]} with inl l => l | inr _ => [] end in
    fold_left (fun requests cm => requests ++ [om_key (cm_Meta cm)]) items requests
  else requests.
End Kubelet.

(** The events of a watch, on the objects they carry. *)
Inductive watch_event (A : Type) :=
| CreateEvent (o : A)
| UpdateEvent (old new : A)
| DeleteEvent (o : A)
| GenericEvent (o : A).
Arguments CreateEvent {A}.
Arguments UpdateEvent {A}.
Arguments DeleteEvent {A}.
Arguments GenericEvent {A}.

(** The predicates decide whether an event starts a reconciliation; a missing one
    lets the event through. On HyperShift a deletion is queued on the way. *)
Definition openshift_predicate (e : watch_event KubeletConfig) : bool :=
  match e with
  | DeleteEvent _ => false
  | _ => true
  end.

Definition has_kubelet_label (cm : ConfigMap) : bool :=
  bool_decide (is_Some (map_of (om_Labels (cm_Meta cm)) !! HypershiftKubeletConfigConfigMapLabel)).

Definition hypershift_predicate (r : KubeletReconciler) (e : watch_event ConfigMap) : KubeletReconciler * bool :=
  match e with
  | CreateEvent o | GenericEvent o => (r, has_kubelet_label o)
  | UpdateEvent _ new => (r, has_kubelet_label new)
  | DeleteEvent kubelet =>
      if negb (has_kubelet_label kubelet) then (r, false)
      else (kr_with_garbage (kr_garbageCollectionFor r ++ [kubelet]) r, true)
  end.

Definition numaResourcesOperatorPredicate (e : watch_event NUMAResourcesOperator) : bool :=
  match e with
  | UpdateEvent nroOld nroNew =>
      bool_decide (spec_NodeGroups (nro_Spec nroOld) = spec_NodeGroups (nro_Spec nroNew))
  | _ => true
  end.
