(* ===== verification/KubeletSpec.v ===== *)
(** * What the KubeletConfig controller does

    Which configurations are served, what a reconciliation leaves in the cluster
    for them, and how deleted ones are cleaned up. *)
From S2P Require Import Prelude GoErrors Meta Selectors ApiV1 Conditions Steps Trees Workload.
From S2P Require Import RteUpdate Objects MergeSpec Cluster Apply RteState Dangling Controller Scenario Install WriteFrame Kubelet.

(** ** The configuration file *)

(** ASCII text, which the encoders keep as it is. *)
Definition is_text (s : string) : bool :=
  forallb (fun c => Ascii.nat_of_ascii c <? 128)%nat (String.list_ascii_of_string s).

Definition conf_text (c : rteconfig.Config) : Prop :=
  is_text (rteconfig.kp_TopologyManagerPolicy (rteconfig.conf_Kubelet c)) = true /\
  is_text (rteconfig.kp_TopologyManagerScope (rteconfig.conf_Kubelet c)) = true /\
  Forall (fun p => is_text (rteconfig.pex_NamespacePattern p) = true /\ is_text (rteconfig.pex_NamePattern p) = true)
    (rteconfig.conf_PodExclude c).

(** A printed configuration without resource exclusions is read back. *)
Class KubeletLaws `{!KubeletLib} := {
  conf_roundtrip c data : conf_text c -> rteconfig.conf_ResourceExclude c = ∅ ->
    conf_Marshal c = inl data -> conf_Unmarshal data = inl c;
}.



Section KubeletSpec.
Context {W : Type} `{!Client W} `{!KubeletClient W} `{!SelectorLib} `{!KubeletLib}.
Context (show_node_group : NodeGroup -> string).
Context (healthy : W -> Prop) `{!ClientLaws W healthy}.



(** ** The pool of a configuration *)






(** ** The config map of a pool *)






(** ** Deleted configurations *)

Lemma getDeletedOwner_Some req cms cm :
  getDeletedOwner req cms = Some cm -> cm ∈ cms /\ nn_String (om_key (cm_Meta cm)) = nn_String req.
Proof.
  induction cms as [|c cms IH]; simpl; [done|]. case_decide as E; [intros [= ->]; split; [by left|done]|].
  intros Hg. destruct (IH Hg). split; [by right|done].
Qed.

End KubeletSpec.

(** ** The cleanup queue over a run *)

Section Queue.
Context {W : Type} `{!Client W} `{!KubeletClient W} `{!SelectorLib} `{!KubeletLib}.
Context (show_node_group : NodeGroup -> string).







End Queue.

(** ** A cluster with kubelet configurations *)

(** A codec for configuration files: every string is escaped and terminated. *)
Fixpoint enc (s rest : string) : string :=
  match s with
  | EmptyString => String ";" rest
  | String c s => String "." (String c (enc s rest))
  end.

Fixpoint dec (data : string) : list string :=
  match data with
  | EmptyString => []
  | String "." (String c rest) =>
      match dec rest with
      | s :: l => String c s :: l
      | [] => []
      end
  | String _ rest => "" :: dec rest
  end.

Lemma dec_enc s rest : dec (enc s rest) = s :: dec rest.
Proof. induction s as [|c s IH]; [done|]. cbn [enc dec]. by rewrite IH. Qed.

Fixpoint dec_excludes (l : list string) : list rteconfig.PodExclude :=
  match l with
  | ns :: n :: l => rteconfig.mkPodExclude ns n :: dec_excludes l
  | _ => []
  end.

Definition enc_excludes (l : list rteconfig.PodExclude) : string :=
  foldr (fun p acc => enc (rteconfig.pex_NamespacePattern p) (enc (rteconfig.pex_NamePattern p) acc)) "" l.

Lemma dec_enc_excludes l : dec_excludes (dec (enc_excludes l)) = l.
Proof. induction l as [|[ns n] l IH]; [done|]. simpl. rewrite !dec_enc. simpl. by rewrite IH. Qed.

(** Payloads are a policy and a scope, and documents are payloads. *)
#[global] Instance scenario_kubelet : KubeletLib := {|
  kubelet_Unmarshal raw := match dec raw with
                           | [p; s] => inl (mkKubeletConfiguration p s "")
                           | _ => inr (ErrNew "unexpected end of JSON input")
                           end;
  kubelet_Marshal kl := inl (enc (kl_TopologyManagerPolicy kl) (enc (kl_TopologyManagerScope kl) ""));
  mco_Decode data := inl (mkKubeletConfig (emptyMeta "" "") None (Some data));
  conf_Marshal c := inl (enc (rteconfig.kp_TopologyManagerPolicy (rteconfig.conf_Kubelet c))
                           (enc (rteconfig.kp_TopologyManagerScope (rteconfig.conf_Kubelet c))
                              (enc_excludes (rteconfig.conf_PodExclude c))));
  conf_Unmarshal data := match dec data with
                         | p :: s :: l => inl (rteconfig.mkConfig (rteconfig.mkKubeletParams p s) ∅ (dec_excludes l))
                         | _ => inr (ErrNew "unexpected end of JSON input")
                         end |}.

#[global] Instance scenario_kubelet_laws : KubeletLaws.
Proof.
  split. intros [[p s] re ex] data _ Hre [= <-]. simpl in *. subst re. rewrite !dec_enc. by rewrite dec_enc_excludes.
Qed.

Definition policy_raw : string := enc "single-numa-node" (enc "container" "").

Definition scenario_kc : KubeletConfig :=
  mkKubeletConfig (mkObjectMeta "kc" "" "" "uid-kc" "" 1 0 None None [] [] []) (Some (match_label "pool" "worker"))
    (Some policy_raw).

(** The cluster of the scenario, with one kubelet configuration. *)
#[global] Instance scenario_kubelet_client : KubeletClient Store := {|
  cli_GetKubeletConfig _ k := if decide (k = mkNamespacedName "" "kc") then inl scenario_kc
                              else inr (NewNotFound (nn_String k));
  cli_ListKubeletConfigs _ := inl [scenario_kc];
  cli_ListConfigMaps w ns sel :=
    inl (omap (fun o => cm ← object_cm o; if decide (om_Namespace (cm_Meta cm) = ns /\ sel ⊆ map_of (om_Labels (cm_Meta cm)))
                                          then Some cm else None)
           (snd <$> map_to_list (st_objects w))) |}.



(** ** Witnesses *)










