(* ===== verification/Watches.v ===== *)
(** * What starts a reconciliation

    The watches of the three controllers, as they register them, with the events
    of objects they turn into requests. Then the loop is closed: whoever deletes or
    changes a shared object of the exporters that is watched, the request this
    starts puts it back. *)
From S2P Require Import Prelude GoErrors Meta Selectors ApiV1 Conditions Steps Trees Validation FlagCodec.
From S2P Require Import Workload RteUpdate RteUpdateSpec Objects MergeSpec Cluster Apply RteState Dangling.
From S2P Require Import Controller Scenario Install WriteFrame Willing MachineConfigSpec DaemonSetSpec Rollout Setup.
From S2P Require Import NoPanic Steady Progress SchedParams SchedApi SchedUpdate SchedState SchedController Kubelet.

(** ** Events and handlers of the framework *)

(** The objects an event carries, and the one a filter on objects looks at. *)
Definition event_objects {A} (e : watch_event A) : list A :=
  match e with
  | CreateEvent o | DeleteEvent o | GenericEvent o => [o]
  | UpdateEvent old new => [old; new]
  end.

Definition event_object {A} (e : watch_event A) : A :=
  match e with
  | CreateEvent o | DeleteEvent o | GenericEvent o => o
  | UpdateEvent _ new => new
  end.

(** [predicate.Funcs] with an update function only, or with none. *)
Definition on_updates {A} (p : A -> A -> bool) (e : watch_event A) : bool :=
  match e with
  | UpdateEvent old new => p old new
  | _ => true
  end.

(** The request for the controller of an object, if that is of the watching kind. *)
Definition owner_request (group kind : string) (namespaced : bool) (o : Object) : list NamespacedName :=
  match controllerutil.GetControllerOf (om_OwnerReferences (obj_Meta o)) with
  | Some ref =>
      if decide (or_Kind ref = kind /\ controllerutil.group_of (or_APIVersion ref) = Some group)
      then [mkNamespacedName (if namespaced then obj_Namespace o else "") (or_Name ref)] else []
  | None => []
  end.

(** ** The registrations *)

(** What a controller watches besides the objects it is for: objects it owns, with
    or without the filter on their updates; objects its requests are computed from. *)
Inductive source :=
| Owns (t : gotype) (filtered : bool)
| WatchesPools
| WatchesConfigMaps
| WatchesNodes
| WatchesInstances.

(** [NUMAResourcesOperatorReconciler.SetupWithManager] *)
Definition SetupWithManager (plat : platform.Platform) : list source :=
  (if decide (plat = platform.OpenShift)
   then [WatchesPools; Owns TSecurityContextConstraints false; Owns TMachineConfig true] else []) ++
  [WatchesConfigMaps; Owns TCustomResourceDefinition false; Owns TServiceAccount true; Owns TRoleBinding true;
   Owns TRole true; Owns TDaemonSet true].

(** [NUMAResourcesSchedulerReconciler.SetupWithManager] *)
Definition sched_SetupWithManager : list source :=
  [Owns TClusterRole true; Owns TClusterRoleBinding true; Owns TServiceAccount true; Owns TConfigMap true;
   Owns TDeployment true; WatchesNodes].

(** [KubeletConfigReconciler.SetupWithManager], which is for kubelet configurations
    or for the config maps that hold them, and fails elsewhere. *)
Definition kc_SetupWithManager (plat : platform.Platform) : option (list source) :=
  match plat with
  | platform.OpenShift | platform.HyperShift => Some [Owns TConfigMap false; WatchesInstances]
  | _ => None
  end.

Definition operatorGroup : string := "nodetopology.openshift.io".

Section Requests.
Context {W : Type} `{!Client W} `{!SchedClient W} `{!KubeletClient W} `{SelectorLib}.

(** The requests an event on an object starts. *)
Definition owned_requests (group kind : string) (namespaced : bool) (changed : Object -> Object -> bool)
  (t : gotype) (filtered : bool) (e : watch_event Object) : list NamespacedName :=
  if forallb (fun o => bool_decide (obj_type o = t)) (event_objects e) && (negb filtered || on_updates changed e)
  then event_objects e ≫= owner_request group kind namespaced else [].

Definition nro_requests (w : W) (plat : platform.Platform) (e : watch_event Object) : list NamespacedName :=
  SetupWithManager plat ≫= fun src =>
    match src with
    | Owns t filtered =>
        owned_requests operatorGroup controllerutil.ownerKind false (fun old new => owned_predicate (Some old) (Some new))
          t filtered e
    | WatchesConfigMaps =>
        if forallb (fun o => bool_decide (obj_type o = TConfigMap)) (event_objects e)
           && configmap_predicate (om_Labels (obj_Meta (event_object e)))
        then event_objects e ≫= fun o => configMapToNUMAResourceOperator w (obj_key o) else []
    | _ => []
    end.

(** Of events on pools, on instances and on nodes. *)
Definition nro_pool_requests (w : W) (plat : platform.Platform) (e : watch_event MachineConfigPool) : list NamespacedName :=
  SetupWithManager plat ≫= fun src =>
    match src with
    | WatchesPools =>
        if on_updates (fun old new => mcp_predicate (Some old) (Some new)) e
        then event_objects e ≫= fun mcp => mcpToNUMAResourceOperator w (mkNamespacedName "" (mcp_Name mcp)) else []
    | _ => []
    end.

Definition nro_own_requests (e : watch_event NUMAResourcesOperator) : list NamespacedName :=
  [om_key (nro_Meta (event_object e))].

Definition sched_requests (e : watch_event Object) : list NamespacedName :=
  sched_SetupWithManager ≫= fun src =>
    match src with
    | Owns t filtered =>
        owned_requests operatorGroup schedOwnerKind false
          (fun old new => sched_owned_predicate (obj_Meta old) (obj_Meta new)) t filtered e
    | _ => []
    end.

(** Nodes matter when they come and go. *)
Definition sched_node_requests {A} (w : W) (e : watch_event A) : list NamespacedName :=
  if on_updates (fun _ _ => false) e then event_objects e ≫= fun _ => nodeToNUMAResourcesScheduler w else [].

(** The config maps a kubelet configuration owns; where the configurations are
    config maps themselves the owner is in the namespace of the owned one. *)
Definition kc_requests (plat : platform.Platform) (e : watch_event Object) : list NamespacedName :=
  default [] (kc_SetupWithManager plat) ≫= fun src =>
    match src with
    | Owns t filtered =>
        if decide (plat = platform.OpenShift)
        then owned_requests "machineconfiguration.openshift.io" "KubeletConfig" false (fun _ _ => true) t filtered e
        else owned_requests "" "ConfigMap" true (fun _ _ => true) t filtered e
    | _ => []
    end.

(** The controller is for kubelet configurations on OpenShift, whose deletion it does
    not need to know, and for labelled config maps on HyperShift, whose deletion it
    queues. *)
Definition kc_own_requests (e : watch_event KubeletConfig) : list NamespacedName :=
  if openshift_predicate e then [om_key (kc_Meta (event_object e))] else [].
Definition kc_own_map_requests (r : KubeletReconciler) (e : watch_event ConfigMap) : KubeletReconciler * list NamespacedName :=
  let '(r, pass) := hypershift_predicate r e in
  (r, if pass : bool then [om_key (cm_Meta (event_object e))] else []).

Definition kc_instance_requests (w : W) (r : KubeletReconciler) (e : watch_event NUMAResourcesOperator) : list NamespacedName :=
  if numaResourcesOperatorPredicate e then event_objects e ≫= fun _ => numaResourcesOperatorToKubeletConfig w r else [].
End Requests.

(** ** What is noticed *)






Section Noticed.
Context {W : Type} `{!Client W}.




(** The config map the third controller writes for a pool of the instance wakes the
    first one up: the hash of the pool's daemon set follows it. *)
Lemma config_map_noticed w plat i cm pool :
  let o := cm_object (rteconfig.AddSoftRefLabels cm (nro_Name i) pool) in
  cli_Get w TConfigMap (obj_key o) = inl o -> cli_GetNRO w (mkNamespacedName "" (nro_Name i)) = inl i ->
  forall e, e = CreateEvent o \/ (exists old, e = UpdateEvent old o /\ obj_type old = TConfigMap) ->
  mkNamespacedName "" (nro_Name i) ∈ nro_requests w plat e.
Proof.
  intros o Hg Hi e He. unfold nro_requests. apply list_elem_of_bind. exists WatchesConfigMaps. split.
  2: { unfold SetupWithManager. apply elem_of_app. right. by left. }
  assert (map_of (om_Labels (obj_Meta o)) !! LabelOperatorName = Some (nro_Name i)) as Hl.
  { unfold o. simpl. rewrite lookup_insert_ne by done. by rewrite lookup_insert_eq. }
  assert (mkNamespacedName "" (nro_Name i) ∈ configMapToNUMAResourceOperator w (obj_key o)) as Hreq.
  { unfold configMapToNUMAResourceOperator. rewrite Hg, Hl, Hi. by left. }
  assert (configmap_predicate (om_Labels (obj_Meta o)) = true) as Hp.
  { unfold configmap_predicate. rewrite Hl. by apply bool_decide_true. }
  destruct He as [->|(old & -> & Hty)]; cbn [event_objects event_object forallb].
  - rewrite Hp, bool_decide_true by done. cbn [andb]. apply list_elem_of_bind. exists o. split; [done|by left].
  - rewrite Hty, Hp, !bool_decide_true by done. cbn [andb]. apply list_elem_of_bind. exists o. split; [done|by right; left].
Qed.

(** Cluster-wide permissions, services and network policies are not watched: what
    happens to them starts nothing. *)
Lemma not_noticed w plat e :
  obj_type (event_object e) ∈ [TClusterRole; TClusterRoleBinding; TService; TNetworkPolicy] -> nro_requests w plat e = [].
Proof.
  intros Ht.
  assert (forall t filtered group kind n p, t ∉ [TClusterRole; TClusterRoleBinding; TService; TNetworkPolicy] ->
    owned_requests group kind n p t filtered e = []) as Hno.
  { intros t filtered group kind n p Hn. unfold owned_requests.
    destruct (forallb _ (event_objects e)) eqn:Hall; [|done]. exfalso. apply Hn.
    rewrite forallb_forall in Hall. specialize (Hall (event_object e)).
    apply bool_decide_eq_true in Hall as <-; [done|]. destruct e; simpl; tauto. }
  assert (forallb (fun o => bool_decide (obj_type o = TConfigMap)) (event_objects e) = false) as Hcm.
  { apply not_true_is_false. rewrite forallb_forall. intros Hall. specialize (Hall (event_object e)).
    assert (In (event_object e) (event_objects e)) as Hin by (destruct e; simpl; tauto).
    apply Hall, bool_decide_eq_true in Hin. rewrite Hin in Ht. set_solver. }
  unfold nro_requests, SetupWithManager. case_decide; cbn [mbind list_bind app]; rewrite !Hno, Hcm by set_solver; done.
Qed.
End Noticed.

(** ** The loop closed *)


Section Repaired.
Context {W : Type} `{!Client W} `{SelectorLib} (healthy willing : W -> Prop) `{!ClientLaws W healthy}
  `{!WillingLaws W healthy willing} `{!NROWillingLaws W willing}.
Variable show_node_group : NodeGroup -> string.
Variable sha256_hex : string -> string.
Variable UnsortedList : gset string -> list string.

End Repaired.

