(* ===== verification/Loading.v ===== *)
(** * Loading and rendering the manifests
    (pkg/numaresourcesoperator/manifests, pkg/numaresourcesscheduler/manifests,
    pkg/metrics/manifests, pkg/numaresourcesoperator/objectupdate/ocp,
    pkg/numaresourcesoperator/assets/selinux, internal/platforminfo, cmd/main.go)

    At start-up the program decodes the YAML files it embeds, sets their namespace,
    and renders the exporter's: the result is what its controllers work with. The
    decoder, the version library and the printers are an interface. *)
From S2P Require Import Prelude GoErrors Meta ApiV1 Conditions Steps Trees FlagCodec Workload RteUpdate Objects MergeSpec.
From S2P Require Import Cluster Apply RteState Dangling Controller SchedParams SchedApi SchedUpdate SchedState SchedController.

(** ** Standard library *)

(** [base64.StdEncoding] *)
Definition base64_char (n : nat) : Ascii.ascii :=
  Ascii.ascii_of_nat
    (if (n <? 26)%nat then 65 + n else if (n <? 52)%nat then 71 + n else if (n <? 62)%nat then n - 4
     else if (n =? 62)%nat then 43 else 47)%nat.

Fixpoint base64 (data : string) : string :=
  match data with
  | EmptyString => EmptyString
  | String a EmptyString =>
      let n := (Ascii.nat_of_ascii a * 16)%nat in
      String (base64_char (n / 64)) (String (base64_char (n mod 64)) "==")
  | String a (String b EmptyString) =>
      let n := (Ascii.nat_of_ascii a * 1024 + Ascii.nat_of_ascii b * 4)%nat in
      String (base64_char (n / 4096)) (String (base64_char (n / 64 mod 64)) (String (base64_char (n mod 64)) "="))
  | String a (String b (String c rest)) =>
      let na := Ascii.nat_of_ascii a in let nb := Ascii.nat_of_ascii b in let nc := Ascii.nat_of_ascii c in
      String (base64_char (na / 4))
        (String (base64_char (na mod 4 * 16 + nb / 16))
           (String (base64_char (nb mod 16 * 4 + nc / 64)) (String (base64_char (nc mod 64)) (base64 rest))))
  end.

Example base64_test : base64 "light work." = "bGlnaHQgd29yay4=" /\ base64 "any" = "YW55" /\ base64 "M" = "TQ==".
Proof. vm_compute. auto. Qed.

(** A parsed [text/template] of text and fields of a map; a missing field prints
    as [<no value>]. *)
Inductive template_node := TText (s : string) | TField (name : string).

Definition template_Execute (t : list template_node) (args : gmap string string) : string :=
  str_join "" ((fun n => match n with
                         | TText s => s
                         | TField name => default "<no value>" (args !! name)
                         end) <$> t).

(** ** The embedded files, and the libraries that read them *)

Record IgnitionFile := mkIgnitionFile { if_Path : string; if_Source : string; if_Mode : Z }.
Record IgnitionUnit := mkIgnitionUnit { iu_Name : string; iu_Contents : string; iu_Enabled : bool }.
Record IgnitionConfig := mkIgnitionConfig {
  ic_Version : string; ic_Files : list IgnitionFile; ic_Units : list IgnitionUnit }.

(** The files under the three yaml directories, decoded; the SELinux policies; the
    hook script. [show_unexpected] is the text of an object in the message about a
    wrong type. *)
Class Assets := {
  rte_loadObject : string -> Object + error;
  sched_loadObject : string -> Object + error;
  metrics_loadObject : string -> Object + error;
  policy_ReadFile : string -> string + error;
  NotifierScript : string;
  show_unexpected : Object -> string;
  ignition_Marshal : IgnitionConfig -> string + error;
  version_AtLeastString : string -> string -> bool + error;
  version_Parse : string -> option error;
  serialize : Object -> string + error;
}.

(** ** Typed objects *)

Record ClusterRoleBinding := mkClusterRoleBinding {
  crb_Meta : ObjectMeta; crb_Subjects : list Subject; crb_other : string }.

Definition crb_object (crb : ClusterRoleBinding) : Object :=
  mkObject "rbac.authorization.k8s.io/v1" "ClusterRoleBinding" (crb_Meta crb)
    (BClusterRoleBinding (crb_Subjects crb) (crb_other crb)).

Definition object_crb (o : Object) : option ClusterRoleBinding :=
  match obj_Body o with
  | BClusterRoleBinding subjects rest => Some (mkClusterRoleBinding (obj_Meta o) subjects rest)
  | _ => None
  end.
Definition object_ro (o : Object) : option Role :=
  match obj_Body o with
  | BRole rules rest => Some (mkRole (obj_Meta o) rules rest)
  | _ => None
  end.
Definition object_rb (o : Object) : option RoleBinding :=
  match obj_Body o with
  | BRoleBinding subjects rest => Some (mkRoleBinding (obj_Meta o) subjects rest)
  | _ => None
  end.
Definition object_scc (o : Object) : option SecurityContextConstraints :=
  match obj_Body o with
  | BSecurityContextConstraints strategy selinux users rest =>
      Some (mkSecurityContextConstraints (obj_Meta o) strategy selinux users rest)
  | _ => None
  end.
Definition as_type (t : gotype) (o : Object) : option Object := if decide (obj_type o = t) then Some o else None.

Definition om_set_Name (n : string) (m : ObjectMeta) : ObjectMeta :=
  mkObjectMeta n (om_Namespace m) (om_SelfLink m) (om_UID m) (om_ResourceVersion m) (om_Generation m)
    (om_CreationTimestamp m) (om_Labels m) (om_Annotations m) (om_OwnerReferences m) (om_Finalizers m)
    (om_ManagedFields m).

Definition obj_map_Meta (f : ObjectMeta -> ObjectMeta) (o : Object) : Object := obj_with_Meta (f (obj_Meta o)) o.
Definition ds_map_Meta (f : ObjectMeta -> ObjectMeta) (ds : DaemonSet) : DaemonSet :=
  mkDaemonSet (f (ds_Meta ds)) (ds_Spec ds) (ds_Status ds).
Definition ro_map_Meta (f : ObjectMeta -> ObjectMeta) (ro : Role) : Role :=
  mkRole (f (ro_Meta ro)) (ro_Rules ro) (ro_other ro).
Definition rb_map_Meta (f : ObjectMeta -> ObjectMeta) (rb : RoleBinding) : RoleBinding :=
  mkRoleBinding (f (rb_Meta rb)) (rb_Subjects rb) (rb_other rb).
Definition crb_map_Meta (f : ObjectMeta -> ObjectMeta) (crb : ClusterRoleBinding) : ClusterRoleBinding :=
  mkClusterRoleBinding (f (crb_Meta crb)) (crb_Subjects crb) (crb_other crb).

(** The namespace is set when one is given. *)
Definition om_given_Namespace (namespace : string) (m : ObjectMeta) : ObjectMeta :=
  if decide (namespace <> "") then om_set_Namespace namespace m else m.
Definition om_given_Name (name : string) (m : ObjectMeta) : ObjectMeta :=
  if decide (name <> "") then om_set_Name name m else m.

(** ** Platform properties (internal/platforminfo) *)

Module platforminfo.
Definition StableSupportSince : string := "4.20.0".
Definition NightlySupportSince : string := "4.20.0-0.nightly-2025-08-04-154809".
Definition CISupportSince : string := "4.20.0-0.ci-2025-08-01-195417".
Definition DevPreviewSupportSince : string := "4.20.0-ec.6".
Definition ReleaseCandidateSupportSince : string := "4.20.0-rc.0".

Definition decodeMinimumVersion (v : string) : string :=
  if str_contains ".nightly-" v then NightlySupportSince
  else if str_contains ".ci-" v then CISupportSince
  else if str_contains "-ec." v then DevPreviewSupportSince
  else if str_contains "-rc." v then ReleaseCandidateSupportSince
  else if negb (str_contains "-" v) then StableSupportSince
  else "".

Section Version.
Context `{Assets}.

Definition isVersionEnoughForPodresourcesListFilterActivePods (platf : platform.Platform) (version : string) : bool :=
  if decide (platf <> platform.OpenShift /\ platf <> platform.HyperShift) then false
  else
    let minVer := decodeMinimumVersion version in
    if decide (minVer = "") then false
    else match version_Parse minVer with
         | Some _ => false
         | None => match version_AtLeastString version minVer with
                   | inr _ => false
                   | inl ok => ok
                   end
         end.

(** [New] with [discoverProperties]; the version is not kept. *)
Definition New (plat : platform.Platform) (ver : string) : PlatformInfo :=
  mkPlatformInfo plat (isVersionEnoughForPodresourcesListFilterActivePods plat ver).
End Version.
End platforminfo.

(** ** Loading *)

Section Load.
Context `{Assets}.

(** Decoding a file and asserting its type. *)
Definition load_typed {A} (loadObject : string -> Object + error) (cast : Object -> option A) (file : string) : A + error :=
  let? obj := loadObject ("yaml/" +:+ file) in
  match cast obj with
  | Some a => inl a
  | None => inr (ErrNew ("unexpected type, got " +:+ show_unexpected obj))
  end.

(** The file of a network policy. *)
Definition policy_file (policyType : string) : string :=
  if decide (policyType = "" \/ policyType = "default") then "networkpolicy.yaml"
  else "networkpolicy." +:+ policyType +:+ ".yaml".

(** *** The exporter (pkg/numaresourcesoperator/manifests) *)

Definition rte_ServiceAccount (namespace : string) : Object + error :=
  let? sa := load_typed rte_loadObject (as_type TServiceAccount) "serviceaccount.yaml" in
  inl (obj_map_Meta (om_given_Namespace namespace) sa).
Definition rte_Role (namespace : string) : Role + error :=
  let? role := load_typed rte_loadObject object_ro "role.yaml" in inl (ro_map_Meta (om_given_Namespace namespace) role).
Definition rte_RoleBinding (namespace : string) : RoleBinding + error :=
  let? rb := load_typed rte_loadObject object_rb "rolebinding.yaml" in inl (rb_map_Meta (om_given_Namespace namespace) rb).
Definition rte_ClusterRole : Object + error := load_typed rte_loadObject (as_type TClusterRole) "clusterrole.yaml".
Definition rte_ClusterRoleBinding : ClusterRoleBinding + error :=
  load_typed rte_loadObject object_crb "clusterrolebinding.yaml".
Definition APICRD : Object + error := load_typed rte_loadObject (as_type TCustomResourceDefinition) "crd.yaml".

(** Sets the namespace even when it is empty. *)
Definition rte_DaemonSet (namespace : string) : DaemonSet + error :=
  let? ds := load_typed rte_loadObject object_ds "daemonset.yaml" in inl (ds_map_Meta (om_set_Namespace namespace) ds).
Definition rte_NetworkPolicy (policyType namespace : string) : Object + error :=
  let? np := load_typed rte_loadObject (as_type TNetworkPolicy) (policy_file policyType) in
  inl (obj_map_Meta (om_given_Namespace namespace) np).

Definition rte_SecurityContextConstraint (withCustomSELinuxPolicy : bool) : SecurityContextConstraints + error :=
  let? scc := load_typed rte_loadObject object_scc "securitycontextconstraint.yaml" in
  inl (mkSecurityContextConstraints (scc_Meta scc) "MustRunAs"
         (Some (mkSELinuxOptions "" "" (if withCustomSELinuxPolicy then selinux.RTEContextTypeLegacy
                                        else selinux.RTEContextType) selinux.RTEContextLevel))
         (scc_Users scc) (scc_other scc)).
Definition rte_SecurityContextConstraintV2 : SecurityContextConstraints + error :=
  load_typed rte_loadObject object_scc "securitycontextconstraintv2.yaml".

(** *** The machine config *)

Definition knownVersions : list string :=
  ["v4.18"; "v4.17"; "v4.16"; "v4.15"; "v4.14"; "v4.13"; "v4.12"; "v4.11"; "v4.10"].

Definition policyPathFromVer (ver : string) : string := "policy/ocp_" +:+ ver +:+ ".cil".

Fixpoint find_policy (ver : string) (allVersions : list string) : string + error :=
  match allVersions with
  | [] => policy_ReadFile (policyPathFromVer "v4.10")
  | cand :: rest =>
      let? ok := version_AtLeastString ver cand in
      if ok : bool then policy_ReadFile (policyPathFromVer cand) else find_policy ver rest
  end.

Definition GetPolicy (ver : string) : string + error := find_policy ver knownVersions.

Definition addFileToIgnitionConfig (files : list IgnitionFile) (fileContent : string) (mode : Z) (fileDst : string)
  : list IgnitionFile :=
  files ++ [mkIgnitionFile fileDst ("data:text/plain;charset=utf-8;base64," +:+ base64 fileContent) mode].

Definition nl : string := String (Ascii.ascii_of_nat 10) "".

(** The two templates, as parsed. *)
Definition InstallSystemdServiceTemplate : list template_node :=
  [TText (str_join nl ["[Unit]"; "Description=Install RTE SELinux policy"; "Before=kubelet.service"; ""; "[Service]";
                       "Type=oneshot"; "RemainAfterExit=true"; "ExecStart=/usr/sbin/semodule -i "]);
   TField "selinuxPolicyDst";
   TText (str_join nl [""; ""; "[Install]"; "WantedBy=multi-user.target"; ""])].

Definition HookConfigRTENotifier : list template_node :=
  let q := String (Ascii.ascii_of_nat 34) "" in
  [TText (str_join nl ["{"; "  " +:+ quote "version" +:+ ": " +:+ quote "1.0.0" +:+ ","; "  " +:+ quote "when" +:+ ": {";
                       "    " +:+ quote "always" +:+ ": true"; "  },"; "  " +:+ quote "hook" +:+ ": {";
                       "    " +:+ quote "path" +:+ ": " +:+ q]);
   TField "notifierScriptPath";
   TText (q +:+ "," +:+ nl +:+ "    " +:+ quote "args" +:+ ": [" +:+ quote "rte-notifier.sh" +:+ ", " +:+ q);
   TField "notifierFilePath";
   TText (q +:+ "]" +:+ nl +:+ "  }," +:+ nl +:+ "  " +:+ quote "stages" +:+ ": [" +:+ quote "poststart" +:+ ", "
          +:+ quote "poststop" +:+ "]" +:+ nl +:+ "}" +:+ nl)].

(** The configuration [makeIgnitionConfig] prints. The templates are parsed here, so
    that only the choice and the reading of the policy can fail. *)
Definition ignition_config (ver : string) (withCRIHooks : bool) : IgnitionConfig + error :=
  let files :=
    if withCRIHooks then
      let hook := template_Execute HookConfigRTENotifier
                    (<["notifierScriptPath" := "/usr/local/bin/rte-notifier.sh"]>
                       {["notifierFilePath" := "/run/rte/notify"]}) in
      let files := addFileToIgnitionConfig [] hook 420 "/etc/containers/oci/hooks.d/rte-notifier.json" in
      addFileToIgnitionConfig files NotifierScript 493 "/usr/local/bin/rte-notifier.sh"
    else [] in
  let? selinuxPolicy := GetPolicy ver in
  let files := addFileToIgnitionConfig files selinuxPolicy 420 "/etc/selinux/rte.cil" in
  let service := template_Execute InstallSystemdServiceTemplate {["selinuxPolicyDst" := "/etc/selinux/rte.cil"]} in
  inl (mkIgnitionConfig "3.2.0" files [mkIgnitionUnit "rte-selinux-policy-install.service" service true]).

Definition makeIgnitionConfig (ver : string) (withCRIHooks : bool) : string + error :=
  let? ignitionConfig := ignition_config ver withCRIHooks in ignition_Marshal ignitionConfig.

(** The object keeps everything but its configuration. *)
Definition rte_MachineConfig (ver : string) (withCRIHooks : bool) : Object + error :=
  let? mc := load_typed rte_loadObject (as_type TMachineConfig) "machineconfig.yaml" in
  let? ignitionConfig := makeIgnitionConfig ver withCRIHooks in
  inl (match obj_Body mc with
       | BMachineConfig _ rest => obj_with_Body (BMachineConfig ignitionConfig rest) mc
       | _ => mc
       end).
End Load.

(** ** The exporter's manifests (manifests/rte) *)

(** [rtemanifests.Manifests], filled as [NewWithOptions] fills it: only the objects
    some platforms lack can be nil. *)
Record RteManifests := mkRteManifests {
  rm_ServiceAccount : Object;
  rm_Role : Role;
  rm_RoleBinding : RoleBinding;
  rm_ClusterRole : Object;
  rm_ClusterRoleBinding : ClusterRoleBinding;
  rm_ConfigMap : option ConfigMap;
  rm_DaemonSet : DaemonSet;
  rm_DefaultNetworkPolicy : Object;
  rm_APIServerNetworkPolicy : Object;
  rm_MetricsServerNetworkPolicy : Object;
  rm_MachineConfig : option Object;
  rm_SCC : option SecurityContextConstraints;
  rm_SCCv2 : option SecurityContextConstraints;
  rm_plat : platform.Platform }.

(** [options.Render] *)
Record RenderOptions := mkRenderOptions {
  opt_Platform : platform.Platform; opt_PlatformVersion : string; opt_Namespace : string;
  opt_EnableCRIHooks : bool; opt_CustomSELinuxPolicy : bool }.

Section LoadRte.
Context `{Assets}.

Definition optionally {A} (cond : bool) (m : A + error) : option A + error :=
  if cond then (let? a := m in inl (Some a)) else inl None.

Definition NewWithOptions (opts : RenderOptions) : RteManifests + error :=
  let ns := opt_Namespace opts in
  let? mc := optionally (bool_decide (opt_Platform opts = platform.OpenShift) && opt_CustomSELinuxPolicy opts)
               (rte_MachineConfig (opt_PlatformVersion opts) (opt_EnableCRIHooks opts)) in
  let? scc := optionally (bool_decide (opt_Platform opts <> platform.Kubernetes))
                (rte_SecurityContextConstraint (opt_CustomSELinuxPolicy opts)) in
  let? sccv2 := optionally (bool_decide (opt_Platform opts <> platform.Kubernetes)) rte_SecurityContextConstraintV2 in
  let? sa := rte_ServiceAccount ns in
  let? ro := rte_Role ns in
  let? rb := rte_RoleBinding ns in
  let? cr := rte_ClusterRole in
  let? crb := rte_ClusterRoleBinding in
  let? ds := rte_DaemonSet ns in
  let? np := rte_NetworkPolicy "default" ns in
  let? npa := rte_NetworkPolicy "apiserver" ns in
  let? npm := rte_NetworkPolicy "metrics" ns in
  inl (mkRteManifests sa ro rb cr crb None ds np npa npm mc scc sccv2 (opt_Platform opts)).

Definition GetManifests (plat : platform.Platform) (version namespace : string)
  (withCRIHooks withCustomSELinuxPolicy : bool) : RteManifests + error :=
  NewWithOptions (mkRenderOptions plat version namespace withCRIHooks withCustomSELinuxPolicy).
End LoadRte.

Definition is_ocp (plat : platform.Platform) : bool :=
  bool_decide (plat = platform.OpenShift \/ plat = platform.HyperShift).

(** Deep copies, which elsewhere than on OpenShift leave its objects out. *)
Definition rm_Clone (mf : RteManifests) : RteManifests :=
  let ocp {A} (x : option A) := if is_ocp (rm_plat mf) then x else None in
  mkRteManifests (rm_ServiceAccount mf) (rm_Role mf) (rm_RoleBinding mf) (rm_ClusterRole mf) (rm_ClusterRoleBinding mf)
    (rm_ConfigMap mf) (rm_DaemonSet mf) (rm_DefaultNetworkPolicy mf) (rm_APIServerNetworkPolicy mf)
    (rm_MetricsServerNetworkPolicy mf) (ocp (rm_MachineConfig mf)) (ocp (rm_SCC mf)) (ocp (rm_SCCv2 mf)) (rm_plat mf).

(** *** Object updates (objectupdate/ocp, objectupdate/rbac) *)

Definition MakeMachineConfigName (name : string) : string := "51-" +:+ name.
Definition MakeSecurityContextConstraintName (sa : Object) : string :=
  "system:serviceaccount:" +:+ obj_Namespace sa +:+ ":" +:+ obj_Name sa.

Definition ocp_SecurityContextConstraint (scc : SecurityContextConstraints) (sa : Object) : SecurityContextConstraints :=
  let serviceAccountName := MakeSecurityContextConstraintName sa in
  if decide (serviceAccountName ∈ scc_Users scc) then scc
  else mkSecurityContextConstraints (scc_Meta scc) (scc_SELinuxType scc) (scc_SELinuxOptions scc)
         (scc_Users scc ++ [serviceAccountName]) (scc_other scc).

Definition rbac_ClusterRoleBinding (crb : ClusterRoleBinding) (serviceAccount namespace : string) : ClusterRoleBinding :=
  mkClusterRoleBinding (crb_Meta crb) (bind_subject serviceAccount namespace <$> crb_Subjects crb) (crb_other crb).

(** *** Rendering *)

Definition SCCV1 : string := "v1".
Definition SCCV2 : string := "v2".
Definition RTEConfigMapName : string := "rte-config".

(** [options.UpdaterDaemon]; the version of the constraints is a field of its
    daemon set options. *)
Record UpdaterDaemon := mkUpdaterDaemon {
  ud_DaemonSet : DaemonSetOptions; ud_SCCVersion : string;
  ud_MachineConfigPoolSelector : option LabelSelector;
  ud_ConfigData : string; ud_Namespace : string; ud_Name : string }.

Definition selinuxTypeFromSCCVersion (ver : string) (hasCustomPolicy : bool) : string :=
  if bool_decide (ver = SCCV1) && hasCustomPolicy then selinux.RTEContextTypeLegacy else selinux.RTEContextType.

Definition rte_CreateConfigMap (namespace name configData : string) : ConfigMap :=
  mkConfigMap (emptyMeta name namespace) (Some {["config.yaml" := configData]}) None.

(** The machine config of the manifests under another name and role. *)
Definition render_machine_config (opts : UpdaterDaemon) (mc : Object) : Object :=
  let mc := obj_map_Meta (fun m => if decide (ud_Name opts <> "") then om_set_Name (MakeMachineConfigName (ud_Name opts)) m else m) mc in
  match ud_MachineConfigPoolSelector opts with
  | Some sel => obj_map_Meta (om_set_Labels (Some (ls_MatchLabels sel))) mc
  | None => mc
  end.

Section Render.
Context (lookupEnv : string -> option string).

(** No error is ever returned. *)
Definition rm_Render (mf : RteManifests) (opts : UpdaterDaemon) : go RteManifests :=
  let ret := rm_Clone mf in
  let named {A} (map : (ObjectMeta -> ObjectMeta) -> A -> A) (a : A) : A := map (om_given_Name (ud_Name opts)) a in
  let sa := if decide (rm_plat mf = platform.Kubernetes)
            then obj_map_Meta (om_given_Namespace (ud_Namespace opts)) (rm_ServiceAccount ret)
            else rm_ServiceAccount ret in
  let sa := named obj_map_Meta sa in
  let rb := rbac_RoleBinding (named rb_map_Meta (rm_RoleBinding ret)) (obj_Name (rm_ServiceAccount mf)) (obj_Namespace sa) in
  let crb := rbac_ClusterRoleBinding (named crb_map_Meta (rm_ClusterRoleBinding ret)) (obj_Name (rm_ServiceAccount mf))
               (obj_Namespace (rm_ServiceAccount mf)) in
  let ds := named ds_map_Meta (rm_DaemonSet ret) in
  let ds := ds_map_PodSpec (ps_set_ServiceAccountName (obj_Name (rm_ServiceAccount mf))) ds in
  let cm := if decide (ud_ConfigData opts <> "")
            then Some (rte_CreateConfigMap (om_Namespace (ds_Meta ds)) RTEConfigMapName (ud_ConfigData opts))
            else rm_ConfigMap ret in
  let rteConfigMapName := from_option (fun cm => om_Name (cm_Meta cm)) "" cm in
  let ds := manifests_DaemonSet lookupEnv ds (rm_plat mf) rteConfigMapName (ud_DaemonSet opts) in
  let done ds mc scc sccv2 :=
    mkRteManifests sa (named ro_map_Meta (rm_Role ret)) rb (named obj_map_Meta (rm_ClusterRole ret)) crb cm ds
      (named obj_map_Meta (rm_DefaultNetworkPolicy ret)) (named obj_map_Meta (rm_APIServerNetworkPolicy ret))
      (named obj_map_Meta (rm_MetricsServerNetworkPolicy ret)) mc scc sccv2 (rm_plat ret) in
  if is_ocp (rm_plat mf) then
    let mc := render_machine_config opts <$> rm_MachineConfig ret in
    let! scc := deref "SecurityContextConstraint" (rm_SCC ret) in
    let! sccv2 := deref "SecurityContextConstraintV2" (rm_SCCv2 ret) in
    let scco := mkSecurityContextOptions
                  (selinuxTypeFromSCCVersion (ud_SCCVersion opts) (bool_decide (is_Some (rm_MachineConfig mf))))
                  (om_Name (scc_Meta scc)) in
    Ret (done (SecurityContextWithOpts ds scco) mc (Some (ocp_SecurityContextConstraint scc sa))
           (Some (ocp_SecurityContextConstraint sccv2 sa)))
  else Ret (done ds (rm_MachineConfig ret) (rm_SCC ret) (rm_SCCv2 ret)).

Definition renderRTEManifests (rteManifests : RteManifests) (namespace : string) (imgs : ImagesData)
  : go (RteManifests * option error) :=
  let! mf := rm_Render rteManifests
               (mkUpdaterDaemon (mkDaemonSetOptions 2 false false true None (10 * Duration.Second)%Z) "" None "" namespace "") in
  let with_ds ds := mkRteManifests (rm_ServiceAccount mf) (rm_Role mf) (rm_RoleBinding mf) (rm_ClusterRole mf)
      (rm_ClusterRoleBinding mf) (rm_ConfigMap mf) ds (rm_DefaultNetworkPolicy mf) (rm_APIServerNetworkPolicy mf)
      (rm_MetricsServerNetworkPolicy mf) (rm_MachineConfig mf) (rm_SCC mf) (rm_SCCv2 mf) (rm_plat mf) in
  match DaemonSetUserImageSettings (rm_DaemonSet mf) (img_Discovered imgs) (img_Builtin imgs) "" with
  | (ds, Some err) => Ret (with_ds ds, Some err)
  | (ds, None) => let '(ds, err) := DaemonSetPauseContainerSettings ds in Ret (with_ds ds, err)
  end.
End Render.

(** What the operator's reconciler takes of them, with the metrics service. *)
Definition rte_state_manifests (core : RteManifests) (metrics : Object) : Manifests :=
  mkManifests (rm_ServiceAccount core) (ro_object (rm_Role core)) (rb_object (rm_RoleBinding core)) (rm_ClusterRole core)
    (crb_object (rm_ClusterRoleBinding core)) (rm_DaemonSet core) (rm_DefaultNetworkPolicy core)
    (rm_APIServerNetworkPolicy core) (rm_MetricsServerNetworkPolicy core) (rm_MachineConfig core) (rm_SCC core)
    (rm_SCCv2 core) metrics.

Definition rm_ToObjects (mf : RteManifests) : list Object :=
  option_list (cm_object <$> rm_ConfigMap mf) ++ option_list (rm_MachineConfig mf)
  ++ option_list (scc_object <$> rm_SCC mf) ++ option_list (scc_object <$> rm_SCCv2 mf)
  ++ [ro_object (rm_Role mf); rb_object (rm_RoleBinding mf); rm_ClusterRole mf; crb_object (rm_ClusterRoleBinding mf);
      ds_object (rm_DaemonSet mf); rm_ServiceAccount mf; rm_DefaultNetworkPolicy mf; rm_APIServerNetworkPolicy mf;
      rm_MetricsServerNetworkPolicy mf].

(** ** The scheduler's manifests (pkg/numaresourcesscheduler/manifests) *)

Section LoadSched.
Context `{Assets}.

Definition sched_ServiceAccount (namespace : string) : Object + error :=
  let? sa := load_typed sched_loadObject (as_type TServiceAccount) "serviceaccount.yaml" in
  inl (obj_map_Meta (om_given_Namespace namespace) sa).
Definition sched_Role (namespace : string) : Role + error :=
  let? role := load_typed sched_loadObject object_ro "role.yaml" in inl (ro_map_Meta (om_given_Namespace namespace) role).
Definition sched_RoleBinding (namespace : string) : RoleBinding + error :=
  let? rb := load_typed sched_loadObject object_rb "rolebinding.yaml" in inl (rb_map_Meta (om_given_Namespace namespace) rb).
Definition sched_ClusterRole : Object + error := load_typed sched_loadObject (as_type TClusterRole) "clusterrole.nrt.yaml".

(** The subjects get the namespace even when it is empty. *)
Definition loadClusterRoleBinding (crbName namespace : string) : ClusterRoleBinding + error :=
  let? crb := load_typed sched_loadObject object_crb crbName in
  inl (mkClusterRoleBinding (crb_Meta crb)
         ((fun s => mkSubject (sub_Name s) namespace (sub_other s)) <$> crb_Subjects crb) (crb_other crb)).
Definition sched_ClusterRoleBindingNRT : string -> ClusterRoleBinding + error :=
  loadClusterRoleBinding "clusterrolebinding.nrt.yaml".
Definition sched_LoadConfigMap (namespace : string) : ConfigMap + error :=
  let? cm := load_typed sched_loadObject object_cm "configmap.nrt.yaml" in
  inl (mkConfigMap (om_given_Namespace namespace (cm_Meta cm)) (cm_Data cm) (cm_BinaryData cm)).
Definition sched_LoadDeployment (namespace : string) : Deployment + error :=
  let? dp := load_typed sched_loadObject object_dp "deployment.yaml" in
  inl (mkDeployment (om_given_Namespace namespace (dp_Meta dp)) (dp_Spec dp) (dp_Status dp)).
Definition sched_NetworkPolicy (policyType namespace : string) : Object + error :=
  let? np := load_typed sched_loadObject (as_type TNetworkPolicy) (policy_file policyType) in
  inl (obj_map_Meta (om_given_Namespace namespace) np).

Definition sched_GetManifests (namespace : string) : SchedManifests + error :=
  let? sa := sched_ServiceAccount namespace in
  let? cm := sched_LoadConfigMap namespace in
  let? cr := sched_ClusterRole in
  let? crb := sched_ClusterRoleBindingNRT namespace in
  let? ro := sched_Role namespace in
  let? rb := sched_RoleBinding namespace in
  let? dp := sched_LoadDeployment namespace in
  let? np := sched_NetworkPolicy "default" namespace in
  let? npa := sched_NetworkPolicy "apiserver" namespace in
  inl (mkSchedManifests sa cm cr (crb_object crb) ro rb dp np npa).

Definition sm_ToObjects (mf : SchedManifests) : list Object :=
  [sm_ServiceAccount mf; cm_object (sm_ConfigMap mf); sm_ClusterRole mf; sm_ClusterRoleBindingNRT mf; ro_object (sm_Role mf);
   rb_object (sm_RoleBinding mf); dp_object (sm_Deployment mf); sm_DefaultNetworkPolicy mf; sm_APIserverNetworkPolicy mf].

(** The metrics service (pkg/metrics/manifests); [GetManifests] only wraps it. *)
Definition metrics_Service (namespace : string) : Object + error :=
  let? service := load_typed metrics_loadObject (as_type TService) "service.yaml" in
  inl (obj_map_Meta (om_given_Namespace namespace) service).

(** ** The program (cmd/main.go) *)

Context (sha256_hex : string -> string) (lookupEnv : string -> option string).

Definition renderSchedulerManifests (schedManifests : SchedManifests) (imageSpec : string)
  : go (SchedManifests * option error) :=
  match DeploymentImageSettings (sm_Deployment schedManifests) imageSpec with
  | (dp, Some err) => Ret (sm_with_Deployment dp schedManifests, Some err)
  | (dp, None) =>
      let cm := sm_ConfigMap schedManifests in
      let! dp := DeploymentConfigMapSettings dp (om_Name (cm_Meta cm))
                   (ConfigMapData sha256_hex (cm_Data cm) (cm_BinaryData cm)) in
      Ret (sm_with_Deployment dp schedManifests, None)
  end.

(** What is printed, and the error that stopped it. *)
Fixpoint renderObjects (objs : list Object) (out : string) : string * option error :=
  match objs with
  | [] => (out, None)
  | obj :: rest =>
      let out := out +:+ "---" +:+ nl in
      match serialize obj with
      | inr err => (out, Some err)
      | inl text => renderObjects rest (out +:+ text)
      end
  end.

Record RenderParams := mkRenderParams {
  rp_NRTCRD : bool; rp_Namespace : string; rp_Image_Exporter : string; rp_Image_Scheduler : string }.

Definition exit_code (r : string * option error) : string * Z :=
  let '(out, err) := r in (out, match err with Some _ => 1%Z | None => 0%Z end).

(** What the program prints in its rendering mode, and the status it exits with.
    [specPath] is the image of the build. *)
Definition manageRendering (specPath : string) (render : RenderParams) (crd : Object) (rteMf : RteManifests)
  (metrics : Object) (namespace : string) (enableScheduler : bool) : go (string * Z) :=
  if rp_NRTCRD render then Ret (exit_code (renderObjects [crd] ""))
  else
    let! objs :=
      (if enableScheduler then
         if decide (rp_Image_Scheduler render = "") then Ret None
         else match sched_GetManifests namespace with
              | inr err => Ret None
              | inl schedMf =>
                  let! (mf, err) := renderSchedulerManifests schedMf (rp_Image_Scheduler render) in
                  Ret (match err with Some _ => None | None => Some (sm_ToObjects mf) end)
              end
       else Ret (Some [])) in
    match objs with
    | None => Ret ("", 1%Z)
    | Some objs =>
        let imgs := mkImagesData (rp_Image_Exporter render) "" specPath in
        let! (mf, err) := renderRTEManifests lookupEnv rteMf (rp_Namespace render) imgs in
        match err with
        | Some _ => Ret ("", 1%Z)
        | None => Ret (exit_code (renderObjects (objs ++ rm_ToObjects mf ++ [metrics]) ""))
        end
    end.

(** What [main] hands to the operator's reconciler. *)
Record Startup := mkStartup {
  su_rte : RteManifests; su_metrics : Object; su_crd : Object; su_sched : SchedManifests }.

(** The part of [main] that builds the manifests, in order: the program exits when it
    fails. The exporter's are rendered for the images found. *)
Definition startup (plat : platform.Platform) (shortVersion namespace : string) (imgs : ImagesData)
  : go (Startup + error) :=
  match (let? crd := APICRD in
         let? mf := GetManifests plat shortVersion namespace false true in
         let? service := metrics_Service namespace in inl (crd, mf, service)) with
  | inr err => Ret (inr err)
  | inl (crd, mf, service) =>
      let! (mf, err) := renderRTEManifests lookupEnv mf namespace imgs in
      match err with
      | Some err => Ret (inr err)
      | None => Ret (let? schedMf := sched_GetManifests namespace in inl (mkStartup mf service crd schedMf))
      end
  end.

(** The reconciler of [main], for what the command line and the cluster gave. *)
Definition startup_reconciler (plat : platform.Platform) (namespace pullPolicy : string) (imgs : ImagesData)
  (forward overridable : bool) (tls : Settings) (su : Startup) : Reconciler :=
  mkReconciler plat (su_crd su) (rte_state_manifests (su_rte su) (su_metrics su)) namespace imgs pullPolicy forward
    overridable tls.
End LoadSched.
