(* ===== verification/LoadingSpec.v ===== *)
(** * What the program starts with

    From the embedded files, as long as they are of their types and complete, the
    program builds manifests its controllers accept; what the rendering options
    do; which policy and which platform property a version gets. *)
From S2P Require Import Prelude GoErrors Meta Selectors ApiV1 Conditions Steps Trees Validation FlagCodec Workload.
From S2P Require Import RteUpdate RteUpdateSpec Objects MergeSpec Cluster Apply RteState Dangling Controller Scenario.
From S2P Require Import Install WriteFrame NoPanic SchedParams SchedParamsSpec SchedApi SchedUpdate SchedState.
From S2P Require Import SchedController SchedCluster SchedSpec SchedDeploySpec SchedInstall SchedReconcileSpec Loading.

(** ** Loading *)

Section Load.
Context `{Assets}.

(** A file holds a manifest of a type, for an object nobody owns yet. *)
Definition decodes (loadObject : string -> Object + error) (ft : string * gotype) : Prop :=
  exists o, loadObject ("yaml/" +:+ fst ft) = inl o /\ obj_type o = snd ft /\ kind_ok o /\
    om_OwnerReferences (obj_Meta o) = [].

Lemma load_as loadObject file t :
  decodes loadObject (file, t) ->
  exists o, load_typed loadObject (as_type t) file = inl o /\ obj_type o = t /\ kind_ok o /\
    om_OwnerReferences (obj_Meta o) = [].
Proof.
  intros (o & Hl & Ht & Hk & Ho). exists o. unfold load_typed, as_type. simpl in *. rewrite Hl. simpl. by rewrite decide_True.
Qed.

(** A cast to a record, which reads the body of one type. *)
Class Cast {A} (cast : Object -> option A) (t : gotype) (to_meta : A -> ObjectMeta) :=
  cast_spec o : obj_type o = t -> exists a, cast o = Some a /\ to_meta a = obj_Meta o.

Lemma load_cast {A} (cast : Object -> option A) t to_meta `{!Cast cast t to_meta} loadObject file :
  decodes loadObject (file, t) ->
  exists a, load_typed loadObject cast file = inl a /\ om_OwnerReferences (to_meta a) = [].
Proof.
  intros (o & Hl & Ht & _ & Ho). destruct (cast_spec o Ht) as (a & Ha & Hm). exists a. unfold load_typed. simpl in Hl.
  rewrite Hl. simpl. by rewrite Ha, Hm.
Qed.

#[export] Instance cast_ro : Cast object_ro TRole ro_Meta.
Proof. intros o. unfold obj_type, object_ro. destruct (obj_Body o); simpl; try done. by eexists. Qed.
#[export] Instance cast_rb : Cast object_rb TRoleBinding rb_Meta.
Proof. intros o. unfold obj_type, object_rb. destruct (obj_Body o); simpl; try done. by eexists. Qed.
#[export] Instance cast_crb : Cast object_crb TClusterRoleBinding crb_Meta.
Proof. intros o. unfold obj_type, object_crb. destruct (obj_Body o); simpl; try done. by eexists. Qed.
#[export] Instance cast_scc : Cast object_scc TSecurityContextConstraints scc_Meta.
Proof. intros o. unfold obj_type, object_scc. destruct (obj_Body o); simpl; try done. by eexists. Qed.
#[export] Instance cast_ds : Cast object_ds TDaemonSet ds_Meta.
Proof. intros o. unfold obj_type, object_ds. destruct (obj_Body o); simpl; try done. by eexists. Qed.
#[export] Instance cast_dp : Cast object_dp TDeployment dp_Meta.
Proof. intros o. unfold obj_type, object_dp. destruct (obj_Body o); simpl; try done. by eexists. Qed.
#[export] Instance cast_cm : Cast object_cm TConfigMap cm_Meta.
Proof. intros o. unfold obj_type, object_cm. destruct (obj_Body o); simpl; try done. by eexists. Qed.
End Load.

(** ** Updates that keep the containers' names *)

(** Same metadata, same containers by name. *)
Definition same_shape (ds ds' : DaemonSet) : Prop :=
  ds_Meta ds' = ds_Meta ds /\ cnt_Name <$> ds_Containers ds' = cnt_Name <$> ds_Containers ds.

#[global] Instance same_shape_preorder : PreOrder same_shape.
Proof. split; [by intros ds|]. intros a b c [H1 H2] [H3 H4]. split; congruence. Qed.

Lemma FindContainerByName_names cs cs' n :
  cnt_Name <$> cs' = cnt_Name <$> cs -> FindContainerByName cs' n = FindContainerByName cs n.
Proof.
  revert cs'. induction cs as [|c cs IH]; intros [|c' cs'] E; try done.
  rewrite !fmap_cons in E. injection E as Ec E. unfold FindContainerByName in *. simpl. rewrite Ec.
  case_decide; [done|]. by rewrite (IH cs').
Qed.

Lemma same_shape_find ds ds' n :
  same_shape ds ds' -> FindContainerByName (ds_Containers ds') n = FindContainerByName (ds_Containers ds) n.
Proof. intros [_ E]. by apply FindContainerByName_names. Qed.

Lemma alter_names (f : Container -> Container) (i : nat) (cs : list Container) : (forall c, cnt_Name (f c) = cnt_Name c) -> cnt_Name <$> alter f i cs = cnt_Name <$> cs.
Proof.
  intros Hf. revert i. induction cs as [|c cs IH]; intros [|i]; try done.
  - change (alter f 0 (c :: cs)) with (f c :: cs). rewrite !fmap_cons. by rewrite Hf.
  - change (alter f (S i) (c :: cs)) with (c :: alter f i cs). rewrite !fmap_cons. by rewrite IH.
Qed.

Lemma ds_alter_shape f i ds : (forall c, cnt_Name (f c) = cnt_Name c) -> same_shape ds (ds_alter i f ds).
Proof. intros Hf. split; [done|]. rewrite ds_Containers_alter. by apply alter_names. Qed.

Lemma map_PodSpec_shape f ds :
  (forall p, cnt_Name <$> ps_Containers (f p) = cnt_Name <$> ps_Containers p) -> same_shape ds (ds_map_PodSpec f ds).
Proof. intros Hf. split; [done|]. unfold ds_Containers, ds_PodSpec. simpl. by rewrite Hf. Qed.

Lemma ps_alter_names f i p :
  (forall c, cnt_Name (f c) = cnt_Name c) -> cnt_Name <$> ps_Containers (ps_alter i f p) = cnt_Name <$> ps_Containers p.
Proof. apply alter_names. Qed.

Lemma manifests_DaemonSet_shape env ds plat cm opts : same_shape ds (manifests_DaemonSet env ds plat cm opts).
Proof.
  unfold manifests_DaemonSet. set (ds1 := match dso_NodeSelector opts with Some _ => _ | None => _ end).
  assert (same_shape ds ds1) as H1 by (unfold ds1; destruct (dso_NodeSelector opts); [by apply map_PodSpec_shape|done]).
  destruct (FindContainerByName _ _) as [i|]; [|done]. etrans; [exact H1|]. apply map_PodSpec_shape. intros p.
  assert (forall vs q, cnt_Name <$> ps_Containers (ps_set_Volumes vs q) = cnt_Name <$> ps_Containers q) as Hv by done.
  unfold daemonSetContainerConfig, manifests_ContainerConfig.
  destruct (dso_NotificationEnable opts), (decide (plat = platform.Kubernetes)), (decide (cm <> "")); rewrite ?Hv;
    repeat (rewrite ps_alter_names by (intros c; reflexivity); rewrite ?Hv); reflexivity.
Qed.

Lemma map_Annotations_shape f ds ds' : same_shape ds ds' -> same_shape ds (ds_map_Annotations f ds').
Proof. done. Qed.

Lemma SecurityContext_shape ds opts : same_shape ds (SecurityContextWithOpts ds opts).
Proof.
  unfold SecurityContextWithOpts, securityContextForContainer. destruct (FindContainerByName _ _) as [i|]; [|done].
  case_decide; [done|]. cbn [fst]. case_decide; [apply map_Annotations_shape|]; by apply ds_alter_shape.
Qed.

Lemma UserImage_ok ds i user builtin policy :
  FindContainerByName (ds_Containers ds) MainContainerName = Some i -> user <> "" \/ builtin <> "" ->
  exists ds', DaemonSetUserImageSettings ds user builtin policy = (ds', None) /\ same_shape ds ds'.
Proof.
  intros Hi Hu. unfold DaemonSetUserImageSettings, DaemonSetSecurityContext. rewrite Hi.
  assert (forall f, (forall c, cnt_Name (f c) = cnt_Name c) ->
    FindContainerByName (ds_Containers (ds_alter i f ds)) MainContainerName = Some i) as Hf.
  { intros f Hn. by rewrite (same_shape_find ds) by (by apply ds_alter_shape). }
  repeat case_decide; try (rewrite Hf by done); eexists; (split; [reflexivity|]) || naive_solver.
  - etrans; by apply ds_alter_shape.
  - etrans; by apply ds_alter_shape.
Qed.

Lemma Pause_ok ds i j :
  FindContainerByName (ds_Containers ds) MainContainerName = Some i ->
  FindContainerByName (ds_Containers ds) HelperContainerName = Some j ->
  exists ds', DaemonSetPauseContainerSettings ds = (ds', None) /\ same_shape ds ds'.
Proof.
  intros Hi Hj. unfold DaemonSetPauseContainerSettings. rewrite Hi, Hj.
  destruct (find_index_Some _ _ _ Hi) as (c & -> & _). eexists. split; [reflexivity|]. by apply ds_alter_shape.
Qed.

(** ** The exporter's manifests *)

(** What the operator needs of them: objects of their types, both security context
    constraints, the first with SELinux options, and the two containers. *)
Record rte_ok (mf : RteManifests) : Prop := {
  ro_ocp : is_ocp (rm_plat mf) = true;
  ro_sa : obj_type (rm_ServiceAccount mf) = TServiceAccount /\ kind_ok (rm_ServiceAccount mf);
  ro_cr : obj_type (rm_ClusterRole mf) = TClusterRole /\ kind_ok (rm_ClusterRole mf);
  ro_np : obj_type (rm_DefaultNetworkPolicy mf) = TNetworkPolicy /\ kind_ok (rm_DefaultNetworkPolicy mf);
  ro_npa : obj_type (rm_APIServerNetworkPolicy mf) = TNetworkPolicy /\ kind_ok (rm_APIServerNetworkPolicy mf);
  ro_npm : obj_type (rm_MetricsServerNetworkPolicy mf) = TNetworkPolicy /\ kind_ok (rm_MetricsServerNetworkPolicy mf);
  ro_mc : forall mc, rm_MachineConfig mf = Some mc -> obj_type mc = TMachineConfig /\ kind_ok mc;
  ro_scc : exists scc, rm_SCC mf = Some scc /\ is_Some (scc_SELinuxOptions scc);
  ro_sccv2 : is_Some (rm_SCCv2 mf);
  ro_main : is_Some (FindContainerByName (ds_Containers (rm_DaemonSet mf)) MainContainerName);
  ro_helper : is_Some (FindContainerByName (ds_Containers (rm_DaemonSet mf)) HelperContainerName) }.

(** A metadata change keeps type and kind. *)
Lemma map_Meta_typed f o t : obj_type o = t /\ kind_ok o -> obj_type (obj_map_Meta f o) = t /\ kind_ok (obj_map_Meta f o).
Proof. done. Qed.

Lemma bool_decide_ocp plat : is_ocp plat = true -> bool_decide (plat <> platform.Kubernetes) = true.
Proof. unfold is_ocp. rewrite !bool_decide_eq_true. intros [->| ->]; discriminate. Qed.

Lemma ds_map_Meta_containers f ds : ds_Containers (ds_map_Meta f ds) = ds_Containers ds.
Proof. done. Qed.

Lemma rm_Render_ok lookupEnv mf opts :
  rte_ok mf -> exists mf', rm_Render lookupEnv mf opts = Ret mf' /\ rte_ok mf' /\
    om_Namespace (ds_Meta (rm_DaemonSet mf')) = om_Namespace (ds_Meta (rm_DaemonSet mf)).
Proof.
  intros [Hocp Hsa Hcr Hnp Hnpa Hnpm Hmc (scc & Hscc & Hopts) [sccv2 Hv2] Hmain Hhelp].
  unfold rm_Render, rm_Clone. cbn -[manifests_DaemonSet SecurityContextWithOpts render_machine_config].
  rewrite Hocp, Hscc, Hv2.
  cbn -[manifests_DaemonSet SecurityContextWithOpts render_machine_config].
  eexists. split; [reflexivity|].
  match goal with |- context [SecurityContextWithOpts ?ds ?o] =>
    pose proof (SecurityContext_shape ds o) as Hs; set (d := SecurityContextWithOpts ds o) in * end.
  match type of Hs with same_shape (manifests_DaemonSet ?e ?ds ?p ?c ?o) _ =>
    pose proof (manifests_DaemonSet_shape e ds p c o) as Hm end.
  pose proof (transitivity Hm Hs) as Hd. clear Hm Hs. clearbody d.
  split; [split; cbn [rm_plat rm_ServiceAccount rm_ClusterRole rm_DefaultNetworkPolicy rm_APIServerNetworkPolicy
    rm_MetricsServerNetworkPolicy rm_MachineConfig rm_SCC rm_SCCv2 rm_DaemonSet]|].
  all: try done.
  - by case_decide.
  - intros mc. rewrite fmap_Some. intros (mc0 & Hmc0 & ->). unfold render_machine_config.
    specialize (Hmc mc0 Hmc0). destruct (ud_MachineConfigPoolSelector opts); exact Hmc.
  - eexists. split; [reflexivity|]. unfold ocp_SecurityContextConstraint. by case_decide.
  - by rewrite (same_shape_find _ _ _ Hd).
  - by rewrite (same_shape_find _ _ _ Hd).
  - simpl. destruct Hd as [-> _]. simpl. unfold om_given_Name. by case_decide.
Qed.

(** With an image to run, rendering for the images succeeds. *)
Lemma renderRTEManifests_ok lookupEnv mf namespace imgs :
  rte_ok mf -> img_Discovered imgs <> "" \/ img_Builtin imgs <> "" ->
  exists mf', renderRTEManifests lookupEnv mf namespace imgs = Ret (mf', None) /\ rte_ok mf' /\
    om_Namespace (ds_Meta (rm_DaemonSet mf')) = om_Namespace (ds_Meta (rm_DaemonSet mf)).
Proof.
  intros Hok Hi. unfold renderRTEManifests.
  destruct (rm_Render_ok lookupEnv mf (mkUpdaterDaemon (mkDaemonSetOptions 2 false false true None (10 * Duration.Second)%Z)
    "" None "" namespace "") Hok) as (mf1 & -> & Hok1 & Hns1). cbn [go_bind].
  destruct (ro_main _ Hok1) as [i Hmain]. destruct (ro_helper _ Hok1) as [j Hhelp].
  destruct (UserImage_ok _ _ (img_Discovered imgs) (img_Builtin imgs) "" Hmain Hi) as (ds1 & -> & Hs1). cbn [go_bind].
  rewrite <-(same_shape_find _ _ _ Hs1) in Hmain. rewrite <-(same_shape_find _ _ _ Hs1) in Hhelp.
  destruct (Pause_ok _ _ _ Hmain Hhelp) as (ds2 & -> & Hs2). eexists. split; [reflexivity|].
  pose proof (transitivity Hs1 Hs2) as Hs. destruct Hok1. split; [split; simpl; try done|].
  - by rewrite (same_shape_find _ _ _ Hs).
  - by rewrite (same_shape_find _ _ _ Hs).
  - simpl. destruct Hs as [-> _]. done.
Qed.

(** ** The embedded files *)

Section Files.
Context `{Assets, !YamlLib}.

Definition rte_files : list (string * gotype) :=
  [("crd.yaml", TCustomResourceDefinition); ("machineconfig.yaml", TMachineConfig);
   ("securitycontextconstraint.yaml", TSecurityContextConstraints);
   ("securitycontextconstraintv2.yaml", TSecurityContextConstraints); ("serviceaccount.yaml", TServiceAccount);
   ("role.yaml", TRole); ("rolebinding.yaml", TRoleBinding); ("clusterrole.yaml", TClusterRole);
   ("clusterrolebinding.yaml", TClusterRoleBinding); ("daemonset.yaml", TDaemonSet);
   ("networkpolicy.yaml", TNetworkPolicy); ("networkpolicy.apiserver.yaml", TNetworkPolicy);
   ("networkpolicy.metrics.yaml", TNetworkPolicy)].

Definition sched_files : list (string * gotype) :=
  [("serviceaccount.yaml", TServiceAccount); ("configmap.nrt.yaml", TConfigMap); ("clusterrole.nrt.yaml", TClusterRole);
   ("clusterrolebinding.nrt.yaml", TClusterRoleBinding); ("role.yaml", TRole); ("rolebinding.yaml", TRoleBinding);
   ("deployment.yaml", TDeployment); ("networkpolicy.yaml", TNetworkPolicy);
   ("networkpolicy.apiserver.yaml", TNetworkPolicy)].

(** What a file holds, when it is read as a type. *)
Definition holds {A} (loadObject : string -> Object + error) (cast : Object -> option A) (file : string)
  (P : A -> Prop) : Prop :=
  forall a, load_typed loadObject cast file = inl a -> P a.

(** The embedded files are of their types, and complete: the exporter's two
    containers, a named scheduler profile, a deployment the updates can work on,
    roles on something, policies with two names; there is a SELinux policy for
    every known version, and a configuration of strings is printed. *)
Record assets_ok (ver : string) : Prop := {
  ao_rte : Forall (decodes rte_loadObject) rte_files;
  ao_sched : Forall (decodes sched_loadObject) sched_files;
  ao_service : decodes metrics_loadObject ("service.yaml", TService);
  ao_containers : holds rte_loadObject object_ds "daemonset.yaml" (fun ds =>
    is_Some (FindContainerByName (ds_Containers ds) MainContainerName) /\
    is_Some (FindContainerByName (ds_Containers ds) HelperContainerName));
  ao_version : Forall (fun v => exists b, version_AtLeastString ver v = inl b) knownVersions;
  ao_policies : Forall (fun v => exists text, policy_ReadFile (policyPathFromVer v) = inl text) knownVersions;
  ao_marshal : forall c, exists text, ignition_Marshal c = inl text;
  ao_config : holds sched_loadObject object_cm "configmap.nrt.yaml" (fun cm =>
    exists p ps, config_ok cm (p :: ps) /\ cfg_ProfileName p <> "");
  ao_deployment : holds sched_loadObject object_dp "deployment.yaml" dp_ok;
  ao_rules : holds sched_loadObject object_ro "role.yaml" (fun ro =>
    Forall (fun ru => pr_APIGroups ru <> [] /\ pr_Resources ru <> []) (ro_Rules ro));
  ao_names : holds sched_loadObject (as_type TNetworkPolicy) "networkpolicy.yaml" (fun d =>
    holds sched_loadObject (as_type TNetworkPolicy) "networkpolicy.apiserver.yaml" (fun a => obj_Name d <> obj_Name a)) }.

Lemma decodes_rte ver ft : assets_ok ver -> ft ∈ rte_files -> decodes rte_loadObject ft.
Proof. intros Ha. revert ft. apply Forall_forall, Ha. Qed.
Lemma decodes_sched ver ft : assets_ok ver -> ft ∈ sched_files -> decodes sched_loadObject ft.
Proof. intros Ha. revert ft. apply Forall_forall, Ha. Qed.

(** *** The SELinux policy and the machine config *)

Lemma find_policy_ok ver vs :
  Forall (fun v => exists b, version_AtLeastString ver v = inl b) vs -> Forall (fun v => v ∈ knownVersions) vs ->
  Forall (fun v => exists text, policy_ReadFile (policyPathFromVer v) = inl text) knownVersions ->
  exists text, find_policy ver vs = inl text.
Proof.
  intros Hv Hk Hp. rewrite Forall_forall in Hp. induction Hv as [|v vs [b Hb] _ IH]; simpl; [by apply Hp; vm_compute; set_solver|].
  apply Forall_cons in Hk as [Hkv Hk]. rewrite Hb. simpl. destruct b; [by apply Hp|by apply IH].
Qed.

Lemma GetPolicy_ok ver : assets_ok ver -> exists text, GetPolicy ver = inl text.
Proof. intros Ha. apply find_policy_ok; try apply Ha. by apply Forall_forall. Qed.

Lemma rte_MachineConfig_ok ver hooks :
  assets_ok ver -> exists mc, rte_MachineConfig ver hooks = inl mc /\ obj_type mc = TMachineConfig /\ kind_ok mc.
Proof.
  intros Ha. unfold rte_MachineConfig.
  destruct (load_as rte_loadObject "machineconfig.yaml" TMachineConfig) as (o & -> & Ht & Hk & _);
    [by apply (decodes_rte ver); [|vm_compute; set_solver]|].
  unfold makeIgnitionConfig, ignition_config. destruct (GetPolicy_ok ver Ha) as [text ->]. cbn [sum_bind].
  match goal with |- context [ignition_Marshal ?c] => destruct (ao_marshal ver Ha c) as [out ->] end. cbn [sum_bind].
  unfold obj_type, kind_ok in *. destruct (obj_Body o) eqn:Hb; try discriminate. eexists. split; [reflexivity|]. simpl.
  split; [done|]. destruct Hk as [Hk|Hk]; [by left|right]. rewrite Hk. unfold obj_type. by rewrite Hb.
Qed.

(** ** Loading succeeds *)

(** Read a file of the exporter, of the scheduler. *)
#[local] Ltac file_of files_lemma :=
  eapply files_lemma; [eassumption|vm_compute; set_solver].

Lemma GetManifests_ok plat ver namespace :
  assets_ok ver -> is_ocp plat = true ->
  exists mf, GetManifests plat ver namespace false true = inl mf /\ rte_ok mf /\
    om_Namespace (ds_Meta (rm_DaemonSet mf)) = namespace.
Proof.
  intros Ha Hocp. unfold GetManifests, NewWithOptions, optionally. simpl opt_Platform. simpl opt_CustomSELinuxPolicy.
  simpl opt_PlatformVersion. simpl opt_Namespace. simpl opt_EnableCRIHooks.
  rewrite (bool_decide_ocp plat Hocp). cbn [sum_bind].
  destruct (rte_MachineConfig_ok ver false Ha) as (mc & Hmc & Hmct & Hmck).
  assert (exists omc, (if bool_decide (plat = platform.OpenShift) && true
      then let? a := rte_MachineConfig ver false in inl (Some a) else inl None) = inl omc /\
      forall mc, omc = Some mc -> obj_type mc = TMachineConfig /\ kind_ok mc) as (omc & -> & Homc).
  { destruct (bool_decide _); simpl; [|by eexists]. rewrite Hmc. simpl. eexists. split; [done|]. by intros ? [= <-]. }
  cbn [sum_bind]. unfold rte_SecurityContextConstraint, rte_SecurityContextConstraintV2, rte_ServiceAccount, rte_Role,
    rte_RoleBinding, rte_ClusterRole, rte_ClusterRoleBinding, rte_DaemonSet, rte_NetworkPolicy.
  destruct (load_cast object_scc TSecurityContextConstraints scc_Meta rte_loadObject "securitycontextconstraint.yaml")
    as (scc & -> & _); [file_of decodes_rte|]. cbn [sum_bind].
  destruct (load_cast object_scc TSecurityContextConstraints scc_Meta rte_loadObject "securitycontextconstraintv2.yaml")
    as (scc2 & -> & _); [file_of decodes_rte|]. cbn [sum_bind].
  destruct (load_as rte_loadObject "serviceaccount.yaml" TServiceAccount) as (sa & -> & Hsa & Ksa & _);
    [file_of decodes_rte|]. cbn [sum_bind].
  destruct (load_cast object_ro TRole ro_Meta rte_loadObject "role.yaml") as (role & -> & _); [file_of decodes_rte|].
  cbn [sum_bind].
  destruct (load_cast object_rb TRoleBinding rb_Meta rte_loadObject "rolebinding.yaml") as (rb & -> & _);
    [file_of decodes_rte|]. cbn [sum_bind].
  destruct (load_as rte_loadObject "clusterrole.yaml" TClusterRole) as (cr & -> & Hcr & Kcr & _);
    [file_of decodes_rte|]. cbn [sum_bind].
  destruct (load_cast object_crb TClusterRoleBinding crb_Meta rte_loadObject "clusterrolebinding.yaml") as (crb & -> & _);
    [file_of decodes_rte|]. cbn [sum_bind].
  destruct (load_cast object_ds TDaemonSet ds_Meta rte_loadObject "daemonset.yaml") as (ds & Hds & _);
    [file_of decodes_rte|]. rewrite Hds. destruct (ao_containers ver Ha ds Hds) as [Hmain Hhelp]. cbn [sum_bind].
  change (policy_file "default") with "networkpolicy.yaml". change (policy_file "apiserver") with "networkpolicy.apiserver.yaml".
  change (policy_file "metrics") with "networkpolicy.metrics.yaml".
  destruct (load_as rte_loadObject "networkpolicy.yaml" TNetworkPolicy) as (np & -> & Hnp & Knp & _);
    [file_of decodes_rte|]. cbn [sum_bind].
  destruct (load_as rte_loadObject "networkpolicy.apiserver.yaml" TNetworkPolicy) as (npa & -> & Hnpa & Knpa & _);
    [file_of decodes_rte|]. cbn [sum_bind].
  destruct (load_as rte_loadObject "networkpolicy.metrics.yaml" TNetworkPolicy) as (npm & -> & Hnpm & Knpm & _);
    [file_of decodes_rte|]. cbn [sum_bind].
  eexists. split; [reflexivity|]. split; [|done]. split; simpl; try done; try (by apply map_Meta_typed); by repeat eexists.
Qed.

Lemma given_Namespace_free namespace m : om_OwnerReferences (om_given_Namespace namespace m) = om_OwnerReferences m.
Proof. unfold om_given_Namespace. by case_decide. Qed.

Lemma given_Namespace_names namespace m m' :
  om_Name m <> om_Name m' -> om_key (om_given_Namespace namespace m) <> om_key (om_given_Namespace namespace m').
Proof. unfold om_given_Namespace, om_key. by case_decide; simpl; intros Hn [=]. Qed.

Lemma sched_GetManifests_ok ver namespace :
  assets_ok ver -> exists mf, sched_GetManifests namespace = inl mf /\ sched_ok mf.
Proof.
  intros Ha. unfold sched_GetManifests, sched_ServiceAccount, sched_LoadConfigMap, sched_ClusterRole,
    sched_ClusterRoleBindingNRT, loadClusterRoleBinding, sched_Role, sched_RoleBinding, sched_LoadDeployment,
    sched_NetworkPolicy.
  destruct (load_as sched_loadObject "serviceaccount.yaml" TServiceAccount) as (sa & -> & Hsa & Ksa & Osa);
    [file_of decodes_sched|]. cbn [sum_bind].
  destruct (load_cast object_cm TConfigMap cm_Meta sched_loadObject "configmap.nrt.yaml") as (cm & Hcm & Ocm);
    [file_of decodes_sched|]. rewrite Hcm. cbn [sum_bind].
  destruct (load_as sched_loadObject "clusterrole.nrt.yaml" TClusterRole) as (cr & -> & Hcr & Kcr & Ocr);
    [file_of decodes_sched|]. cbn [sum_bind].
  destruct (load_cast object_crb TClusterRoleBinding crb_Meta sched_loadObject "clusterrolebinding.nrt.yaml")
    as (crb & -> & Ocrb); [file_of decodes_sched|]. cbn [sum_bind].
  destruct (load_cast object_ro TRole ro_Meta sched_loadObject "role.yaml") as (role & Hro & Oro); [file_of decodes_sched|].
  rewrite Hro. cbn [sum_bind].
  destruct (load_cast object_rb TRoleBinding rb_Meta sched_loadObject "rolebinding.yaml") as (rb & -> & Orb);
    [file_of decodes_sched|]. cbn [sum_bind].
  destruct (load_cast object_dp TDeployment dp_Meta sched_loadObject "deployment.yaml") as (dp & Hdp & Odp);
    [file_of decodes_sched|]. rewrite Hdp. cbn [sum_bind].
  change (policy_file "default") with "networkpolicy.yaml". change (policy_file "apiserver") with "networkpolicy.apiserver.yaml".
  destruct (load_as sched_loadObject "networkpolicy.yaml" TNetworkPolicy) as (np & Hnp & Tnp & Knp & Onp);
    [file_of decodes_sched|]. rewrite Hnp. cbn [sum_bind].
  destruct (load_as sched_loadObject "networkpolicy.apiserver.yaml" TNetworkPolicy) as (npa & Hnpa & Tnpa & Knpa & Onpa);
    [file_of decodes_sched|]. rewrite Hnpa. cbn [sum_bind].
  eexists. split; [reflexivity|]. split; simpl.
  - intros p. destruct p; simpl; try (by apply map_Meta_typed); (split; [done|first [done|by right]]).
  - intros p. destruct p; simpl; rewrite ?given_Namespace_free; by rewrite ?Osa, ?Ocm, ?Ocr, ?Ocrb, ?Oro, ?Orb, ?Odp, ?Onp, ?Onpa.
  - apply given_Namespace_names. by apply (ao_names ver Ha np Hnp npa Hnpa).
  - destruct (ao_config ver Ha cm Hcm) as (p & ps & Hc & Hp). by exists p, ps.
  - apply (ao_deployment ver Ha dp Hdp).
  - apply (ao_rules ver Ha role Hro).
Qed.

Lemma metrics_Service_ok ver namespace :
  assets_ok ver -> exists o, metrics_Service namespace = inl o /\ obj_type o = TService /\ kind_ok o.
Proof.
  intros Ha. unfold metrics_Service.
  destruct (load_as metrics_loadObject "service.yaml" TService (ao_service ver Ha)) as (o & -> & Ht & Hk & _).
  eexists. split; [reflexivity|]. by apply map_Meta_typed.
Qed.

Lemma APICRD_ok ver : assets_ok ver -> exists o, APICRD = inl o /\ obj_type o = TCustomResourceDefinition /\ kind_ok o.
Proof.
  intros Ha. unfold APICRD. destruct (load_as rte_loadObject "crd.yaml" TCustomResourceDefinition) as (o & -> & Ht & Hk & _);
    [file_of decodes_rte|]. by eexists.
Qed.

(** ** Start-up *)

Lemma rte_ok_manifests plat crd mf metrics namespace pullPolicy imgs forward overridable tls sched :
  rte_ok mf -> obj_type crd = TCustomResourceDefinition -> kind_ok crd -> obj_type metrics = TService -> kind_ok metrics ->
  manifests_ok (startup_reconciler plat namespace pullPolicy imgs forward overridable tls (mkStartup mf metrics crd sched)).
Proof.
  intros [Hocp Hsa Hcr Hnp Hnpa Hnpm Hmc Hscc Hv2 _ _] Hc Kc Hm Km. split; simpl; try done.
  intros s o Ho. destruct s; simpl in Ho; try (injection Ho as <-; done).
  all: try (injection Ho as <-; (split; [done|by right])).
  - destruct Hscc as (scc & E & _). rewrite E in Ho. injection Ho as <-. split; [done|by right].
  - destruct Hv2 as [scc E]. rewrite E in Ho. injection Ho as <-. split; [done|by right].
Qed.

(** from complete embedded files, on OpenShift and HyperShift and with an image
    to run, start-up builds manifests that are what both controllers need: the
    invariants their theorems assume hold of the reconcilers [main] starts, and the
    exporter's daemon set is in the operator's namespace. *)
Theorem startup_ok lookupEnv plat ver namespace imgs pullPolicy forward overridable tls :
  assets_ok ver -> is_ocp plat = true -> img_Discovered imgs <> "" \/ img_Builtin imgs <> "" ->
  exists su, startup lookupEnv plat ver namespace imgs = Ret (inl su) /\
    manifests_ok (startup_reconciler plat namespace pullPolicy imgs forward overridable tls su) /\
    sched_ok (su_sched su) /\
    om_Namespace (ds_Meta (rm_DaemonSet (su_rte su))) = namespace.
Proof.
  intros Ha Hocp Hi. unfold startup.
  destruct (APICRD_ok ver Ha) as (crd & -> & Hc & Kc). destruct (GetManifests_ok plat ver namespace Ha Hocp) as (mf & -> & Hmf & Hns).
  destruct (metrics_Service_ok ver namespace Ha) as (service & -> & Hs & Ks). cbn [sum_bind].
  destruct (renderRTEManifests_ok lookupEnv mf namespace imgs Hmf Hi) as (mf' & -> & Hmf' & Hns'). cbn [go_bind].
  destruct (sched_GetManifests_ok ver namespace Ha) as (sched & -> & Hsched). cbn [sum_bind].
  eexists. split; [reflexivity|]. split; [by apply rte_ok_manifests|]. split; [done|]. simpl. by rewrite Hns'.
Qed.
End Files.

(** *** The files of the repository *)

Module embedded.

Definition object (apiVersion kind name ns : string) (b : Body) : Object :=
  mkObject apiVersion kind (emptyMeta name ns) b.

Definition container (name image : string) (command args : list string) (env : list EnvVar) (mounts : list VolumeMount)
  : Container :=
  mkContainer name image "" command args env [] mounts None "" emptyResources "".

Definition rte_daemonset : DaemonSet :=
  mkDaemonSet (emptyMeta "resource-topology-exporter" "")
    (mkDaemonSetSpec (mkUpdateStrategy "" None "")
       (mkPodTemplateSpec (Some {["name" := "resource-topology"]}) None
          (mkPodSpec None []
             [container "resource-topology-exporter"
                "quay.io/k8stopologyawareschedwg/resource-topology-exporter:latest" ["/bin/resource-topology-exporter"]
                ["--sleep-interval=10s"; "--sysfs=/host-sys";
                 "--podresources-socket=unix:///host-podresources/kubelet.sock"]
                [mkEnvVar "NODE_NAME" "" "spec.nodeName"; mkEnvVar "REFERENCE_NAMESPACE" "" "metadata.namespace";
                 mkEnvVar "REFERENCE_POD_NAME" "" "metadata.name";
                 mkEnvVar "REFERENCE_CONTAINER_NAME" "shared-pool-container" ""]
                [mkVolumeMount "host-sys" "/host-sys" true "";
                 mkVolumeMount "host-podresources" "/host-podresources" true ""];
              container "shared-pool-container" "gcr.io/google_containers/pause-amd64:3.0" [] [] [] []]
             [mkVolume "host-sys" (VSHostPath "/sys" "Directory");
              mkVolume "host-podresources" (VSHostPath "/var/lib/kubelet/pod-resources" "Directory")]
             None [] "system-node-critical" [] "rte" "readinessGates")) "selector")
    (mkDaemonSetStatus 0 0 0 "").

Definition lookup_file (files : list (string * Object)) (path : string) : Object + error :=
  match list_find (fun e => "yaml/" +:+ fst e = path) files with
  | Some (_, e) => inl (snd e)
  | None => inr (ErrNew "file does not exist")
  end.

Definition rbac : string := "rbac.authorization.k8s.io/v1".

Definition rte : list (string * Object) :=
  [("crd.yaml", object "apiextensions.k8s.io/v1" "CustomResourceDefinition" "noderesourcetopologies.topology.node.k8s.io"
      "" (BCustomResourceDefinition "spec" ""));
   ("machineconfig.yaml", obj_map_Meta (om_set_Labels (Some {["machineconfiguration.openshift.io/role" := "worker"]}))
      (object "machineconfiguration.openshift.io/v1" "MachineConfig" "50-resource-topology-exporter" "" (BMachineConfig "" "")));
   ("securitycontextconstraint.yaml",
      scc_object (mkSecurityContextConstraints (emptyMeta "resource-topology-exporter" "") "" None [] "rest"));
   ("securitycontextconstraintv2.yaml",
      scc_object (mkSecurityContextConstraints (emptyMeta "resource-topology-exporter-v2" "") "MustRunAs"
        (Some (mkSELinuxOptions "" "" "container_device_plugin_t" "s0")) [] "rest"));
   ("serviceaccount.yaml", object "v1" "ServiceAccount" "rte" "" (BServiceAccount [] [] ""));
   ("role.yaml", object rbac "Role" "rte" "default"
      (BRole [mkPolicyRule [""] ["pods"] [] "get"; mkPolicyRule [""] ["pods/status"] [] "update"] ""));
   ("rolebinding.yaml", object rbac "RoleBinding" "rte" "default"
      (BRoleBinding [mkSubject "rte" "default" "ServiceAccount"] "rte"));
   ("clusterrole.yaml", object rbac "ClusterRole" "rte" "" (BClusterRole "rules"));
   ("clusterrolebinding.yaml", object rbac "ClusterRoleBinding" "rte" ""
      (BClusterRoleBinding [mkSubject "rte" "default" "ServiceAccount"] "rte"));
   ("daemonset.yaml", ds_object rte_daemonset);
   ("networkpolicy.yaml", object "networking.k8s.io/v1" "NetworkPolicy" "rte-default-deny-all" "" (BNetworkPolicy "deny"));
   ("networkpolicy.apiserver.yaml",
      object "networking.k8s.io/v1" "NetworkPolicy" "rte-egress-to-api-server" "" (BNetworkPolicy "6443"));
   ("networkpolicy.metrics.yaml",
      object "networking.k8s.io/v1" "NetworkPolicy" "ingress-to-rte-metrics" "" (BNetworkPolicy "2112"))].

Definition sched_deployment : Deployment :=
  mkDeployment (mkObjectMeta "secondary-scheduler" "openshift-numaresources" "" "" "" 0 0
      (Some {["app" := "secondary-scheduler"]}) None [] [] [])
    (mkDeploymentSpec (Some 1%Z)
       (mkPodTemplateSpec (Some {["app" := "secondary-scheduler"]})
          (Some {["target.workload.openshift.io/management" := "PreferredDuringScheduling"]})
          (mkPodSpec None []
             [container "secondary-scheduler" "${IMAGE}" ["/bin/kube-scheduler"] ["--config=/etc/kubernetes/config.yaml"] []
                [mkVolumeMount "etckubernetes" "/etc/kubernetes" false "";
                 mkVolumeMount "runpfpstatus" "/run/pfpstatus" false ""]]
             [mkVolume "etckubernetes" (VSOther ""); mkVolume "runpfpstatus" (VSEmptyDir "Memory" 67108864)]
             None [] "" [] "secondary-scheduler" "securityContext")) "selector")
    (mkDeploymentStatus [] "").

Definition leader_elect : list PolicyRule :=
  [mkPolicyRule ["coordination.k8s.io"] ["leases"] [] "create";
   mkPolicyRule ["coordination.k8s.io"] ["leases"] ["nrtmatch-scheduler"] "get update";
   mkPolicyRule [""] ["endpoints"] [] "create"; mkPolicyRule [""] ["endpoints"] ["nrtmatch-scheduler"] "get update"].

(** The document in the config map is the one the library of the scenario reads. *)
Definition sched : list (string * Object) :=
  [("serviceaccount.yaml", object "v1" "ServiceAccount" "secondary-scheduler" "placeholder" (BServiceAccount [] [] ""));
   ("configmap.nrt.yaml", object "v1" "ConfigMap" "topo-aware-scheduler-config" "placeholder"
      (BConfigMap (Some {[SchedulerConfigFileName := "input"]}) None));
   ("clusterrole.nrt.yaml", object rbac "ClusterRole" "topology-aware-scheduler" "" (BClusterRole "rules"));
   ("clusterrolebinding.nrt.yaml", object rbac "ClusterRoleBinding" "topology-aware-scheduler" ""
      (BClusterRoleBinding [mkSubject "secondary-scheduler" "placeholder" "ServiceAccount"] "topology-aware-scheduler"));
   ("role.yaml", object rbac "Role" "topology-aware-scheduler-leader-elect" "tas-scheduler" (BRole leader_elect ""));
   ("rolebinding.yaml", object rbac "RoleBinding" "topology-aware-scheduler-leader-elect" "tas-scheduler"
      (BRoleBinding [mkSubject "topology-aware-scheduler" "tas-scheduler" "ServiceAccount"] "leader-elect"));
   ("deployment.yaml", dp_object sched_deployment);
   ("networkpolicy.yaml",
      object "networking.k8s.io/v1" "NetworkPolicy" "scheduler-default-deny-all" "" (BNetworkPolicy "deny"));
   ("networkpolicy.apiserver.yaml",
      object "networking.k8s.io/v1" "NetworkPolicy" "scheduler-egress-to-api-server" "" (BNetworkPolicy "6443"))].

Definition metrics : list (string * Object) :=
  [("service.yaml", object "v1" "Service" "numaresources-rte-metrics-service" ""
      (BService (mkServiceSpec "" None None None "2112") ""))].

(** A version is 4.N; the files of the known ones are there. *)
Definition minor (v : string) : option nat :=
  fst <$> list_find (fun w => w = v \/ "v" +:+ v = w)
    ((fun n => "v4." +:+ pretty n) <$> seq 0 30).

#[global] Instance assets : Assets := {|
  rte_loadObject := lookup_file rte;
  sched_loadObject := lookup_file sched;
  metrics_loadObject := lookup_file metrics;
  policy_ReadFile path :=
    if decide (path ∈ policyPathFromVer <$> knownVersions) then inl "(block rte)" else inr (ErrNew "file does not exist");
  NotifierScript := "#!/bin/sh";
  show_unexpected _ := "";
  ignition_Marshal c := inl (str_join nl (if_Path <$> ic_Files c));
  version_AtLeastString v w :=
    match minor v, minor w with
    | Some m, Some n => inl (n <=? m)%nat
    | _, _ => inr (ErrNew "malformed version")
    end;
  version_Parse v := if decide (v = "") then Some (ErrNew "malformed version") else None;
  serialize o := inl (obj_Kind o +:+ " " +:+ obj_Namespace o +:+ "/" +:+ obj_Name o +:+ nl) |}.

End embedded.

#[local] Existing Instance sched_scenario.yaml.

Lemma decodes_check load files :
  forallb (fun ft => match load ("yaml/" +:+ fst ft) with
                     | inl o => bool_decide (obj_type o = snd ft /\ kind_ok o /\ om_OwnerReferences (obj_Meta o) = [])
                     | inr _ => false
                     end) files = true -> Forall (decodes load) files.
Proof.
  rewrite forallb_forall. intros Hf. apply Forall_forall. intros ft Hin. apply list_elem_of_In in Hin.
  specialize (Hf _ Hin). destruct (load _) as [o|] eqn:E; [|done]. apply bool_decide_eq_true in Hf. by exists o.
Qed.

Lemma embedded_ok : assets_ok "4.20".
Proof.
  split.
  - apply decodes_check. vm_compute. reflexivity.
  - apply decodes_check. vm_compute. reflexivity.
  - eexists. split; [reflexivity|]. split; [done|]. split; [by right|done].
  - intros ds E. vm_compute in E. injection E as <-. split; by eexists.
  - repeat constructor; (eexists; vm_compute; reflexivity).
  - repeat constructor; (eexists; vm_compute; reflexivity).
  - intros c. by eexists.
  - intros cm E. vm_compute in E. injection E as <-.
    destruct (configuration table.builtin) as [[|p ps]|] eqn:Ec; [vm_compute in Ec; discriminate Ec| |vm_compute in Ec; discriminate Ec].
    exists p, ps. split; [|vm_compute in Ec; injection Ec as <- _; discriminate].
    exists {[SchedulerConfigFileName := "input"]}, "input", table.builtin, {["leaderElect" := JBool false]}.
    split_and!; try reflexivity; [exact Ec|done].
  - intros dp E. vm_compute in E. injection E as <-. split_and!; [by exists 0|discriminate|discriminate].
  - intros ro E. vm_compute in E. injection E as <-. repeat constructor; discriminate.
  - intros d E a E'. vm_compute in E, E'. injection E as <-. injection E' as <-. discriminate.
Qed.

Lemma startup_ok_witness :
  exists su, startup (fun _ => None) platform.OpenShift "4.20" "openshift-numaresources"
      (mkImagesData "" "quay.io/self:1" "") = Ret (inl su) /\
    manifests_ok (startup_reconciler platform.OpenShift "openshift-numaresources" "Always"
      (mkImagesData "" "quay.io/self:1" "") true false (mkSettings "VersionTLS12" "" "") su) /\
    sched_ok (su_sched su) /\ om_Namespace (ds_Meta (rm_DaemonSet (su_rte su))) = "openshift-numaresources".
Proof.
  apply (startup_ok (fun _ => None) platform.OpenShift "4.20"); [exact embedded_ok|reflexivity|by left].
Defined.

(** ** The rendering namespace *)

Lemma rm_Render_ocp_namespace lookupEnv mf ds scc sel config name ns ns' :
  is_ocp (rm_plat mf) = true ->
  rm_Render lookupEnv mf (mkUpdaterDaemon ds scc sel config ns name) =
  rm_Render lookupEnv mf (mkUpdaterDaemon ds scc sel config ns' name).
Proof.
  intros Hocp. assert (rm_plat mf <> platform.Kubernetes) as Hk
    by (intros E; unfold is_ocp in Hocp; by rewrite E in Hocp).
  unfold rm_Render. cbn [ud_Namespace ud_Name ud_DaemonSet ud_SCCVersion ud_MachineConfigPoolSelector ud_ConfigData].
  by destruct (decide (rm_plat mf = platform.Kubernetes)).
Qed.

(** Off OpenShift nothing is dereferenced. *)
Lemma rm_Render_kubernetes lookupEnv mf opts mf' :
  rm_plat mf = platform.Kubernetes -> rm_Render lookupEnv mf opts = Ret mf' ->
  rm_ServiceAccount mf' = obj_map_Meta (om_given_Name (ud_Name opts))
    (obj_map_Meta (om_given_Namespace (ud_Namespace opts)) (rm_ServiceAccount mf)) /\
  om_Namespace (ro_Meta (rm_Role mf')) = om_Namespace (ro_Meta (rm_Role mf)) /\
  rb_Subjects (rm_RoleBinding mf')
    = bind_subject (obj_Name (rm_ServiceAccount mf)) (obj_Namespace (rm_ServiceAccount mf'))
      <$> rb_Subjects (rm_RoleBinding mf) /\
  crb_Subjects (rm_ClusterRoleBinding mf')
    = bind_subject (obj_Name (rm_ServiceAccount mf)) (obj_Namespace (rm_ServiceAccount mf))
      <$> crb_Subjects (rm_ClusterRoleBinding mf) /\
  om_Namespace (ds_Meta (rm_DaemonSet mf')) = om_Namespace (ds_Meta (rm_DaemonSet mf)).
Proof.
  intros Hk Hr. unfold rm_Render in Hr. rewrite Hk in Hr.
  change (is_ocp platform.Kubernetes) with false in Hr. injection Hr as <-. simpl.
  split; [done|]. split; [unfold om_given_Name; by case_decide|]. split; [done|]. split; [done|].
  match goal with |- context [manifests_DaemonSet ?e ?ds ?p ?c ?o] => destruct (manifests_DaemonSet_shape e ds p c o) as [-> _] end.
  simpl. unfold om_given_Name. by case_decide.
Qed.

(** The steps after rendering only touch the daemon set. *)
Lemma renderRTEManifests_inv lookupEnv mf namespace imgs mf' err :
  renderRTEManifests lookupEnv mf namespace imgs = Ret (mf', err) ->
  exists mf1, rm_Render lookupEnv mf (mkUpdaterDaemon (mkDaemonSetOptions 2 false false true None (10 * Duration.Second)%Z)
      "" None "" namespace "") = Ret mf1 /\
    rm_ServiceAccount mf' = rm_ServiceAccount mf1 /\ rm_Role mf' = rm_Role mf1 /\
    rm_RoleBinding mf' = rm_RoleBinding mf1 /\ rm_ClusterRoleBinding mf' = rm_ClusterRoleBinding mf1 /\
    (err = None -> om_Namespace (ds_Meta (rm_DaemonSet mf')) = om_Namespace (ds_Meta (rm_DaemonSet mf1))).
Proof.
  unfold renderRTEManifests. destruct (rm_Render _ _ _) as [mf1|]; [|done]. cbn [go_bind].
  destruct (DaemonSetUserImageSettings (rm_DaemonSet mf1) _ _ _) as [ds1 [e|]] eqn:E1; [by intros [= <- <-]; exists mf1|].
  destruct (DaemonSetPauseContainerSettings ds1) as [ds2 e] eqn:E2. intros [= <- <-]. exists mf1. split_and!; try done.
  intros ->. simpl.
  destruct (FindContainerByName (ds_Containers (rm_DaemonSet mf1)) MainContainerName) as [i|] eqn:Hm;
    [|by unfold DaemonSetUserImageSettings in E1; rewrite Hm in E1].
  assert (same_shape (rm_DaemonSet mf1) ds1) as Hs1.
  { destruct (decide (img_Discovered imgs <> "" \/ img_Builtin imgs <> "")) as [Hi|Hi].
    - destruct (UserImage_ok _ _ (img_Discovered imgs) (img_Builtin imgs) "" Hm Hi) as (d & E & Hd).
      rewrite E in E1. by injection E1 as <-.
    - exfalso. apply Decidable.not_or in Hi as [Hi1 Hi2]. apply dec_stable in Hi1, Hi2.
      unfold DaemonSetUserImageSettings in E1. rewrite Hm, Hi1, Hi2 in E1. discriminate E1. }
  unfold DaemonSetPauseContainerSettings in E2. destruct Hs1 as [Hs1 _]. rewrite <-Hs1.
  repeat case_match; simplify_eq; done.
Qed.

Section Rendering.
Context `{Assets} (sha256_hex : string -> string) (lookupEnv : string -> option string).

Definition rp_with_Namespace (ns : string) (rp : RenderParams) : RenderParams :=
  mkRenderParams (rp_NRTCRD rp) ns (rp_Image_Exporter rp) (rp_Image_Scheduler rp).

(** the rendering namespace of the command line. On OpenShift and HyperShift what
    is printed does not depend on it. On Kubernetes, when rendering succeeds, the
    exporter's service account is printed in it and its role binding names it there,
    while the role and the daemon set stay in the operator's namespace, and the
    cluster role binding keeps granting to the account of that namespace. *)
Theorem render_namespace specPath render crd rteMf metrics namespace enableScheduler ns imgs mf' :
  (is_ocp (rm_plat rteMf) = true ->
   manageRendering sha256_hex lookupEnv specPath (rp_with_Namespace ns render) crd rteMf metrics namespace enableScheduler
   = manageRendering sha256_hex lookupEnv specPath render crd rteMf metrics namespace enableScheduler) /\
  (rm_plat rteMf = platform.Kubernetes -> ns <> "" ->
   renderRTEManifests lookupEnv rteMf ns imgs = Ret (mf', None) ->
   obj_Namespace (rm_ServiceAccount mf') = ns /\
   om_Namespace (ro_Meta (rm_Role mf')) = om_Namespace (ro_Meta (rm_Role rteMf)) /\
   om_Namespace (ds_Meta (rm_DaemonSet mf')) = om_Namespace (ds_Meta (rm_DaemonSet rteMf)) /\
   rb_Subjects (rm_RoleBinding mf')
     = bind_subject (obj_Name (rm_ServiceAccount rteMf)) ns <$> rb_Subjects (rm_RoleBinding rteMf) /\
   crb_Subjects (rm_ClusterRoleBinding mf')
     = bind_subject (obj_Name (rm_ServiceAccount rteMf)) (obj_Namespace (rm_ServiceAccount rteMf))
       <$> crb_Subjects (rm_ClusterRoleBinding rteMf)).
Proof.
  split.
  - intros Hocp. unfold manageRendering, rp_with_Namespace. cbn [rp_NRTCRD rp_Namespace rp_Image_Exporter rp_Image_Scheduler].
    destruct (rp_NRTCRD render); [done|]. unfold renderRTEManifests.
    by rewrite (rm_Render_ocp_namespace _ _ _ _ _ _ _ ns (rp_Namespace render)).
  - intros Hk Hns Hr. destruct (renderRTEManifests_inv _ _ _ _ _ _ Hr) as (mf1 & H1 & -> & -> & -> & -> & Hds).
    destruct (rm_Render_kubernetes _ _ _ _ Hk H1) as (Hsa & -> & -> & -> & E). rewrite (Hds eq_refl), E.
    assert (obj_Namespace (rm_ServiceAccount mf1) = ns) as ->; [|done].
    rewrite Hsa. unfold obj_Namespace, obj_map_Meta, om_given_Name, om_given_Namespace. simpl. by repeat case_decide.
Qed.
End Rendering.

(** The files of the repository, rendered on Kubernetes for another namespace. *)
Lemma render_namespace_witness :
  exists rteMf mf',
    GetManifests platform.Kubernetes "1.33" "operator" false true = inl rteMf /\
    renderRTEManifests (fun _ => None) rteMf "elsewhere" (mkImagesData "quay.io/rte:1" "" "") = Ret (mf', None) /\
    obj_Namespace (rm_ServiceAccount mf') = "elsewhere" /\ om_Namespace (ds_Meta (rm_DaemonSet mf')) = "operator" /\
    rb_Subjects (rm_RoleBinding mf') = [mkSubject "rte" "elsewhere" "ServiceAccount"] /\
    crb_Subjects (rm_ClusterRoleBinding mf') = [mkSubject "rte" "operator" "ServiceAccount"].
Proof.
  destruct (GetManifests platform.Kubernetes "1.33" "operator" false true) as [rteMf|] eqn:E;
    [|vm_compute in E; discriminate E].
  destruct (renderRTEManifests (fun _ => None) rteMf "elsewhere" (mkImagesData "quay.io/rte:1" "" "")) as [[mf' [e|]]|] eqn:Er;
    [vm_compute in E; injection E as <-; vm_compute in Er; discriminate Er| |
     vm_compute in E; injection E as <-; vm_compute in Er; discriminate Er].
  exists rteMf, mf'. split; [done|]. split; [done|].
  pose proof (proj2 (render_namespace (fun _ => "0") (fun _ => None) "" (mkRenderParams false "" "" "") (rm_ServiceAccount rteMf)
    rteMf (rm_ServiceAccount rteMf) "operator" false "elsewhere" (mkImagesData "quay.io/rte:1" "" "") mf')) as Hr.
  vm_compute in E. injection E as <-. destruct (Hr eq_refl ltac:(discriminate) Er) as (-> & _ & -> & -> & ->). done.
Defined.
