(* ===== verification/Nrovalidate.v ===== *)
(** * The cluster validator (nrovalidate, internal/schedcache, internal/podlist,
    internal/nodegroups)

    The command that checks a cluster the operator works on: it collects the data
    the requested validators need, first the names of the nodes of interest, then
    reports what it finds wrong in them. *)
From S2P Require Import Prelude GoErrors Meta ApiV1 Conditions Steps Trees Workload RteUpdate Objects MergeSpec.
From S2P Require Import Cluster Apply RteState Dangling Controller SchedParams SchedApi SchedUpdate SchedState.
From S2P Require Import SchedController Kubelet.

(** ** Standard library *)

(** [strings.ReplaceAll] of one character by another. *)
Fixpoint replace_char (old new : Ascii.ascii) (s : string) : string :=
  match s with
  | EmptyString => EmptyString
  | String c s' => String (if decide (c = old) then new else c) (replace_char old new s')
  end.

(** ** What is read of a cluster *)

Record Node := mkNode { node_Name : string; node_Labels : gmap string string }.
Record Pod := mkPod { pod_Namespace : string; pod_Name : string; pod_Phase : string }.

(** A deployment, as the search of its pods reads it. *)
Record DeploymentInfo := mkDeploymentInfo {
  di_Namespace : string; di_Owners : list string; di_Replicas : option Z; di_ReadyReplicas : Z;
  di_Selector : option LabelSelector }.

(** [podfingerprint.Status]; the pods are given by their text. *)
Record PfpStatus := mkPfpStatus {
  pfp_FingerprintExpected : string; pfp_FingerprintComputed : string; pfp_Pods : list string }.

(** [deployervalidator.ValidationResult] *)
Record ValidationResult := mkValidationResult {
  vr_Node : string; vr_Area : string; vr_Component : string; vr_Setting : string; vr_Expected : string;
  vr_Detected : string }.

(** The client, the discovery client, the client of the topology API and the
    execution of [cat] in a pod; the libraries these answers go through.
    [status_details] finds the API status in the chain of an error: its details,
    by group and kind, may be missing. *)
Class ValidatorClient (W : Type) := {
  detect_Platform : W -> platform.Platform + error;
  cli_ServerVersion : W -> string + error;
  labels_Parse : string -> (gmap string string -> bool) + error;
  cli_Nodes : W -> (gmap string string -> bool) -> list Node + error;
  fields_ParseSelector : string -> option error;
  cli_PodsOnNode : W -> string -> list Pod + error;
  cli_Pods : W -> string -> (gmap string string -> bool) -> list Pod + error;
  cli_Deployments : W -> list DeploymentInfo + error;
  cli_ListNRT : W -> nat + error;
  status_details : error -> option (option (string * string));
  new_K8s : W -> option error;
  GetWorkers : W -> list Node + error;
  new_TopologyClient : W -> option error;
  CommandOnPod_cat : W -> Pod -> string -> string + error;
  pfp_Unmarshal : string -> PfpStatus + error;
  ValidateClusterNodeKubeletConfig : string -> string -> option KubeletConfiguration -> list ValidationResult;
}.

(** [labels.SelectorFromSet] of one label. *)
Definition has_label (k v : string) (ls : gmap string string) : bool := bool_decide (ls !! k = Some v).

(** [LabelSelectorAsSelector] of a pointer: nil selects nothing. *)
Definition pointer_selector `{SelectorLib} (sel : option LabelSelector) : (gmap string string -> bool) + error :=
  match sel with
  | None => inl (fun _ => false)
  | Some sel => LabelSelectorAsSelector sel
  end.

(** ** The validators *)

Definition ValidatorKubeletConfig : string := "k8scfg".
Definition ValidatorNodeResourceTopologies : string := "nrt".
Definition ValidatorPodStatus : string := "podst".
Definition ValidatorSchedCache : string := "schedcache".

Definition Available : gset string :=
  {[ValidatorKubeletConfig; ValidatorNodeResourceTopologies; ValidatorPodStatus; ValidatorSchedCache]}.

(** The special items, looked for first. *)
Fixpoint special_request (items : list string) : option (gset string) :=
  match items with
  | [] => None
  | item :: rest =>
      if decide (ToLower item = "help") then Some {["help"]}
      else if decide (ToLower item = "all") then Some Available
      else special_request rest
  end.

Fixpoint requested_items (items : list string) (ret : gset string) : gset string + error :=
  match items with
  | [] => inl ret
  | item :: rest =>
      let vd := ToLower (TrimSpace item) in
      if decide (vd ∉ Available) then inr (ErrNew ("unknown validator: " +:+ quote item))
      else requested_items rest (ret ∪ {[vd]})
  end.

Definition Requested (what : string) : gset string + error :=
  let items := FieldsFunc "," what in
  match special_request items with
  | Some ret => inl ret
  | None => requested_items items ∅
  end.

Record ValidatorData := mkValidatorData {
  vd_tasEnabledNodeNames : gset string;
  vd_nonRunningPodsByNode : gmap string (gmap string string);
  vd_kConfigs : gmap string KubeletConfiguration;
  vd_unsynchedCaches : gmap string (gset string);
  vd_nrtCrdMissing : bool;
  vd_nrtList : option nat;
  vd_versionInfo : string;
  vd_what : gset string }.

Definition vd_set_Nodes (s : gset string) (d : ValidatorData) : ValidatorData :=
  mkValidatorData s (vd_nonRunningPodsByNode d) (vd_kConfigs d) (vd_unsynchedCaches d) (vd_nrtCrdMissing d) (vd_nrtList d)
    (vd_versionInfo d) (vd_what d).
Definition vd_set_Pods (m : gmap string (gmap string string)) (d : ValidatorData) : ValidatorData :=
  mkValidatorData (vd_tasEnabledNodeNames d) m (vd_kConfigs d) (vd_unsynchedCaches d) (vd_nrtCrdMissing d) (vd_nrtList d)
    (vd_versionInfo d) (vd_what d).
Definition vd_set_kConfigs (m : gmap string KubeletConfiguration) (d : ValidatorData) : ValidatorData :=
  mkValidatorData (vd_tasEnabledNodeNames d) (vd_nonRunningPodsByNode d) m (vd_unsynchedCaches d) (vd_nrtCrdMissing d)
    (vd_nrtList d) (vd_versionInfo d) (vd_what d).
Definition vd_set_Unsynched (m : gmap string (gset string)) (d : ValidatorData) : ValidatorData :=
  mkValidatorData (vd_tasEnabledNodeNames d) (vd_nonRunningPodsByNode d) (vd_kConfigs d) m (vd_nrtCrdMissing d)
    (vd_nrtList d) (vd_versionInfo d) (vd_what d).
Definition vd_set_NRT (missing : bool) (l : option nat) (d : ValidatorData) : ValidatorData :=
  mkValidatorData (vd_tasEnabledNodeNames d) (vd_nonRunningPodsByNode d) (vd_kConfigs d) (vd_unsynchedCaches d) missing l
    (vd_versionInfo d) (vd_what d).
Definition vd_set_Version (v : string) (d : ValidatorData) : ValidatorData :=
  mkValidatorData (vd_tasEnabledNodeNames d) (vd_nonRunningPodsByNode d) (vd_kConfigs d) (vd_unsynchedCaches d)
    (vd_nrtCrdMissing d) (vd_nrtList d) v (vd_what d).

(** [sets.List] *)
Definition sets_List (s : gset string) : list string := stable_sort String.leb (elements s).

Section Collect.
Context {W : Type} `{!Client W} `{!SchedClient W} `{!KubeletClient W} `{!ValidatorClient W} `{!SelectorLib} `{!KubeletLib}.
(** The text of a [%+v] of a node group. *)
Variable show_node_group : NodeGroup -> string.
(** The orders in which Go lists a set and ranges over a map. *)
Variable UnsortedList : gset string -> list string.
Variable range_map : forall A, gmap string A -> list (string * A).
Arguments range_map {A}.

(** ** Nodes of interest (internal/nodegroups, internal/machineconfigpools) *)

Definition getNodeNames (nodes : list Node) : list string :=
  fold_left (fun nodeNames node => nodeNames ++ [node_Name node]) nodes [].

(** [GetNodesFrom] of a pool; the validator has a copy of it. *)
Definition mcp_GetNodesFrom (w : W) (mcp : MachineConfigPool) : list Node + error :=
  let? sel := pointer_selector (mcp_NodeSelector mcp) in cli_Nodes w sel.

Fixpoint hypershift_nodes (w : W) (nodeGroups : list NodeGroup) (nodes : list Node) : go (list Node + error) :=
  match nodeGroups with
  | [] => Ret (inl nodes)
  | nodeGroup :: rest =>
      let! pool := deref "PoolName" (ng_PoolName nodeGroup) in
      match cli_Nodes w (has_label HyperShiftNodePoolLabel pool) with
      | inr err => Ret (inr err)
      | inl items => hypershift_nodes w rest (nodes ++ items)
      end
  end.

Fixpoint pools_nodes (w : W) (mcps : list MachineConfigPool) (nodes : list Node) : list Node + error :=
  match mcps with
  | [] => inl nodes
  | mcp :: rest => let? mcpNodes := mcp_GetNodesFrom w mcp in pools_nodes w rest (nodes ++ mcpNodes)
  end.

Definition GetNodesFrom (w : W) (nodeGroups : list NodeGroup) : go (list Node + error) :=
  match detect_Platform w with
  | inr err => Ret (inr err)
  | inl plat =>
      if decide (plat = platform.HyperShift) then hypershift_nodes w nodeGroups []
      else Ret (let? nroMcps := GetListByNodeGroupsV1 show_node_group w nodeGroups in pools_nodes w nroMcps [])
  end.

(** What was found so far is not used next to an error. *)
Fixpoint GetPoolNamesFrom (w : W) (nodeGroups : list NodeGroup) (poolNames : list string) : list string + error :=
  match nodeGroups with
  | [] => inl poolNames
  | nodeGroup :: rest =>
      match ng_PoolName nodeGroup with
      | Some name =>
          if decide (name <> "") then GetPoolNamesFrom w rest (poolNames ++ [name])
          else let? mcps := GetListByNodeGroupsV1 show_node_group w [nodeGroup] in
               GetPoolNamesFrom w rest (poolNames ++ (mcp_Name <$> filter (fun mcp => is_Some (mcp_NodeSelector mcp)) mcps))
      | None =>
          let? mcps := GetListByNodeGroupsV1 show_node_group w [nodeGroup] in
          GetPoolNamesFrom w rest (poolNames ++ (mcp_Name <$> filter (fun mcp => is_Some (mcp_NodeSelector mcp)) mcps))
      end
  end.

(** The selector of a pool is dereferenced without a check. *)
Definition NodeSelectorFromPoolName (w : W) (poolName : string) : go (gmap string string + error) :=
  match detect_Platform w with
  | inr err => Ret (inr err)
  | inl plat =>
      if decide (plat = platform.HyperShift) then Ret (inl {[HyperShiftNodePoolLabel := poolName]})
      else match cli_GetMCP w (mkNamespacedName "" poolName) with
           | inr err => Ret (inr err)
           | inl mcp => let! sel := deref "NodeSelector" (mcp_NodeSelector mcp) in Ret (inl (ls_MatchLabels sel))
           end
  end.

Definition GetNodesByLabels (w : W) (userLabels : string) : gset string + error :=
  let? sel := labels_Parse userLabels in
  let? nodes := cli_Nodes w sel in
  inl (list_to_set (getNodeNames nodes)).

Definition GetNodesByNRO (w : W) : go (gset string + error) :=
  match cli_GetNRO w (mkNamespacedName "" objectnames.DefaultNUMAResourcesOperatorCrName) with
  | inr err => Ret (inr err)
  | inl nroInstance =>
      let! nodes := GetNodesFrom w (spec_NodeGroups (nro_Spec nroInstance)) in
      Ret (let? nodes := nodes in inl (list_to_set (getNodeNames nodes)))
  end.

(** ** Kubelet configurations *)

(** Looks in the data, writes the map given. *)
Fixpoint updateNodesForValidatorData (nodeNames : list string) (kConfigs : gmap string KubeletConfiguration)
  (kubeletConfig : KubeletConfiguration) (data : ValidatorData) : gmap string KubeletConfiguration + error :=
  match nodeNames with
  | [] => inl kConfigs
  | nodeName :: rest =>
      if decide (nodeName ∉ vd_tasEnabledNodeNames data)
      then updateNodesForValidatorData rest kConfigs kubeletConfig data
      else match vd_kConfigs data !! nodeName with
           | Some _ => inr (ErrNew ("found two KubeletConfigurations for node " +:+ quote nodeName))
           | None => updateNodesForValidatorData rest (<[nodeName := kubeletConfig]> kConfigs) kubeletConfig data
           end
  end.

Fixpoint collect_config_maps (w : W) (cms : list ConfigMap) (kConfigs : gmap string KubeletConfiguration)
  (data : ValidatorData) : gmap string KubeletConfiguration + error :=
  match cms with
  | [] => inl kConfigs
  | cm :: rest =>
      match map_of (cm_Data cm) !! HyperShiftConfigMapConfigKey, map_of (om_Labels (cm_Meta cm)) !! HyperShiftNodePoolLabel with
      | Some v, Some nodePoolName =>
          let? mcoKc := DecodeFromData v in
          let? kubeletConfig := MCOKubeletConfToKubeletConf mcoKc in
          let? nodes := cli_Nodes w (has_label HyperShiftNodePoolLabel nodePoolName) in
          let? kConfigs := updateNodesForValidatorData (getNodeNames nodes) kConfigs kubeletConfig data in
          collect_config_maps w rest kConfigs data
      | _, _ => collect_config_maps w rest kConfigs data
      end
  end.

Definition CollectKubeletConfigForHyperShift (w : W) (data : ValidatorData) : ValidatorData + error :=
  let? cms := cli_ListConfigMaps w "" {[HypershiftKubeletConfigConfigMapLabel := "true"]} in
  let? kConfigs := collect_config_maps w cms ∅ data in
  inl (vd_set_kConfigs kConfigs data).

(** The selector is built for each pool, so never when there is none. *)
Fixpoint matching_pools (sel : option LabelSelector) (mcps result : list MachineConfigPool)
  : list MachineConfigPool + error :=
  match mcps with
  | [] => inl result
  | mcp :: rest =>
      let? Matches := pointer_selector sel in
      matching_pools sel rest (if Matches (mcp_Labels mcp) : bool then result ++ [mcp] else result)
  end.

Definition getMachineConfigPoolListFromMCOKubeletConfig (w : W) (mcoKubeletConfig : KubeletConfig)
  : list MachineConfigPool + error :=
  let? mcps := cli_ListMCP w in matching_pools (kc_MachineConfigPoolSelector mcoKubeletConfig) mcps [].

Fixpoint collect_pools (w : W) (mcps : list MachineConfigPool) (kConfigs : gmap string KubeletConfiguration)
  (kubeletConfig : KubeletConfiguration) (data : ValidatorData) : gmap string KubeletConfiguration + error :=
  match mcps with
  | [] => inl kConfigs
  | mcp :: rest =>
      let? nodes := mcp_GetNodesFrom w mcp in
      let? kConfigs := updateNodesForValidatorData (getNodeNames nodes) kConfigs kubeletConfig data in
      collect_pools w rest kConfigs kubeletConfig data
  end.

Fixpoint collect_kubelet_configs (w : W) (kcs : list KubeletConfig) (kConfigs : gmap string KubeletConfiguration)
  (data : ValidatorData) : gmap string KubeletConfiguration + error :=
  match kcs with
  | [] => inl kConfigs
  | kc :: rest =>
      let? kubeletConfig := MCOKubeletConfToKubeletConf kc in
      let? machineConfigPools := getMachineConfigPoolListFromMCOKubeletConfig w kc in
      let? kConfigs := collect_pools w machineConfigPools kConfigs kubeletConfig data in
      collect_kubelet_configs w rest kConfigs data
  end.

Definition CollectKubeletConfigForOpenShift (w : W) (data : ValidatorData) : ValidatorData + error :=
  let? kcs := cli_ListKubeletConfigs w in
  let? kConfigs := collect_kubelet_configs w kcs ∅ data in
  inl (vd_set_kConfigs kConfigs data).

Definition CollectKubeletConfig (w : W) (data : ValidatorData) : ValidatorData + error :=
  let? plat := detect_Platform w in
  if decide (plat = platform.HyperShift) then CollectKubeletConfigForHyperShift w data
  else CollectKubeletConfigForOpenShift w data.

(** A missing configuration is nil. *)
Definition ValidateKubeletConfig (data : ValidatorData) : list ValidationResult :=
  fold_left (fun ret nodeName =>
    ret ++ ValidateClusterNodeKubeletConfig nodeName (vd_versionInfo data) (vd_kConfigs data !! nodeName))
    (sets_List (vd_tasEnabledNodeNames data)) [].

(** ** Node resource topologies *)

(** The details are dereferenced without a check. *)
Definition IsNodeResourceTopologyCRDMissing (err : error) : go bool :=
  match status_details err with
  | None => Ret false
  | Some details =>
      let! (group, kind) := deref "Status.Details" details in
      Ret (bool_decide (group = "topology.node.k8s.io" /\ kind = "noderesourcetopologies"))
  end.

Definition CollectNodeResourceTopologies (w : W) (data : ValidatorData) : go (ValidatorData + error) :=
  match new_TopologyClient w with
  | Some err => Ret (inr err)
  | None =>
      match cli_ListNRT w with
      | inl n => Ret (inl (vd_set_NRT (vd_nrtCrdMissing data) (Some n) data))
      | inr err =>
          let! missing := IsNodeResourceTopologyCRDMissing err in
          Ret (if missing : bool then inl (vd_set_NRT true (vd_nrtList data) data) else inr err)
      end
  end.

Definition nrt_result (setting expected detected : string) : ValidationResult :=
  mkValidationResult "" "cluster" "NodeResourceTopology" setting expected detected.

Definition ValidateNodeResourceTopologies (data : ValidatorData) : go (list ValidationResult) :=
  if vd_nrtCrdMissing data then Ret [nrt_result "installed" "true" "false"]
  else
    let! items := deref "NodeResourceTopologyList" (vd_nrtList data) in
    if decide (items = 0%nat) then Ret [nrt_result "items" "> 0" "0"]
    else if decide (items <> size (vd_tasEnabledNodeNames data))
    then Ret [nrt_result "items" (pretty (size (vd_tasEnabledNodeNames data))) (pretty items)]
    else Ret [].

(** ** Pods *)

(** The pods of a node that do not run; a node without one has no entry. *)
Definition record_pod (nodeName : string) (m : gmap string (gmap string string)) (pod : Pod)
  : gmap string (gmap string string) :=
  if decide (pod_Phase pod = "Running") then m
  else let podNames := default ∅ (m !! nodeName) in
       <[nodeName := <[pod_Namespace pod +:+ "/" +:+ pod_Name pod := pod_Phase pod]> podNames]> m.

Fixpoint collect_pods (w : W) (nodeNames : list string) (m : gmap string (gmap string string))
  : gmap string (gmap string string) + error :=
  match nodeNames with
  | [] => inl m
  | nodeName :: rest =>
      match fields_ParseSelector ("spec.nodeName=" +:+ nodeName) with
      | Some err => inr err
      | None =>
          let? pods := cli_PodsOnNode w nodeName in
          collect_pods w rest (fold_left (record_pod nodeName) pods m)
      end
  end.

Definition CollectPodStatus (w : W) (data : ValidatorData) : ValidatorData + error :=
  let? nonRunningPodsByNode := collect_pods w (sets_List (vd_tasEnabledNodeNames data)) ∅ in
  inl (vd_set_Pods nonRunningPodsByNode data).

Definition pod_result (nodeName nname phase : string) : ValidationResult :=
  mkValidationResult nodeName "kubelet" "pod" nname "Running" phase.

Definition ValidatePodStatus (data : ValidatorData) : list ValidationResult :=
  fold_left (fun ret '(nodeName, pods) =>
    fold_left (fun ret '(nname, phase) => ret ++ [pod_result nodeName nname phase]) (range_map pods) ret)
    (range_map (vd_nonRunningPodsByNode data)) [].

(** ** The scheduler cache (internal/schedcache) *)

Definition TracingDirectory : string := "/run/pfpstatus".
Definition nodeNameToFileName (name : string) : string := replace_char "." "_" name.

Definition ReplicaHasSyncedForNode (w : W) (pod : Pod) (nodeName : string) : (bool * gset string) + error :=
  let? stdout := CommandOnPod_cat w pod (TracingDirectory +:+ "/" +:+ nodeNameToFileName nodeName +:+ ".json") in
  let? st := pfp_Unmarshal stdout in
  let hasSync := bool_decide (pfp_FingerprintComputed st = pfp_FingerprintExpected st) in
  inl (hasSync, if hasSync then ∅ else list_to_set (pfp_Pods st)).

(** What was found up to the first error, and the error. *)
Fixpoint replica_nodes (w : W) (pod : Pod) (nodeNames : list string) (unsynced : gmap string (gset string))
  : gmap string (gset string) * option error :=
  match nodeNames with
  | [] => (unsynced, None)
  | nodeName :: rest =>
      match ReplicaHasSyncedForNode w pod nodeName with
      | inr err => (unsynced, Some err)
      | inl (ok, detectedPods) =>
          replica_nodes w pod rest (if ok : bool then unsynced else <[nodeName := detectedPods]> unsynced)
      end
  end.

Definition ReplicaHasSynced (w : W) (pod : Pod) (nodeNames : list string) : gmap string (gset string) * option error :=
  replica_nodes w pod nodeNames ∅.

Definition mergeUnsynced (total partial : gmap string (gset string)) : gmap string (gset string) :=
  fold_left (fun total '(nodeName, detectedPods) => <[nodeName := default ∅ (total !! nodeName) ∪ detectedPods]> total)
    (range_map partial) total.

Fixpoint replicas_synced (w : W) (pods : list Pod) (nodeNames : list string) (unsynced : gmap string (gset string))
  : gmap string (gset string) * option error :=
  match pods with
  | [] => (unsynced, None)
  | pod :: rest =>
      let '(notReady, err) := ReplicaHasSynced w pod nodeNames in
      let unsynced := mergeUnsynced unsynced notReady in
      match err with
      | Some err => (unsynced, Some err)
      | None => replicas_synced w rest nodeNames unsynced
      end
  end.

(** The first deployment with an owner of this identifier (internal/podlist). *)
Definition DeploymentByOwnerReference (w : W) (uid : string) : DeploymentInfo + error :=
  match cli_Deployments w with
  | inr err => inr (ErrWrap "failed to get deployment: " err)
  | inl items =>
      match list_find (fun deploy => uid ∈ di_Owners deploy) items with
      | Some (_, deploy) => inl deploy
      | None => inr (ErrNew ("failed to get deployment with uid: " +:+ uid))
      end
  end.

Definition ByDeployment (w : W) (deployment : DeploymentInfo) : list Pod + error :=
  let? sel := pointer_selector (di_Selector deployment) in cli_Pods w (di_Namespace deployment) sel.

(** The answer next to an error is not used by the validator. *)
Definition HasSynced (w : W) (nodeNames : list string) : go ((bool * gmap string (gset string)) + error) :=
  match cli_GetNROS w (mkNamespacedName "" objectnames.DefaultNUMAResourcesSchedulerCrName) with
  | inr err => Ret (inr err)
  | inl nroSched =>
      match status.FindStatusCondition (nst_Conditions (nros_Status nroSched)) "Available" with
      | None => Ret (inr (ErrNew "missing condition: available"))
      | Some _ =>
          match DeploymentByOwnerReference w (om_UID (nros_Meta nroSched)) with
          | inr err => Ret (inr err)
          | inl dp =>
              let! replicas := deref "Spec.Replicas" (di_Replicas dp) in
              if decide (di_ReadyReplicas dp <> replicas)
              then Ret (inr (ErrNew ("scheduler dp not ready (" +:+ pretty (di_ReadyReplicas dp) +:+ "/" +:+ pretty replicas
                                       +:+ ")")))
              else match ByDeployment w dp with
                   | inr err => Ret (inr err)
                   | inl podList =>
                       match replicas_synced w podList nodeNames ∅ with
                       | (_, Some err) => Ret (inr err)
                       | (unsynced, None) => Ret (inl (bool_decide (size unsynced = 0%nat), unsynced))
                       end
                   end
          end
      end
  end.

Definition CollectSchedCache (w : W) (data : ValidatorData) : go (ValidatorData + error) :=
  match new_K8s w with
  | Some err => Ret (inr err)
  | None =>
      match GetWorkers w with
      | inr err => Ret (inr err)
      | inl workers =>
          let! res := HasSynced w (getNodeNames workers) in
          Ret (let? (_, unsynced) := res in inl (vd_set_Unsynched unsynced data))
      end
  end.

Definition ValidateSchedCache (data : ValidatorData) : list ValidationResult :=
  fold_left (fun ret '(nodeName, _) =>
    ret ++ [mkValidationResult nodeName "cluster" "scheduler" "cache" "clean" "unsync"])
    (range_map (vd_unsynchedCaches data)) [].

(** ** The whole validation *)

Definition Collectors (vd : string) : option (W -> ValidatorData -> go (ValidatorData + error)) :=
  if decide (vd = ValidatorKubeletConfig) then Some (fun w data => Ret (CollectKubeletConfig w data))
  else if decide (vd = ValidatorNodeResourceTopologies) then Some CollectNodeResourceTopologies
  else if decide (vd = ValidatorPodStatus) then Some (fun w data => Ret (CollectPodStatus w data))
  else if decide (vd = ValidatorSchedCache) then Some CollectSchedCache
  else None.

Definition Validators (vd : string) : option (ValidatorData -> go (list ValidationResult)) :=
  if decide (vd = ValidatorKubeletConfig) then Some (fun data => Ret (ValidateKubeletConfig data))
  else if decide (vd = ValidatorNodeResourceTopologies) then Some ValidateNodeResourceTopologies
  else if decide (vd = ValidatorPodStatus) then Some (fun data => Ret (ValidatePodStatus data))
  else if decide (vd = ValidatorSchedCache) then Some (fun data => Ret (ValidateSchedCache data))
  else None.

(** The functions of the names listed, or the first name without one. *)
Fixpoint functions {A} (find : string -> option A) (what : string) (names : list string) : list A + error :=
  match names with
  | [] => inl []
  | vd :: rest =>
      match find vd with
      | None => inr (ErrNew ("unsupported " +:+ what +:+ ": " +:+ quote vd))
      | Some fn => let? fns := functions find what rest in inl (fn :: fns)
      end
  end.

Fixpoint run_collectors (w : W) (colFns : list (W -> ValidatorData -> go (ValidatorData + error))) (data : ValidatorData)
  : go (ValidatorData + error) :=
  match colFns with
  | [] => Ret (inl data)
  | helper :: rest =>
      let! res := helper w data in
      match res with
      | inr err => Ret (inr err)
      | inl data => run_collectors w rest data
      end
  end.

(** The data next to an error is not used. *)
Definition Collect (w : W) (userLabels : string) (what : gset string) : go (ValidatorData + error) :=
  match functions Collectors "collector" (UnsortedList what) with
  | inr err => Ret (inr err)
  | inl colFns =>
      match cli_ServerVersion w with
      | inr err => Ret (inr err)
      | inl ver =>
          let data := mkValidatorData ∅ ∅ ∅ ∅ false None ver what in
          let! enabledNodeNames :=
            (if decide (userLabels <> "") then Ret (GetNodesByLabels w userLabels) else GetNodesByNRO w) in
          match enabledNodeNames with
          | inr err => Ret (inr err)
          | inl enabledNodeNames => run_collectors w colFns (vd_set_Nodes enabledNodeNames data)
          end
      end
  end.

Record Report := mkReport { rep_Succeeded : bool; rep_Errors : list ValidationResult }.

Definition Validate (data : ValidatorData) : go (Report + error) :=
  match functions Validators "validator" (UnsortedList (vd_what data)) with
  | inr err => Ret (inr err)
  | inl valFns =>
      let! ret := go_fold (fun ret helper => let! res := helper data in Ret (ret ++ res)) [] valFns in
      Ret (inl (mkReport (bool_decide (length ret = 0%nat)) ret))
  end.

(** The command, less its printing: what it reports for the validators asked for.
    Asking for nothing, or for help, only lists them. *)
Definition validateCluster (w : W) (labels : string) (validations : gset string) : go (Report + error) :=
  let! data := Collect w labels validations in
  match data with
  | inr err => Ret (inr err)
  | inl data => Validate data
  end.

Definition nrovalidate (w : W) (what labels : string) : go (option Report + error) :=
  match Requested what with
  | inr err => Ret (inr err)
  | inl validations =>
      if decide (size validations = 0%nat \/ "help" ∈ validations) then Ret (inl None)
      else let! rep := validateCluster w labels validations in
           Ret (let? rep := rep in inl (Some rep))
  end.

(** The configurations of the nodes of interest, for other programs. *)
Definition GetKubeletConfigurationsFromTASEnabledNodes (w : W) : go (gmap string KubeletConfiguration + error) :=
  let! tasEnabledNodeNames := GetNodesByNRO w in
  match tasEnabledNodeNames with
  | inr err => Ret (inr (ErrWrap "error while trying to get TAS enabled nodes. error: " err))
  | inl tasEnabledNodeNames =>
      match CollectKubeletConfig w (mkValidatorData tasEnabledNodeNames ∅ ∅ ∅ false None "" ∅) with
      | inr err => Ret (inr (ErrWrap "error while collecting kubeletconfigs from TAS enabled nodes. error: " err))
      | inl validatorData => Ret (inl (vd_kConfigs validatorData))
      end
  end.
End Collect.
