(* ===== verification/NrovalidateSpec.v ===== *)
(** * What the cluster validator reports

    A report succeeds exactly when every validator asked for finds the cluster as it
    should be, in whatever order Go runs them; and the check for a node with two
    kubelet configurations never fires: the last one wins. *)
From S2P Require Import Prelude GoErrors Meta Selectors ApiV1 Conditions Steps Trees Workload RteUpdate Objects MergeSpec.
From S2P Require Import Cluster Apply RteState Dangling Controller Scenario SchedParams SchedApi SchedUpdate SchedState.
From S2P Require Import SchedController SchedCluster Kubelet KubeletSpec Nrovalidate.

(** ** Lists *)

Lemma fold_append_nil {A B} (f : A -> list B) (l : list A) acc :
  fold_left (fun ret x => ret ++ f x) l acc = [] <-> acc = [] /\ forall x, x ∈ l -> f x = [].
Proof.
  revert acc. induction l as [|a l IH]; intros acc; simpl.
  - split; [intros ->; split; [done|by intros x ?%elem_of_nil]|by intros [-> _]].
  - rewrite IH. split.
    + intros [[-> Ha]%app_nil Hl]. split; [done|]. intros x [->|Hx]%elem_of_cons; [done|by apply Hl].
    + intros [-> Hx]. split; [apply (Hx a); by left|]. intros x Hin. apply Hx. by right.
Qed.

Lemma getNodeNames_fmap nodes : getNodeNames nodes = node_Name <$> nodes.
Proof.
  unfold getNodeNames.
  assert (forall acc, fold_left (fun names node => names ++ [node_Name node]) nodes acc = acc ++ (node_Name <$> nodes)) as ->;
    [|done].
  induction nodes as [|n nodes IH]; intros acc; [by rewrite app_nil_r|]. simpl. rewrite IH. by rewrite <-app_assoc.
Qed.

Lemma sets_List_elem (s : gset string) x : x ∈ sets_List s <-> x ∈ s.
Proof. unfold sets_List. by rewrite stable_sort_perm, elem_of_elements. Qed.

Section Spec.
Context {W : Type} `{!Client W} `{!SchedClient W} `{!KubeletClient W} `{!ValidatorClient W} `{!SelectorLib} `{!KubeletLib}.
(** ** Kubelet configurations *)

(** Names of nodes, each with the configuration given to them, in the order they are
    read: the reference for the collection. *)
Fixpoint pool_assignments (w : W) (c : KubeletConfiguration) (mcps : list MachineConfigPool)
  : list (list string * KubeletConfiguration) + error :=
  match mcps with
  | [] => inl []
  | mcp :: rest =>
      let? nodes := mcp_GetNodesFrom w mcp in
      let? l := pool_assignments w c rest in inl ((node_Name <$> nodes, c) :: l)
  end.

Fixpoint openshift_assignments (w : W) (kcs : list KubeletConfig) : list (list string * KubeletConfiguration) + error :=
  match kcs with
  | [] => inl []
  | kc :: rest =>
      let? c := MCOKubeletConfToKubeletConf kc in
      let? mcps := getMachineConfigPoolListFromMCOKubeletConfig w kc in
      let? here := pool_assignments w c mcps in
      let? l := openshift_assignments w rest in inl (here ++ l)
  end.

Definition config_map_payload (cm : ConfigMap) : option (string * string) :=
  match map_of (cm_Data cm) !! HyperShiftConfigMapConfigKey, map_of (om_Labels (cm_Meta cm)) !! HyperShiftNodePoolLabel with
  | Some v, Some nodePoolName => Some (v, nodePoolName)
  | _, _ => None
  end.

Fixpoint hypershift_assignments (w : W) (payloads : list (string * string)) : list (list string * KubeletConfiguration) + error :=
  match payloads with
  | [] => inl []
  | (v, nodePoolName) :: rest =>
      let? kc := DecodeFromData v in
      let? c := MCOKubeletConfToKubeletConf kc in
      let? nodes := cli_Nodes w (has_label HyperShiftNodePoolLabel nodePoolName) in
      let? l := hypershift_assignments w rest in inl ((node_Name <$> nodes, c) :: l)
  end.

Definition assignments (w : W) : list (list string * KubeletConfiguration) + error :=
  let? plat := detect_Platform w in
  if decide (plat = platform.HyperShift) then
    let? cms := cli_ListConfigMaps w "" {[HypershiftKubeletConfigConfigMapLabel := "true"]} in
    hypershift_assignments w (omap config_map_payload cms)
  else
    let? kcs := cli_ListKubeletConfigs w in openshift_assignments w kcs.

(** The last configuration given to a node. *)
Fixpoint last_assigned (l : list (list string * KubeletConfiguration)) (n : string) : option KubeletConfiguration :=
  match l with
  | [] => None
  | (names, c) :: rest =>
      match last_assigned rest n with
      | Some c' => Some c'
      | None => if decide (n ∈ names) then Some c else None
      end
  end.

(** What a map becomes when the nodes of interest get their configurations. *)
Definition assign_names (nodes : gset string) (names : list string) (c : KubeletConfiguration)
  (m : gmap string KubeletConfiguration) : gmap string KubeletConfiguration :=
  fold_left (fun m n => if decide (n ∈ nodes) then <[n := c]> m else m) names m.
Definition assign (nodes : gset string) (l : list (list string * KubeletConfiguration))
  (m : gmap string KubeletConfiguration) : gmap string KubeletConfiguration :=
  fold_left (fun m '(names, c) => assign_names nodes names c m) l m.

Lemma assign_names_lookup nodes names c m n :
  assign_names nodes names c m !! n = if decide (n ∈ nodes /\ n ∈ names) then Some c else m !! n.
Proof.
  revert m. induction names as [|x names IH]; intros m; simpl.
  - rewrite decide_False; [done|]. by intros [_ ?%elem_of_nil].
  - unfold assign_names in IH |- *. simpl. rewrite IH. repeat case_decide; set_unfold;
      rewrite ?lookup_insert; repeat case_decide; naive_solver.
Qed.

Lemma assign_lookup nodes l m n :
  assign nodes l m !! n = if decide (n ∈ nodes) then match last_assigned l n with Some c => Some c | None => m !! n end
                          else m !! n.
Proof.
  revert m. induction l as [|[names c] l IH]; intros m; simpl; [by case_decide|].
  unfold assign in IH |- *. simpl. rewrite IH, assign_names_lookup.
  repeat case_decide; destruct (last_assigned l n); naive_solver.
Qed.

(** Without configurations in the data, the check never fires. *)
Lemma update_assigns names kConfigs c data :
  vd_kConfigs data = ∅ ->
  updateNodesForValidatorData names kConfigs c data = inl (assign_names (vd_tasEnabledNodeNames data) names c kConfigs).
Proof.
  intros He. revert kConfigs. induction names as [|n names IH]; intros kConfigs; simpl; [done|].
  unfold assign_names in *. simpl. destruct (decide (n ∈ vd_tasEnabledNodeNames data)) as [Hn|Hn].
  - rewrite (decide_False (P := n ∉ vd_tasEnabledNodeNames data)) by auto. rewrite He, lookup_empty. apply IH.
  - rewrite (decide_True (P := n ∉ vd_tasEnabledNodeNames data)) by done. apply IH.
Qed.

Lemma collect_pools_assigns w mcps kConfigs c data :
  vd_kConfigs data = ∅ ->
  collect_pools w mcps kConfigs c data
  = (let? l := pool_assignments w c mcps in inl (assign (vd_tasEnabledNodeNames data) l kConfigs)).
Proof.
  intros He. revert kConfigs. induction mcps as [|mcp mcps IH]; intros kConfigs; simpl; [done|].
  destruct (mcp_GetNodesFrom w mcp) as [nodes|]; simpl; [|done].
  rewrite update_assigns by done. simpl. rewrite IH, getNodeNames_fmap. by destruct (pool_assignments w c mcps).
Qed.

Lemma collect_kubelet_configs_assigns w kcs kConfigs data :
  vd_kConfigs data = ∅ ->
  collect_kubelet_configs w kcs kConfigs data
  = (let? l := openshift_assignments w kcs in inl (assign (vd_tasEnabledNodeNames data) l kConfigs)).
Proof.
  intros He. revert kConfigs. induction kcs as [|kc kcs IH]; intros kConfigs; simpl; [done|].
  destruct (MCOKubeletConfToKubeletConf kc) as [c|]; simpl; [|done].
  destruct (getMachineConfigPoolListFromMCOKubeletConfig w kc) as [mcps|]; simpl; [|done].
  rewrite collect_pools_assigns by done. destruct (pool_assignments w c mcps) as [here|]; simpl; [|done].
  rewrite IH. destruct (openshift_assignments w kcs); simpl; [|done]. unfold assign. by rewrite fold_left_app.
Qed.

Lemma collect_config_maps_assigns w cms kConfigs data :
  vd_kConfigs data = ∅ ->
  collect_config_maps w cms kConfigs data
  = (let? l := hypershift_assignments w (omap config_map_payload cms) in
     inl (assign (vd_tasEnabledNodeNames data) l kConfigs)).
Proof.
  intros He. revert kConfigs. induction cms as [|cm cms IH]; intros kConfigs; simpl; [done|].
  unfold config_map_payload at 1.
  destruct (map_of (cm_Data cm) !! _) as [v|]; [|apply IH].
  destruct (map_of (om_Labels (cm_Meta cm)) !! _) as [p|]; [|apply IH]. simpl.
  destruct (DecodeFromData v) as [kc|]; simpl; [|done].
  destruct (MCOKubeletConfToKubeletConf kc) as [c|]; simpl; [|done].
  destruct (cli_Nodes w _) as [nodes|]; simpl; [|done].
  rewrite update_assigns by done. simpl. rewrite IH, getNodeNames_fmap. by destruct (hypershift_assignments w _).
Qed.

Lemma CollectKubeletConfig_collects w data :
  vd_kConfigs data = ∅ ->
  match CollectKubeletConfig w data with
  | inr err => assignments w = inr err
  | inl data' => exists l, assignments w = inl l /\
      (forall n, vd_kConfigs data' !! n = if decide (n ∈ vd_tasEnabledNodeNames data) then last_assigned l n else None) /\
      data' = vd_set_kConfigs (vd_kConfigs data') data
  end.
Proof.
  intros He. unfold assignments, CollectKubeletConfig, CollectKubeletConfigForHyperShift, CollectKubeletConfigForOpenShift.
  assert (forall l n, assign (vd_tasEnabledNodeNames data) l ∅ !! n
    = if decide (n ∈ vd_tasEnabledNodeNames data) then last_assigned l n else None) as Hl
    by (intros l n; rewrite assign_lookup, lookup_empty; by destruct (last_assigned l n)).
  destruct (detect_Platform w) as [plat|]; simpl; [|done]. case_decide.
  - destruct (cli_ListConfigMaps w _ _) as [cms|]; simpl; [|done]. rewrite collect_config_maps_assigns by done.
    destruct (hypershift_assignments w _) as [l|]; simpl; [|done]. exists l. split; [done|]. split; [|done]. apply Hl.
  - destruct (cli_ListKubeletConfigs w) as [kcs|]; simpl; [|done]. rewrite collect_kubelet_configs_assigns by done.
    destruct (openshift_assignments w kcs) as [l|]; simpl; [|done]. exists l. split; [done|]. split; [|done]. apply Hl.
Qed.

(** C22: the collection of kubelet configurations gives every node of interest the
    last configuration whose pools select it, and fails only when a read, a payload
    or a selector does: that two configurations select one node is never noticed. *)
Theorem CollectKubeletConfig_last_wins w data :
  vd_kConfigs data = ∅ ->
  match assignments w with
  | inr err => CollectKubeletConfig w data = inr err
  | inl l => exists data', CollectKubeletConfig w data = inl data' /\
      vd_tasEnabledNodeNames data' = vd_tasEnabledNodeNames data /\
      forall n, vd_kConfigs data' !! n = if decide (n ∈ vd_tasEnabledNodeNames data) then last_assigned l n else None
  end.
Proof.
  intros He. pose proof (CollectKubeletConfig_collects w data He) as Hc.
  destruct (CollectKubeletConfig w data) as [data'|err]; [|by rewrite Hc]. destruct Hc as (l & -> & Hm & E).
  exists data'. split; [done|]. split; [by rewrite E|done].
Qed.

(** Go lists sets and ranges over maps in any order. *)
Variable show_node_group : NodeGroup -> string.
Variable UnsortedList : gset string -> list string.
Variable range_map : forall A, gmap string A -> list (string * A).
Hypothesis UnsortedList_perm : forall s, UnsortedList s ≡ₚ elements s.
Hypothesis range_map_perm : forall A (m : gmap string A), range_map A m ≡ₚ map_to_list m.

(** ** Pods *)

Notation collect_pods := (collect_pods (W := W)).

(** Some pod of the map does not run. *)
Definition no_pods (m : gmap string (gmap string string)) : Prop := forall n pods, m !! n = Some pods -> pods = ∅.

Lemma record_pods_none nodeName pods m :
  no_pods (fold_left (record_pod nodeName) pods m) <-> no_pods m /\ Forall (fun p => pod_Phase p = "Running") pods.
Proof.
  revert m. induction pods as [|p pods IH]; intros m; simpl; [by split; [|intros [? _]]|].
  rewrite IH, Forall_cons. unfold record_pod. case_decide as Hp; [tauto|].
  split; [|tauto]. intros [Hn _]. specialize (Hn nodeName). rewrite lookup_insert_eq in Hn. specialize (Hn _ eq_refl).
  by apply insert_non_empty in Hn.
Qed.

Lemma collect_pods_none w names m m' :
  collect_pods w names m = inl m' ->
  no_pods m' <-> no_pods m /\ forall n pods, n ∈ names -> cli_PodsOnNode w n = inl pods ->
    Forall (fun p => pod_Phase p = "Running") pods.
Proof.
  revert m. induction names as [|n names IH]; intros m E; simpl in E.
  - injection E as <-. split; [|tauto]. intros Hm. split; [done|]. by intros ? ? ?%elem_of_nil.
  - destruct (fields_ParseSelector _); [done|]. destruct (cli_PodsOnNode w n) as [pods|] eqn:Ep; [|done].
    apply IH in E. rewrite E, record_pods_none. split.
    + intros [[Hm Hp] Hr]. split; [done|]. intros n' pods' [->|Hin]%elem_of_cons Ep'; [|by eapply Hr].
      rewrite Ep in Ep'. by injection Ep' as <-.
    + intros [Hm Hr]. split; [split; [done|by apply (Hr n); [left|]]|]. intros n' pods' Hin. apply Hr. by right.
Qed.

(** A report on a map has nothing on an empty map, and something otherwise. *)
Lemma range_map_elem {A} (m : gmap string A) k v : (k, v) ∈ range_map A m <-> m !! k = Some v.
Proof. by rewrite range_map_perm, elem_of_map_to_list. Qed.

Lemma range_map_nil {A} (m : gmap string A) : range_map A m = [] <-> m = ∅.
Proof.
  split; [|intros ->; apply Permutation_nil; symmetry; rewrite range_map_perm; by rewrite map_to_list_empty].
  intros E. apply map_to_list_empty_iff, Permutation_nil. rewrite <-range_map_perm. by rewrite E.
Qed.

Lemma fold_append_map {A B} (f : A -> list B) (l : list A) acc :
  fold_left (fun ret x => ret ++ f x) l acc = acc ++ concat (f <$> l).
Proof.
  revert acc. induction l as [|x l IH]; intros acc; simpl; [by rewrite app_nil_r|]. by rewrite IH, <-app_assoc.
Qed.

Lemma ValidatePodStatus_nil data :
  ValidatePodStatus range_map data = [] <-> no_pods (vd_nonRunningPodsByNode data).
Proof.
  unfold ValidatePodStatus.
  assert (forall n pods acc, fold_left (fun ret '(nname, phase) => ret ++ [pod_result n nname phase]) (range_map _ pods) acc
    = acc ++ ((fun '(nname, phase) => pod_result n nname phase) <$> range_map _ pods)) as Hin.
  { intros n pods. generalize (range_map string pods). intros l. induction l as [|[a b] l IH]; intros acc; simpl;
      [by rewrite app_nil_r|]. rewrite IH. by rewrite <-app_assoc. }
  assert (forall l acc, fold_left (fun ret '(nodeName, pods) =>
      fold_left (fun ret '(nname, phase) => ret ++ [pod_result nodeName nname phase]) (range_map _ pods) ret) l acc = []
    <-> acc = [] /\ forall n pods, (n, pods) ∈ l -> pods = ∅) as Hout.
  { induction l as [|[n pods] l IH]; intros acc; simpl.
    - split; [|tauto]. intros ->. split; [done|]. by intros ? ? ?%elem_of_nil.
    - rewrite IH, Hin. split.
      + intros [[-> Hp]%app_nil Hl]. split; [done|]. apply fmap_nil_inv, range_map_nil in Hp as ->.
        intros n' pods' [[= -> ->]|H']%elem_of_cons; [done|by eapply Hl].
      + intros [-> Hl]. assert (pods = ∅) as -> by (apply (Hl n); by left).
        rewrite (proj2 (range_map_nil ∅)) by done. split; [done|]. intros n' pods' H'. apply (Hl n'). by right. }
  rewrite Hout. split.
  - intros [_ Hl] n pods Hn. apply (Hl n). by apply range_map_elem.
  - intros Hn. split; [done|]. intros n pods Hl%range_map_elem. by apply (Hn n).
Qed.

Lemma ValidateSchedCache_nil data : ValidateSchedCache range_map data = [] <-> vd_unsynchedCaches data = ∅.
Proof.
  unfold ValidateSchedCache. rewrite <-range_map_nil. generalize (range_map _ (vd_unsynchedCaches data)). intros l.
  assert (forall acc, fold_left (fun ret '(nodeName, _) =>
      ret ++ [mkValidationResult nodeName "cluster" "scheduler" "cache" "clean" "unsync"]) l acc = [] <-> acc = [] /\ l = [])
    as ->; [|tauto].
  induction l as [|[n s] l IH]; intros acc; simpl; [tauto|]. rewrite IH. split; [by intros [[_ [=]]%app_nil _]|by intros [_ [=]]].
Qed.

Lemma ValidateKubeletConfig_nil data :
  ValidateKubeletConfig data = [] <->
  forall n, n ∈ vd_tasEnabledNodeNames data ->
    ValidateClusterNodeKubeletConfig n (vd_versionInfo data) (vd_kConfigs data !! n) = [].
Proof.
  unfold ValidateKubeletConfig. rewrite fold_append_nil. split.
  - intros [_ Hn] n Hin. apply Hn. by apply sets_List_elem.
  - intros Hn. split; [done|]. intros n Hin%sets_List_elem. by apply Hn.
Qed.

(** ** The scheduler cache *)

(** Every replica of the scheduler has, for every worker, the fingerprint it expects. *)
Definition replicas_agree (w : W) (nodeNames : list string) : Prop :=
  forall sched dp pods pod n r,
    cli_GetNROS w (mkNamespacedName "" objectnames.DefaultNUMAResourcesSchedulerCrName) = inl sched ->
    DeploymentByOwnerReference w (om_UID (nros_Meta sched)) = inl dp -> ByDeployment w dp = inl pods ->
    pod ∈ pods -> n ∈ nodeNames -> ReplicaHasSyncedForNode w pod n = inl r -> fst r = true.

Lemma replica_nodes_empty w pod names m m' :
  replica_nodes w pod names m = (m', None) ->
  m' = ∅ <-> m = ∅ /\ forall n r, n ∈ names -> ReplicaHasSyncedForNode w pod n = inl r -> fst r = true.
Proof.
  revert m. induction names as [|n names IH]; intros m E; simpl in E.
  - injection E as <-. split; [|tauto]. intros ->. split; [done|]. by intros ? ? ?%elem_of_nil.
  - destruct (ReplicaHasSyncedForNode w pod n) as [[ok pods]|] eqn:Er; [|done]. apply IH in E. rewrite E. destruct ok.
    + split.
      * intros [-> Hr]. split; [done|]. intros n' r [->|Hin]%elem_of_cons Hn; [|by eapply Hr].
        rewrite Er in Hn. by injection Hn as <-.
      * intros [-> Hr]. split; [done|]. intros n' r Hin. apply Hr. by right.
    + split; [intros [Hm _]; by apply insert_non_empty in Hm|]. intros [_ Hr].
      specialize (Hr n (false, pods) ltac:(by left) Er). done.
Qed.

Lemma mergeUnsynced_empty total partial :
  mergeUnsynced range_map total partial = ∅ <-> total = ∅ /\ partial = ∅.
Proof.
  unfold mergeUnsynced. rewrite <-(range_map_nil partial). generalize (range_map _ partial). intros l.
  revert total. induction l as [|[n s] l IH]; intros total; simpl; [tauto|]. rewrite IH.
  split; [intros [Hm _]; by apply insert_non_empty in Hm|by intros [_ [=]]].
Qed.

Lemma replicas_synced_empty w pods names m m' :
  replicas_synced range_map w pods names m = (m', None) ->
  m' = ∅ <-> m = ∅ /\ forall pod n r, pod ∈ pods -> n ∈ names -> ReplicaHasSyncedForNode w pod n = inl r -> fst r = true.
Proof.
  revert m. induction pods as [|pod pods IH]; intros m E; simpl in E.
  - injection E as <-. split; [|tauto]. intros ->. split; [done|]. by intros ? ? ? ?%elem_of_nil.
  - destruct (ReplicaHasSynced w pod names) as [notReady [err|]] eqn:Er; [done|]. apply IH in E.
    apply replica_nodes_empty in Er. rewrite E, mergeUnsynced_empty, Er. split.
    + intros [(-> & _ & Hr) Hrest]. split; [done|]. intros pod' n r [->|Hin]%elem_of_cons; [by apply Hr|by apply Hrest].
    + intros [-> Hr]. split; [split; [done|]; split; [done|]|].
      * intros n r Hin. apply Hr; [by left|done].
      * intros pod' n r Hin. apply Hr. by right.
Qed.

Lemma HasSynced_empty w names b unsynced :
  HasSynced range_map w names = Ret (inl (b, unsynced)) -> unsynced = ∅ <-> replicas_agree w names.
Proof.
  unfold HasSynced, replicas_agree. destruct (cli_GetNROS w _) as [sched|]; [|done].
  destruct (status.FindStatusCondition _ _); [|done].
  destruct (DeploymentByOwnerReference w _) as [dp|] eqn:Edp; [|done].
  destruct (di_Replicas dp) as [n|]; [|done]. cbn [deref go_bind]. case_decide; [done|].
  destruct (ByDeployment w dp) as [pods|] eqn:Epods; [|done].
  destruct (replicas_synced range_map w pods names ∅) as [m [err|]] eqn:Er; [done|]. intros [= <- <-].
  rewrite (replicas_synced_empty _ _ _ _ _ Er). split.
  - intros [_ Hr] sched' dp' pods' pod k r [= <-] Hdp Hpods Hp Hn. rewrite Edp in Hdp. injection Hdp as <-.
    rewrite Epods in Hpods. injection Hpods as <-. by apply Hr.
  - intros Hr. split; [done|]. intros pod k r Hp Hn. by apply (Hr sched dp pods).
Qed.

(** ** The data collected *)

(** What the cluster must be for a validator to find nothing. *)
Definition cluster_passes (w : W) (nodes : gset string) (ver : string) (vd : string) : Prop :=
  (vd = ValidatorKubeletConfig -> forall l n, assignments w = inl l -> n ∈ nodes ->
     ValidateClusterNodeKubeletConfig n ver (last_assigned l n) = []) /\
  (vd = ValidatorNodeResourceTopologies -> cli_ListNRT w = inl (size nodes) /\ size nodes <> 0%nat) /\
  (vd = ValidatorPodStatus -> forall n pods, n ∈ nodes -> cli_PodsOnNode w n = inl pods ->
     Forall (fun p => pod_Phase p = "Running") pods) /\
  (vd = ValidatorSchedCache -> forall workers, GetWorkers w = inl workers ->
     replicas_agree w (node_Name <$> workers)).

(** The part of the data a validator works on, once collected. *)
Definition collected (w : W) (nodes : gset string) (vd : string) (d : ValidatorData) : Prop :=
  (vd = ValidatorKubeletConfig -> exists l, assignments w = inl l /\
     forall n, vd_kConfigs d !! n = if decide (n ∈ nodes) then last_assigned l n else None) /\
  (vd = ValidatorNodeResourceTopologies ->
     (exists k, cli_ListNRT w = inl k /\ vd_nrtCrdMissing d = false /\ vd_nrtList d = Some k) \/
     (exists e, cli_ListNRT w = inr e /\ vd_nrtCrdMissing d = true)) /\
  (vd = ValidatorPodStatus -> no_pods (vd_nonRunningPodsByNode d) <->
     forall n pods, n ∈ nodes -> cli_PodsOnNode w n = inl pods -> Forall (fun p => pod_Phase p = "Running") pods) /\
  (vd = ValidatorSchedCache -> exists workers, GetWorkers w = inl workers /\
     (vd_unsynchedCaches d = ∅ <-> replicas_agree w (node_Name <$> workers))).

Definition field_same (vd : string) (d d' : ValidatorData) : Prop :=
  (vd = ValidatorKubeletConfig -> vd_kConfigs d' = vd_kConfigs d) /\
  (vd = ValidatorNodeResourceTopologies ->
     vd_nrtCrdMissing d' = vd_nrtCrdMissing d /\ vd_nrtList d' = vd_nrtList d) /\
  (vd = ValidatorPodStatus -> vd_nonRunningPodsByNode d' = vd_nonRunningPodsByNode d) /\
  (vd = ValidatorSchedCache -> vd_unsynchedCaches d' = vd_unsynchedCaches d).

Definition common_same (d d' : ValidatorData) : Prop :=
  vd_tasEnabledNodeNames d' = vd_tasEnabledNodeNames d /\ vd_versionInfo d' = vd_versionInfo d /\ vd_what d' = vd_what d.

(** The fields a collector counts on. *)
Definition pristine (vd : string) (d : ValidatorData) : Prop :=
  (vd = ValidatorKubeletConfig -> vd_kConfigs d = ∅) /\
  (vd = ValidatorNodeResourceTopologies -> vd_nrtCrdMissing d = false).

Lemma collected_ext w nodes vd d d' : field_same vd d d' -> collected w nodes vd d -> collected w nodes vd d'.
Proof.
  intros (H1 & H2 & H3 & H4) (C1 & C2 & C3 & C4). split_and!; intros Hv.
  - rewrite H1 by done. by apply C1.
  - destruct (H2 Hv) as [-> ->]. by apply C2.
  - rewrite H3 by done. by apply C3.
  - rewrite H4 by done. by apply C4.
Qed.

Lemma pristine_ext vd d d' : field_same vd d d' -> pristine vd d -> pristine vd d'.
Proof. intros (H1 & H2 & _) [P1 P2]. split; intros Hv; [rewrite H1 by done; auto|]. destruct (H2 Hv) as [-> _]. auto. Qed.

Lemma field_same_trans vd d1 d2 d3 : field_same vd d1 d2 -> field_same vd d2 d3 -> field_same vd d1 d3.
Proof.
  intros (H1 & H2 & H3 & H4) (H1' & H2' & H3' & H4'). split_and!; intros Hv.
  - rewrite H1' by done. auto.
  - destruct (H2' Hv) as [-> ->]. auto.
  - rewrite H3' by done. auto.
  - rewrite H4' by done. auto.
Qed.

Lemma collector_spec w vd fn d d' :
  Collectors range_map vd = Some fn -> pristine vd d -> fn w d = Ret (inl d') ->
  collected w (vd_tasEnabledNodeNames d) vd d' /\ common_same d d' /\ forall vd', vd' <> vd -> field_same vd' d d'.
Proof.
  unfold Collectors. intros Hf [P1 P2] E.
  assert (forall v, v <> vd -> forall v', vd = v' -> v = v' -> False) as Hne by congruence.
  case_decide as Hk; [|case_decide as Hn; [|case_decide as Hp; [|case_decide as Hs; [|done]]]];
    injection Hf as <-; subst vd; simpl in E.
  - injection E as E. pose proof (CollectKubeletConfig_collects w d (P1 eq_refl)) as Hc. rewrite E in Hc.
    destruct Hc as (l & Hl & Hm & ->). split; [split_and!; try (intros [=]); by exists l|].
    split; [done|]. intros vd' Hv. split_and!; intros ->; done.
  - unfold CollectNodeResourceTopologies in E. destruct (new_TopologyClient w); [done|].
    destruct (cli_ListNRT w) as [k|e] eqn:El; [injection E as <-|].
    + split; [split_and!; try (intros [=]); left; exists k; split_and!; [done|by apply P2|done]|].
      split; [done|]. intros vd' Hv. split_and!; intros ->; done.
    + destruct (IsNodeResourceTopologyCRDMissing e) as [[|]|]; [injection E as <-| |]; [|done..].
      split; [split_and!; try (intros [=]); right; by exists e|].
      split; [done|]. intros vd' Hv. split_and!; intros ->; done.
  - unfold CollectPodStatus in E. injection E as E. destruct (collect_pods w _ ∅) as [m|] eqn:Em; [|done].
    injection E as <-. split.
    + split_and!; try (intros [=]). simpl. rewrite (collect_pods_none _ _ _ _ Em). split.
      * intros [_ Hr] n pods Hin. apply Hr. by apply sets_List_elem.
      * intros Hr. split; [by intros ? ? ?%lookup_empty_Some|]. intros n pods Hin%sets_List_elem. by apply Hr.
    + split; [done|]. intros vd' Hv. split_and!; intros ->; done.
  - unfold CollectSchedCache in E. destruct (new_K8s w); [done|]. destruct (GetWorkers w) as [workers|] eqn:Ew; [|done].
    destruct (HasSynced range_map w (getNodeNames workers)) as [[[b uns]|]|] eqn:Eh; [|done..]. injection E as <-.
    apply HasSynced_empty in Eh. rewrite getNodeNames_fmap in Eh. split.
    + split_and!; try (intros [=]). by exists workers.
    + split; [done|]. intros vd' Hv. split_and!; intros ->; done.
Qed.

Lemma run_collectors_spec w names fns d d' :
  functions (Collectors range_map) "collector" names = inl fns -> NoDup names ->
  (forall vd, vd ∈ names -> pristine vd d) -> run_collectors w fns d = Ret (inl d') ->
  common_same d d' /\ (forall vd, vd ∈ names -> collected w (vd_tasEnabledNodeNames d) vd d') /\
  (forall vd, vd ∉ names -> field_same vd d d').
Proof.
  revert fns d. induction names as [|vd names IH]; intros fns d Hf Hnd Hp E; simpl in Hf.
  - injection Hf as <-. injection E as <-. split; [done|]. split; [by intros vd ?%elem_of_nil|done].
  - destruct (Collectors range_map vd) as [fn|] eqn:Hc; [|done].
    destruct (functions _ _ names) as [rest|]; [|done]. injection Hf as <-. apply NoDup_cons in Hnd as [Hvd Hnd].
    simpl in E. destruct (fn w d) as [[d1|]|] eqn:E1; [|done..]. cbn [go_bind] in E.
    destruct (collector_spec w vd fn d d1 Hc (Hp vd ltac:(by left)) E1) as (Hcol & Hsame & Hother).
    destruct (IH rest d1 eq_refl Hnd) as (Hs & Hcs & Hfs); [|done|].
    { intros v Hv. apply (pristine_ext v d); [apply Hother; congruence|apply Hp; by right]. }
    destruct Hsame as (H1 & H2 & H3). split; [destruct Hs as (S1 & S2 & S3); split_and!; congruence|]. rewrite H1 in Hcs. split.
    + intros v [->|Hv]%elem_of_cons; [|by apply Hcs]. apply (collected_ext w _ vd d1); [by apply Hfs|done].
    + intros v [Hv1 Hv2]%not_elem_of_cons. apply (field_same_trans _ _ d1); [by apply Hother|by apply Hfs].
Qed.

(** ** The report *)

Lemma validator_spec w vd fn d ver nodes res :
  Validators range_map vd = Some fn -> collected w nodes vd d -> vd_tasEnabledNodeNames d = nodes -> vd_versionInfo d = ver ->
  fn d = Ret res -> res = [] <-> cluster_passes w nodes ver vd.
Proof.
  unfold Validators. intros Hf (C1 & C2 & C3 & C4) Hn Hv E.
  case_decide as D1; [|case_decide as D2; [|case_decide as D3; [|case_decide as D4; [|done]]]];
    injection Hf as <-; subst vd; simpl in E; unfold cluster_passes.
  - injection E as <-. destruct (C1 eq_refl) as (l & Hl & Hm). rewrite ValidateKubeletConfig_nil, Hn, Hv. split.
    + intros Hr. split_and!; try (intros [=]). intros l' n Hl' Hin. rewrite Hl in Hl'. injection Hl' as <-.
      specialize (Hr n Hin). by rewrite Hm, decide_True in Hr.
    + intros (Hr & _) n Hin. rewrite Hm, decide_True by done. by apply Hr.
  - destruct (C2 eq_refl) as [(k & Hk & Hmiss & Hlist)|(e & He & Hmiss)]; unfold ValidateNodeResourceTopologies in E;
      rewrite Hmiss in E.
    + rewrite Hlist in E. cbn [deref go_bind] in E. rewrite Hn in E.
      assert (res = [] <-> k = size nodes /\ size nodes <> 0%nat) as ->.
      { destruct (decide (k = 0%nat)) as [->|Hk0]; [injection E as <-; split; [done|lia]|].
        destruct (decide (k <> size nodes)) as [Hne|Hne]; injection E as <-; split; try done; lia. }
      rewrite Hk. split; [intros [-> Hs]; split_and!; try (intros [=]); done|].
      intros (_ & Hr & _). destruct (Hr eq_refl) as [[= ->] Hs]. done.
    + injection E as <-. split; [done|]. intros (_ & Hr & _). destruct (Hr eq_refl) as [Hk _]. by rewrite He in Hk.
  - injection E as <-. rewrite ValidatePodStatus_nil, (C3 eq_refl). split.
    + intros Hr. split_and!; try (intros [=]). done.
    + intros (_ & _ & Hr & _). by apply Hr.
  - injection E as <-. destruct (C4 eq_refl) as (workers & Hw & Hr). rewrite ValidateSchedCache_nil, Hr. split.
    + intros Ha. split_and!; try (intros [=]). intros workers' Hw'. rewrite Hw in Hw'. by injection Hw' as <-.
    + intros (_ & _ & _ & Ha). by apply Ha.
Qed.

Lemma run_validators_nil names fns d acc ret :
  functions (Validators range_map) "validator" names = inl fns ->
  go_fold (fun ret helper => let! res := helper d in Ret (ret ++ res)) acc fns = Ret ret ->
  ret = [] <-> acc = [] /\ forall vd, vd ∈ names -> exists fn, Validators range_map vd = Some fn /\ fn d = Ret [].
Proof.
  revert fns acc. induction names as [|vd names IH]; intros fns acc Hf E; simpl in Hf.
  - injection Hf as <-. injection E as <-. split; [|tauto]. intros ->. split; [done|]. by intros ? ?%elem_of_nil.
  - destruct (Validators range_map vd) as [fn|] eqn:Hv; [|done]. destruct (functions _ _ names) as [rest|]; [|done].
    injection Hf as <-. simpl in E. destruct (fn d) as [res|] eqn:Er; [|done]. cbn [go_bind] in E.
    rewrite (IH rest _ eq_refl E), app_nil. split.
    + intros [[-> ->] Hr]. split; [done|]. intros v [->|Hin]%elem_of_cons; [by exists fn|by apply Hr].
    + intros [-> Hr]. destruct (Hr vd ltac:(by left)) as (fn' & Hv' & Er'). rewrite Hv in Hv'. injection Hv' as <-.
      rewrite Er in Er'. injection Er' as ->. split; [done|]. intros v Hin. apply Hr. by right.
Qed.

Lemma run_validators_all names fns d acc ret vd :
  functions (Validators range_map) "validator" names = inl fns ->
  go_fold (fun ret helper => let! res := helper d in Ret (ret ++ res)) acc fns = Ret ret -> vd ∈ names ->
  exists fn, Validators range_map vd = Some fn /\ exists res, fn d = Ret res.
Proof.
  revert fns acc. induction names as [|v names IH]; intros fns acc Hf E Hin; [by apply elem_of_nil in Hin|]. simpl in Hf.
  destruct (Validators range_map v) as [fn|] eqn:Hv; [|done]. destruct (functions _ _ names) as [rest|]; [|done].
  injection Hf as <-. simpl in E. destruct (fn d) as [res|] eqn:Er; [|done].
  apply elem_of_cons in Hin as [->|Hin]; [by eauto|by apply (IH rest (acc ++ res))].
Qed.

(** The nodes the validation is about. *)
Definition nodes_of_interest (w : W) (labels : string) : go (gset string + error) :=
  if decide (labels <> "") then Ret (GetNodesByLabels w labels) else GetNodesByNRO show_node_group w.

(** C21: what a report says. When the command reports on a cluster, the report
    succeeds exactly when, for every validator asked for, the cluster is as it
    should be: the configuration of each node of interest is accepted, there is one
    topology per node and at least one, no pod on the nodes fails to run, and every
    replica of the scheduler agrees with every worker. Neither the order in which
    the validators run nor that of the maps they range over matters. *)
Theorem nrovalidate_report w what labels rep :
  nrovalidate show_node_group UnsortedList range_map w what labels = Ret (inl (Some rep)) ->
  exists req nodes ver, Requested what = inl req /\ nodes_of_interest w labels = Ret (inl nodes) /\
    cli_ServerVersion w = inl ver /\
    (rep_Succeeded rep = true <-> forall vd, vd ∈ req -> cluster_passes w nodes ver vd).
Proof.
  unfold nrovalidate, validateCluster, Collect. destruct (Requested what) as [req|]; [|done]. case_decide; [done|].
  destruct (functions _ "collector" _) as [cols|] eqn:Hcols; [|done].
  destruct (cli_ServerVersion w) as [ver|]; [|done]. cbv zeta. fold (nodes_of_interest w labels).
  destruct (nodes_of_interest w labels) as [[nodes|]|]; [|done..]. cbn [go_bind].
  set (d0 := vd_set_Nodes _ _).
  destruct (run_collectors w cols d0) as [[d|]|] eqn:Erun; [|done..]. cbn [go_bind]. unfold Validate.
  assert (NoDup (UnsortedList req)) as Hnd by (rewrite UnsortedList_perm; apply NoDup_elements).
  assert (forall vd, vd ∈ UnsortedList req -> pristine vd d0) as Hp0 by done.
  destruct (run_collectors_spec w _ _ _ _ Hcols Hnd Hp0 Erun) as ((Hn & Hv & Hw) & Hcol & _).
  simpl in Hn, Hv, Hw. rewrite Hw. destruct (functions _ "validator" _) as [vals|] eqn:Hvals; [|done].
  destruct (go_fold _ [] vals) as [ret|] eqn:Eret; [|done]. cbn [go_bind sum_bind]. intros [= <-].
  exists req, nodes, ver. split_and!; try done. simpl. rewrite bool_decide_eq_true, length_zero_iff_nil.
  rewrite (run_validators_nil _ _ _ _ _ Hvals Eret). split.
  - intros [_ Hr] vd Hin. rewrite <-elem_of_elements, <-UnsortedList_perm in Hin. destruct (Hr vd Hin) as (fn & Hf & E).
    by apply (validator_spec w vd fn d ver nodes [] Hf (Hcol vd Hin) Hn Hv E).
  - intros Hr. split; [done|]. intros vd Hin. pose proof Hin as Hin'.
    rewrite UnsortedList_perm, elem_of_elements in Hin'.
    assert (exists fn, Validators range_map vd = Some fn /\ exists res, fn d = Ret res) as (fn & Hf & res & E).
    { by eapply run_validators_all. }
    exists fn. split; [done|]. rewrite E. f_equal.
    by apply (validator_spec w vd fn d ver nodes res Hf (Hcol vd Hin) Hn Hv E), Hr.
Qed.
End Spec.

(** ** Two configurations for one pool *)

Module validator_scenario.

Definition kubelet_config (name policy : string) : KubeletConfig :=
  mkKubeletConfig (emptyMeta name "") (Some (match_label "pool" "worker")) (Some (enc policy (enc "container" ""))).

Definition cluster : SchedStore :=
  mkSchedStore (scenario.cluster (scenario.instance [scenario.group "worker"] None "") (fun _ _ => None)) ∅
    [("worker-0", {["pool" := "worker"]}); ("worker-1", {["pool" := "worker"]}); ("cp-0", ∅)].

#[global] Instance kubelet_client : KubeletClient SchedStore := {|
  cli_GetKubeletConfig _ k := inr (NewNotFound (nn_String k));
  cli_ListKubeletConfigs _ := inl [kubelet_config "loose" "none"; kubelet_config "strict" "single-numa-node"];
  cli_ListConfigMaps _ _ _ := inl [] |}.

(** Pods run, the topologies are those of the two workers, and the library wants
    one policy. *)
#[global] Instance validator_client : ValidatorClient SchedStore := {|
  detect_Platform _ := inl platform.OpenShift;
  cli_ServerVersion _ := inl "v1.33";
  labels_Parse s := inl (fun ls => bool_decide (is_Some (ls !! s)));
  cli_Nodes ss sel := inl ((fun n => mkNode (fst n) (snd n)) <$> filter (fun n => sel (snd n) = true) (ss_nodes ss));
  fields_ParseSelector _ := None;
  cli_PodsOnNode _ n := inl [mkPod "kube-system" ("proxy-" +:+ n) "Running"];
  cli_Pods _ _ _ := inl [];
  cli_Deployments _ := inl [];
  cli_ListNRT _ := inl 2%nat;
  status_details _ := None;
  new_K8s _ := None;
  GetWorkers _ := inl [];
  new_TopologyClient _ := None;
  CommandOnPod_cat _ _ _ := inr (ErrNew "no such file");
  pfp_Unmarshal _ := inr (ErrNew "unexpected end of JSON input");
  ValidateClusterNodeKubeletConfig n _ kc :=
    match kc with
    | Some kc => if decide (kl_TopologyManagerPolicy kc = "single-numa-node") then []
                 else [mkValidationResult n "kubelet" "configuration" "topology manager" "single-numa-node"
                         (kl_TopologyManagerPolicy kc)]
    | None => [mkValidationResult n "kubelet" "configuration" "" "any value" "no configuration"]
    end |}.

Definition ranges (A : Type) (m : gmap string A) : list (string * A) := map_to_list m.

Definition run (what : string) : go (option Report + error) :=
  nrovalidate scenario.show elements ranges cluster what "".

(** Everything passes, although the first configuration should not; an unknown
    validator is refused. *)
Example run_passes : run "nrt,PodSt, k8scfg" = Ret (inl (Some (mkReport true []))).
Proof. vm_compute. reflexivity. Qed.
Example run_unknown : run "nrt,nothing" = Ret (inr (ErrNew ("unknown validator: " +:+ quote "nothing"))).
Proof. vm_compute. reflexivity. Qed.

Example requested :
  match Requested "nrt,PodSt, k8scfg" with inl s => bool_decide (ValidatorKubeletConfig ∈ s) | inr _ => false end = true.
Proof. vm_compute. reflexivity. Qed.

Definition data : ValidatorData := mkValidatorData {["worker-0"; "worker-1"]} ∅ ∅ ∅ false None "v1.33" ∅.

End validator_scenario.

Lemma CollectKubeletConfig_last_wins_witness :
  exists data', CollectKubeletConfig validator_scenario.cluster validator_scenario.data = inl data' /\
    vd_kConfigs data' !! "worker-0" = Some (mkKubeletConfiguration "single-numa-node" "container" "").
Proof.
  pose proof (CollectKubeletConfig_last_wins validator_scenario.cluster validator_scenario.data eq_refl) as Hc.
  destruct (assignments validator_scenario.cluster) as [l|] eqn:El; [|vm_compute in El; discriminate El].
  destruct Hc as (data' & E & _ & Hn). exists data'. split; [exact E|]. rewrite Hn.
  vm_compute in El. injection El as <-. reflexivity.
Defined.

Lemma nrovalidate_report_witness :
  validator_scenario.run "nrt,PodSt, k8scfg" = Ret (inl (Some (mkReport true []))) /\
  exists nodes, nodes_of_interest scenario.show validator_scenario.cluster "" = Ret (inl nodes) /\
    cluster_passes validator_scenario.cluster nodes "v1.33" ValidatorKubeletConfig.
Proof.
  split; [exact validator_scenario.run_passes|].
  pose proof validator_scenario.run_passes as Hrun. unfold validator_scenario.run in Hrun.
  apply (nrovalidate_report scenario.show elements validator_scenario.ranges (fun s => reflexivity _)
           (fun A m => reflexivity _)) in Hrun.
  destruct Hrun as (req & nodes & ver & Hreq & Hnodes & Hver & Hrep).
  exists nodes. split; [exact Hnodes|]. injection Hver as <-. apply Hrep; [reflexivity|].
  pose proof validator_scenario.requested as Hr. rewrite Hreq in Hr. apply bool_decide_eq_true in Hr. exact Hr.
Defined.
