(* ===== verification/Detect.v ===== *)
(** * Detection of the platform, of its version, and of the operator's image
    (pkg/numaresourcesoperator/platform, platform/detect, pkg/version, pkg/images,
    pkg/iter)

    The program asks the cluster what it runs on, unless the command line says it,
    and looks up the image of its own pod. The client libraries are an interface: a
    client is the answers of its methods, and building one may fail, differently
    each time it is tried. *)
From S2P Require Import Prelude GoErrors Meta ApiV1 FlagCodec Workload RteUpdate Objects MergeSpec.
From S2P Require Import Cluster Apply RteState Dangling Controller SchedParams SchedApi SchedUpdate SchedState SchedController.
From S2P Require Import Loading.

(** ** Platforms and versions (platform.go, version.go)

    A platform is a string with four declared values. Its zero value is the empty
    string, which is none of them: [None]. *)

Definition ParsePlatform (plat : string) : platform.Platform * bool :=
  let plat := ToLower plat in
  if decide (plat = "kubernetes") then (platform.Kubernetes, true)
  else if decide (plat = "openshift") then (platform.OpenShift, true)
  else if decide (plat = "hypershift") then (platform.HyperShift, true)
  else (platform.Unknown, false).

Definition MissingVersion : string := "".

Section Version.
Context `{Assets}.

Definition ParseVersion (v : string) : string * option error :=
  match version_Parse v with
  | Some err => ("", Some err)
  | None => (v, None)
  end.

(** [AtLeast], over the library's comparison. *)
Definition AtLeast (v other : string) : bool + error := version_AtLeastString v other.

(** [version.Minimize]: the version without its build metadata. *)
Definition Minimize (ver : string) : string :=
  match FieldsFunc "-" ver with
  | [] => ver
  | item :: _ => match ParseVersion item with
                 | (_, Some _) => ver
                 | (ret, None) => ret
                 end
  end.
End Version.

(** ** Clients (env.go)

    An interface value is its methods; a nil one is [None]. *)

Record OCPClientSet := mkOCPClientSet {
  ocp_ClusterOperators : string -> list string + error;
    (** the versions in the status of a cluster operator *)
  ocp_ClusterVersions : list string + error;
    (** the names of the cluster versions *)
  ocp_Infrastructures : string -> string + error
    (** the topology of the control plane in the status *) }.

(** The [n]-th time an environment is completed: what the deployer library makes of
    its part of it, and the answers of the constructors of clients. *)
Class DetectLib := {
  DeployerEnvironment : Type;
  deployer_new : DeployerEnvironment;
  deployer_EnsureClient : nat -> DeployerEnvironment -> DeployerEnvironment * option error;
  deployer_GetControlPlane : DeployerEnvironment -> list string + error;
  NewDiscoveryClient : nat -> (string + error) + error;
  NewOCPClientSet : nat -> OCPClientSet + error;
}.

(** The discovery client is the answer of [ServerVersion], as its git version. *)
Record Environment `{DetectLib} := mkEnvironment {
  de_Environment : DeployerEnvironment;
  de_DiscCli : option (string + error);
  de_COGetter : option (string -> list string + error);
  de_CVLister : option (list string + error);
  de_InfraGetter : option (string -> string + error) }.
Arguments mkEnvironment {_} _ _ _ _ _.

Section Detect.
Context `{DetectLib} `{Assets}.

Definition new_env : Environment := mkEnvironment deployer_new None None None None.

(** One of the clients of the set, built if the field is nil. *)
Definition ensure_field {A} (n : nat) (field : option A) (get : OCPClientSet -> A) (ocpCli : option OCPClientSet)
  : (option A * option OCPClientSet) + error :=
  match field with
  | Some _ => inl (field, ocpCli)
  | None =>
      let? cli := match ocpCli with Some cli => inl cli | None => NewOCPClientSet n end in
      inl (Some (get cli), Some cli)
  end.

(** The environment is changed in place up to the first failure. *)
Definition EnsureClient (n : nat) (env : Environment) : Environment * option error :=
  let '(dep, err) := deployer_EnsureClient n (de_Environment env) in
  let env := mkEnvironment dep (de_DiscCli env) (de_COGetter env) (de_CVLister env) (de_InfraGetter env) in
  match err with
  | Some err => (env, Some err)
  | None =>
      match (match de_DiscCli env with Some cli => inl cli | None => NewDiscoveryClient n end) with
      | inr err => (env, Some err)
      | inl cli =>
          let env := mkEnvironment dep (Some cli) (de_COGetter env) (de_CVLister env) (de_InfraGetter env) in
          match ensure_field n (de_COGetter env) ocp_ClusterOperators None with
          | inr err => (env, Some err)
          | inl (co, ocpCli) =>
              let env := mkEnvironment dep (Some cli) co (de_CVLister env) (de_InfraGetter env) in
              match ensure_field n (de_CVLister env) ocp_ClusterVersions ocpCli with
              | inr err => (env, Some err)
              | inl (cv, ocpCli) =>
                  let env := mkEnvironment dep (Some cli) co cv (de_InfraGetter env) in
                  match ensure_field n (de_InfraGetter env) ocp_Infrastructures ocpCli with
                  | inr err => (env, Some err)
                  | inl (infra, _) => (mkEnvironment dep (Some cli) co cv infra, None)
                  end
              end
          end
      end
  end.

(** ** Queries (detect.go) *)

Definition ExternalTopologyMode : string := "External".

Definition PlatformFromEnv (env : Environment) : go (platform.Platform * option error) :=
  let! vers := deref "CVLister" (de_CVLister env) in
  match vers with
  | inr err => Ret (if IsNotFound err then (platform.Kubernetes, None) else (platform.Unknown, Some err))
  | inl [] => Ret (platform.Kubernetes, None)
  | inl (_ :: _) =>
      let! getter := deref "InfraGetter" (de_InfraGetter env) in
      match getter "cluster" with
      | inr err => Ret (platform.Unknown, Some err)
      | inl topology =>
          Ret (if decide (topology = ExternalTopologyMode) then (platform.HyperShift, None) else (platform.OpenShift, None))
      end
  end.

Definition KubernetesVersionFromEnv (env : Environment) : go (string * option error) :=
  let! ver := deref "DiscCli" (de_DiscCli env) in
  Ret match ver with
      | inr err => ("", Some err)
      | inl gitVersion => ParseVersion gitVersion
      end.

Definition OpenshiftVersionFromEnv (env : Environment) : go (string * option error) :=
  let! getter := deref "COGetter" (de_COGetter env) in
  Ret match getter "openshift-apiserver" with
      | inr err => (MissingVersion, Some err)
      | inl [] => (MissingVersion, Some (ErrNew ("unexpected amount of operands: " +:+ pretty 0%Z)))
      | inl (v :: _) => ParseVersion v
      end.

(** On a platform that is none of the declared ones the version is the one of
    Kubernetes. *)
Definition VersionFromEnv (env : Environment) (plat : option platform.Platform) : go (string * option error) :=
  if decide (plat = Some platform.OpenShift \/ plat = Some platform.HyperShift) then OpenshiftVersionFromEnv env
  else KubernetesVersionFromEnv env.

(** The number of the nodes. *)
Definition ControlPlaneFromEnv (env : DeployerEnvironment) : Z * option error :=
  match deployer_GetControlPlane env with
  | inr err => (0%Z, Some err)
  | inl nodes => (Z.of_nat (length nodes), None)
  end.

(** The deprecated entry points, on environments with some of the clients. *)
Definition PlatformFromLister (cvLister : option (list string + error)) : go (platform.Platform * option error) :=
  let! vers := deref "cvLister" cvLister in
  Ret match vers with
      | inr err => if IsNotFound err then (platform.Kubernetes, None) else (platform.Unknown, Some err)
      | inl [] => (platform.Kubernetes, None)
      | inl (_ :: _) => (platform.OpenShift, None)
      end.

Definition PlatformFromClients (cvLister : option (list string + error)) (infraGetter : option (string -> string + error))
  : go (platform.Platform * option error) :=
  PlatformFromEnv (mkEnvironment deployer_new None None cvLister infraGetter).

Definition detect_Platform (n : nat) : go (platform.Platform * option error) :=
  match NewOCPClientSet n with
  | inr err => Ret (platform.Unknown, Some err)
  | inl ocpCli => PlatformFromClients (Some (ocp_ClusterVersions ocpCli)) (Some (ocp_Infrastructures ocpCli))
  end.

Definition KubernetesVersion (n : nat) : go (string * option error) :=
  match EnsureClient n new_env with
  | (_, Some err) => Ret (MissingVersion, Some err)
  | (env, None) => KubernetesVersionFromEnv env
  end.

Definition OpenshiftVersion (n : nat) : go (string * option error) :=
  match EnsureClient n new_env with
  | (_, Some err) => Ret (MissingVersion, Some err)
  | (env, None) => OpenshiftVersionFromEnv env
  end.

Definition detect_Version (n : nat) (plat : platform.Platform) : go (string * option error) :=
  if decide (plat = platform.OpenShift \/ plat = platform.HyperShift) then OpenshiftVersion n else KubernetesVersion n.

Definition KubernetesVersionFromDiscovery (cli : option (string + error)) : go (string * option error) :=
  KubernetesVersionFromEnv (mkEnvironment deployer_new cli None None None).
Definition OpenshiftVersionFromGetter (coGetter : option (string -> list string + error)) : go (string * option error) :=
  OpenshiftVersionFromEnv (mkEnvironment deployer_new None coGetter None None).

(** ** Autoselection (autoselection.go, types.go) *)

Definition DetectedFromUser : string := "user-supplied".
Definition DetectedFromCluster : string := "autodetected from cluster".
Definition DetectedFailure : string := "autodetection failed".

Record DetectedPlatform := mkDetectedPlatform {
  pli_AutoDetected : option platform.Platform;
  pli_UserSupplied : option platform.Platform;
  pli_Discovered : option platform.Platform }.

Record DetectedVersion := mkDetectedVersion {
  vi_AutoDetected : string; vi_UserSupplied : string; vi_Discovered : string }.

Definition FindPlatformFromEnv (n : nat) (env : Environment) (userSupplied : platform.Platform)
  : go (DetectedPlatform * string * option error) :=
  let do := mkDetectedPlatform (Some platform.Unknown) (Some userSupplied) (Some platform.Unknown) in
  match EnsureClient n env with
  | (_, Some err) => Ret (do, DetectedFailure, Some err)
  | (env, None) =>
      if decide (userSupplied <> platform.Unknown)
      then Ret (mkDetectedPlatform (Some platform.Unknown) (Some userSupplied) (Some userSupplied), DetectedFromUser, None)
      else
        let! (dp, err) := PlatformFromEnv env in
        Ret match err with
            | Some err => (do, DetectedFailure, Some err)
            | None => (mkDetectedPlatform (Some dp) (Some userSupplied) (Some dp), DetectedFromCluster, None)
            end
  end.

Definition FindVersionFromEnv (n : nat) (env : Environment) (plat : option platform.Platform) (userSupplied : string)
  : go (DetectedVersion * string * option error) :=
  let do := mkDetectedVersion MissingVersion userSupplied MissingVersion in
  match EnsureClient n env with
  | (_, Some err) => Ret (do, DetectedFailure, Some err)
  | (env, None) =>
      if decide (userSupplied <> MissingVersion)
      then Ret (mkDetectedVersion MissingVersion userSupplied userSupplied, DetectedFromUser, None)
      else
        let! (dv, err) := VersionFromEnv env plat in
        Ret match err with
            | Some err => (do, DetectedFailure, Some err)
            | None => (mkDetectedVersion dv userSupplied dv, DetectedFromCluster, None)
            end
  end.

(** The zero value of the result goes with the first error. *)
Definition FindPlatform (n : nat) (userSupplied : platform.Platform) : go (DetectedPlatform * string * option error) :=
  match EnsureClient n new_env with
  | (_, Some err) => Ret (mkDetectedPlatform None None None, DetectedFailure, Some err)
  | (env, None) => FindPlatformFromEnv (S n) env userSupplied
  end.

Definition FindVersion (n : nat) (plat : option platform.Platform) (userSupplied : string)
  : go (DetectedVersion * string * option error) :=
  match EnsureClient n new_env with
  | (_, Some err) => Ret (mkDetectedVersion "" "" "", DetectedFailure, Some err)
  | (env, None) => FindVersionFromEnv (S n) env plat userSupplied
  end.

(** [ClusterInfo.String] *)
Definition ClusterInfo_String (p : DetectedPlatform) (v : DetectedVersion) : string :=
  from_option platform_String "" (pli_Discovered p) +:+ ":" +:+ vi_Discovered v.

(** ** Discovery (pkg/version/discover.go) *)

Record DiscoverResult := mkDiscoverResult {
  dr_Platform : option platform.Platform; dr_ShortVersion : string; dr_LongVersion : string }.

Definition newDefaultClusterResult : DiscoverResult :=
  mkDiscoverResult (Some platform.Unknown) MissingVersion MissingVersion.

Definition DiscoverCluster (platformName platformVersion : string) : go (DiscoverResult * option error) :=
  let '(userPlatform, _) := ParsePlatform platformName in
  let '(userPlatformVersion, _) := ParseVersion platformVersion in
  let! (plat, reason, err) := FindPlatform 0 userPlatform in
  let clusterPlatform := pli_Discovered plat in
  if decide (clusterPlatform = Some platform.Unknown) then Ret (newDefaultClusterResult, err)
  else
    let! (platVersion, source, err) := FindVersion 2 clusterPlatform userPlatformVersion in
    let long := vi_Discovered platVersion in
    let result := mkDiscoverResult clusterPlatform (Minimize long) long in
    if decide (long = MissingVersion) then Ret (result, err) else Ret (result, None).
End Detect.

(** ** The containers of a pod (pkg/iter)

    The ephemeral containers, whose common part is a container, come with the pod.
    The iterator is the list of what it yields. *)

Inductive ContainerType := Containers | InitContainers | EphemeralContainers.

Definition ct_mask (ct : ContainerType) : Z :=
  match ct with Containers => 1 | InitContainers => 2 | EphemeralContainers => 4 end%Z.

Definition ct_String (ct : Z) : string :=
  if decide (ct = 1%Z) then "app" else if decide (ct = 2%Z) then "init" else if decide (ct = 4%Z) then "eph" else "UNK".

Definition OnContainers (podSpec : PodSpec) (ephemeral : list Container) (mask : Z) : list (Container * ContainerType) :=
  let part ct cs := if decide (Z.land mask (ct_mask ct) <> 0%Z) then (fun c => (c, ct)) <$> cs else [] in
  part InitContainers (ps_InitContainers podSpec) ++ part Containers (ps_Containers podSpec)
  ++ part EphemeralContainers ephemeral.

(** ** The image of the operator (pkg/images) *)

Record ImagePod := mkImagePod {
  ip_Namespace : string; ip_Name : string; ip_Spec : PodSpec; ip_Ephemeral : list Container }.

(** Without a name, the first container is taken, which must exist. *)
Definition findContainerByName (pod : ImagePod) (containerName : string) : go (Container + error) :=
  if decide (containerName = "") then
    match ps_Containers (ip_Spec pod) with
    | [] => Panic (IndexOutOfRange "Containers")
    | cnt :: _ => Ret (inl cnt)
    end
  else
    Ret match list_find (fun cnt => cnt_Name (fst cnt) = containerName)
                (OnContainers (ip_Spec pod) (ip_Ephemeral pod) (ct_mask Containers)) with
        | Some (_, (cnt, _)) => inl cnt
        | None => inr (ErrNew ("container " +:+ quote containerName +:+ " not found in " +:+ ip_Namespace pod +:+ "/"
                               +:+ ip_Name pod))
        end.

(** Building the client and reading a pod, which the library may answer with nil. *)
Section Images.
Context (NewK8s : (string -> string -> option ImagePod + error) + error) (lookupEnv : string -> option string).

(** The image and its pull policy; both empty next to an error. *)
Definition GetImageFromPod (namespace podName containerName : string) : go (string * string * option error) :=
  match NewK8s with
  | inr err => Ret ("", "", Some err)
  | inl getPod =>
      match getPod namespace podName with
      | inr err => Ret ("", "", Some err)
      | inl None => Ret ("", "", Some (ErrNew ("found nil pod for " +:+ namespace +:+ "/" +:+ podName)))
      | inl (Some pod) =>
          let! cnt := findContainerByName pod containerName in
          Ret match cnt with
              | inr err => ("", "", Some err)
              | inl cnt => (cnt_Image cnt, cnt_ImagePullPolicy cnt, None)
              end
      end
  end.

Definition GetCurrentImage : go (string * string * option error) :=
  match lookupEnv "NAMESPACE" with
  | None => Ret ("", "", Some (ErrNew ("environment variable not set: " +:+ quote "NAMESPACE")))
  | Some podNamespace =>
      match lookupEnv "PODNAME" with
      | None => Ret ("", "", Some (ErrNew ("environment variable not set: " +:+ quote "PODNAME")))
      | Some podName => GetImageFromPod podNamespace podName ""
      end
  end.

(** The error is only logged. *)
Definition Discover (specPath userImageSpec : string) : go (ImagesData * string) :=
  let! (imageSpec, pullPolicy, _) := GetCurrentImage in
  Ret (mkImagesData userImageSpec imageSpec specPath, pullPolicy).
End Images.

(** [SpecPath], of the parts set when the program is linked. *)
Definition SpecPath (repo name tag : string) : string := repo +:+ "/" +:+ name +:+ ":" +:+ tag.
