(* ===== verification/Main.v ===== *)
(** * The program (cmd/main.go, pkg/objectupdate/tls, internal/api/buildinfo,
    pkg/numaresourcesoperator/manifests/api, pkg/metrics/manifests/monitor)

    The command line, and what [main] does with it: print something and exit, or
    discover the cluster, load the manifests and start the three reconcilers. The
    manager and the clients are an interface: every call to them that may fail is a
    step with an answer. *)
From S2P Require Import Prelude GoErrors Meta ApiV1 Validation FlagCodec Workload RteUpdate Objects MergeSpec.
From S2P Require Import Cluster Apply RteState Dangling Controller SchedParams SchedApi SchedUpdate SchedState SchedController.
From S2P Require Import Kubelet Loading Detect.

(** ** Standard library *)

(** [strconv.ParseBool] *)
Definition ParseBool (s : string) : option bool :=
  if decide (s ∈ ["1"; "t"; "T"; "TRUE"; "true"; "True"]) then Some true
  else if decide (s ∈ ["0"; "f"; "F"; "FALSE"; "false"; "False"]) then Some false
  else None.

(** [strconv.ParseInt] in base 0, on 64 bits: an optional sign, then a number in the
    base its prefix tells, whose digits may be separated by underscores. *)
Definition digit_value (c : Ascii.ascii) : option Z :=
  let n := Z.of_nat (Ascii.nat_of_ascii (lower_char c)) in
  if ((48 <=? n) && (n <=? 57))%Z then Some (n - 48)%Z
  else if ((97 <=? n) && (n <=? 122))%Z then Some (n - 87)%Z else None.

Fixpoint parse_digits (base acc : Z) (s : string) : option Z :=
  match s with
  | EmptyString => Some acc
  | String c s' =>
      if decide (c = "_"%char) then parse_digits base acc s'
      else match digit_value c with
           | Some d => if (d <? base)%Z then parse_digits base (acc * base + d)%Z s' else None
           | None => None
           end
  end.

(** The last character seen: a digit, an underscore, or neither. *)
Inductive seen := SawDigit | SawUnderscore | SawOther.

Fixpoint underscores_ok (hex : bool) (saw : seen) (s : string) : bool :=
  match s with
  | EmptyString => match saw with SawUnderscore => false | _ => true end
  | String c s' =>
      let digit := match digit_value c with Some d => (d <? (if hex then 16 else 10))%Z | None => false end in
      if digit then underscores_ok hex SawDigit s'
      else if decide (c = "_"%char) then match saw with SawDigit => underscores_ok hex SawUnderscore s' | _ => false end
      else match saw with SawUnderscore => false | _ => underscores_ok hex SawOther s' end
  end.

Definition ParseUint0 (s : string) : option Z :=
  match s with
  | EmptyString => None
  | String "0" (String c (String _ _ as rest)) =>
      let c := lower_char c in
      if decide (c = "b"%char) then if underscores_ok false SawDigit rest then parse_digits 2 0 rest else None
      else if decide (c = "o"%char) then if underscores_ok false SawDigit rest then parse_digits 8 0 rest else None
      else if decide (c = "x"%char) then if underscores_ok true SawDigit rest then parse_digits 16 0 rest else None
      else if underscores_ok false SawOther s then parse_digits 8 0 s else None
  | String "0" rest => if underscores_ok false SawOther s then parse_digits 8 0 rest else None
  | _ => if underscores_ok false SawOther s then parse_digits 10 0 s else None
  end.

Definition ParseInt0 (s : string) : option Z :=
  let '(neg, num) := match s with
                     | String "-" s' => (true, s')
                     | String "+" s' => (false, s')
                     | _ => (false, s)
                     end in
  match ParseUint0 num with
  | None => None
  | Some un =>
      if negb neg && (2 ^ 63 <=? un)%Z then None
      else if neg && (2 ^ 63 <? un)%Z then None
      else Some (if neg then - un else un)%Z
  end.

Example ParseInt0_test :
  ParseInt0 "9443" = Some 9443%Z /\ ParseInt0 "0x24_E3" = Some 9443%Z /\ ParseInt0 "-017" = Some (-15)%Z /\
  ParseInt0 "0b101" = Some 5%Z /\ ParseInt0 "1_" = None /\ ParseInt0 "9223372036854775808" = None /\ ParseInt0 "0" = Some 0%Z.
Proof. vm_compute. auto 10. Qed.

(** ** TLS settings (pkg/objectupdate/tls)

    A configuration of crypto/tls, as far as it is set here. *)

Record TLSConfig := mkTLSConfig {
  tc_MinVersion : Z; tc_CipherSuites : list Z; tc_CurvePreferences : list Z; tc_NextProtos : list string }.

Definition emptyTLSConfig : TLSConfig := mkTLSConfig 0 [] [] [].

(** [curveIDsToString] *)
Definition curveIDsToString (ids : list Z) : string := str_join "," (pretty <$> ids).

Section TLS.
Context (CipherSuiteName : Z -> string) (TLSVersionToNameOrDie : Z -> go string).

Definition NewSettings (cfg : TLSConfig) : go Settings :=
  let! minVersion := TLSVersionToNameOrDie (tc_MinVersion cfg) in
  Ret (mkSettings minVersion (str_join "," (CipherSuiteName <$> tc_CipherSuites cfg))
         (if decide (tc_CurvePreferences cfg <> []) then curveIDsToString (tc_CurvePreferences cfg) else "")).
End TLS.

(** The options of the webhook server, applied in order. *)
Definition webhookTLSOpts (enableHTTP2 : bool) : list (TLSConfig -> TLSConfig) :=
  [fun c => if enableHTTP2 then c
            else mkTLSConfig (tc_MinVersion c) (tc_CipherSuites c) (tc_CurvePreferences c) ["http/1.1"]].

(** ** The command line *)

Definition lifecycleEventNone : string := "".
Definition lifecycleEventPostStart : string := "postStart".
Definition lifecycleEventPreStop : string := "preStop".

(** [lifecycleEventValue.Set]: the event, which cannot be none. *)
Definition lifecycleEvent_Set (s : string) : string + error :=
  if decide (s = "postStart") then inl lifecycleEventPostStart
  else if decide (s = "preStop") then inl lifecycleEventPreStop
  else inr (ErrNew ("unsupported mode: " +:+ quote s)).

Record Params := mkParams {
  p_webhookPort : Z; p_metricsAddr : string; p_enableLeaderElection : bool; p_probeAddr : string;
  p_platformName : string; p_platformVersion : string; p_detectPlatformOnly : bool; p_showVersion : bool;
  p_enableScheduler : bool; p_renderMode : bool; p_render : RenderParams; p_enableWebhooks : bool;
  p_enableMetrics : bool; p_enableHTTP2 : bool; p_enableMCPCondsForward : bool;
  p_image_Exporter : string; p_image_Scheduler : string; p_inspectFeatures : bool; p_handleEvent : string }.

Definition defaultLeaderElectionID : string := "0e2a6bd3.openshift-kni.io".
Definition defaultWebhookPort : Z := 9443.
Definition defaultMetricsAddr : string := ":8080".
Definition defaultProbeAddr : string := ":8081".
Definition defaultNamespace : string := "numaresources-operator".

(** [SetDefaults], on the zero value. *)
Definition default_params : Params :=
  mkParams 0 defaultMetricsAddr true defaultProbeAddr "" "" false false true false
    (mkRenderParams false defaultNamespace "" "") false true false false "" "" false lifecycleEventNone.

Definition FormatBool (b : bool) : string := if b then "true" else "false".

Definition Summarize (pa : Params) : string :=
  "leaderElection=" +:+ FormatBool (p_enableLeaderElection pa) +:+ " scheduler=" +:+ FormatBool (p_enableScheduler pa)
  +:+ " webhooks=" +:+ FormatBool (p_enableWebhooks pa) +:+ " webhooksHTTP2=" +:+ FormatBool (p_enableHTTP2 pa)
  +:+ " metrics=" +:+ FormatBool (p_enableMetrics pa).

Inductive flag_kind := FString | FBool | FInt | FEvent.

(** The flags [FromFlags] defines. *)
Definition flag_kinds : list (string * flag_kind) :=
  [("metrics-bind-address", FString); ("health-probe-bind-address", FString); ("leader-elect", FBool);
   ("platform", FString); ("platform-version", FString); ("detect-platform-only", FBool); ("inspect-features", FBool);
   ("render", FBool); ("render-nrt-crd", FBool); ("render-namespace", FString); ("render-image", FString);
   ("render-image-scheduler", FString); ("version", FBool); ("enable-scheduler", FBool); ("enable-webhooks", FBool);
   ("webhook-port", FInt); ("enable-metrics", FBool); ("enable-http2", FBool); ("enable-mcp-conds-fwd", FBool);
   ("image-exporter", FString); ("image-scheduler", FString); ("handle-lifecycle-event", FEvent)].

Definition kind_of_flag (name : string) : option flag_kind :=
  snd ∘ snd <$> list_find (fun f => fst f = name) flag_kinds.

(** Whether the value of the flag takes the text. *)
Definition flag_takes (k : flag_kind) (v : string) : bool :=
  match k with
  | FString => true
  | FBool => bool_decide (is_Some (ParseBool v))
  | FInt => bool_decide (is_Some (ParseInt0 v))
  | FEvent => match lifecycleEvent_Set v with inl _ => true | inr _ => false end
  end.

(** What an argument is to [flag.Parse]: the end of the flags, a flag with its value
    if it has one, or a mistake. *)
Inductive argument := NotAFlag | BadFlag | AFlag (name : string) (value : option string).

Definition classify (s : string) : argument :=
  let named (name : string) : argument :=
    match name with
    | EmptyString => BadFlag
    | String c name' =>
        if decide (c = "-"%char \/ c = "="%char) then BadFlag
        else let '(rest, value) := split2 "=" name' in AFlag (String c rest) value
    end in
  match s with
  | String "-" (String "-" EmptyString) => NotAFlag
  | String "-" (String "-" name) => named name
  | String "-" (String _ _ as name) => named name
  | _ => NotAFlag
  end.

Section Parse.
(** The flags defined: whether each is boolean, and the values it takes. *)
Context (flag_formal : string -> option (bool * (string -> bool))).

(** [flag.Parse]: the values set, in order, or the status the process exits with. *)
Fixpoint Parse (args : list string) (set : list (string * string)) : list (string * string) + Z :=
  match args with
  | [] => inl set
  | s :: rest =>
      match classify s with
      | NotAFlag => inl set
      | BadFlag => inr 2%Z
      | AFlag name value =>
          match flag_formal name with
          | None => inr (if decide (name = "help" \/ name = "h") then 0 else 2)%Z
          | Some (true, takes) =>
              let v := default "true" value in if takes v then Parse rest (set ++ [(name, v)]) else inr 2%Z
          | Some (false, takes) =>
              match value, rest with
              | Some v, _ => if takes v then Parse rest (set ++ [(name, v)]) else inr 2%Z
              | None, v :: rest => if takes v then Parse rest (set ++ [(name, v)]) else inr 2%Z
              | None, [] => inr 2%Z
              end
          end
      end
  end.
End Parse.

(** The flags of the command line: those of the program, and those libraries define,
    the logger's among them. *)
Definition flag_formal (library_flag : string -> option bool) (library_takes : string -> string -> bool) (name : string)
  : option (bool * (string -> bool)) :=
  match kind_of_flag name with
  | Some k => Some (match k with FBool => true | _ => false end, flag_takes k)
  | None => (fun isBool => (isBool, library_takes name)) <$> library_flag name
  end.

(** A variable holds the last value its flag was set to. *)
Definition last_set (set : list (string * string)) (name : string) : option string :=
  snd <$> last (filter (fun f => fst f = name) set).

Definition string_var (set : list (string * string)) (name dflt : string) : string := default dflt (last_set set name).
Definition bool_var (set : list (string * string)) (name : string) (dflt : bool) : bool :=
  default dflt (last_set set name ≫= ParseBool).
Definition int_var (set : list (string * string)) (name : string) (dflt : Z) : Z :=
  default dflt (last_set set name ≫= ParseInt0).
Definition event_var (set : list (string * string)) (name dflt : string) : string :=
  match last_set set name with
  | Some v => match lifecycleEvent_Set v with inl e => e | inr _ => dflt end
  | None => dflt
  end.

Definition FromFlags (pa : Params) (set : list (string * string)) : Params :=
  let enableMetrics := bool_var set "enable-metrics" (p_enableMetrics pa) in
  let render := p_render pa in
  mkParams (int_var set "webhook-port" defaultWebhookPort)
    (if negb enableMetrics then "0" else string_var set "metrics-bind-address" (p_metricsAddr pa))
    (bool_var set "leader-elect" (p_enableLeaderElection pa))
    (string_var set "health-probe-bind-address" (p_probeAddr pa))
    (string_var set "platform" (p_platformName pa)) (string_var set "platform-version" (p_platformVersion pa))
    (bool_var set "detect-platform-only" (p_detectPlatformOnly pa)) (bool_var set "version" (p_showVersion pa))
    (bool_var set "enable-scheduler" (p_enableScheduler pa)) (bool_var set "render" (p_renderMode pa))
    (mkRenderParams (bool_var set "render-nrt-crd" (rp_NRTCRD render))
       (string_var set "render-namespace" (rp_Namespace render))
       (string_var set "render-image" (rp_Image_Exporter render))
       (string_var set "render-image-scheduler" (rp_Image_Scheduler render)))
    (bool_var set "enable-webhooks" (p_enableWebhooks pa)) enableMetrics
    (bool_var set "enable-http2" (p_enableHTTP2 pa)) (bool_var set "enable-mcp-conds-fwd" (p_enableMCPCondsForward pa))
    (string_var set "image-exporter" (p_image_Exporter pa)) (string_var set "image-scheduler" (p_image_Scheduler pa))
    (bool_var set "inspect-features" (p_inspectFeatures pa))
    (event_var set "handle-lifecycle-event" (p_handleEvent pa)).

(** ** The manifests of the topology API (manifests/api) and of the metrics
    (pkg/metrics/manifests/monitor)

    Deep copies have no definition; nothing is rendered in either. *)

Record ApiManifests := mkApiManifests { am_Crd : Object; am_plat : platform.Platform }.

Definition api_ToObjects (mf : ApiManifests) : list Object := [am_Crd mf].
Definition api_Render (mf : ApiManifests) : ApiManifests := mkApiManifests (am_Crd mf) (am_plat mf).

Definition api_NewWithOptions `{Assets} (opts : RenderOptions) : ApiManifests + error :=
  let? crd := APICRD in inl (mkApiManifests crd (opt_Platform opts)).
Definition api_GetManifests `{Assets} (p : platform.Platform) : ApiManifests + error :=
  api_NewWithOptions (mkRenderOptions p "" "" false false).

Definition metrics_GetManifests `{Assets} (namespace : string) : Object + error := metrics_Service namespace.
Definition metrics_ToObjects (service : Object) : list Object := [service].

(** ** Build information *)

Record BuildInfo := mkBuildInfo { bi_Branch : string; bi_Version : string; bi_Commit : string }.

Definition bi_String (bi : BuildInfo) : string := bi_Version bi +:+ " " +:+ bi_Commit bi +:+ " (" +:+ bi_Branch bi +:+ ")".
Definition OperatorProgramName : string := "numaresources-operator".

(** ** The libraries [main] starts *)

(** What the kubelet configurations' controller is for. *)
Inductive kc_object := KCKubeletConfig | KCConfigMap.

(** The steps of [main] that may fail. *)
Inductive main_step :=
| LogLevel | ClientConfig | NewClient | NewManager | SetupTLSWatcher | SetupOperator | AddCleanup | SetupScheduler
| OperatorWebhook | SchedulerWebhook | HealthzCheck | ReadyzCheck | StartManager.

Class MainLib := {
  attempt : main_step -> option error;
  FetchAPIServerTLSProfile : (TLSConfig -> TLSConfig) + error;
    (** the profile, as what it makes of a configuration *)
  CipherSuiteName : Z -> string;
  TLSVersionToNameOrDie : Z -> go string;
  builder_Complete : option kc_object -> option error;
    (** a controller for a type, or for none, that owns config maps *)
  getPod_client : (string -> string -> option ImagePod + error) + error;
  encode_features : string + error;
  build_info : BuildInfo;
  go_version : string;
  spec_path : string;
  builtin_digests : schedulerapi.Digests;
  sha256 : string -> string;
}.

(** [ctrl.Options], as far as they are computed. *)
Record ManagerOptions := mkManagerOptions {
  mo_CacheNamespaces : list string;
  mo_ConfigMapNamespaces : option (list string);
  mo_MetricsBindAddress : string;
  mo_MetricsTLSOpts : list (TLSConfig -> TLSConfig);
  mo_WebhookPort : Z;
  mo_WebhookTLSOpts : list (TLSConfig -> TLSConfig);
  mo_HealthProbeBindAddress : string;
  mo_LeaderElection : bool;
  mo_LeaderElectionNamespace : string;
  mo_LeaderElectionID : string }.

(** What runs under the manager. *)
Record Running := mkRunning {
  run_Options : ManagerOptions;
  run_Operator : Reconciler;
  run_Kubelet : KubeletReconciler;
  run_Scheduler : option SchedReconciler;
  run_Webhooks : bool }.

(** The process exits with a status, after printing or after running the manager. *)
Inductive Outcome :=
| Exited (code : Z) (out : string)
| Ran (what : Running) (code : Z).

Definition exited (r : string * Z) : Outcome := Exited (snd r) (fst r).

(** A step or a call that fails ends the process with status 1. *)
Notation "'or_exit' x ':=' m 'in' k" :=
  (match m with inr _ => Ret (Exited 1 "") | inl x => k end)
  (at level 10, x pattern, m at level 100, k at level 200) : go_scope.
Notation "'step_or_exit' m 'in' k" :=
  (match m with Some _ => Ret (Exited 1 "") | None => k end)
  (at level 10, m at level 100, k at level 200) : go_scope.

Definition manageIntrospection `{MainLib} : Outcome :=
  match encode_features with
  | inr _ => Exited 1 ""
  | inl out => Exited 0 out
  end.

(** Nothing is done. *)
Definition manageLifecycleEvent (event : string) : Z := 0.

(** [KubeletConfigReconciler.SetupWithManager]: the type it is for, none off the two
    OpenShift platforms. *)
Definition kc_watched (plat : platform.Platform) : option kc_object :=
  match plat with
  | platform.OpenShift => Some KCKubeletConfig
  | platform.HyperShift => Some KCConfigMap
  | _ => None
  end.

Definition cache_options (plat : platform.Platform) (namespace : string) : list string * option (list string) :=
  ([namespace],
   if decide (plat = platform.HyperShift) then Some [namespace; HyperShiftKubeletConfigConfigMapNamespace] else None).

(** ** main *)

Section Main.
Context `{Assets} `{DetectLib} `{MainLib} (lookupEnv : string -> option string).
Context (library_flag : string -> option bool) (library_takes : string -> string -> bool).

Definition manager_options (params : Params) (plat : platform.Platform) (namespace : string)
  (tlsConfig : TLSConfig -> TLSConfig) : ManagerOptions :=
  let '(namespaces, configMaps) := cache_options plat namespace in
  mkManagerOptions namespaces configMaps (p_metricsAddr params) [tlsConfig] (p_webhookPort params)
    (webhookTLSOpts (p_enableHTTP2 params) ++ [tlsConfig]) (p_probeAddr params) (p_enableLeaderElection params)
    namespace defaultLeaderElectionID.

(** The scheduler's reconciler, when it is enabled. *)
Definition setup_scheduler (params : Params) (cluster : DiscoverResult) (plat : platform.Platform) (namespace : string)
  (tlsSettings : Settings) : option SchedReconciler + error :=
  if p_enableScheduler params then
    let? schedMf := sched_GetManifests namespace in
    let iv := schedulerapi.GetImageValidationData builtin_digests (lookupEnv "SCHEDULER_IMAGE_VALIDATION")
                (lookupEnv "SCHEDULER_IMAGE_DIGESTS") in
    match attempt SetupScheduler with
    | Some err => inr err
    | None => inl (Some (mkSchedReconciler schedMf namespace (platforminfo.New plat (dr_LongVersion cluster)) tlsSettings iv))
    end
  else inl None.

(** The webhooks, when they are enabled; [klog.Exitf] exits with 1 too. *)
Definition setup_webhooks (params : Params) : option error :=
  if p_enableWebhooks params then
    match attempt OperatorWebhook with
    | Some err => Some err
    | None => attempt SchedulerWebhook
    end
  else None.

(** From the manager on. *)
Definition main_serve (params : Params) (cluster : DiscoverResult) (plat : platform.Platform) (namespace : string)
  (apiManifests : ApiManifests) (rteManifests : RteManifests) (metrics : Object) : go Outcome :=
  step_or_exit attempt ClientConfig in
  step_or_exit attempt NewClient in
  or_exit tlsConfig := FetchAPIServerTLSProfile in
  let! tlsSettings := NewSettings CipherSuiteName TLSVersionToNameOrDie (tlsConfig emptyTLSConfig) in
  step_or_exit attempt NewManager in
  step_or_exit attempt SetupTLSWatcher in
  let! (imgs, pullPolicy) := Discover getPod_client lookupEnv spec_path (p_image_Exporter params) in
  let! (rendered, err) := renderRTEManifests lookupEnv rteManifests namespace imgs in
  step_or_exit err in
  step_or_exit attempt SetupOperator in
  step_or_exit builder_Complete (kc_watched plat) in
  step_or_exit attempt AddCleanup in
  or_exit sched := setup_scheduler params cluster plat namespace tlsSettings in
  step_or_exit setup_webhooks params in
  step_or_exit attempt HealthzCheck in
  step_or_exit attempt ReadyzCheck in
  let operator :=
    mkReconciler plat (am_Crd apiManifests) (rte_state_manifests rendered metrics) namespace imgs pullPolicy
      (p_enableMCPCondsForward params) (IsRTEImageOverridable (lookupEnv "EXPORTER_IMAGE_RESTRICTION")) tlsSettings in
  Ret (Ran (mkRunning (manager_options params plat namespace tlsConfig) operator (mkKubeletReconciler namespace plat [])
              sched (p_enableWebhooks params))
         (match attempt StartManager with Some _ => 1 | None => 0 end)).

(** A platform that is none of the declared ones takes the branches of an unknown
    one. *)
Definition branch_platform (p : option platform.Platform) : platform.Platform := default platform.Unknown p.

Definition platform_text (p : option platform.Platform) : string := from_option platform_String "" p.

(** Loading the manifests, and rendering them or going on. *)
Definition main_load (params : Params) (cluster : DiscoverResult) : go Outcome :=
  let plat := branch_platform (dr_Platform cluster) in
  or_exit apiManifests := api_GetManifests plat in
  let namespace := default defaultNamespace (lookupEnv "NAMESPACE") in
  or_exit rteManifests := GetManifests plat (dr_ShortVersion cluster) namespace false true in
  or_exit metrics := metrics_GetManifests namespace in
  if p_renderMode params then
    let! r := manageRendering sha256 lookupEnv spec_path (p_render params) (am_Crd apiManifests) rteManifests
                metrics namespace (p_enableScheduler params) in
    Ret (exited r)
  else main_serve params cluster plat namespace apiManifests rteManifests metrics.

Definition main_run (params : Params) : go Outcome :=
  if p_showVersion params
  then Ret (Exited 0 (OperatorProgramName +:+ " " +:+ bi_String build_info +:+ " " +:+ go_version +:+ nl))
  else if p_inspectFeatures params then Ret manageIntrospection
  else
    step_or_exit attempt LogLevel in
    if decide (p_handleEvent params <> lifecycleEventNone) then Ret (Exited (manageLifecycleEvent (p_handleEvent params)) "")
    else
      let! (cluster, err) := DiscoverCluster (p_platformName params) (p_platformVersion params) in
      step_or_exit err in
      if p_detectPlatformOnly params
      then Ret (Exited 0 ("platform=" +:+ platform_text (dr_Platform cluster) +:+ " version=" +:+ dr_ShortVersion cluster +:+ nl))
      else main_load params cluster.

Definition main (args : list string) : go Outcome :=
  match Parse (flag_formal library_flag library_takes) args [] with
  | inr code => Ret (Exited code "")
  | inl set => main_run (FromFlags default_params set)
  end.
End Main.
