(* ===== verification/MainSpec.v ===== *)
(** * Theorems about the program

    What is discovered of the cluster is what the user said or what the cluster
    answered; the manager runs on OpenShift and HyperShift only, with reconcilers
    that meet the invariants of the controllers' theorems, and does run when every
    library call succeeds. *)
From S2P Require Import Prelude GoErrors Meta ApiV1 Validation FlagCodec Workload RteUpdate Objects MergeSpec.
From S2P Require Import Cluster Apply RteState Dangling Controller Install NoPanic SchedParams SchedParamsSpec SchedApi SchedUpdate SchedState.
From S2P Require Import SchedController SchedCluster SchedReconcileSpec Kubelet Loading LoadingSpec Detect Main.

(** ** Versions *)

Section Versions.
Context `{Assets}.

Lemma ParseVersion_None v v' : ParseVersion v = (v', None) <-> v' = v /\ version_Parse v = None.
Proof. unfold ParseVersion. destruct (version_Parse v); naive_solver. Qed.

Lemma ParseVersion_Some v v' err : ParseVersion v = (v', Some err) <-> v' = "" /\ version_Parse v = Some err.
Proof. unfold ParseVersion. destruct (version_Parse v); naive_solver. Qed.

Lemma Minimize_parses v : version_Parse v = None -> version_Parse (Minimize v) = None.
Proof.
  intros Hv. unfold Minimize. destruct (FieldsFunc "-" v) as [|item items]; [done|].
  destruct (ParseVersion item) as [ret [err|]] eqn:E; [done|]. by apply ParseVersion_None in E as [-> E].
Qed.
End Versions.

(** ** Environments *)

Section Discovery.
Context `{DetectLib} `{Assets}.

(** Every client is there. *)
Definition ready (env : Environment) : Prop :=
  is_Some (de_DiscCli env) /\ is_Some (de_COGetter env) /\ is_Some (de_CVLister env) /\ is_Some (de_InfraGetter env).

Lemma ensure_field_Some {A} n (field : option A) get ocpCli r ocpCli' :
  ensure_field n field get ocpCli = inl (r, ocpCli') -> is_Some r.
Proof.
  unfold ensure_field. destruct field; [intros [= <- _]; by eexists|].
  destruct (match ocpCli with Some cli => inl cli | None => _ end); simpl; [intros [= <- _]; by eexists|done].
Qed.

Lemma EnsureClient_ready n env env' : EnsureClient n env = (env', None) -> ready env'.
Proof.
  unfold EnsureClient. destruct (deployer_EnsureClient n _) as [dep [err|]]; [done|]. simpl.
  destruct (match de_DiscCli env with Some cli => inl cli | None => _ end) as [cli|]; [|done].
  destruct (ensure_field n (de_COGetter env) _ _) as [[co ocp]|] eqn:E1; [|done].
  destruct (ensure_field n (de_CVLister env) _ _) as [[cv ocp']|] eqn:E2; [|done].
  destruct (ensure_field n (de_InfraGetter env) _ _) as [[infra ocp'']|] eqn:E3; [|done].
  intros [= <-]. split_and!; simpl; [by eexists|by eapply ensure_field_Some..].
Qed.

Lemma PlatformFromEnv_returns env : ready env -> exists p err, PlatformFromEnv env = Ret (p, err) /\ (err = None -> p <> platform.Unknown).
Proof.
  intros (_ & _ & [lister Hl] & [getter Hg]). unfold PlatformFromEnv. rewrite Hl, Hg. simpl.
  destruct lister as [[|v vs]|err]; simpl; [by do 2 eexists| |].
  - destruct (getter "cluster"); [|by do 2 eexists]. case_decide; by do 2 eexists.
  - destruct (IsNotFound err); by do 2 eexists.
Qed.

Lemma VersionFromEnv_returns env plat :
  ready env -> exists v err, VersionFromEnv env plat = Ret (v, err) /\ (err = None -> version_Parse v = None).
Proof.
  intros ([disc Hd] & [getter Hg] & _). unfold VersionFromEnv, OpenshiftVersionFromEnv, KubernetesVersionFromEnv.
  case_decide; [rewrite Hg|rewrite Hd]; simpl.
  - destruct (getter "openshift-apiserver") as [[|v vs]|err]; try by do 2 eexists.
    do 2 eexists. split; [apply f_equal, surjective_pairing|]. unfold ParseVersion. by destruct (version_Parse v) eqn:?.
  - destruct disc as [v|err]; [|by do 2 eexists].
    do 2 eexists. split; [apply f_equal, surjective_pairing|]. unfold ParseVersion. by destruct (version_Parse v) eqn:?.
Qed.

(** The environment the [n]-th detection works in: the clients are asked for twice. *)
Definition environment (n : nat) : Environment := fst (EnsureClient (S n) (fst (EnsureClient n new_env))).
Definition connected (n : nat) : Prop :=
  snd (EnsureClient n new_env) = None /\ snd (EnsureClient (S n) (fst (EnsureClient n new_env))) = None.

#[global] Instance connected_dec n : Decision (connected n).
Proof. unfold connected. destruct (snd (EnsureClient n new_env)), (snd (EnsureClient (S n) _)); solve [left; done|right; naive_solver]. Defined.

Lemma connected_ready n : connected n -> ready (environment n).
Proof.
  intros [_ H2]. unfold environment in *. destruct (EnsureClient (S n) _) as [env' o] eqn:E. simpl in *. subst o.
  by eapply EnsureClient_ready.
Qed.

(** *** The platform *)

(** What the detection of the platform finds without an error: what the user said,
    or what the cluster answered. *)
Definition platform_found (n : nat) (user p : platform.Platform) : Prop :=
  connected n /\ p <> platform.Unknown /\
  (user = p \/ user = platform.Unknown /\ PlatformFromEnv (environment n) = Ret (p, None)).

Lemma FindPlatform_spec n user :
  exists info why err, FindPlatform n user = Ret (info, why, err) /\
    match err with
    | None => exists p, pli_Discovered info = Some p /\ platform_found n user p
    | Some _ => pli_Discovered info = Some platform.Unknown \/
                pli_Discovered info = None /\ snd (EnsureClient n new_env) = err
    end.
Proof.
  unfold FindPlatform, FindPlatformFromEnv, platform_found, connected, environment.
  pose proof (connected_ready n) as Hready. unfold connected, environment in Hready.
  destruct (EnsureClient n new_env) as [env [err|]]; [do 3 eexists; split; [reflexivity|]; by right|].
  simpl in *. destruct (EnsureClient (S n) env) as [env' [err|]]; [do 3 eexists; split; [reflexivity|]; by left|].
  simpl in *. case_decide as Hu.
  - do 3 eexists. split; [reflexivity|]. simpl. eexists. split_and!; try done. by left.
  - destruct (PlatformFromEnv_returns env') as (p & err & E & Hp); [by apply Hready|]. rewrite E. simpl.
    destruct err as [err|]; do 3 eexists; (split; [reflexivity|]); [by left|].
    simpl. eexists. split_and!; try done; [by apply Hp|]. right. done.
Qed.

(** *** The version *)

Definition version_found (n : nat) (plat : option platform.Platform) (user v : string) : Prop :=
  connected n /\ version_Parse v = None /\
  (user = v \/ user = MissingVersion /\ VersionFromEnv (environment n) plat = Ret (v, None)).

Lemma FindVersion_spec n plat user :
  version_Parse user = None \/ user = MissingVersion ->
  exists info why err, FindVersion n plat user = Ret (info, why, err) /\
    match err with
    | None => version_found n plat user (vi_Discovered info)
    | Some _ => vi_Discovered info = MissingVersion
    end.
Proof.
  intros Huser. unfold FindVersion, FindVersionFromEnv, version_found, connected, environment.
  pose proof (connected_ready n) as Hready. unfold connected, environment in Hready.
  destruct (EnsureClient n new_env) as [env [err|]]; [do 3 eexists; (split; [reflexivity|]); done|].
  simpl in *. destruct (EnsureClient (S n) env) as [env' [err|]]; [do 3 eexists; (split; [reflexivity|]); done|].
  simpl in *. case_decide as Hu.
  - do 3 eexists. split; [reflexivity|]. simpl. split_and!; try done; [by destruct Huser|by left].
  - destruct (VersionFromEnv_returns env' plat) as (v & err & E & Hv); [by apply Hready|]. rewrite E. simpl.
    destruct err as [err|]; do 3 eexists; (split; [reflexivity|]); [done|].
    simpl. split_and!; try done; [by apply Hv|]. right. done.
Qed.

(** *** The cluster *)

(** The version the user gave, when it is one. *)
Definition user_version (platformVersion : string) : string := fst (ParseVersion platformVersion).
Definition user_platform (platformName : string) : platform.Platform := fst (ParsePlatform platformName).

Lemma user_version_ok v : version_Parse (user_version v) = None \/ user_version v = MissingVersion.
Proof. unfold user_version, ParseVersion. destruct (version_Parse v) eqn:?; [by right|by left]. Qed.

(** C23: Discovering the cluster returns. Next to an error there is no version. Without
    one, the long version parses and is the one the user gave or the one the cluster
    answered, the short one is what [Minimize] makes of it and parses too, and the
    platform is the one the user gave or the one the cluster answered, never unknown;
    or, because the result of a failed detection is not the unknown platform, it is
    no platform at all, the first connection having failed and a later one not. *)
Theorem DiscoverCluster_spec platformName platformVersion :
  version_Parse "" <> None ->
  exists r err, DiscoverCluster platformName platformVersion = Ret (r, err) /\
    match err with
    | Some _ => dr_LongVersion r = MissingVersion
    | None =>
        version_found 2 (dr_Platform r) (user_version platformVersion) (dr_LongVersion r) /\
        dr_ShortVersion r = Minimize (dr_LongVersion r) /\ version_Parse (dr_ShortVersion r) = None /\
        match dr_Platform r with
        | Some p => platform_found 0 (user_platform platformName) p
        | None => is_Some (snd (EnsureClient 0 new_env))
        end
    end.
Proof.
  intros Hempty. unfold DiscoverCluster, user_platform. pose proof (user_version_ok platformVersion) as Huser.
  unfold user_version in *. destruct (ParsePlatform platformName) as [up ok]. destruct (ParseVersion platformVersion) as [uv verr].
  simpl in *. destruct (FindPlatform_spec 0 up) as (info & why & err & -> & Hplat). simpl.
  case_decide as Hunknown.
  { destruct err as [err|]; [by do 2 eexists|]. destruct Hplat as (p & Hp & _ & Hne & _). congruence. }
  destruct (FindVersion_spec 2 (pli_Discovered info) uv Huser) as (vinfo & vwhy & verr' & -> & Hver). simpl.
  destruct verr' as [verr'|].
  { rewrite Hver. rewrite decide_True by done. do 2 eexists. split; [reflexivity|]. done. }
  destruct Hver as (Hc & Hparse & Hwho). rewrite decide_False by (intros E; rewrite E in Hparse; done).
  do 2 eexists. split; [reflexivity|]. simpl. split_and!; [done|done|by apply Minimize_parses|].
  destruct err as [err|]; [|by destruct Hplat as (p & -> & Hp)].
  destruct Hplat as [Hu|[-> Herr]]; [done|]. rewrite Herr. by eexists.
Qed.
End Discovery.

(** ** The command line *)

Section CommandLine.
Context (library_flag : string -> option bool) (library_takes : string -> string -> bool).

Definition print_flag (f : string * string) : string := "--" +:+ fst f +:+ "=" +:+ snd f.

(** A flag the program defines, with a value it takes. *)
Definition well_set (f : string * string) : Prop :=
  exists k, kind_of_flag (fst f) = Some k /\ flag_takes k (snd f) = true.

Lemma kind_of_flag_name name k : kind_of_flag name = Some k -> name ∈ fst <$> flag_kinds.
Proof.
  unfold kind_of_flag. destruct (list_find _ _) as [[i f]|] eqn:E; [|done]. intros _.
  apply list_find_Some in E as (Hi & <- & _). apply list_elem_of_fmap. exists f. split; [done|]. by eapply list_elem_of_lookup_2.
Qed.

Lemma classify_print f : is_Some (kind_of_flag (fst f)) -> classify (print_flag f) = AFlag (fst f) (Some (snd f)).
Proof.
  destruct f as [name v]. intros [k Hk%kind_of_flag_name]. simpl in Hk. unfold print_flag. simpl fst. simpl snd.
  repeat (apply elem_of_cons in Hk as [->|Hk]; [reflexivity|]). by apply elem_of_nil in Hk.
Qed.

(** Flags printed one by one parse back to themselves: what the program defines
    and takes is set, in the order given. *)
Theorem Parse_roundtrip set acc :
  Forall well_set set -> Parse (flag_formal library_flag library_takes) (print_flag <$> set) acc = inl (acc ++ set).
Proof.
  intros Hset. revert acc. induction Hset as [|f set (k & Hk & Ht) _ IH]; intros acc; [by rewrite app_nil_r|].
  rewrite fmap_cons. cbn [Parse]. rewrite classify_print by (by eexists). unfold flag_formal at 1. rewrite Hk.
  destruct f as [name v], k; simpl in *; rewrite ?Ht; by rewrite IH, <-app_assoc.
Qed.
End CommandLine.

Lemma Parse_roundtrip_witness :
  let set := [("webhook-port", "0x24E3"); ("enable-metrics", "f"); ("handle-lifecycle-event", "preStop")] in
  Parse (flag_formal (fun _ => None) (fun _ _ => true)) (print_flag <$> set) [] = inl ([] ++ set).
Proof.
  apply (Parse_roundtrip (fun _ => None) (fun _ _ => true)). repeat constructor; (eexists; split; [reflexivity|]); vm_compute; reflexivity.
Defined.

(** ** The process *)

Section Process.
Context `{Assets, !DetectLib, !MainLib, !YamlLib} (lookupEnv : string -> option string).
Context (library_flag : string -> option bool) (library_takes : string -> string -> bool).

(** The parameters of a command line that asks for none of the modes that print and
    exit. *)
Definition serves (params : Params) : Prop :=
  p_showVersion params = false /\ p_inspectFeatures params = false /\ p_handleEvent params = lifecycleEventNone /\
  p_detectPlatformOnly params = false /\ p_renderMode params = false.

Definition install_namespace : string := default defaultNamespace (lookupEnv "NAMESPACE").

(** What runs agrees with the command line, the environment and the cluster, and the
    manifests of both controllers are what their theorems assume. *)
Record running_ok (params : Params) (plat : platform.Platform) (run : Running) : Prop := {
  rn_platform : r_Platform (run_Operator run) = plat /\ kr_Platform (run_Kubelet run) = plat;
  rn_namespace :
    r_Namespace (run_Operator run) = install_namespace /\ kr_Namespace (run_Kubelet run) = install_namespace /\
    mo_CacheNamespaces (run_Options run) = [install_namespace] /\
    mo_LeaderElectionNamespace (run_Options run) = install_namespace;
  rn_manifests : manifests_ok (run_Operator run);
  rn_scheduler :
    match run_Scheduler run with
    | Some sr => p_enableScheduler params = true /\ sched_ok (sr_SchedulerManifests sr) /\
                 sr_Namespace sr = install_namespace /\ pi_Platform (sr_PlatformInfo sr) = plat /\
                 sr_TLSSettings sr = r_RTEMetricsTLS (run_Operator run)
    | None => p_enableScheduler params = false
    end;
  rn_metrics : p_enableMetrics params = false -> mo_MetricsBindAddress (run_Options run) = "0";
  rn_config_maps : is_Some (mo_ConfigMapNamespaces (run_Options run)) <-> plat = platform.HyperShift }.

#[local] Ltac run_inv H :=
  repeat match type of H with
  | go_bind ?m _ = Ret _ => destruct m eqn:?; cbn [go_bind] in H; [|discriminate H]
  | (match ?m with _ => _ end) = Ret _ => destruct m eqn:?; try discriminate H
  | Ret (match ?m with _ => _ end) = Ret (Ran _ _) => destruct m eqn:?; discriminate H
  | Ret (exited _) = Ret _ => unfold exited in H; discriminate H
  end.

Lemma Discover_images getPod specPath user imgs pullPolicy :
  Discover getPod lookupEnv specPath user = Ret (imgs, pullPolicy) ->
  exists self, imgs = mkImagesData user self specPath.
Proof.
  unfold Discover. destruct (GetCurrentImage getPod lookupEnv) as [[[image policy] err]|]; simpl; [|done].
  intros [= <- _]. by eexists.
Qed.

(** Loading and rendering for an OpenShift platform succeeds. *)
Lemma operator_ready plat ver namespace mf crd metrics imgs :
  assets_ok ver -> is_ocp plat = true -> img_Builtin imgs <> "" ->
  GetManifests plat ver namespace false true = inl mf -> api_GetManifests plat = inl crd ->
  metrics_GetManifests namespace = inl metrics ->
  exists rendered, renderRTEManifests lookupEnv mf namespace imgs = Ret (rendered, None) /\
    forall pullPolicy forward overridable tls,
      manifests_ok (mkReconciler plat (am_Crd crd) (rte_state_manifests rendered metrics) namespace imgs
                      pullPolicy forward overridable tls).
Proof.
  intros Ha Hocp Hi Hmf Hcrd Hmetrics.
  destruct (GetManifests_ok plat ver namespace Ha Hocp) as (mf' & E & Hok & _). rewrite Hmf in E. injection E as <-.
  destruct (metrics_Service_ok ver namespace Ha) as (service & E & Hs & Ks). unfold metrics_GetManifests in Hmetrics.
  rewrite Hmetrics in E. injection E as <-.
  destruct (APICRD_ok ver Ha) as (crd' & E & Hc & Kc). unfold api_GetManifests, api_NewWithOptions in Hcrd.
  rewrite E in Hcrd. injection Hcrd as <-.
  destruct (renderRTEManifests_ok lookupEnv mf namespace imgs Hok (or_intror Hi)) as (rendered & Hr & Hrok & _).
  exists rendered. split; [done|]. intros pullPolicy forward overridable tls.
  destruct (sched_GetManifests_ok ver namespace Ha) as (sched & _ & _).
  by apply (rte_ok_manifests plat crd' rendered metrics namespace pullPolicy imgs forward overridable tls sched).
Qed.

Lemma setup_scheduler_ok ver params cluster plat namespace tls sched :
  assets_ok ver -> setup_scheduler lookupEnv params cluster plat namespace tls = inl sched ->
  match sched with
  | Some sr => p_enableScheduler params = true /\ sched_ok (sr_SchedulerManifests sr) /\
               sr_Namespace sr = namespace /\ pi_Platform (sr_PlatformInfo sr) = plat /\ sr_TLSSettings sr = tls
  | None => p_enableScheduler params = false
  end.
Proof.
  intros Ha. unfold setup_scheduler. destruct (p_enableScheduler params); [|by intros [= <-]].
  destruct (sched_GetManifests_ok ver namespace Ha) as (mf & -> & Hmf). cbn [sum_bind].
  destruct (attempt SetupScheduler); [done|]. by intros [= <-].
Qed.

Lemma cache_namespaces params plat namespace tls :
  let opts := manager_options params plat namespace tls in
  mo_CacheNamespaces opts = [namespace] /\ mo_LeaderElectionNamespace opts = namespace /\
  mo_MetricsBindAddress opts = p_metricsAddr params /\
  (is_Some (mo_ConfigMapNamespaces opts) <-> plat = platform.HyperShift).
Proof.
  unfold manager_options, cache_options. simpl. split_and!; try done.
  case_decide; split; [done|by eexists|by intros [? ?]|done].
Qed.

(** The controller of the kubelet configurations is for no object off OpenShift, and
    then cannot be built. *)
Lemma kc_watched_ocp plat :
  builder_Complete None <> None -> builder_Complete (kc_watched plat) = None -> is_ocp plat = true.
Proof. by destruct plat. Qed.

Lemma main_load_runs params cluster run code :
  assets_ok (dr_ShortVersion cluster) -> spec_path <> "" -> builder_Complete None <> None ->
  (p_enableMetrics params = false -> p_metricsAddr params = "0") ->
  main_load lookupEnv params cluster = Ret (Ran run code) ->
  exists plat, dr_Platform cluster = Some plat /\ is_ocp plat = true /\ p_renderMode params = false /\
    running_ok params plat run.
Proof.
  intros Ha Hspec Hbuilder Hmetrics. unfold main_load, main_serve. intros Hrun. run_inv Hrun.
  match type of Hrun with Ret (Ran ?r _) = _ => assert (run = r) as -> by congruence end.
  match goal with Hk : builder_Complete _ = None |- _ => apply kc_watched_ocp in Hk as Hocp; [|done] end.
  destruct (dr_Platform cluster) as [plat|]; [|done]. exists plat. unfold branch_platform in *. simpl in *.
  match goal with Hd : Discover _ _ _ _ = Ret _ |- _ => apply Discover_images in Hd as [self ->] end.
  unfold install_namespace in *.
  match goal with Hr : renderRTEManifests _ ?mf _ ?imgs = _, Hc : api_GetManifests _ = inl ?crd,
      Hm : metrics_GetManifests _ = inl ?metrics |- _ =>
    destruct (operator_ready plat (dr_ShortVersion cluster) (default defaultNamespace (lookupEnv "NAMESPACE")) mf crd metrics imgs)
      as (rendered & E & Hman); [done..|]; rewrite E in Hr; injection Hr as <- end.
  match goal with Hs : setup_scheduler _ _ _ _ _ _ = _ |- _ => apply (setup_scheduler_ok _ _ _ _ _ _ _ Ha) in Hs as Hsched end.
  destruct (cache_namespaces params plat (default defaultNamespace (lookupEnv "NAMESPACE")) t) as (Hc & Hl & Hm & Hcm).
  split_and!; try done. split; try done. apply Hman.
Qed.

Lemma FromFlags_metrics set :
  p_enableMetrics (FromFlags default_params set) = false -> p_metricsAddr (FromFlags default_params set) = "0".
Proof. simpl. by intros ->. Qed.

(** C6: The manager runs only when the command line is well formed and asks for none
    of the modes that print and exit, on a cluster that was discovered and is OpenShift
    or HyperShift: elsewhere the controller of the kubelet configurations has no type
    to watch and the program exits. What runs agrees on platform and namespace, and the
    manifests of both controllers satisfy the invariants their theorems assume. *)
Theorem main_runs args run code :
  (forall set cluster, Parse (flag_formal library_flag library_takes) args [] = inl set ->
     DiscoverCluster (p_platformName (FromFlags default_params set)) (p_platformVersion (FromFlags default_params set))
       = Ret (cluster, None) -> assets_ok (dr_ShortVersion cluster)) ->
  spec_path <> "" -> builder_Complete None <> None ->
  main lookupEnv library_flag library_takes args = Ret (Ran run code) ->
  exists set cluster plat, let params := FromFlags default_params set in
    Parse (flag_formal library_flag library_takes) args [] = inl set /\ serves params /\
    DiscoverCluster (p_platformName params) (p_platformVersion params) = Ret (cluster, None) /\
    dr_Platform cluster = Some plat /\ is_ocp plat = true /\ running_ok params plat run.
Proof.
  intros Hassets Hspec Hbuilder. unfold main, main_run, manageIntrospection.
  destruct (Parse _ args []) as [set|]; [|done]. specialize (Hassets set). intros Hrun.
  pose proof (FromFlags_metrics set) as Hmetrics. unfold serves. remember (FromFlags default_params set) as params eqn:Hparams.
  run_inv Hrun. simplify_eq.
  match goal with Hd : DiscoverCluster _ _ = Ret (?c, None) |- _ => pose proof (Hassets c eq_refl ltac:(by subst)) as Ha; exists set, c end.
  apply main_load_runs in Hrun as (plat & Hp & Hocp & Hrender & Hrok); [|done..].
  exists plat. split_and!; try done. by apply dec_stable.
Qed.

(** C7: Asked for none of the modes that print and exit, on OpenShift or HyperShift, and
    when no library call fails, the program starts the manager, and exits with status 0
    when the manager stops. *)
Theorem main_starts args set cluster plat imgs pullPolicy :
  let params := FromFlags default_params set in
  Parse (flag_formal library_flag library_takes) args [] = inl set -> serves params ->
  DiscoverCluster (p_platformName params) (p_platformVersion params) = Ret (cluster, None) ->
  dr_Platform cluster = Some plat -> is_ocp plat = true -> assets_ok (dr_ShortVersion cluster) -> spec_path <> "" ->
  Discover getPod_client lookupEnv spec_path (p_image_Exporter params) = Ret (imgs, pullPolicy) ->
  (forall s, attempt s = None) -> (forall o, builder_Complete (Some o) = None) ->
  (exists profile, FetchAPIServerTLSProfile = inl profile /\ is_ret (TLSVersionToNameOrDie (tc_MinVersion (profile emptyTLSConfig)))) ->
  exists run, main lookupEnv library_flag library_takes args = Ret (Ran run 0) /\ r_Images (run_Operator run) = imgs.
Proof.
  intros params Hparse (Hversion & Hinspect & Hevent & Hdetect & Hrender) Hd Hplat Hocp Ha Hspec Himg Hsteps Hbuilder (profile & Htls & [minVersion Hmin]).
  unfold main, main_run. rewrite Hparse. subst params. rewrite Hversion, Hinspect, Hsteps. rewrite decide_False by (by intros []).
  rewrite Hd. cbn [go_bind]. rewrite Hdetect. unfold main_load. rewrite Hplat, Hrender. cbn [branch_platform default].
  destruct (APICRD_ok _ Ha) as (crd & Hcrd & _). destruct (GetManifests_ok plat _ install_namespace Ha Hocp) as (mf & Hmf & _).
  destruct (metrics_Service_ok _ install_namespace Ha) as (metrics & Hm & _).
  assert (api_GetManifests plat = inl (mkApiManifests crd plat)) as Happ
    by (unfold api_GetManifests, api_NewWithOptions; by rewrite Hcrd).
  apply Discover_images in Himg as Hi. destruct Hi as [self ->].
  destruct (operator_ready plat (dr_ShortVersion cluster) install_namespace mf (mkApiManifests crd plat) metrics
              (mkImagesData (p_image_Exporter (FromFlags default_params set)) self spec_path)) as (rendered & Hr & _); try done.
  change (metrics_GetManifests install_namespace = inl metrics) in Hm. unfold install_namespace in *.
  simpl. rewrite Happ. cbn [branch_platform]. rewrite Hmf, Hm. unfold main_serve. rewrite !Hsteps, Htls. unfold NewSettings.
  rewrite Hmin. cbn [go_bind]. rewrite Himg. cbn [go_bind]. rewrite Hr. cbn [go_bind].
  assert (builder_Complete (kc_watched plat) = None) as -> by (destruct plat; simpl in *; by first [apply Hbuilder|done]).
  unfold setup_scheduler, setup_webhooks. destruct (sched_GetManifests_ok _ (default defaultNamespace (lookupEnv "NAMESPACE")) Ha) as (smf & -> & _).
  rewrite !Hsteps. destruct (p_enableScheduler _), (p_enableWebhooks _); simpl; eexists; split; reflexivity.
Qed.
End Process.

(** ** A concrete start *)

Module start.

#[local] Existing Instance embedded.assets.
#[local] Existing Instance sched_scenario.yaml.

(** An OpenShift cluster, whose clients can be built when [up] says so. *)
Definition clients : OCPClientSet :=
  mkOCPClientSet (fun name => if decide (name = "openshift-apiserver") then inl ["4.20-rc.1"] else inr (NewNotFound name))
    (inl ["version"]) (fun name => inl "HighlyAvailable").

Definition detect (up : nat -> bool) : DetectLib := {|
  DeployerEnvironment := unit;
  deployer_new := ();
  deployer_EnsureClient n env := (env, if up n then None else Some (ErrNew "connection refused"));
  deployer_GetControlPlane _ := inl ["master-0"];
  NewDiscoveryClient _ := inl (inl "v1.33");
  NewOCPClientSet _ := inl clients |}.

Definition reachable : DetectLib := detect (fun _ => true).

Definition operator_pod : ImagePod :=
  mkImagePod "openshift-numaresources" "operator-0"
    (mkPodSpec None [] [embedded.container "manager" "quay.io/nro:1" [] [] [] []] [] None [] "" [] "" "") [].

#[global] Instance main_lib : MainLib := {|
  attempt _ := None;
  FetchAPIServerTLSProfile := inl (fun c => mkTLSConfig 771 [49195%Z] [] (tc_NextProtos c));
  CipherSuiteName _ := "TLS_ECDHE_ECDSA_WITH_AES_128_GCM_SHA256";
  TLSVersionToNameOrDie _ := Ret "VersionTLS12";
  builder_Complete o := match o with Some _ => None | None => Some (ErrNew "Owns() can only be used together with For()") end;
  getPod_client := inl (fun _ _ => inl (Some operator_pod));
  encode_features := inl "{}";
  build_info := mkBuildInfo "devel" "4.20" "abc";
  go_version := "go1.24";
  spec_path := SpecPath "quay.io/openshift-kni" "numaresources-operator" "devel";
  builtin_digests := schedulerapi.mkDigests [] "" "";
  sha256 s := s |}.

Definition env (name : string) : option string :=
  if decide (name = "NAMESPACE") then Some "openshift-numaresources"
  else if decide (name = "PODNAME") then Some "operator-0" else None.

Definition no_flag (_ : string) : option bool := None.
Definition takes_all (_ _ : string) : bool := true.
Definition args : list string := ["--metrics-bind-address=:8081"; "-enable-http2"; "--image-exporter"; "quay.io/rte:1"].
End start.

#[local] Existing Instance embedded.assets.
#[local] Existing Instance sched_scenario.yaml.

(** The first connection fails, the second does not: a version of Kubernetes, no
    platform, and no error. *)
Example DiscoverCluster_no_platform :
  DiscoverCluster (H := start.detect (fun n => bool_decide (n <> 0))) "OpenShift" ""
  = Ret (mkDiscoverResult None "v1.33" "v1.33", None).
Proof. vm_compute. reflexivity. Qed.

#[local] Existing Instance start.reachable.

Lemma start_parse :
  Parse (flag_formal start.no_flag start.takes_all) start.args []
  = inl [("metrics-bind-address", ":8081"); ("enable-http2", "true"); ("image-exporter", "quay.io/rte:1")].
Proof. vm_compute. reflexivity. Qed.

Definition start_set : list (string * string) :=
  [("metrics-bind-address", ":8081"); ("enable-http2", "true"); ("image-exporter", "quay.io/rte:1")].
Definition start_cluster : DiscoverResult := mkDiscoverResult (Some platform.OpenShift) "4.20" "4.20-rc.1".

Lemma start_discover :
  DiscoverCluster "" "" = Ret (start_cluster, None).
Proof. vm_compute. reflexivity. Qed.

Lemma DiscoverCluster_spec_witness :
  exists r err, DiscoverCluster "" "4.18.1-0.ci" = Ret (r, err) /\
    match err with
    | Some _ => dr_LongVersion r = MissingVersion
    | None =>
        version_found 2 (dr_Platform r) (user_version "4.18.1-0.ci") (dr_LongVersion r) /\
        dr_ShortVersion r = Minimize (dr_LongVersion r) /\ version_Parse (dr_ShortVersion r) = None /\
        match dr_Platform r with
        | Some p => platform_found 0 (user_platform "") p
        | None => is_Some (snd (EnsureClient 0 new_env))
        end
    end.
Proof. apply (DiscoverCluster_spec "" "4.18.1-0.ci"). vm_compute. discriminate. Defined.

Lemma main_starts_witness :
  exists run, main start.env start.no_flag start.takes_all start.args = Ret (Ran run 0) /\
    r_Images (run_Operator run) = mkImagesData "quay.io/rte:1" "quay.io/nro:1" spec_path.
Proof.
  apply (main_starts start.env start.no_flag start.takes_all start.args start_set start_cluster
           platform.OpenShift _ "").
  - exact start_parse.
  - split_and!; reflexivity.
  - exact start_discover.
  - reflexivity.
  - reflexivity.
  - exact embedded_ok.
  - vm_compute. discriminate.
  - vm_compute. reflexivity.
  - reflexivity.
  - reflexivity.
  - eexists. split; [reflexivity|]. by eexists.
Defined.

Lemma start_runs :
  exists run, main start.env start.no_flag start.takes_all start.args = Ret (Ran run 0).
Proof. eexists. vm_compute. reflexivity. Qed.

Lemma main_runs_witness :
  exists run set cluster plat, let params := FromFlags default_params set in
    Parse (flag_formal start.no_flag start.takes_all) start.args [] = inl set /\ serves params /\
    DiscoverCluster (p_platformName params) (p_platformVersion params) = Ret (cluster, None) /\
    dr_Platform cluster = Some plat /\ is_ocp plat = true /\ running_ok start.env params plat run.
Proof.
  destruct start_runs as [run Hrun]. exists run.
  apply (main_runs start.env start.no_flag start.takes_all start.args run 0).
  - intros set cluster Hp Hd. rewrite start_parse in Hp. injection Hp as <-.
    change (DiscoverCluster "" "" = Ret (cluster, None)) in Hd.
    rewrite start_discover in Hd. injection Hd as <-. exact embedded_ok.
  - vm_compute. discriminate.
  - vm_compute. discriminate.
  - exact Hrun.
Defined.
