(* ===== verification/Resources.v ===== *)
(** * Quantities of resources (internal/resourcelist, internal/baseload,
    internal/noderesourcetopology, internal/wait)

    What the suite of the project computes on resources and on the topologies the
    exporters publish: sums of requests, the load of a node, when two topologies are
    the same, when they have settled. The quantities of the API machinery are an
    interface, whose laws read them as exact multiples of a nano-unit.

    Where the code ranges over a map, the order is a parameter. *)
From S2P Require Import Prelude GoErrors Meta Workload Detect.

(** ** Quantities *)

Definition int64_wrap (z : Z) : Z := ((z + 2 ^ 63) mod 2 ^ 64 - 2 ^ 63)%Z.

Class Quantities := {
  Quantity : Type;
  q_zero : Quantity;
  q_Add : Quantity -> Quantity -> Quantity;
  q_Sub : Quantity -> Quantity -> Quantity;
  q_Cmp : Quantity -> Quantity -> Z;
  q_Equal : Quantity -> Quantity -> bool;
  q_Value : Quantity -> Z;
  q_MilliValue : Quantity -> Z;
  q_AsInt64 : Quantity -> Z * bool;
  q_RoundUp : Z -> Quantity -> Quantity;
    (** rounding up to a power of ten *)
  NewQuantity : Z -> Quantity;
  q_String : Quantity -> string;
  q_verbs : Quantity -> string;
    (** the [%v] text *)
}.

Notation nanos := (10 ^ 9)%Z (only parsing).

Class QuantityLaws `{Quantities} := {
  nano : Quantity -> Z;
  nano_zero : nano q_zero = 0%Z;
  nano_Add q y : nano (q_Add q y) = (nano q + nano y)%Z;
  nano_Sub q y : nano (q_Sub q y) = (nano q - nano y)%Z;
  q_Cmp_spec q y : q_Cmp q y = Z.sgn (nano q - nano y);
  q_Equal_spec q y : q_Equal q y = true <-> nano q = nano y;
  q_Value_spec q : (0 <= nano q <= (2 ^ 63 - 1) * nanos)%Z -> q_Value q = (- (- nano q / nanos))%Z;
  q_RoundUp_spec s q : (0 <= s)%Z -> (0 <= nano q)%Z ->
    nano (q_RoundUp s q) = (- (- nano q / (nanos * 10 ^ s)) * (nanos * 10 ^ s))%Z;
  NewQuantity_spec v : nano (NewQuantity v) = (v * nanos)%Z;
}.

(** [resource.Giga] *)
Definition Giga : Z := 9.

Definition ResourceCPU : string := "cpu".
Definition ResourceMemory : string := "memory".
Definition ResourceStorage : string := "storage".
Definition ResourceEphemeralStorage : string := "ephemeral-storage".

Section Resources.
Context `{Quantities}.

(** A list of resources is a map from names to quantities; reading a name that is not
    there gives the zero quantity. *)
Notation ResourceList := (gmap string Quantity).

Definition rl_get (rl : ResourceList) (name : string) : Quantity := default q_zero (rl !! name).

Context (range_map : ResourceList -> list (string * Quantity)).

(** ** Lists of resources (internal/resourcelist) *)

Definition rl_ToString (res : ResourceList) : string :=
  let resNames := stable_sort String.leb (fst <$> range_map res) in
  str_join ", " ((fun name => name +:+ "=" +:+ q_String (rl_get res name)) <$> resNames).

(** [qty := res[name]; qty.Add(q); res[name] = qty] *)
Definition add_qty (res : ResourceList) (r : string * Quantity) : ResourceList :=
  <[fst r := q_Add (rl_get res (fst r)) (snd r)]> res.

Definition AddInPlace (res resToAdd : ResourceList) : ResourceList := fold_left add_qty (range_map resToAdd) res.

(** The limits and the requests of containers, as lists of resources. *)
Definition FromContainerLimits (limits : list ResourceList) : ResourceList :=
  fold_left (fun res l => fold_left add_qty (range_map l) res) limits ∅.
Definition FromContainerRequests (requests : list ResourceList) : ResourceList :=
  fold_left (fun res r => fold_left add_qty (range_map r) res) requests ∅.
Definition FromGuaranteedPod (limits : list ResourceList) : ResourceList := FromContainerLimits limits.

(** The limits of one replica, added once for every other one. The number of the
    replicas is read for every resource. *)
Definition FromReplicaSet (limits : list ResourceList) (replicas : option Z) : go ResourceList :=
  go_fold (fun rl r =>
             let! n := deref "Replicas" replicas in
             Ret (<[fst r := Nat.iter (Z.to_nat (n - 1)) (fun q => q_Add q (snd r)) (snd r)]> rl))
    (FromContainerLimits limits) (range_map (FromContainerLimits limits)).

(** What is subtracted before a failure stays subtracted. *)
Fixpoint sub_all (res : ResourceList) (resToSub : list (string * Quantity)) : ResourceList * option error :=
  match resToSub with
  | [] => (res, None)
  | (name, q) :: rest =>
      if (0 <? q_Cmp q (rl_get res name))%Z
      then (res, Some (ErrNew ("cannot subtract resource " +:+ quote name
                               +:+ " because it is not found in the current resources")))
      else sub_all (<[name := q_Sub (rl_get res name) q]> res) rest
  end.
Definition SubInPlace (res resToSub : ResourceList) : ResourceList * option error := sub_all res (range_map resToSub).

Definition AllowAll (_ : string) (_ : Quantity) : bool := true.

(** Storage is never exclusive, and a cpu only in whole. *)
Definition FilterExclusive (resName : string) (resQty : Quantity) : bool :=
  if decide (resName = ResourceEphemeralStorage \/ resName = ResourceStorage) then false
  else if decide (resName = ResourceCPU) then negb (0 <? Z.rem (q_MilliValue resQty) 1000)%Z
  else true.

Definition Accumulate (ress : list ResourceList) (filterFunc : string -> Quantity -> bool) : ResourceList :=
  fold_left (fun ret rr => fold_left (fun ret r => if filterFunc (fst r) (snd r) then add_qty ret r else ret)
                             (range_map rr) ret) ress ∅.

Definition rl_Equal (ra rb : ResourceList) : bool :=
  bool_decide (size ra = size rb) &&
  forallb (fun r => match rb !! fst r with Some valB => q_Equal (snd r) valB | None => false end) (range_map ra).

(** On int64: sums and products wrap around, and the quotient truncates. *)
Definition roundUp (num multiple : Z) : Z :=
  int64_wrap (int64_wrap (Z.quot (int64_wrap (int64_wrap (num + multiple) - 1)) multiple) * multiple).

(** An even number of cpus, and the memory up to 10^9. *)
Definition RoundUpCoreResources (cpu mem : Quantity) : Quantity * Quantity :=
  (NewQuantity (roundUp (q_Value cpu) 2), q_RoundUp Giga mem).

(** The names are those of the first list. *)
Definition higher (ret rl : ResourceList) : ResourceList :=
  fold_left (fun tmp r => let curQty := rl_get rl (fst r) in
                          if (0 <? q_Cmp curQty (snd r))%Z then <[fst r := curQty]> tmp else tmp)
    (range_map ret) ret.
Definition Highest (rls : list ResourceList) : ResourceList :=
  match rls with
  | [] => ∅
  | rl :: rest => fold_left higher rest rl
  end.

(** ** The load of a node (internal/baseload) *)

Record Load := mkLoad { ld_Name : string; ld_Resources : ResourceList }.

Definition ld_Round (nl : Load) : Load :=
  let '(cpu, mem) := RoundUpCoreResources (rl_get (ld_Resources nl) ResourceCPU) (rl_get (ld_Resources nl) ResourceMemory) in
  mkLoad (ld_Name nl) (<[ResourceMemory := mem]> (<[ResourceCPU := cpu]> (ld_Resources nl))).

(** The requests of the containers of every pod; init containers are left out. *)
Definition FromPods (nodeName : string) (pods : list (list ResourceList)) : Load :=
  ld_Round (mkLoad nodeName
    (fold_left (fun res pod => fold_left (fun res requests => fold_left add_qty (range_map requests) res) pod res) pods ∅)).

(** The listing of the pods of the node is given. *)
Definition ForNode (onNode : string -> list (list ResourceList) + error) (nodeName : string) : Load * option error :=
  match onNode nodeName with
  | inr err => (mkLoad nodeName ∅, Some err)
  | inl pods => (FromPods nodeName pods, None)
  end.

Definition ld_AddTo (nl : Load) (res : ResourceList) : ResourceList := AddInPlace res (ld_Resources nl).
Definition ld_SubtractFrom (nl : Load) (res : ResourceList) : ResourceList * option error := SubInPlace res (ld_Resources nl).
Definition ld_CPU (nl : Load) : Quantity := rl_get (ld_Resources nl) ResourceCPU.
Definition ld_Memory (nl : Load) : Quantity := rl_get (ld_Resources nl) ResourceMemory.
Definition ld_String (nl : Load) : string :=
  "load for node " +:+ quote (ld_Name nl) +:+ ": " +:+ rl_ToString (ld_Resources nl).

(** ** Topologies (internal/noderesourcetopology) *)

Record ResourceInfo := mkResourceInfo {
  ri_Name : string; ri_Capacity : Quantity; ri_Allocatable : Quantity; ri_Available : Quantity }.
Record Zone := mkZone { z_Name : string; z_Type : string; z_Resources : list ResourceInfo }.
Record NodeResourceTopology := mkNodeResourceTopology {
  nrt_Name : string; nrt_ResourceVersion : string; nrt_Attributes : list (string * string); nrt_Zones : list Zone }.

(** [sort.Slice] by name, which does not say how equal names are placed: a stable
    order is one of those it may give. *)
Definition SortedZoneList (data : list Zone) : list Zone := stable_sort (fun a b => String.leb (z_Name a) (z_Name b)) data.
Definition SortedResourceInfoList (data : list ResourceInfo) : list ResourceInfo :=
  stable_sort (fun a b => String.leb (ri_Name a) (ri_Name b)) data.

(** *** Printing (tostring.go) *)

Definition ResourceInfoToString (r : ResourceInfo) : string :=
  ri_Name r +:+ "=" +:+ q_String (ri_Capacity r) +:+ "/" +:+ q_String (ri_Allocatable r) +:+ "/" +:+ q_String (ri_Available r).
Definition ResourceInfoListToString (l : list ResourceInfo) : string :=
  str_join "," (ResourceInfoToString <$> SortedResourceInfoList l).
Definition ZoneToString (z : Zone) : string :=
  let or_else (s dflt : string) := if decide (s = "") then dflt else s in
  or_else (z_Name z) "<MISSING>" +:+ " [" +:+ or_else (z_Type z) "N/A" +:+ "]: "
  +:+ or_else (ResourceInfoListToString (z_Resources z)) "N/A".

(** [attribute.Get] of the topology API: the value of the first attribute of the name. *)
Definition attribute_Get (attrs : list (string * string)) (name : string) : option string :=
  snd ∘ snd <$> list_find (fun a => fst a = name) attrs.

Definition newline : string := String (Ascii.ascii_of_nat 10) "".

Definition nrt_ToString (nrt : NodeResourceTopology) : string :=
  (if decide (nrt_Name nrt = "") then "<MISSING>" else nrt_Name nrt)
  +:+ " policy=" +:+ default "N/A" (attribute_Get (nrt_Attributes nrt) "topologyManagerPolicy")
  +:+ ", scope=" +:+ default "N/A" (attribute_Get (nrt_Attributes nrt) "topologyManagerScope") +:+ newline
  +:+ str_join "" ((fun z => "- zone: " +:+ ZoneToString z +:+ newline) <$> nrt_Zones nrt).
Definition nrt_ListToString (nrts : list NodeResourceTopology) (tag : string) : string :=
  "NRT BEGIN dump" +:+ tag +:+ newline +:+ str_join "" (nrt_ToString <$> nrts) +:+ "NRT END dump" +:+ newline.

(** *** Comparison (equality.go) *)

(** 52 Mi, and 64 Ki. *)
Definition zoneLevelDev : Quantity := NewQuantity 54525952.
Definition nodeLevelDev : Quantity := NewQuantity 65536.

Definition QuantityAbsCmp (a b dev : Quantity) : bool :=
  let a := q_Sub a b in
  let z := q_Sub q_zero dev in
  (q_Cmp dev a =? 1)%Z && (q_Cmp z a <=? 0)%Z.

Record memoryTotals := mkMemoryTotals { mt_capacity : Quantity; mt_available : Quantity; mt_allocatable : Quantity }.

Definition getTotalMemory (zoneList : list Zone) : memoryTotals :=
  fold_left (fun t z =>
    fold_left (fun t r =>
      if decide (ri_Name r <> ResourceMemory) then t
      else mkMemoryTotals (q_Add (mt_capacity t) (ri_Capacity r)) (q_Add (mt_available t) (ri_Available r))
             (q_Add (mt_allocatable t) (ri_Allocatable r))) (z_Resources z) t) zoneList
    (mkMemoryTotals q_zero q_zero q_zero).

Definition collectMemoryMismatchErrors (capOK availOK allocOK : bool) (a b : memoryTotals) : option error :=
  let mismatch (ok : bool) (what : string) (get : memoryTotals -> Quantity) :=
    if ok then [] else [ErrNew ("mismatched total memory " +:+ what +:+ ": initial=" +:+ q_verbs (get a) +:+ " updated="
                                +:+ q_verbs (get b))] in
  match mismatch capOK "capacity" mt_capacity ++ mismatch availOK "available" mt_available
        ++ mismatch allocOK "allocatable" mt_allocatable with
  | [] => None
  | errs => Some (ErrJoin errs)
  end.

Definition compareMemoryNodeLevel (zonesA zonesB : list Zone) (isRebootTest : bool) : bool * option error :=
  let a := getTotalMemory zonesA in
  let b := getTotalMemory zonesB in
  let same (get : memoryTotals -> Quantity) :=
    if isRebootTest then QuantityAbsCmp (get a) (get b) nodeLevelDev else (q_Cmp (get a) (get b) =? 0)%Z in
  let err := collectMemoryMismatchErrors (same mt_capacity) (same mt_available) (same mt_allocatable) a b in
  (bool_decide (err = None), err).

Definition EqualMemoryWithDeviation (a b : ResourceInfo) : bool * option error :=
  let mismatch (what : string) (get : ResourceInfo -> Quantity) :=
    (false, Some (ErrNew ("resource " +:+ quote (ri_Name a) +:+ ": mismatched resource " +:+ what +:+ " initial="
                          +:+ q_verbs (get a) +:+ " vs updated=" +:+ q_verbs (get b)))) in
  if decide (ri_Name a <> ri_Name b)
  then (false, Some (ErrNew ("mismatched resource name initial=" +:+ quote (ri_Name a) +:+ " vs updated=" +:+ quote (ri_Name b))))
  else if negb (QuantityAbsCmp (ri_Capacity a) (ri_Capacity b) zoneLevelDev) then mismatch "Capacity" ri_Capacity
  else if negb (QuantityAbsCmp (ri_Allocatable a) (ri_Allocatable b) zoneLevelDev) then mismatch "Allocatable" ri_Allocatable
  else if negb (QuantityAbsCmp (ri_Available a) (ri_Available b) zoneLevelDev) then mismatch "Available" ri_Available
  else (true, None).

(** Devices may differ, as long as as much of them is used. *)
Definition EqualDevicesWithDeviation (a b : ResourceInfo) : bool * option error :=
  if decide (ri_Name a <> ri_Name b)
  then (false, Some (ErrNew ("mismatched resource name initial=" +:+ quote (ri_Name a) +:+ " vs updated=" +:+ quote (ri_Name b))))
  else
    let used (get : ResourceInfo -> Quantity) (r : ResourceInfo) := q_Sub (ri_Capacity r) (get r) in
    let differs (get : ResourceInfo -> Quantity) : bool :=
      negb (q_Cmp (get a) (get b) =? 0)%Z && negb (q_Cmp (used get a) (used get b) =? 0)%Z in
    let mismatch (get : ResourceInfo -> Quantity) :=
      (false, Some (ErrNew ("mismatched resource consumption; expected " +:+ q_String (used get a) +:+ "=="
                            +:+ q_String (used get b) +:+ "=true"))) in
    if differs ri_Allocatable then mismatch ri_Allocatable
    else if differs ri_Available then mismatch ri_Available
    else (true, None).

Section Equality.
Context (lookupEnv : string -> option string).

(** The names of the devices of the suite are in its environment. *)
Definition resourceIsDevice (resName : string) : bool :=
  bool_decide (lookupEnv "E2E_NROP_DEVICE_TYPE_1" = Some resName) || bool_decide (lookupEnv "E2E_NROP_DEVICE_TYPE_2" = Some resName)
  || bool_decide (lookupEnv "E2E_NROP_DEVICE_TYPE_3" = Some resName).

Definition EqualResourceInfo (a b : ResourceInfo) (isRebootTest : bool) : bool * option error :=
  let mismatch (what : string) :=
    (false, Some (ErrNew ("mismatched resource " +:+ what +:+ " initial=" +:+ ResourceInfoToString a +:+ " vs updated="
                          +:+ ResourceInfoToString b))) in
  if isRebootTest && bool_decide (ri_Name a = ResourceMemory) then EqualMemoryWithDeviation a b
  else if isRebootTest && resourceIsDevice (ri_Name a) then EqualDevicesWithDeviation a b
  else if decide (ri_Name a <> ri_Name b)
  then (false, Some (ErrNew ("mismatched resource name initial=" +:+ quote (ri_Name a) +:+ " vs updated=" +:+ quote (ri_Name b))))
  else if negb (q_Cmp (ri_Capacity a) (ri_Capacity b) =? 0)%Z then mismatch "Capacity"
  else if negb (q_Cmp (ri_Allocatable a) (ri_Allocatable b) =? 0)%Z then mismatch "Allocatable"
  else if negb (q_Cmp (ri_Available a) (ri_Available b) =? 0)%Z then mismatch "Available"
  else (true, None).

(** The loops over two lists of one length. *)
Fixpoint equal_infos (as_ bs : list ResourceInfo) (isRebootTest : bool) : bool * option error :=
  match as_, bs with
  | a :: as_, b :: bs => match EqualResourceInfo a b isRebootTest with
                         | (true, None) => equal_infos as_ bs isRebootTest
                         | r => r
                         end
  | _, _ => (true, None)
  end.
Definition EqualResourceInfos (as_ bs : list ResourceInfo) (isRebootTest : bool) : bool * option error :=
  if decide (length as_ <> length bs) then (false, Some (ErrNew "unequal resourceinfo count"))
  else equal_infos as_ bs isRebootTest.

Fixpoint equal_zones (as_ bs : list Zone) (isRebootTest : bool) : bool * option error :=
  match as_, bs with
  | a :: as_, b :: bs =>
      if decide (z_Name a <> z_Name b)
      then (false, Some (ErrNew ("mismatched zones initial=" +:+ quote (z_Name a) +:+ " vs updated=" +:+ quote (z_Name b))))
      else match EqualResourceInfos (SortedResourceInfoList (z_Resources a)) (SortedResourceInfoList (z_Resources b)) isRebootTest with
           | (true, None) => equal_zones as_ bs isRebootTest
           | r => r
           end
  | _, _ => (true, None)
  end.
Definition EqualZones (zonesA zonesB : list Zone) (isRebootTest : bool) : bool * option error :=
  if decide (length zonesA <> length zonesB) then (false, Some (ErrNew "unequal zone count"))
  else match compareMemoryNodeLevel zonesA zonesB isRebootTest with
       | (_, Some err) => (false, Some err)
       | (_, None) => equal_zones (SortedZoneList zonesA) (SortedZoneList zonesB) isRebootTest
       end.

(** ** Waiting (internal/wait)

    Polling is the sequence of what the polls read; when there are no more, the time
    is over. *)

Definition isNRTEqual (initialNrt updatedNrt : NodeResourceTopology) (isRebootTest : bool) : bool :=
  if decide (nrt_ResourceVersion updatedNrt = nrt_ResourceVersion initialNrt) then true
  else match EqualZones (nrt_Zones initialNrt) (nrt_Zones updatedNrt) isRebootTest with
       | (_, Some _) => false
       | (equalZones, None) => equalZones
       end.

Definition findNRTByName (nrts : list NodeResourceTopology) (name : string) : NodeResourceTopology + error :=
  match list_find (fun nrt => nrt_Name nrt = name) nrts with
  | Some (_, nrt) => inl nrt
  | None => inr (ErrNew ("failed to find NRT for " +:+ quote name))
  end.

Definition err_timeout : error := ErrNew "context deadline exceeded".

(** One poll: done, not yet, or failed. *)
Fixpoint match_all (references updated : list NodeResourceTopology) (nrtShouldIgnore : NodeResourceTopology -> bool)
  (isRebootTest : bool) : bool + error :=
  match references with
  | [] => inl true
  | referenceNrt :: rest =>
      if nrtShouldIgnore referenceNrt then match_all rest updated nrtShouldIgnore isRebootTest
      else
        let? updatedNrt := findNRTByName updated (nrt_Name referenceNrt) in
        if isNRTEqual referenceNrt updatedNrt isRebootTest then match_all rest updated nrtShouldIgnore isRebootTest
        else inl false
  end.

Fixpoint ForNodeResourceTopologiesEqualToPostReboot (polls : list (list NodeResourceTopology + error))
  (current references : list NodeResourceTopology) (nrtShouldIgnore : NodeResourceTopology -> bool) (isRebootTest : bool)
  : list NodeResourceTopology * option error :=
  match polls with
  | [] => (current, Some err_timeout)
  | inr err :: _ => (current, Some err)
  | inl items :: polls =>
      match match_all references items nrtShouldIgnore isRebootTest with
      | inr err => (items, Some err)
      | inl true => (items, None)
      | inl false => ForNodeResourceTopologiesEqualToPostReboot polls items references nrtShouldIgnore isRebootTest
      end
  end.
End Equality.

Definition NRTIgnoreNothing (_ : NodeResourceTopology) : bool := false.

(** How many times in a row the fingerprint of a node was seen. *)
Record PFPCount := mkPFPCount { pc_Value : string; pc_Count : Z }.
Notation PFPState := (gmap string PFPCount).

Definition CountReady (ps : PFPState) (threshold : Z) : Z :=
  Z.of_nat (length (filter (fun kv => threshold <= pc_Count (snd kv))%Z (map_to_list ps))).
Definition AllReady (ps : PFPState) (threshold : Z) : bool :=
  forallb (fun kv => threshold <=? pc_Count (snd kv))%Z (map_to_list ps).
Definition Observe (ps : PFPState) (nodeName pfpValue : string) : PFPState * Z :=
  match ps !! nodeName with
  | Some count =>
      if decide (pc_Value count <> pfpValue) then (<[nodeName := mkPFPCount pfpValue 1]> ps, 1%Z)
      else (<[nodeName := mkPFPCount (pc_Value count) (pc_Count count + 1)]> ps, (pc_Count count + 1)%Z)
  | None => (<[nodeName := mkPFPCount pfpValue 1]> ps, 1%Z)
  end.

(** [podfingerprint.Attribute] *)
Definition pfp_Attribute : string := "nodeTopologyPodsFingerprint".

Fixpoint observe_all (nrts : list NodeResourceTopology) (nrtShouldIgnore : NodeResourceTopology -> bool) (ps : PFPState)
  : PFPState + error :=
  match nrts with
  | [] => inl ps
  | nrt :: rest =>
      if nrtShouldIgnore nrt then observe_all rest nrtShouldIgnore ps
      else match attribute_Get (nrt_Attributes nrt) pfp_Attribute with
           | None => inr (ErrNew ("NRT " +:+ nrt_Name nrt +:+ " missing PFP attribute"))
           | Some value => observe_all rest nrtShouldIgnore (fst (Observe ps (nrt_Name nrt) value))
           end
  end.

Fixpoint settle (polls : list (list NodeResourceTopology + error)) (current : list NodeResourceTopology) (ps : PFPState)
  (threshold : Z) (nrtShouldIgnore : NodeResourceTopology -> bool) : list NodeResourceTopology * option error :=
  match polls with
  | [] => (current, Some err_timeout)
  | inr err :: _ => (current, Some err)
  | inl items :: polls =>
      match observe_all items nrtShouldIgnore ps with
      | inr err => (items, Some err)
      | inl ps => if AllReady ps threshold then (items, None) else settle polls items ps threshold nrtShouldIgnore
      end
  end.
Definition ForNodeResourceTopologiesSettled (polls : list (list NodeResourceTopology + error)) (threshold : Z)
  (nrtShouldIgnore : NodeResourceTopology -> bool) : list NodeResourceTopology * option error :=
  settle polls [] ∅ threshold nrtShouldIgnore.

(** Every zone has a resource as wanted. *)
Fixpoint ForNodeResourceTopologyToHave (polls : list (NodeResourceTopology + error)) (current : NodeResourceTopology)
  (haveResourceFunc : ResourceInfo -> bool) : NodeResourceTopology * option error :=
  match polls with
  | [] => (current, Some err_timeout)
  | inr err :: _ => (current, Some err)
  | inl nrt :: polls =>
      if forallb (fun z => existsb haveResourceFunc (z_Resources z)) (nrt_Zones nrt) then (nrt, None)
      else ForNodeResourceTopologyToHave polls nrt haveResourceFunc
  end.
End Resources.
