(* ===== verification/ResourcesSpec.v ===== *)
(** * Theorems about quantities of resources

    When the comparison of topologies accepts, in terms of exact quantities; what
    subtracting, adding and rounding lists of resources gives; how the load of a node
    bounds its requests; when topologies have settled. *)
From S2P Require Import Prelude GoErrors Meta ApiV1 Workload Detect Resources.
From Stdlib Require Import Permutation.

(** ** Sorting by name *)

Section SortByName.
Context {A : Type} (name : A -> string).

Definition sort_by_name : list A -> list A := stable_sort (fun a b => String.leb (name a) (name b)).

Lemma sort_by_name_sorted l : StronglySorted (fun a b => String.leb (name a) (name b) = true) (sort_by_name l).
Proof. apply stable_sort_StronglySorted; intros; [apply String.leb_total|by eapply leb_trans]. Qed.

Lemma sort_by_name_perm l : sort_by_name l ≡ₚ l.
Proof. apply stable_sort_perm. Qed.

(** Sorted lists with distinct names are determined by their elements. *)
Lemma sorted_unique l1 l2 :
  NoDup (name <$> l1) -> StronglySorted (fun a b => String.leb (name a) (name b) = true) l1 ->
  StronglySorted (fun a b => String.leb (name a) (name b) = true) l2 -> l1 ≡ₚ l2 -> l1 = l2.
Proof.
  intros Hnd H1 H2 Hp. apply (StronglySorted_unique_strong (fun a b => String.leb (name a) (name b) = true)); try done.
  intros x y Hx Hy Hxy Hyx. apply (NoDup_fmap_inj_in name l1); try done; [by rewrite Hp|by apply String.leb_antisym].
Qed.

(** A relation between elements of the same name holds along two sorted lists exactly
    when it holds along some pairing of them. *)
Lemma Forall2_sorted (R : A -> A -> Prop) l1 l2 :
  (forall a b, R a b -> name a = name b) -> NoDup (name <$> l2) ->
  Forall2 R (sort_by_name l1) (sort_by_name l2) <-> exists l2', l2' ≡ₚ l2 /\ Forall2 R l1 l2'.
Proof.
  intros Hname Hnd. split.
  - intros HR. destruct (Permutation_Forall2 (sort_by_name_perm l1) HR) as (l2' & Hp & H2). exists l2'. split; [|done].
    rewrite <-Hp. apply sort_by_name_perm.
  - intros (l2' & Hp & HR). destruct (Permutation_Forall2 (Permutation_sym (sort_by_name_perm l1)) HR) as (l & Hl & H2).
    replace (sort_by_name l2) with l; [done|].
    assert (name <$> l = name <$> sort_by_name l1) as Hn.
    { clear -H2 Hname. induction H2 as [|x y l l' Hxy _ IH]; [done|]. rewrite !fmap_cons, IH. by rewrite (Hname _ _ Hxy). }
    assert (l ≡ₚ sort_by_name l2) as Hpl.
    { rewrite <-Hl, Hp. symmetry. apply sort_by_name_perm. }
    apply sorted_unique; [|clear -Hn|apply sort_by_name_sorted|done].
    + rewrite <-Hl, Hp. done.
    + pose proof (sort_by_name_sorted l1) as Hs. revert l Hn.
      induction Hs as [|x l1' Hs IH Hx]; intros [|y l]; [constructor|done|done|].
      rewrite !fmap_cons. intros [= Hy Hl]. constructor; [by apply IH|]. apply Forall_forall. intros z Hz.
      assert (name z ∈ name <$> l1') as Hin by (rewrite <-Hl; by apply list_elem_of_fmap_2).
      apply list_elem_of_fmap in Hin as (w & Hw & Hin). rewrite Forall_forall in Hx. rewrite Hy, Hw. by apply Hx.
Qed.
End SortByName.

(** ** Comparison of topologies *)

Section Equality.
Context `{Quantities, !QuantityLaws} (lookupEnv : string -> option string).

(** A difference between the two is under the deviation one way, and may reach it the
    other way. *)
Lemma QuantityAbsCmp_spec a b dev :
  QuantityAbsCmp a b dev = true <-> (- nano dev <= nano a - nano b < nano dev)%Z.
Proof.
  unfold QuantityAbsCmp. rewrite andb_true_iff, Z.eqb_eq, Z.leb_le, !q_Cmp_spec, !nano_Sub, nano_zero.
  rewrite (Z.sgn_pos_iff (nano dev - (nano a - nano b))), Z.sgn_nonpos. lia.
Qed.

Lemma q_Cmp_eq a b : (q_Cmp a b =? 0)%Z = true <-> nano a = nano b.
Proof. rewrite Z.eqb_eq, q_Cmp_spec, Z.sgn_null_iff. lia. Qed.

(** The deviation is in bytes. *)
Definition within (bytes : Z) (a b : Quantity) : Prop :=
  (- bytes * nanos <= nano a - nano b < bytes * nanos)%Z.
Definition same_qty (a b : Quantity) : Prop := nano a = nano b.
Definition used (get : ResourceInfo -> Quantity) (r : ResourceInfo) : Z := (nano (ri_Capacity r) - nano (get r))%Z.

(** When a resource counts as unchanged. After a reboot memory may move within 52 Mi,
    and a device may change in everything but what is used of it, and in its capacity
    alone. *)
Definition close (isRebootTest : bool) (a b : ResourceInfo) : Prop :=
  ri_Name a = ri_Name b /\
  let all (R : Quantity -> Quantity -> Prop) :=
    R (ri_Capacity a) (ri_Capacity b) /\ R (ri_Allocatable a) (ri_Allocatable b) /\ R (ri_Available a) (ri_Available b) in
  let unused get := same_qty (get a) (get b) \/ used get a = used get b in
  if isRebootTest && bool_decide (ri_Name a = ResourceMemory) then all (within 54525952)
  else if isRebootTest && resourceIsDevice lookupEnv (ri_Name a) then unused ri_Allocatable /\ unused ri_Available
  else all same_qty.

(** The answer of a comparison: yes, or an error. *)
Definition decides (r : bool * option error) (P : Prop) : Prop :=
  r = (true, None) /\ P \/ fst r = false /\ is_Some (snd r) /\ ~ P.

#[local] Instance decides_proper r : Proper (iff ==> iff) (decides r).
Proof. unfold decides. solve_proper. Qed.

Lemma decides_refuse P e : ~ P -> decides (false, Some e) P.
Proof. right. split_and!; [done|by eexists|done]. Qed.

Lemma within_spec b x y bytes : b = NewQuantity bytes -> QuantityAbsCmp x y b = true <-> within bytes x y.
Proof. intros ->. rewrite QuantityAbsCmp_spec, NewQuantity_spec. unfold within. lia. Qed.

#[local] Ltac refused := apply decides_refuse; naive_solver.

Lemma EqualMemory_decides a b :
  decides (EqualMemoryWithDeviation a b)
    (ri_Name a = ri_Name b /\ within 54525952 (ri_Capacity a) (ri_Capacity b) /\
     within 54525952 (ri_Allocatable a) (ri_Allocatable b) /\ within 54525952 (ri_Available a) (ri_Available b)).
Proof.
  unfold EqualMemoryWithDeviation. rewrite <-!(within_spec zoneLevelDev _ _ 54525952) by done.
  case_decide; [refused|]. destruct (QuantityAbsCmp (ri_Capacity a) _ _) eqn:?; simpl; [|refused].
  destruct (QuantityAbsCmp (ri_Allocatable a) _ _) eqn:?; simpl; [|refused].
  destruct (QuantityAbsCmp (ri_Available a) _ _) eqn:?; simpl; [|refused]. left. naive_solver.
Qed.

Lemma EqualDevices_decides a b :
  decides (EqualDevicesWithDeviation a b)
    (ri_Name a = ri_Name b /\
     (same_qty (ri_Allocatable a) (ri_Allocatable b) \/ used ri_Allocatable a = used ri_Allocatable b) /\
     (same_qty (ri_Available a) (ri_Available b) \/ used ri_Available a = used ri_Available b)).
Proof.
  unfold EqualDevicesWithDeviation, same_qty, used. rewrite <-!nano_Sub, <-!q_Cmp_eq.
  case_decide; [refused|].
  destruct (q_Cmp (ri_Allocatable a) _ =? 0)%Z eqn:?, (q_Cmp (q_Sub (ri_Capacity a) (ri_Allocatable a)) _ =? 0)%Z eqn:?;
    simpl; try refused;
    destruct (q_Cmp (ri_Available a) _ =? 0)%Z eqn:?, (q_Cmp (q_Sub (ri_Capacity a) (ri_Available a)) _ =? 0)%Z eqn:?;
    simpl; try refused; left; naive_solver.
Qed.

Lemma EqualResourceInfo_decides r a b : decides (EqualResourceInfo lookupEnv a b r) (close r a b).
Proof.
  unfold EqualResourceInfo, close. destruct (r && bool_decide _); [apply EqualMemory_decides|].
  destruct (r && resourceIsDevice _ _); [apply EqualDevices_decides|]. unfold same_qty. rewrite <-!q_Cmp_eq.
  case_decide; [refused|]. destruct (q_Cmp (ri_Capacity a) _ =? 0)%Z eqn:?; simpl; [|refused].
  destruct (q_Cmp (ri_Allocatable a) _ =? 0)%Z eqn:?; simpl; [|refused].
  destruct (q_Cmp (ri_Available a) _ =? 0)%Z eqn:?; simpl; [|refused]. left. naive_solver.
Qed.

Lemma EqualResourceInfos_decides r l1 l2 : decides (EqualResourceInfos lookupEnv l1 l2 r) (Forall2 (close r) l1 l2).
Proof.
  unfold EqualResourceInfos. case_decide as Hl; [apply decides_refuse; by intros ?%Forall2_length|].
  revert l2 Hl. induction l1 as [|a l1 IH]; intros [|b l2] Hl; simplify_eq/=; [by left|].
  destruct (EqualResourceInfo_decides r a b) as [[-> Hc]|(Hf & He & Hc)].
  - destruct (IH l2 Hl) as [[-> ?]|(? & ? & ?)]; [left; split; [done|by constructor]|right]. split_and!; try done.
    by intros [_ ?]%Forall2_cons_1.
  - right. destruct (EqualResourceInfo _ _ _ _) as [[] o]; [done|]. split_and!; try done. by intros [? _]%Forall2_cons_1.
Qed.

(** *** Totals *)

Definition sum (l : list Z) : Z := foldr Z.add 0%Z l.

Lemma sum_cons x l : sum (x :: l) = (x + sum l)%Z.
Proof. done. Qed.
#[local] Arguments sum : simpl never.

#[local] Instance sum_proper : Proper ((≡ₚ) ==> (=)) sum.
Proof. induction 1; rewrite ?sum_cons; lia. Qed.

(** The memory of a list of resources, and of zones. *)
Definition infos_memory (get : ResourceInfo -> Quantity) (l : list ResourceInfo) : Z :=
  sum ((fun r => if decide (ri_Name r = ResourceMemory) then nano (get r) else 0%Z) <$> l).
Definition memory (get : ResourceInfo -> Quantity) (zs : list Zone) : Z :=
  sum ((fun z => infos_memory get (z_Resources z)) <$> zs).

Lemma getTotalMemory_nano (mt : memoryTotals -> Quantity) (get : ResourceInfo -> Quantity) zs :
  (forall t r, nano (mt (mkMemoryTotals (q_Add (mt_capacity t) (ri_Capacity r)) (q_Add (mt_available t) (ri_Available r))
                           (q_Add (mt_allocatable t) (ri_Allocatable r)))) = (nano (mt t) + nano (get r))%Z) ->
  nano (mt (mkMemoryTotals q_zero q_zero q_zero)) = 0%Z ->
  nano (mt (getTotalMemory zs)) = memory get zs.
Proof.
  intros Hadd Hzero. unfold getTotalMemory. rewrite <-(Z.add_0_l (memory get zs)). rewrite <-Hzero.
  generalize (mkMemoryTotals q_zero q_zero q_zero). induction zs as [|z zs IH]; intros t; simpl; [unfold memory, sum; simpl; lia|].
  rewrite IH. unfold memory. rewrite fmap_cons, sum_cons. fold (memory get zs). rewrite Z.add_assoc. f_equal.
  unfold infos_memory. generalize (z_Resources z). intros l. revert t.
  induction l as [|r l IHl]; intros t; [unfold sum; simpl; lia|]. rewrite fmap_cons, sum_cons. cbn [fold_left].
  rewrite IHl. repeat case_decide; try done; rewrite ?Hadd; lia.
Qed.

Lemma getTotalMemory_parts zs :
  nano (mt_capacity (getTotalMemory zs)) = memory ri_Capacity zs /\
  nano (mt_available (getTotalMemory zs)) = memory ri_Available zs /\
  nano (mt_allocatable (getTotalMemory zs)) = memory ri_Allocatable zs.
Proof. split_and!; apply getTotalMemory_nano; intros; simpl; by rewrite ?nano_Add, ?nano_zero. Qed.

(** What the comparison asks of the memory of the whole node. *)
Definition moved (isRebootTest : bool) (d : Z) : Prop :=
  if isRebootTest then (- 65536 * nanos <= d < 65536 * nanos)%Z else d = 0%Z.
Definition node_close (isRebootTest : bool) (zA zB : list Zone) : Prop :=
  moved isRebootTest (memory ri_Capacity zA - memory ri_Capacity zB) /\
  moved isRebootTest (memory ri_Available zA - memory ri_Available zB) /\
  moved isRebootTest (memory ri_Allocatable zA - memory ri_Allocatable zB).

Lemma compareMemory_spec zA zB r :
  match compareMemoryNodeLevel zA zB r with
  | (_, None) => node_close r zA zB
  | (_, Some _) => ~ node_close r zA zB
  end.
Proof.
  unfold compareMemoryNodeLevel, node_close.
  destruct (getTotalMemory_parts zA) as (EA1 & EA2 & EA3), (getTotalMemory_parts zB) as (EB1 & EB2 & EB3).
  assert (forall get x y, nano x = memory get zA -> nano y = memory get zB ->
    ((if r then QuantityAbsCmp x y nodeLevelDev else q_Cmp x y =? 0)%Z = true <->
     moved r (memory get zA - memory get zB))) as Hok.
  { intros get x y <- <-. unfold moved. destruct r; [by apply (within_spec nodeLevelDev x y 65536)|]. rewrite q_Cmp_eq. lia. }
  pose proof (Hok ri_Capacity _ _ EA1 EB1) as Hcap. pose proof (Hok ri_Available _ _ EA2 EB2) as Havail.
  pose proof (Hok ri_Allocatable _ _ EA3 EB3) as Halloc. clear Hok. unfold collectMemoryMismatchErrors.
  repeat match goal with |- context [if (if r then ?x else ?y) then _ else _] => destruct (if r then x else y) end; simpl; naive_solver.
Qed.

(** *** Zones *)

(** Two zones of one name whose resources pair up. *)
Definition same_zone (isRebootTest : bool) (a b : Zone) : Prop :=
  z_Name a = z_Name b /\
  exists l, l ≡ₚ z_Resources b /\ Forall2 (close isRebootTest) (z_Resources a) l.

Lemma same_zone_memory get a b :
  (forall x y, close false x y -> same_qty (get x) (get y)) -> same_zone false a b ->
  infos_memory get (z_Resources a) = infos_memory get (z_Resources b).
Proof.
  intros Hget (_ & l & Hl & HR). unfold infos_memory. rewrite <-Hl. clear Hl.
  induction HR as [|x y l1 l2 Hxy _ IH]; [done|]. rewrite !fmap_cons, !sum_cons, IH.
  pose proof (Hget x y Hxy) as E. unfold same_qty in E. destruct Hxy as [-> _]. case_decide; lia.
Qed.

Lemma zones_memory get zA zB :
  (forall x y, close false x y -> same_qty (get x) (get y)) -> Forall2 (same_zone false) zA zB -> memory get zA = memory get zB.
Proof.
  intros Hget HR. unfold memory. induction HR as [|a b l1 l2 Hab _ IH]; [done|]. rewrite !fmap_cons, !sum_cons, IH. by rewrite (same_zone_memory get a b).
Qed.

(** Without a reboot, zones that pair up have the same memory. *)
Lemma zones_node_close zA zB zB' : zB' ≡ₚ zB -> Forall2 (same_zone false) zA zB' -> node_close false zA zB.
Proof.
  intros Hp HR. assert (forall get, (forall x y, close false x y -> same_qty (get x) (get y)) -> (memory get zA - memory get zB = 0)%Z) as Hm.
  { intros get Hget. rewrite (zones_memory get zA zB' Hget HR). unfold memory. rewrite Hp. lia. }
  split_and!; apply Hm; by intros x y (_ & ? & ? & ?).
Qed.

Definition distinct (zs : list Zone) : Prop :=
  NoDup (z_Name <$> zs) /\ Forall (fun z => NoDup (ri_Name <$> z_Resources z)) zs.

Lemma equal_zones_decides r zA zB :
  length zA = length zB -> Forall (fun z => NoDup (ri_Name <$> z_Resources z)) zB ->
  decides (equal_zones lookupEnv zA zB r) (Forall2 (same_zone r) zA zB).
Proof.
  intros Hl Hnd. revert zA Hl. induction Hnd as [|b zB Hb _ IH]; intros [|a zA] Hl; simplify_eq/=; [by left|].
  assert (same_zone r a b <-> z_Name a = z_Name b /\ Forall2 (close r) (SortedResourceInfoList (z_Resources a)) (SortedResourceInfoList (z_Resources b))) as Hsame.
  { unfold same_zone, SortedResourceInfoList. by rewrite <-(Forall2_sorted ri_Name) by (done || by intros ?? [? _]). }
  case_decide as Hn; [apply decides_refuse; by intros [[? _] _]%Forall2_cons_1|].
  destruct (EqualResourceInfos_decides r (SortedResourceInfoList (z_Resources a)) (SortedResourceInfoList (z_Resources b)))
    as [[-> Hc]|(Hf & He & Hc)].
  - destruct (IH zA Hl) as [[-> ?]|(? & ? & ?)].
    + left. split; [done|]. constructor; [by apply Hsame|done].
    + right. split_and!; try done. by intros [_ ?]%Forall2_cons_1.
  - right. destruct (EqualResourceInfos _ _ _ _) as [[] o]; [done|]. split_and!; try done.
    by intros [[_ ?]%Hsame _]%Forall2_cons_1.
Qed.

(** C39: The comparison of two topologies, with distinct names of zones and of their
    resources, says yes or fails with an error. It says yes exactly when the zones pair
    up by name with resources that pair up by name and count as unchanged and, after a
    reboot, the memory of the node moved within 64 Ki. Unchanged is the same amounts,
    but after a reboot memory may move within 52 Mi (the first may be that much smaller,
    not that much larger) and a device need only be used as much, or be as allocatable
    and available whatever its capacity. *)
Theorem EqualZones_spec zA zB isRebootTest :
  distinct zB ->
  decides (EqualZones lookupEnv zA zB isRebootTest)
    ((exists zB', zB' ≡ₚ zB /\ Forall2 (same_zone isRebootTest) zA zB') /\
     (isRebootTest = true -> node_close true zA zB)).
Proof.
  intros [Hnd Hinfos]. unfold EqualZones. case_decide as Hl.
  { apply decides_refuse. intros [(zB' & Hp & HR%Forall2_length) _]. apply Hl. by rewrite HR, Hp. }
  pose proof (compareMemory_spec zA zB isRebootTest) as Hnode.
  destruct (compareMemoryNodeLevel _ _ _) as [ok [err|]].
  { apply decides_refuse. intros [(zB' & Hp & HR) Hr]. apply Hnode. destruct isRebootTest; [by apply Hr|].
    by apply (zones_node_close zA zB zB'). }
  assert (Forall (fun z => NoDup (ri_Name <$> z_Resources z)) (SortedZoneList zB)) as Hs.
  { unfold SortedZoneList. by rewrite (sort_by_name_perm z_Name zB). }
  pose proof (equal_zones_decides isRebootTest (SortedZoneList zA) (SortedZoneList zB)) as Hd.
  setoid_rewrite (Forall2_sorted z_Name) in Hd; [|by intros ?? [? _]|done].
  destruct Hd as [[-> Hz]|(? & ? & Hz)]; [|done| |].
  - unfold SortedZoneList. by rewrite (sort_by_name_perm z_Name zA), (sort_by_name_perm z_Name zB).
  - left. split; [done|]. split; [done|]. by intros ->.
  - right. split_and!; [done..|]. by intros [? _].
Qed.
End Equality.

(** ** Lists of resources *)

Section Lists.
Context `{Quantities, !QuantityLaws}.
Notation ResourceList := (gmap string Quantity).
Context (range_map : ResourceList -> list (string * Quantity)).
Hypothesis range_map_perm : forall m, range_map m ≡ₚ map_to_list m.

(** The amount of a resource, in nano-units. *)
Definition amount (rl : ResourceList) (name : string) : Z := nano (rl_get rl name).

Lemma amount_insert rl n q m : amount (<[n := q]> rl) m = if decide (m = n) then nano q else amount rl m.
Proof. unfold amount, rl_get. case_decide; subst; [by rewrite lookup_insert_eq|by rewrite lookup_insert_ne]. Qed.

Lemma amount_empty n : amount ∅ n = 0%Z.
Proof. unfold amount, rl_get. rewrite lookup_empty. apply nano_zero. Qed.

Lemma amount_missing rl n : rl !! n = None -> amount rl n = 0%Z.
Proof. unfold amount, rl_get. intros ->. apply nano_zero. Qed.

Lemma range_elem rl n q : (n, q) ∈ range_map rl <-> rl !! n = Some q.
Proof. by rewrite range_map_perm, elem_of_map_to_list. Qed.

Lemma range_nodup rl : NoDup (fst <$> range_map rl).
Proof. rewrite range_map_perm. apply NoDup_fst_map_to_list. Qed.

(** What a list of pairs adds to a name. *)
Definition added (l : list (string * Quantity)) (n : string) : Z :=
  sum ((fun r => if decide (fst r = n) then nano (snd r) else 0%Z) <$> l).

Lemma added_nil n : added [] n = 0%Z.
Proof. done. Qed.
Lemma added_cons r l n : added (r :: l) n = ((if decide (fst r = n) then nano (snd r) else 0) + added l n)%Z.
Proof. done. Qed.

Lemma added_absent l n : n ∉ fst <$> l -> added l n = 0%Z.
Proof.
  induction l as [|r l IH]; [done|]. rewrite fmap_cons, not_elem_of_cons, added_cons. intros [Hn Hl].
  rewrite decide_False by congruence. by rewrite IH.
Qed.

Lemma added_range rl n : added (range_map rl) n = amount rl n.
Proof.
  assert (forall l, NoDup (fst <$> l) -> (forall q, (n, q) ∈ l <-> rl !! n = Some q) -> added l n = amount rl n) as Hin;
    [|apply Hin; [apply range_nodup|by intros q; apply range_elem]].
  induction l as [|[m q] l IH]; rewrite ?fmap_cons.
  - intros _ Hl. rewrite added_nil. rewrite amount_missing; [done|]. apply eq_None_not_Some.
    intros [q Hq%Hl]. by apply elem_of_nil in Hq.
  - rewrite NoDup_cons, added_cons. intros [Hm Hnd] Hl. simpl in *. case_decide as Hmn.
    + subst m. rewrite added_absent by done. unfold amount, rl_get.
      rewrite (proj1 (Hl q)) by (by left). simpl. lia.
    + rewrite IH; [lia|done|]. intros q'. rewrite <-Hl, elem_of_cons. naive_solver.
Qed.

Lemma fold_add_amount l res n : amount (fold_left add_qty l res) n = (amount res n + added l n)%Z.
Proof.
  revert res. induction l as [|r l IH]; intros res; [rewrite added_nil; simpl; lia|]. cbn [fold_left].
  rewrite IH, added_cons. unfold add_qty. rewrite amount_insert. repeat case_decide; subst; try congruence; [|lia].
  rewrite nano_Add. unfold amount. lia.
Qed.

Lemma AddInPlace_amount res add n : amount (AddInPlace range_map res add) n = (amount res n + amount add n)%Z.
Proof. unfold AddInPlace. by rewrite fold_add_amount, added_range. Qed.

(** *** Subtraction *)

(** The pairs subtracted before the first that is too large. *)
Lemma sub_all_spec l res res' err :
  NoDup (fst <$> l) -> sub_all res l = (res', err) ->
  exists done rest, l = done ++ rest /\
    (forall n, amount res' n = amount res n - added done n)%Z /\
    Forall (fun r => nano (snd r) <= amount res (fst r))%Z done /\
    match err with
    | None => rest = []
    | Some _ => exists r rest', rest = r :: rest' /\ (amount res (fst r) < nano (snd r))%Z
    end.
Proof.
  revert res. induction l as [|[name q] l IH]; intros res; rewrite ?fmap_cons; simpl.
  - intros _ [= <- <-]. exists [], []. split_and!; [done|intros n; rewrite added_nil; lia|done|done].
  - rewrite NoDup_cons. intros [Hname Hnd]. rewrite q_Cmp_spec. destruct (0 <? _)%Z eqn:E.
    + intros [= <- <-]. exists [], ((name, q) :: l). split_and!; [done|intros n; rewrite added_nil; lia|done|].
      exists (name, q), l. split; [done|]. apply Z.ltb_lt, Z.sgn_pos_iff in E. simpl. unfold amount. lia.
    + intros Hsub. destruct (IH _ Hnd Hsub) as (done_ & rest & -> & Ha & Hd & Herr).
      apply Z.ltb_ge in E. assert (nano q <= amount res name)%Z as Hq.
      { unfold amount. destruct (Z.sgn_spec (nano q - nano (rl_get res name))) as [[? ?]|[[? ?]|[? ?]]]; lia. }
      assert (forall r, r ∈ done_ ++ rest -> fst r <> name) as Hne.
      { intros r Hr E'. apply Hname. rewrite <-E'. by apply list_elem_of_fmap_2. }
      exists ((name, q) :: done_), rest. split_and!; [done| | |].
      * intros n. rewrite Ha, added_cons, amount_insert. simpl. repeat case_decide; subst; try congruence; [|lia].
        rewrite nano_Sub. unfold amount. lia.
      * constructor; [done|]. rewrite Forall_forall in *. intros r Hr. specialize (Hd r Hr).
        rewrite amount_insert, decide_False in Hd; [done|]. apply Hne. set_solver.
      * destruct err as [err|]; [|done]. destruct Herr as (r & rest' & -> & Hr). exists r, rest'. split; [done|].
        rewrite amount_insert, decide_False in Hr; [done|]. apply Hne. set_solver.
Qed.

Lemma SubInPlace_cases res resToSub :
  let '(res', err) := SubInPlace range_map res resToSub in
  (err = None <-> forall n, is_Some (resToSub !! n) -> (amount resToSub n <= amount res n)%Z) /\
  match err with
  | None => forall n, amount res' n = (amount res n - amount resToSub n)%Z
  | Some _ =>
      (exists n, amount res n < amount resToSub n /\ amount res' n = amount res n)%Z /\
      (forall n, amount res' n = amount res n \/
         (amount resToSub n <= amount res n /\ amount res' n = amount res n - amount resToSub n)%Z)
  end /\
  ((forall n, 0 <= amount res n)%Z -> forall n, (0 <= amount res' n)%Z).
Proof.
  unfold SubInPlace. destruct (sub_all res (range_map resToSub)) as [res' err] eqn:E.
  pose proof (range_nodup resToSub) as Hnd.
  destruct (sub_all_spec _ _ _ _ Hnd E) as (subbed & rest & Hl & Ha & Hd & Herr). clear E.
  rewrite Hl, fmap_app in Hnd. apply NoDup_app in Hnd as (Hnd1 & Hdisj & _).
  assert (forall r, r ∈ range_map resToSub -> amount resToSub (fst r) = nano (snd r)) as Hamt.
  { intros [n q] Hr%range_elem. unfold amount, rl_get. simpl. by rewrite Hr. }
  assert (forall n, n ∈ fst <$> subbed -> added subbed n = amount resToSub n /\ amount resToSub n <= amount res n)%Z as Hin.
  { intros n Hn. apply list_elem_of_fmap in Hn as (r & -> & Hr). rewrite Forall_forall in Hd. specialize (Hd r Hr).
    assert (added rest (fst r) = 0%Z) as Hz by (apply added_absent, Hdisj; by apply list_elem_of_fmap_2).
    assert (added (range_map resToSub) (fst r) = (added subbed (fst r) + added rest (fst r))%Z) as Happ.
    { rewrite Hl. clear. induction subbed as [|x l IH]; [rewrite added_nil; done|]. cbn [app]. rewrite !added_cons. lia. }
    rewrite added_range in Happ. rewrite (Hamt r) in * by (rewrite Hl; set_solver). lia. }
  assert (forall n, amount res' n = amount res n \/
     (amount resToSub n <= amount res n /\ amount res' n = amount res n - amount resToSub n)%Z) as Hcases.
  { intros n. rewrite Ha. destruct (decide (n ∈ fst <$> subbed)) as [Hn|Hn]; [right|left].
    - destruct (Hin n Hn). lia.
    - rewrite added_absent by done. lia. }
  split_and!.
  - destruct err as [err|].
    + split; [done|]. intros Hall. destruct Herr as ([n q] & rest' & -> & Hlt). simpl in *.
      assert ((n, q) ∈ range_map resToSub) as Hr by (rewrite Hl; set_solver).
      pose proof (Hamt _ Hr) as Hq. apply range_elem in Hr. simpl in Hq. specialize (Hall n ltac:(by eexists)). lia.
    + split; [|done]. intros _ n [q Hq]. apply (Hin n). subst rest. rewrite app_nil_r in Hl. rewrite <-Hl.
      apply range_elem in Hq. by apply (list_elem_of_fmap_2 fst) in Hq.
  - destruct err as [err|].
    + split; [|done]. destruct Herr as ([n q] & rest' & -> & Hlt). exists n. simpl in *.
      assert ((n, q) ∈ range_map resToSub) as Hr by (rewrite Hl; set_solver). pose proof (Hamt _ Hr) as Hq. simpl in Hq.
      rewrite Hq. split; [done|].
      rewrite Ha, added_absent; [lia|]. intros Hn. apply (Hdisj n Hn). by left.
    + intros n. rewrite Ha. subst rest. rewrite app_nil_r in Hl. by rewrite <-Hl, added_range.
  - intros Hpos n. specialize (Hpos n). destruct (Hcases n) as [->|[? ->]]; lia.
Qed.

(** Subtracting succeeds exactly when no amount to subtract is larger than the one
    it is subtracted from, a missing resource being none; then every amount is the
    difference. When it fails, some resources are subtracted and others not, one of
    these because it is too small; no amount becomes negative in any case. Subtracting
    what was just added never fails and restores the amounts. *)
Theorem SubInPlace_spec res resToSub :
  (let '(res', err) := SubInPlace range_map res resToSub in
   (err = None <-> forall n, is_Some (resToSub !! n) -> (amount resToSub n <= amount res n)%Z) /\
   match err with
   | None => forall n, amount res' n = (amount res n - amount resToSub n)%Z
   | Some _ =>
       (exists n, amount res n < amount resToSub n /\ amount res' n = amount res n)%Z /\
       (forall n, amount res' n = amount res n \/
          (amount resToSub n <= amount res n /\ amount res' n = amount res n - amount resToSub n)%Z)
   end /\
   ((forall n, 0 <= amount res n)%Z -> forall n, (0 <= amount res' n)%Z)) /\
  ((forall n, 0 <= amount res n)%Z ->
   exists res', SubInPlace range_map (AddInPlace range_map res resToSub) resToSub = (res', None) /\
     forall n, amount res' n = amount res n).
Proof.
  split; [apply SubInPlace_cases|]. intros Hpos.
  pose proof (SubInPlace_cases (AddInPlace range_map res resToSub) resToSub) as Hc.
  destruct (SubInPlace _ _ _) as [res' err]. destruct Hc as (Hiff & Hr & _).
  assert (err = None) as -> by (apply Hiff; intros n _; rewrite AddInPlace_amount; specialize (Hpos n); lia).
  exists res'. split; [done|]. intros n. rewrite Hr, AddInPlace_amount. lia.
Qed.

(** *** The load of a node *)

(** int64 does not overflow, and the result is the next multiple. *)
Lemma roundUp_spec num multiple :
  (0 <= num)%Z -> (0 < multiple)%Z -> (num + multiple <= 2 ^ 63 - 1)%Z ->
  (roundUp num multiple = multiple * ((num + multiple - 1) / multiple))%Z.
Proof.
  intros Hn Hm Hmax. unfold roundUp.
  assert (forall z, (- 2 ^ 63 <= z <= 2 ^ 63 - 1)%Z -> int64_wrap z = z) as Hw.
  { intros z Hz. unfold int64_wrap. rewrite Z.mod_small; lia. }
  rewrite (Hw (num + multiple)%Z), (Hw (num + multiple - 1)%Z) by lia.
  rewrite Z.quot_div_nonneg by lia. pose proof (Z.mul_div_le (num + multiple - 1) multiple Hm).
  assert (0 <= (num + multiple - 1) / multiple)%Z by (apply Z.div_pos; lia).
  assert ((num + multiple - 1) / multiple <= num + multiple - 1)%Z by (apply Z.div_le_upper_bound; nia).
  set (k := ((num + multiple - 1) / multiple)%Z) in *. rewrite (Hw k) by lia.
  assert (k * multiple <= num + multiple - 1)%Z by lia. rewrite Hw; nia.
Qed.

(** All the requests for a resource of the containers of pods. *)
Definition requested (pods : list (list ResourceList)) (name : string) : Z :=
  sum ((fun pod => sum ((fun requests => amount requests name) <$> pod)) <$> pods).

Lemma fold_requests_amount pod res n :
  amount (fold_left (fun res requests => fold_left add_qty (range_map requests) res) pod res) n
  = (amount res n + sum ((fun requests => amount requests n) <$> pod))%Z.
Proof.
  revert res. induction pod as [|r pod IH]; intros res; [unfold sum; simpl; lia|].
  cbn [fold_left]. rewrite IH, fold_add_amount, added_range, fmap_cons, sum_cons. lia.
Qed.

Lemma fold_pods_amount pods res n :
  amount (fold_left (fun res pod =>
    fold_left (fun res requests => fold_left add_qty (range_map requests) res) pod res) pods res) n
  = (amount res n + requested pods n)%Z.
Proof.
  revert res. unfold requested. induction pods as [|pod pods IH]; intros res; [unfold sum; simpl; lia|].
  cbn [fold_left]. rewrite IH, fold_requests_amount, fmap_cons, sum_cons. lia.
Qed.

(** The load of a node covers the requests of the containers of its pods: the cpu is
    the least even number of cores that does (a whole number first), the memory the
    least multiple of 10^9 bytes that does, and every other resource is exactly the sum
    of the requests. *)
Theorem FromPods_spec nodeName pods :
  (0 <= requested pods ResourceCPU <= (2 ^ 63 - 3) * nanos)%Z -> (0 <= requested pods ResourceMemory)%Z ->
  let load := FromPods range_map nodeName pods in
  let cpu := nano (ld_CPU load) in
  let mem := nano (ld_Memory load) in
  (exists cores, cpu = 2 * cores * nanos /\ requested pods ResourceCPU <= cpu < requested pods ResourceCPU + 2 * nanos)%Z /\
  (exists gigas, mem = gigas * 10 ^ 9 * nanos /\ requested pods ResourceMemory <= mem < requested pods ResourceMemory + 10 ^ 9 * nanos)%Z /\
  forall n, n <> ResourceCPU -> n <> ResourceMemory -> amount (ld_Resources load) n = requested pods n.
Proof.
  intros Hcpu Hmem. unfold FromPods, ld_Round, ld_CPU, ld_Memory, RoundUpCoreResources. simpl.
  match goal with |- context [fold_left ?f pods ∅] => remember (fold_left f pods ∅) as total eqn:Htotal end.
  assert (forall n, amount total n = requested pods n) as Ht.
  { intros n. rewrite Htotal, fold_pods_amount, amount_empty. lia. }
  fold (amount total ResourceCPU). split_and!.
  - rewrite q_Value_spec; [|fold (amount total ResourceCPU); rewrite Ht; lia].
    fold (amount total ResourceCPU). rewrite Ht. unfold rl_get. rewrite lookup_insert_ne, lookup_insert_eq by done. simpl.
    rewrite NewQuantity_spec. generalize dependent (requested pods ResourceCPU). intros r Hr.
    assert (0 <= - (- r / nanos) <= 2 ^ 63 - 3)%Z as Hb by (Z.to_euclidean_division_equations; lia).
    rewrite roundUp_spec by lia. exists ((- (- r / nanos) + 2 - 1) / 2)%Z. split; [lia|].
    Z.to_euclidean_division_equations; lia.
  - unfold rl_get. rewrite lookup_insert_eq. simpl. fold (rl_get total ResourceMemory).
    rewrite q_RoundUp_spec; [|done|fold (amount total ResourceMemory); rewrite Ht; lia].
    fold (amount total ResourceMemory). rewrite Ht. unfold Giga. generalize dependent (requested pods ResourceMemory). intros r Hr.
    exists (- (- r / (nanos * 10 ^ 9)))%Z. split; [lia|].
    Z.to_euclidean_division_equations; lia.
  - intros n Hc Hm. rewrite !amount_insert, !decide_False by done. apply Ht.
Qed.

(** *** The highest amounts *)

Lemma higher_fold (rl : ResourceList) l (tmp : ResourceList) n :
  NoDup (fst <$> l) ->
  fold_left (fun tmp r => let curQty := rl_get rl (fst r) in
                          if (0 <? q_Cmp curQty (snd r))%Z then <[fst r := curQty]> tmp else tmp) l tmp !! n
  = match list_find (fun r => fst r = n) l with
    | Some (_, r) => if (nano (snd r) <? amount rl n)%Z then Some (rl_get rl n) else tmp !! n
    | None => tmp !! n
    end.
Proof.
  revert tmp. induction l as [|[m q] l IH]; intros tmp; [done|]. rewrite fmap_cons, NoDup_cons. intros [Hm Hnd].
  cbn [fold_left]. rewrite IH by done. simpl. rewrite q_Cmp_spec. fold (amount rl m).
  assert ((0 <? Z.sgn (amount rl m - nano q))%Z = (nano q <? amount rl m)%Z) as ->.
  { destruct (Z.ltb_spec (nano q) (amount rl m)), (Z.ltb_spec 0 (Z.sgn (amount rl m - nano q))); lia. }
  case_decide as Hmn; simpl.
  - subst m. destruct (list_find _ l) as [[i r]|] eqn:E.
    { exfalso. apply list_find_Some in E as (Hi & <- & _). apply Hm. simpl.
      apply list_elem_of_fmap_2. by eapply list_elem_of_lookup_2. }
    destruct (nano q <? amount rl n)%Z; [by rewrite lookup_insert_eq|done].
  - assert (forall x : Quantity, (if (nano q <? amount rl m)%Z then <[m:=x]> tmp else tmp) !! n = tmp !! n) as ->.
    { intros x. by destruct (_ <? _)%Z; rewrite ?lookup_insert_ne. }
    destruct (list_find _ l) as [[i r]|]; done.
Qed.

Lemma higher_amount (ret rl : ResourceList) n q :
  ret !! n = Some q -> exists q', higher range_map ret rl !! n = Some q' /\ nano q' = Z.max (nano q) (amount rl n).
Proof.
  intros Hq. unfold higher. rewrite higher_fold by apply range_nodup.
  destruct (list_find _ _) as [[i [m q0]]|] eqn:E.
  - apply list_find_Some in E as (Hi & Hm & _). simpl in Hm. subst m.
    assert (ret !! n = Some q0) as Hq0 by (apply range_elem; by eapply list_elem_of_lookup_2). simplify_eq. simpl.
    destruct (nano q <? amount rl n)%Z eqn:Hlt; [apply Z.ltb_lt in Hlt|apply Z.ltb_ge in Hlt].
    + eexists. split; [done|]. fold (amount rl n). lia.
    + eexists. split; [done|]. lia.
  - exfalso. apply (list_find_None _ _) in E. rewrite Forall_forall in E. apply range_elem in Hq.
    by apply (E _ Hq).
Qed.

Lemma higher_missing (ret rl : ResourceList) n : ret !! n = None -> higher range_map ret rl !! n = None.
Proof.
  intros Hn. unfold higher. rewrite higher_fold by apply range_nodup.
  destruct (list_find _ _) as [[i [m q0]]|] eqn:E; [|done]. apply list_find_Some in E as (Hi & Hm & _). simpl in Hm. subst m.
  assert (ret !! n = Some q0) by (apply range_elem; by eapply list_elem_of_lookup_2). congruence.
Qed.

(** The highest of lists of resources has the resources of the first list, each with
    the highest of its amounts; a resource the first list lacks is left out, however
    much of it the others have. *)
Theorem Highest_spec (rl : ResourceList) rls n :
  match rl !! n with
  | None => Highest range_map (rl :: rls) !! n = None
  | Some q => exists q', Highest range_map (rl :: rls) !! n = Some q' /\
                nano q' = foldr Z.max (nano q) ((fun rl => amount rl n) <$> rls)
  end.
Proof.
  unfold Highest. revert rl. induction rls as [|rl' rls IH]; intros rl; simpl.
  - destruct (rl !! n) as [q|]; [by exists q|done].
  - specialize (IH (higher range_map rl rl')). destruct (rl !! n) as [q|] eqn:Hq.
    + destruct (higher_amount rl rl' n q Hq) as (q1 & E1 & Hn1). rewrite E1 in IH. destruct IH as (q' & E' & Hn'). exists q'.
      split; [done|]. rewrite Hn', Hn1. clear. generalize (nano q). intros z.
      assert (forall a b, foldr Z.max (Z.max a b) ((fun rl => amount rl n) <$> rls) = Z.max b (foldr Z.max a ((fun rl => amount rl n) <$> rls))) as Hf.
      { intros a b. induction rls as [|x l IH]; [simpl; lia|]. rewrite !fmap_cons. cbn [foldr]. rewrite IH. lia. }
      apply Hf.
    + by rewrite (higher_missing rl rl' n Hq) in IH.
Qed.
End Lists.

(** ** Settled topologies *)

Section Settled.
Context `{Quantities} (threshold : Z) (nrtShouldIgnore : NodeResourceTopology -> bool).
Notation PFPState := (gmap string PFPCount).

(** What a poll observes: a fingerprint for every node, when none lacks it. *)
Definition observation (nrt : NodeResourceTopology) : option (string * string) :=
  if nrtShouldIgnore nrt then None
  else pair (nrt_Name nrt) <$> attribute_Get (nrt_Attributes nrt) pfp_Attribute.
Definition observations (items : list NodeResourceTopology) : list (string * string) := omap observation items.
Definition complete_poll (items : list NodeResourceTopology) : Prop :=
  Forall (fun nrt => nrtShouldIgnore nrt = true \/ is_Some (attribute_Get (nrt_Attributes nrt) pfp_Attribute)) items.

(** The fingerprints of one node, in order. *)
Definition seen_of (h : list (string * string)) (n : string) : list string :=
  snd <$> filter (fun o => fst o = n) h.

(** How many times in a row the last value of a list comes, the list reversed. *)
Fixpoint run_of (v : string) (l : list string) : Z :=
  match l with
  | [] => 0
  | x :: l' => if decide (x = v) then 1 + run_of v l' else 0
  end%Z.

(** A node is settled when the last observations of it are all the same, and enough. *)
Definition settled (h : list (string * string)) : Prop :=
  forall n, seen_of h n <> [] -> exists v pre, seen_of h n = pre ++ replicate (Z.to_nat threshold) v.

Definition counts (ps : PFPState) (h : list (string * string)) : Prop :=
  forall n, match ps !! n with
            | None => seen_of h n = []
            | Some c => exists l, rev (seen_of h n) = pc_Value c :: l /\ pc_Count c = run_of (pc_Value c) (pc_Value c :: l)
            end.

Lemma seen_of_snoc h n v m : seen_of (h ++ [(n, v)]) m = if decide (n = m) then seen_of h m ++ [v] else seen_of h m.
Proof.
  unfold seen_of. rewrite filter_app, fmap_app. case_decide; subst.
  - rewrite filter_cons_True by done. done.
  - rewrite filter_cons_False by done. by rewrite filter_nil, app_nil_r.
Qed.

Lemma Observe_counts ps h n v : counts ps h -> counts (fst (Observe ps n v)) (h ++ [(n, v)]).
Proof.
  intros Hc m. specialize (Hc m). rewrite seen_of_snoc. unfold Observe.
  destruct (decide (n = m)) as [->|Hne].
  - rewrite rev_app_distr. simpl. destruct (ps !! m) as [c|]; [|].
    + destruct Hc as (l & Hl & Hcnt). case_decide as Hv; simpl; rewrite lookup_insert_eq; simpl.
      * exists (rev (seen_of h m)). split; [done|]. rewrite Hl. simpl. rewrite decide_True by done.
        rewrite decide_False by congruence. lia.
      * subst v. exists (rev (seen_of h m)). split; [done|]. rewrite Hl. simpl in *.
        rewrite !decide_True in * by done. lia.
    + simpl. rewrite lookup_insert_eq. rewrite Hc. simpl. exists []. split; [done|]. by rewrite decide_True.
  - assert (fst (match ps !! n with
       | Some count => if decide (pc_Value count <> v) then (<[n := mkPFPCount v 1]> ps, 1%Z)
                       else (<[n := mkPFPCount (pc_Value count) (pc_Count count + 1)]> ps, (pc_Count count + 1)%Z)
       | None => (<[n := mkPFPCount v 1]> ps, 1%Z)
       end) !! m = ps !! m) as ->; [|done].
    destruct (ps !! n); [case_decide|]; simpl; by rewrite lookup_insert_ne.
Qed.

Lemma observe_all_counts items ps h :
  complete_poll items -> counts ps h ->
  exists ps', observe_all items nrtShouldIgnore ps = inl ps' /\ counts ps' (h ++ observations items).
Proof.
  intros Hcomplete. revert ps h. induction Hcomplete as [|nrt items Hnrt _ IH]; intros ps h Hc; simpl.
  - exists ps. split; [done|]. unfold observations. simpl. by rewrite app_nil_r.
  - unfold observations. simpl. unfold observation at 1. destruct (nrtShouldIgnore nrt) eqn:Hi; [by apply IH|].
    destruct Hnrt as [?|[v Hv]]; [congruence|]. rewrite Hv. simpl.
    destruct (IH _ _ (Observe_counts ps h (nrt_Name nrt) v Hc)) as (ps' & E & Hc'). exists ps'. split; [done|].
    by rewrite <-app_assoc in Hc'.
Qed.

Lemma run_of_suffix v l n : (Z.of_nat n <= run_of v l)%Z -> exists rest, l = replicate n v ++ rest.
Proof.
  revert l. induction n as [|n IH]; intros l Hn; [by exists l|]. destruct l as [|x l]; simpl in Hn; [lia|].
  case_decide as Hx; [|lia]. subst x. destruct (IH l) as [rest ->]; [lia|]. by exists rest.
Qed.

Lemma run_of_replicate v n rest : (Z.of_nat n <= run_of v (replicate n v ++ rest))%Z.
Proof.
  induction n as [|n IH]; simpl.
  - induction rest as [|x rest IH]; simpl; [lia|]. case_decide; lia.
  - rewrite decide_True by done. lia.
Qed.

Lemma rev_replicate (v : string) n : rev (replicate n v) = replicate n v.
Proof. rewrite <-reverse_replicate at 2. unfold reverse. by rewrite rev_alt. Qed.

(** The counters are over the threshold exactly when every node has settled. *)
Lemma AllReady_settled ps h : (0 < threshold)%Z -> counts ps h -> AllReady ps threshold = true <-> settled h.
Proof.
  intros Ht Hc. unfold settled. assert (AllReady ps threshold = true <-> forall n c, ps !! n = Some c -> (threshold <= pc_Count c)%Z) as ->.
  { unfold AllReady. rewrite <-Is_true_true, forallb_True, Forall_forall. split.
    - intros Hall n c Hn%elem_of_map_to_list. apply Z.leb_le, Is_true_true, (Hall _ Hn).
    - intros Hall [n c] Hn%elem_of_map_to_list. apply Is_true_true, Z.leb_le, (Hall n c Hn). }
  split.
  - intros Hall n Hn. specialize (Hc n). destruct (ps !! n) as [c|] eqn:E; [|done]. destruct Hc as (l & Hl & Hcnt).
    specialize (Hall n c E). destruct (run_of_suffix (pc_Value c) (pc_Value c :: l) (Z.to_nat threshold)) as [rest Hr]; [lia|].
    exists (pc_Value c), (rev rest). rewrite <-(rev_involutive (seen_of h n)), Hl, Hr, rev_app_distr. by rewrite rev_replicate.
  - intros Hall n c E. specialize (Hc n). rewrite E in Hc. destruct Hc as (l & Hl & Hcnt).
    destruct (Hall n) as (v & pre & Hp); [by intros Hs; rewrite Hs in Hl|].
    rewrite Hp, rev_app_distr, rev_replicate in Hl. pose proof (run_of_replicate v (Z.to_nat threshold) (rev pre)) as Hrun.
    destruct (Z.to_nat threshold) as [|k] eqn:Ek; [lia|]. simpl in Hl. injection Hl as Hv Hl. subst v.
    rewrite Hcnt. simpl replicate in Hrun. simpl app in Hrun. rewrite Hl in Hrun. lia.
Qed.

(** What was observed up to and with a poll. *)
Definition history (lists : list (list NodeResourceTopology)) (k : nat) : list (string * string) :=
  mjoin (observations <$> take (S k) lists).

Lemma settle_spec lists current ps h :
  (0 < threshold)%Z -> Forall complete_poll lists -> counts ps h ->
  let result := settle (inl <$> lists) current ps threshold nrtShouldIgnore in
  (exists k items, lists !! k = Some items /\ settled (h ++ history lists k) /\
     (forall j, (j < k)%nat -> ~ settled (h ++ history lists j)) /\ result = (items, None)) \/
  (forall k, (k < length lists)%nat -> ~ settled (h ++ history lists k)) /\ snd result = Some err_timeout.
Proof.
  intros Ht Hall. revert current ps h. induction Hall as [|items lists Hitems _ IH]; intros current ps h Hc; simpl.
  { right. split; [intros k Hk; simpl in Hk; lia|done]. }
  destruct (observe_all_counts items ps h Hitems Hc) as (ps' & -> & Hc').
  assert (h ++ history (items :: lists) 0 = h ++ observations items) as H0' by (unfold history; simpl; by rewrite app_nil_r).
  assert (forall k, h ++ history (items :: lists) (S k) = (h ++ observations items) ++ history lists k) as HS
    by (intros k; unfold history; simpl; by rewrite <-app_assoc).
  destruct (AllReady ps' threshold) eqn:Hready.
  - left. exists 0, items. rewrite H0'. split_and!; [done|by apply (AllReady_settled ps')|intros j Hj; lia|done].
  - assert (~ settled (h ++ observations items)) as Hn.
    { intros Hs. apply (AllReady_settled ps' _ Ht Hc') in Hs. congruence. }
    destruct (IH items ps' _ Hc') as [(k & its & Hk & Hs & Hbefore & Hres)|[Hnone Hres]].
    + left. exists (S k), its. rewrite HS. split_and!; [done|done| |done].
      intros [|j] Hj; [by rewrite H0'|]. rewrite HS. apply Hbefore. lia.
    + right. split; [|done]. intros [|k] Hk; [by rewrite H0'|]. rewrite HS. apply Hnone. simpl in Hk. lia.
Qed.

(** C40: Waiting for topologies to settle returns those of the first poll after which
    every node observed so far has settled, or times out when there is none: a node has
    settled when its last observations, as many as the threshold, are one fingerprint,
    whatever nodes come and go; with no node observed it settles at once. *)
Theorem settles lists :
  (0 < threshold)%Z -> Forall complete_poll lists ->
  let result := ForNodeResourceTopologiesSettled (inl <$> lists) threshold nrtShouldIgnore in
  (exists k items, lists !! k = Some items /\ settled (history lists k) /\
     (forall j, (j < k)%nat -> ~ settled (history lists j)) /\ result = (items, None)) \/
  (forall k, (k < length lists)%nat -> ~ settled (history lists k)) /\ snd result = Some err_timeout.
Proof.
  intros Ht Hall. apply (settle_spec lists [] ∅ [] Ht Hall). intros n. by rewrite lookup_empty.
Qed.
End Settled.

(** ** Quantities as integers of nano-units *)

Module nanounits.
#[global] Instance quantities : Quantities := {|
  Quantity := Z;
  q_zero := 0%Z;
  q_Add := Z.add;
  q_Sub := Z.sub;
  q_Cmp q y := Z.sgn (q - y);
  q_Equal := Z.eqb;
  q_Value q := (- (- q / nanos))%Z;
  q_MilliValue q := (- (- q / 10 ^ 6))%Z;
  q_AsInt64 q := (q / nanos, bool_decide (q mod nanos = 0))%Z;
  q_RoundUp s q := (- (- q / (nanos * 10 ^ s)) * (nanos * 10 ^ s))%Z;
  NewQuantity v := (v * nanos)%Z;
  q_String q := pretty q;
  q_verbs q := pretty q |}.

#[global] Instance laws : QuantityLaws.
Proof. refine {| nano := (fun q => q) : @Quantity quantities -> Z |}; intros; simpl; first [done|apply Z.eqb_eq]. Defined.

Definition range (m : gmap string Quantity) : list (string * Quantity) := map_to_list m.

Definition info (name : string) (capacity allocatable available : Z) : ResourceInfo :=
  mkResourceInfo name (NewQuantity capacity) (NewQuantity allocatable) (NewQuantity available).

(** Before and after a reboot: memory moves between two zones, and comes in another
    order. *)
Definition before : list Zone :=
  [mkZone "node-0" "Node" [info "cpu" 4 4 2; info "memory" 8000000000 7000000000 7000000000];
   mkZone "node-1" "Node" [info "cpu" 4 4 4; info "memory" 8000000000 7000000000 7000000000]].
Definition after : list Zone :=
  [mkZone "node-1" "Node" [info "memory" 8000000000 7053760000 7053760000; info "cpu" 4 4 4];
   mkZone "node-0" "Node" [info "memory" 8000000000 6946240000 6946240000; info "cpu" 4 4 2]].
Definition no_env (_ : string) : option string := None.
End nanounits.

Import nanounits.

(** The same difference, allowed one way and refused the other; and a deviation of
    nothing refuses equal quantities. *)
Example QuantityAbsCmp_asymmetric :
  QuantityAbsCmp 5%Z 10%Z 5%Z = true /\ QuantityAbsCmp 10%Z 5%Z 5%Z = false /\ QuantityAbsCmp 5%Z 5%Z 0%Z = false.
Proof. vm_compute. auto. Qed.

Lemma after_distinct : distinct after.
Proof.
  split; [|unfold after; rewrite !Forall_cons; split_and!; try constructor];
    refine (bool_decide_eq_true_1 _ _); vm_compute; reflexivity.
Qed.

Lemma EqualZones_spec_witness :
  EqualZones no_env before after true = (true, None) /\
  decides (EqualZones no_env before after false)
    ((exists zB', zB' ≡ₚ after /\ Forall2 (same_zone no_env false) before zB') /\ (false = true -> node_close true before after)).
Proof.
  split; [vm_compute; reflexivity|]. apply (EqualZones_spec no_env before after false). exact after_distinct.
Defined.

Lemma SubInPlace_spec_witness :
  let res : gmap string Quantity := {["cpu" := 4%Z; "memory" := 10%Z]} in
  let sub : gmap string Quantity := {["cpu" := 3%Z; "devices" := 1%Z]} in
  exists res', SubInPlace range (AddInPlace range res sub) sub = (res', None) /\ forall n, amount res' n = amount res n.
Proof.
  intros res sub. apply (SubInPlace_spec range (fun m => Permutation_refl _) res sub).
  intros n. assert (map_Forall (fun _ q => 0 <= q)%Z res) as Hpos by (refine (bool_decide_eq_true_1 _ _); vm_compute; reflexivity).
  unfold amount, rl_get. destruct (res !! n) as [q|] eqn:Hq; [exact (Hpos n q Hq)|done].
Defined.

Lemma FromPods_spec_witness :
  let pods := [[{["cpu" := (2500 * 10 ^ 6)%Z; "memory" := (3 * nanos)%Z]}; {["cpu" := (100 * 10 ^ 6)%Z]}]; [{["hugepages" := 5%Z]}]] in
  let load := FromPods range "node-0" pods in
  ld_CPU load = (4 * nanos)%Z /\
  (exists cores, nano (ld_CPU load) = 2 * cores * nanos /\
     requested pods ResourceCPU <= nano (ld_CPU load) < requested pods ResourceCPU + 2 * nanos)%Z /\
  (exists gigas, nano (ld_Memory load) = gigas * 10 ^ 9 * nanos /\
     requested pods ResourceMemory <= nano (ld_Memory load) < requested pods ResourceMemory + 10 ^ 9 * nanos)%Z /\
  forall n, n <> ResourceCPU -> n <> ResourceMemory -> amount (ld_Resources load) n = requested pods n.
Proof.
  intros pods load. split; [vm_compute; reflexivity|].
  apply (FromPods_spec range (fun m => Permutation_refl _) "node-0" pods); vm_compute; intuition discriminate.
Defined.

Definition topology (name pfp : string) : NodeResourceTopology :=
  mkNodeResourceTopology name "1" [(pfp_Attribute, pfp)] [].

Lemma settles_witness :
  let lists := [[topology "a" "p"; topology "b" "q"]; [topology "a" "p"; topology "b" "r"]; [topology "a" "p"; topology "b" "r"]] in
  ForNodeResourceTopologiesSettled (inl <$> lists) 2 NRTIgnoreNothing = ([topology "a" "p"; topology "b" "r"], None) /\
  ((exists k items, lists !! k = Some items /\ settled 2 (history NRTIgnoreNothing lists k) /\
      (forall j, (j < k)%nat -> ~ settled 2 (history NRTIgnoreNothing lists j)) /\
      ForNodeResourceTopologiesSettled (inl <$> lists) 2 NRTIgnoreNothing = (items, None)) \/
   (forall k, (k < length lists)%nat -> ~ settled 2 (history NRTIgnoreNothing lists k)) /\
   snd (ForNodeResourceTopologiesSettled (inl <$> lists) 2 NRTIgnoreNothing) = Some err_timeout).
Proof.
  intros lists. split; [reflexivity|]. apply (settles 2 NRTIgnoreNothing lists); [lia|].
  repeat first [apply List.Forall_nil|apply List.Forall_cons]; right; by eexists.
Defined.

(** With no topology, or none but ignored ones, the wait is over at once. *)
Example settles_empty : ForNodeResourceTopologiesSettled [inl []] 5 NRTIgnoreNothing = ([], None).
Proof. reflexivity. Qed.
