(* ===== verification/PfpSync.v ===== *)
(** * The check of pod fingerprints (tools/pfpsyncchk, internal/mustgather)

    The tool compares what the scheduler recorded of the fingerprint of a node it does
    not trust with what the exporter recorded, from two files or from the files of a
    must-gather directory, and prints the pods only one of them counted. The file
    system and the JSON library are an interface. *)
From S2P Require Import Prelude GoErrors Meta.

(** ** Data *)

Record RecordedStatus := mkRecordedStatus {
  rs_FingerprintExpected : string;
  rs_FingerprintComputed : string;
  rs_Pods : list NamespacedName;
  rs_RecordTime : Z }.

Record diff := mkDiff {
  expectedFingerprint : string;
  computedFingerprint : string;
  foundOnRTE : bool;
  schedLastWrite : option Z;
  rteLastWrite : option Z;
  foundOnRTEOnly : list NamespacedName;
  foundOnSchedOnly : list NamespacedName }.

Definition exitCodeSuccess : Z := 0.
Definition exitCodeErrWrongArguments : Z := 1.
Definition exitCodeErrSyncCheck : Z := 2.

(** What the tool uses of the system: directories are walked with what is known of
    every entry, a directory or not, or nothing when it cannot be read. *)
Class FileSystem := {
  OpenRoot : string -> option error;
  OpenFile : string -> option error;
  ReadFile : string -> string + error;
  Unmarshal : string -> list RecordedStatus + error;
  Walk : string -> list (string * option bool);
  ReadDir : string -> list (string * bool) + error;
  Clean : string -> string;
  JoinPath : string -> string -> string;
  show_time : option Z -> string;
  embedded_docs : string;
}.

(** ** Newest records

    Among the records of a key the one with the latest time is kept, the last of them
    when several have it. *)

Definition refine_with (skip : RecordedStatus -> bool) (key : RecordedStatus -> string) (statuses : list RecordedStatus)
  : gmap string RecordedStatus :=
  fold_left (fun refined s =>
    if skip s then refined
    else match refined !! key s with
         | Some existing => if (rs_RecordTime s <? rs_RecordTime existing)%Z then refined else <[key s := s]> refined
         | None => <[key s := s]> refined
         end) statuses ∅.

(** The records the scheduler found in sync are left out. *)
Definition refineSchedListToMap : list RecordedStatus -> gmap string RecordedStatus :=
  refine_with (fun s => bool_decide (rs_FingerprintExpected s = rs_FingerprintComputed s)) rs_FingerprintExpected.
Definition refineRTEListToMap : list RecordedStatus -> gmap string RecordedStatus :=
  refine_with (fun _ => false) rs_FingerprintComputed.

(** ** Differences *)

Section Compare.
(** The orders of a set and of a map. *)
Context (UnsortedList : gset NamespacedName -> list NamespacedName).
Context (range_map : gmap string RecordedStatus -> list (string * RecordedStatus)).

Definition getDiff (a b : list NamespacedName) : list NamespacedName * list NamespacedName :=
  let aSet : gset NamespacedName := list_to_set a in
  let bSet : gset NamespacedName := list_to_set b in
  (UnsortedList (aSet ∖ bSet), UnsortedList (bSet ∖ aSet)).

(** The difference of one fingerprint, if there is one. *)
Definition difference (key : string) (schedStatus : RecordedStatus) (rteStatus : option RecordedStatus) : option diff :=
  match rteStatus with
  | None => Some (mkDiff key (rs_FingerprintComputed schedStatus) false None None [] [])
  | Some rteStatus =>
      match getDiff (rs_Pods rteStatus) (rs_Pods schedStatus) with
      | ([], []) => None
      | (onRTE, onSched) =>
          Some (mkDiff key (rs_FingerprintComputed schedStatus) true (Some (rs_RecordTime schedStatus))
                  (Some (rs_RecordTime rteStatus)) onRTE onSched)
      end
  end.

Definition getDifference (refinedSchedStatuses refinedRTEStatuses : gmap string RecordedStatus) : list diff :=
  omap (fun e => difference (fst e) (snd e) (refinedRTEStatuses !! fst e)) (range_map refinedSchedStatuses).

(** What is printed, as differences, and the error. *)
Definition verifyPFPSync (fromRTE fromSched : list RecordedStatus) : list diff * option error :=
  if decide (fromRTE = [] \/ fromSched = []) then
    ([], Some (ErrNew ("sync check is skipped, recorded statuses are missing: RTEStatusListLength="
                       +:+ pretty (Z.of_nat (length fromRTE)) +:+ ", schedulerStatusListLength="
                       +:+ pretty (Z.of_nat (length fromSched)))))
  else
    let refinedSchedStatuses := refineSchedListToMap fromSched in
    if decide (refinedSchedStatuses = ∅) then ([], None)
    else
      match getDifference refinedSchedStatuses (refineRTEListToMap fromRTE) with
      | [] => ([], Some (ErrNew ("no differences found between pod lists of RTE and scheduler, but node is reported to be "
                                 +:+ "Dirty on the scheduler")))
      | diffStatuses => (diffStatuses, None)
      end.

(** ** Files *)

Context `{!FileSystem}.

Definition eol : string := String (Ascii.ascii_of_nat 10) "".

Definition printPrettyString (sts : list diff) : string :=
  str_join "" ((fun d =>
    "Expected PFP: " +:+ expectedFingerprint d +:+ eol +:+ "Computed PFP: " +:+ computedFingerprint d +:+ eol
    +:+ "Found on RTE: " +:+ (if foundOnRTE d then "true" else "false") +:+ eol
    +:+ "Last write from scheduler: " +:+ show_time (schedLastWrite d) +:+ eol
    +:+ "Last write from RTE: " +:+ show_time (rteLastWrite d) +:+ eol +:+ eol
    +:+ "Pods found on RTE only:" +:+ eol +:+ str_join "" ((fun p => " - " +:+ nn_String p +:+ eol) <$> foundOnRTEOnly d)
    +:+ "Pods found on scheduler only:" +:+ eol +:+ str_join "" ((fun p => " - " +:+ nn_String p +:+ eol) <$> foundOnSchedOnly d)
    +:+ eol +:+ "________________________________" +:+ eol) <$> sts) +:+ eol.

Definition processFile (filePath : string) : list RecordedStatus + error :=
  let failed (what : string) (err : error) := inr (ErrNew ("error " +:+ what +:+ filePath +:+ ": " +:+ Error err)) in
  match OpenRoot filePath with
  | Some err => failed "opening root directory for " err
  | None =>
      match OpenFile filePath with
      | Some err => failed "opening file " err
      | None =>
          match ReadFile filePath with
          | inr err => failed "reading content from " err
          | inl fileContent =>
              match Unmarshal fileContent with
              | inr err => failed "parsing " err
              | inl statusData => inl statusData
              end
          end
      end
  end.

Definition singlePairPFPSyncCheck (rteFilePath schedulerFilePath : string) : string * option error :=
  match processFile rteFilePath with
  | inr err => ("", Some err)
  | inl rteData =>
      match processFile schedulerFilePath with
      | inr err => ("", Some err)
      | inl schedData =>
          let '(diffs, err) := verifyPFPSync rteData schedData in
          ((match diffs with [] => "" | _ => printPrettyString diffs end), err)
      end
  end.

(** *** Must-gather directories *)

(** The error of an entry is not looked at, and then nothing is known of it. *)
Definition getDirPath (mustgatherDir dirSuffix : string) : go (string + error) :=
  let! foundPaths :=
    go_fold (fun found e => let! isDir := deref "info" (snd e) in
                            Ret (if isDir && HasSuffix (fst e) dirSuffix then found ++ [fst e] else found))
      [] (Walk mustgatherDir) in
  Ret match foundPaths with
      | [] => inr (ErrNew ("no directory found ending with " +:+ dirSuffix))
      | [path] => inl path
      | _ => inr (ErrNew ("multiple directories found ending with " +:+ dirSuffix))
      end.

Definition getFilesPaths (mustgatherDir : string) : gmap string string + error :=
  let mustgatherDir := Clean mustgatherDir in
  match ReadDir mustgatherDir with
  | inr err => inr (ErrNew ("failed to read directory: " +:+ Error err))
  | inl content =>
      inl (fold_left (fun found (e : string * bool) => if snd e then found else <[fst e := JoinPath mustgatherDir (fst e)]> found) content ∅)
  end.

Definition FindFilesUnderDir (mustgatherDir suffix : string) : go (gmap string string + error) :=
  let! foundDir := getDirPath mustgatherDir suffix in
  Ret (let? dir := foundDir in getFilesPaths dir).

Context (range_files : gmap string string -> list (string * string)).

(** A node without a file of the exporter is skipped; the first failure ends the check. *)
Fixpoint check_nodes (schedNodeFiles : list (string * string)) (rteNodeFiles : gmap string string) (out : string)
  : string * option error :=
  match schedNodeFiles with
  | [] => (out, None)
  | (node, schedFilePath) :: rest =>
      match rteNodeFiles !! node with
      | None => check_nodes rest rteNodeFiles out
      | Some rteFilePath =>
          let line := "******************************************************************************************" +:+ eol in
          let out := out +:+ line +:+ "Processing node:  " +:+ node +:+ eol +:+ line in
          match singlePairPFPSyncCheck rteFilePath schedFilePath with
          | (printed, Some err) => (out +:+ printed, Some err)
          | (printed, None) => check_nodes rest rteNodeFiles (out +:+ printed)
          end
      end
  end.

Definition mustGatherPFPSyncCheck (mustGatherDirPath : string) : go (string * option error) :=
  let! schedNodeFiles := FindFilesUnderDir mustGatherDirPath "/pfpstatus/scheduler" in
  match schedNodeFiles with
  | inr _ => Ret ("", None)
  | inl schedNodeFiles =>
      let! rteNodeFiles := FindFilesUnderDir mustGatherDirPath "/pfpstatus/resource-topology-exporters" in
      match rteNodeFiles with
      | inr _ => Ret ("", None)
      | inl rteNodeFiles => Ret (check_nodes (range_files schedNodeFiles) rteNodeFiles "")
      end
  end.

(** [main], once the flags are parsed: what is printed, and the status of the exit. *)
Definition pfpsyncchk (nargs : nat) (fullHelp : bool) (mustGatherDirPath rteFilePath schedulerFilePath : string)
  : go (string * Z) :=
  let exit (r : string * option error) := (fst r, match snd r with Some _ => exitCodeErrSyncCheck | None => exitCodeSuccess end) in
  if decide (nargs <> 0%nat) then Ret ("", exitCodeErrWrongArguments)
  else if fullHelp then Ret (embedded_docs +:+ eol, exitCodeSuccess)
  else if decide (mustGatherDirPath = "" /\ (rteFilePath = "" \/ schedulerFilePath = "")) then Ret ("", exitCodeErrWrongArguments)
  else if decide (mustGatherDirPath = "") then Ret (exit (singlePairPFPSyncCheck rteFilePath schedulerFilePath))
  else let! r := mustGatherPFPSyncCheck mustGatherDirPath in Ret (exit r).
End Compare.

(** ** Theorems *)

(** The latest record of a list that satisfies a property, the last of them when
    several have the latest time. *)
Definition latest (P : RecordedStatus -> Prop) (l : list RecordedStatus) (s : RecordedStatus) : Prop :=
  exists l1 l2, l = l1 ++ s :: l2 /\ P s /\
    (forall x, x ∈ l1 -> P x -> (rs_RecordTime x <= rs_RecordTime s)%Z) /\
    (forall x, x ∈ l2 -> P x -> (rs_RecordTime x < rs_RecordTime s)%Z).

Lemma latest_snoc_other P l x s : ~ P x -> latest P (l ++ [x]) s <-> latest P l s.
Proof.
  intros Hx. split.
  - intros (l1 & l2 & E & Hs & H1 & H2). destruct l2 as [|y l2 _] using rev_ind.
    { apply app_inj_tail in E as [_ ->]. done. }
    rewrite app_comm_cons, app_assoc in E. apply app_inj_tail in E as [-> <-]. exists l1, l2. split_and!; try done.
    intros z Hz. apply H2. set_solver.
  - intros (l1 & l2 & -> & Hs & H1 & H2). exists l1, (l2 ++ [x]). rewrite <-app_assoc. split_and!; try done.
    intros z [Hz| ->%list_elem_of_singleton]%elem_of_app; [by apply H2|done].
Qed.

Lemma latest_time P l s x : latest P l s -> x ∈ l -> P x -> (rs_RecordTime x <= rs_RecordTime s)%Z.
Proof.
  intros (l1 & l2 & -> & Hs & H1 & H2) Hx HP. apply elem_of_app in Hx as [Hx|[->|Hx]%elem_of_cons]; [by apply H1|lia|].
  specialize (H2 x Hx HP). lia.
Qed.

Lemma latest_snoc_newer P l x : P x -> (forall y, y ∈ l -> P y -> (rs_RecordTime y <= rs_RecordTime x)%Z) -> latest P (l ++ [x]) x.
Proof. intros HP Hl. exists l, []. split_and!; try done. by intros ? ?%elem_of_nil. Qed.

Lemma latest_snoc_older P l x s : (rs_RecordTime x < rs_RecordTime s)%Z -> latest P l s -> latest P (l ++ [x]) s.
Proof.
  intros Hx (l1 & l2 & -> & Hs & H1 & H2). exists l1, (l2 ++ [x]). rewrite <-app_assoc. split_and!; try done.
  intros z [Hz| ->%list_elem_of_singleton]%elem_of_app HP; [by apply H2|done].
Qed.

Section Refine.
Context (skip : RecordedStatus -> bool) (key : RecordedStatus -> string).

Definition recorded (k : string) (s : RecordedStatus) : Prop := skip s = false /\ key s = k.

(** Refinement keeps, for every key, the latest record. *)
Lemma refine_with_spec l k :
  match refine_with skip key l !! k with
  | Some s => latest (recorded k) l s
  | None => forall s, s ∈ l -> ~ recorded k s
  end.
Proof.
  unfold refine_with. induction l as [|x l IH] using rev_ind; [cbn [fold_left]; rewrite lookup_empty; by intros s ?%elem_of_nil|].
  rewrite fold_left_app. cbn [fold_left].
  match goal with |- context [fold_left ?f l ∅] => remember (fold_left f l ∅) as m eqn:Hm; clear Hm end.
  assert (~ recorded k x -> match m !! k with
            | Some s => latest (recorded k) (l ++ [x]) s
            | None => forall s, s ∈ l ++ [x] -> ~ recorded k s end) as Hother.
  { intros Hx. destruct (m !! k); [by apply latest_snoc_other|].
    intros s [Hs| ->%list_elem_of_singleton]%elem_of_app; [by apply IH|done]. }
  destruct (skip x) eqn:Hskip; [apply Hother; unfold recorded; intros [? _]; congruence|].
  destruct (decide (key x = k)) as [Hk|Hk].
  - rewrite Hk. assert (recorded k x) as Hrec by done. destruct (m !! k) as [s|] eqn:E.
    + destruct (rs_RecordTime x <? rs_RecordTime s)%Z eqn:Hlt; [apply Z.ltb_lt in Hlt; rewrite E; by apply latest_snoc_older|].
      apply Z.ltb_ge in Hlt. rewrite lookup_insert_eq. apply latest_snoc_newer; [done|]. intros y Hy HP.
      pose proof (latest_time _ _ _ _ IH Hy HP). lia.
    + rewrite lookup_insert_eq. apply latest_snoc_newer; [done|]. intros y Hy HP. by destruct (IH y Hy).
  - assert (~ recorded k x) as Hx by (by intros [_ ?]). specialize (Hother Hx).
    destruct (m !! key x) as [e|]; [destruct (_ <? _)%Z|]; by rewrite ?lookup_insert_ne.
Qed.
End Refine.

(** A record of the scheduler that is off for a fingerprint; a record of the exporter
    of it. *)
Definition dirty (fp : string) (s : RecordedStatus) : Prop :=
  rs_FingerprintExpected s <> rs_FingerprintComputed s /\ rs_FingerprintExpected s = fp.
Definition computed (fp : string) (s : RecordedStatus) : Prop := rs_FingerprintComputed s = fp.

Section Verify.
Context (UnsortedList : gset NamespacedName -> list NamespacedName) (range_map : gmap string RecordedStatus -> list (string * RecordedStatus)).
Hypothesis UnsortedList_perm : forall X, UnsortedList X ≡ₚ elements X.
Hypothesis range_map_perm : forall m, range_map m ≡ₚ map_to_list m.

Lemma latest_ext P Q l s : (forall x, P x <-> Q x) -> latest P l s -> latest Q l s.
Proof. intros HPQ (l1 & l2 & -> & Hs & H1 & H2). exists l1, l2. split_and!; [done|by apply HPQ|naive_solver..]. Qed.

Lemma sched_recorded fp x :
  recorded (fun s => bool_decide (rs_FingerprintExpected s = rs_FingerprintComputed s)) rs_FingerprintExpected fp x <-> dirty fp x.
Proof. unfold recorded, dirty. by rewrite bool_decide_eq_false. Qed.

Lemma sched_refined l fp :
  match refineSchedListToMap l !! fp with
  | Some s => latest (dirty fp) l s
  | None => forall s, s ∈ l -> ~ dirty fp s
  end.
Proof.
  pose proof (refine_with_spec (fun s => bool_decide (rs_FingerprintExpected s = rs_FingerprintComputed s)) rs_FingerprintExpected l fp) as Hr.
  unfold refineSchedListToMap. destruct (refine_with _ _ l !! fp).
  - eapply latest_ext; [|exact Hr]. apply sched_recorded.
  - intros s Hs. rewrite <-sched_recorded. by apply Hr.
Qed.

Lemma rte_refined l fp :
  match refineRTEListToMap l !! fp with
  | Some s => latest (computed fp) l s
  | None => forall s, s ∈ l -> ~ computed fp s
  end.
Proof.
  pose proof (refine_with_spec (fun _ => false) rs_FingerprintComputed l fp) as Hr.
  unfold refineRTEListToMap. destruct (refine_with _ _ l !! fp).
  - eapply latest_ext; [|exact Hr]. intros x. unfold recorded, computed. tauto.
  - intros s Hs Hc. by apply (Hr s Hs).
Qed.

Lemma elem_of_UnsortedList X p : p ∈ UnsortedList X <-> p ∈ X.
Proof. by rewrite UnsortedList_perm, elem_of_elements. Qed.

(** What the tool should print about a fingerprint: that the exporter never computed it,
    or the pods only one side counted. *)
Definition reported (fromRTE fromSched : list RecordedStatus) (fp : string) (d : diff) : Prop :=
  exists s, latest (dirty fp) fromSched s /\
    expectedFingerprint d = fp /\ computedFingerprint d = rs_FingerprintComputed s /\
    if foundOnRTE d then
      exists r, latest (computed fp) fromRTE r /\ ~ (forall p, p ∈ rs_Pods r <-> p ∈ rs_Pods s) /\
        schedLastWrite d = Some (rs_RecordTime s) /\ rteLastWrite d = Some (rs_RecordTime r) /\
        (forall p, p ∈ foundOnRTEOnly d <-> p ∈ rs_Pods r /\ p ∉ rs_Pods s) /\
        (forall p, p ∈ foundOnSchedOnly d <-> p ∈ rs_Pods s /\ p ∉ rs_Pods r)
    else
      (forall r, r ∈ fromRTE -> ~ computed fp r) /\
      schedLastWrite d = None /\ rteLastWrite d = None /\ foundOnRTEOnly d = [] /\ foundOnSchedOnly d = [].

(** Nothing to print: both sides computed the fingerprint from the same pods. *)
Definition explained (fromRTE fromSched : list RecordedStatus) (fp : string) : Prop :=
  exists s r, latest (dirty fp) fromSched s /\ latest (computed fp) fromRTE r /\ forall p, p ∈ rs_Pods r <-> p ∈ rs_Pods s.

Lemma getDiff_spec a b :
  let '(onA, onB) := getDiff UnsortedList a b in
  (forall p, p ∈ onA <-> p ∈ a /\ p ∉ b) /\ (forall p, p ∈ onB <-> p ∈ b /\ p ∉ a).
Proof. unfold getDiff. split; intros p; rewrite elem_of_UnsortedList; set_solver. Qed.

Lemma difference_spec fromRTE fromSched fp s :
  latest (dirty fp) fromSched s ->
  match difference UnsortedList fp s (refineRTEListToMap fromRTE !! fp) with
  | Some d => reported fromRTE fromSched fp d
  | None => explained fromRTE fromSched fp
  end.
Proof.
  intros Hs. unfold difference. pose proof (rte_refined fromRTE fp) as Hr.
  destruct (refineRTEListToMap fromRTE !! fp) as [r|].
  - pose proof (getDiff_spec (rs_Pods r) (rs_Pods s)) as Hd. destruct (getDiff _ _ _) as [onRTE onSched]. destruct Hd as [H1 H2].
    assert (onRTE <> [] \/ onSched <> [] -> ~ (forall p, p ∈ rs_Pods r <-> p ∈ rs_Pods s)) as Hne.
    { intros Hor Hall. destruct Hor as [Hor|Hor]; apply Hor, elem_of_nil_inv; intros p; rewrite ?H1, ?H2; naive_solver. }
    destruct onRTE as [|p1 onRTE], onSched as [|p2 onSched];
      try (exists s; split_and!; try done; exists r; split_and!; try done; apply Hne; naive_solver).
    exists s, r. split_and!; try done. intros p. specialize (H1 p). specialize (H2 p).
    rewrite elem_of_nil in H1, H2. destruct (decide (p ∈ rs_Pods r)), (decide (p ∈ rs_Pods s)); tauto.
  - exists s. split_and!; try done.
Qed.

(** C38: The tool prints, once for every fingerprint the scheduler found off, the
    difference between the latest such record and the latest one of the exporter with
    that fingerprint: that there is none, or the pods only one of them counted; and
    nothing about a fingerprint both computed from the same pods. It fails when one of
    the lists is empty, or when some fingerprint was found off and all were computed from
    the same pods. *)
Theorem verifyPFPSync_spec fromRTE fromSched :
  let '(printed, err) := verifyPFPSync UnsortedList range_map fromRTE fromSched in
  let empty := fromRTE = [] \/ fromSched = [] in
  (forall d, d ∈ printed -> ~ empty /\ reported fromRTE fromSched (expectedFingerprint d) d) /\
  (forall fp s, ~ empty -> s ∈ fromSched -> dirty fp s ->
     (exists d, d ∈ printed /\ expectedFingerprint d = fp) \/ explained fromRTE fromSched fp) /\
  NoDup (expectedFingerprint <$> printed) /\
  (is_Some err <-> empty \/ (exists fp s, s ∈ fromSched /\ dirty fp s) /\ printed = []).
Proof.
  unfold verifyPFPSync. case_decide as Hempty.
  { split_and!; [by intros d ?%elem_of_nil|done|constructor|]. split; [by left|by eexists]. }
  case_decide as Hnone.
  { assert (forall fp s, s ∈ fromSched -> ~ dirty fp s) as Hclean.
    { intros fp s Hs. pose proof (sched_refined fromSched fp) as Hr. rewrite Hnone, lookup_empty in Hr. by apply Hr. }
    split_and!; [by intros d ?%elem_of_nil|intros fp s _ Hs Hd; by destruct (Hclean fp s)|constructor|].
    split; [by intros [? ?]|]. intros [?|[(fp & s & Hs & Hd) _]]; [done|by destruct (Hclean fp s)]. }
  assert (exists fp s, s ∈ fromSched /\ dirty fp s) as Hsome.
  { apply map_choose in Hnone as (fp & s & Hs). pose proof (sched_refined fromSched fp) as Hr. rewrite Hs in Hr.
    destruct Hr as (l1 & l2 & -> & Hd & _). exists fp, s. split; [set_solver|done]. }
  remember (getDifference UnsortedList range_map (refineSchedListToMap fromSched) (refineRTEListToMap fromRTE)) as diffs eqn:Hdiffs.
  assert (forall fp s, (fp, s) ∈ range_map (refineSchedListToMap fromSched) <-> refineSchedListToMap fromSched !! fp = Some s) as Hin.
  { intros fp s. by rewrite range_map_perm, elem_of_map_to_list. }
  assert (forall d, d ∈ diffs -> reported fromRTE fromSched (expectedFingerprint d) d) as Hrep.
  { intros d. rewrite Hdiffs. unfold getDifference. rewrite list_elem_of_omap. intros ([fp s] & Hs%Hin & Hd). simpl in Hd.
    pose proof (sched_refined fromSched fp) as Hr. rewrite Hs in Hr. pose proof (difference_spec fromRTE fromSched fp s Hr) as Hdd.
    rewrite Hd in Hdd. destruct Hdd as (s' & ? & <- & ?). by exists s'. }
  assert (forall fp s, s ∈ fromSched -> dirty fp s -> (exists d, d ∈ diffs /\ expectedFingerprint d = fp) \/ explained fromRTE fromSched fp) as Hall.
  { intros fp s Hs Hd. pose proof (sched_refined fromSched fp) as Hr.
    destruct (refineSchedListToMap fromSched !! fp) as [s'|] eqn:E; [|by destruct (Hr s Hs)].
    pose proof (difference_spec fromRTE fromSched fp s' Hr) as Hdd.
    destruct (difference UnsortedList fp s' (refineRTEListToMap fromRTE !! fp)) as [d|] eqn:Ed; [left|by right].
    exists d. split; [|by destruct Hdd as (? & _ & ? & _)]. rewrite Hdiffs. apply list_elem_of_omap. exists (fp, s'). by rewrite Hin. }
  assert (NoDup (expectedFingerprint <$> diffs)) as Hnd.
  { assert (NoDup (fst <$> range_map (refineSchedListToMap fromSched))) as Hk by (rewrite range_map_perm; apply NoDup_fst_map_to_list).
    assert (sublist (expectedFingerprint <$> diffs) (fst <$> range_map (refineSchedListToMap fromSched))) as Hsub;
      [|by eapply sublist_NoDup]. rewrite Hdiffs. unfold getDifference. clear.
    induction (range_map (refineSchedListToMap fromSched)) as [|[fp s] l IH]; simpl; [constructor|].
    destruct (difference _ _ _ _) as [d|] eqn:Ed; simpl; [|by constructor].
    assert (expectedFingerprint d = fp) as ->; [|by constructor].
    unfold difference in Ed. destruct (refineRTEListToMap fromRTE !! fp); [|by injection Ed as <-].
    destruct (getDiff _ _ _) as [[|??] [|??]]; by simplify_eq/=. }
  destruct diffs as [|d diffs].
  - split_and!; [by intros d ?%elem_of_nil|intros fp s _; apply Hall|constructor|]. split; [by right|by eexists].
  - split_and!; [intros d' Hd'; split; [done|by apply Hrep]|intros fp s _; apply Hall|done|].
    split; [by intros [? ?]|by intros [?|[_ ?]]].
Qed.
End Verify.

(** ** A concrete check *)

Definition pod (name : string) : NamespacedName := mkNamespacedName "ns" name.

Lemma verifyPFPSync_spec_witness :
  let rte := [mkRecordedStatus "" "pfp1" [pod "a"; pod "b"] 10; mkRecordedStatus "" "pfp1" [pod "a"] 20] in
  let sched := [mkRecordedStatus "pfp1" "pfp2" [pod "a"; pod "c"] 15; mkRecordedStatus "pfp3" "pfp2" [] 16;
                mkRecordedStatus "pfp4" "pfp4" [] 17] in
  let diffs := fst (verifyPFPSync elements map_to_list rte sched) in
  length diffs = 2%nat /\
  (forall d, d ∈ diffs -> ~ (rte = [] \/ sched = []) /\ reported rte sched (expectedFingerprint d) d).
Proof.
  intros rte sched. split; [vm_compute; reflexivity|].
  pose proof (verifyPFPSync_spec elements map_to_list (fun X => Permutation_refl _) (fun m => Permutation_refl _) rte sched) as Hs.
  destruct (verifyPFPSync elements map_to_list rte sched) as [printed err]. exact (proj1 Hs).
Defined.

(** A directory that cannot be read makes the tool panic. *)
Lemma getDirPath_panics `{FileSystem} dir suffix rest :
  Walk dir = (dir, None) :: rest -> getDirPath dir suffix = Panic (NilDereference "info").
Proof. unfold getDirPath. by intros ->. Qed.
