(* ===== verification/Waits.v ===== *)
(** * Waiting for objects (internal/wait, without the topologies), listing pods
    (internal/podlist), and the pod that leads (pkg/numaresourcesscheduler/controlplane)

    A wait asks the cluster for an object until a condition holds, an answer is an
    error the wait does not tolerate, or the time is over. The client is the sequence
    of the answers for each name, as far as the time allows polls; with no more
    answers the time is over. An object that was never read is the zero value the
    code starts from. *)
From S2P Require Import Prelude GoErrors Meta ApiV1 Conditions Steps Trees Workload Objects Cluster.
From S2P Require Import RteState Dangling Controller SchedParams SchedApi SchedUpdate SchedState SchedController.
From S2P Require Import Nrovalidate Resources.

(** ** Polling *)

Section Poll.
Context {A : Type}.

(** [PollUntilContextTimeout], on a condition that reads the object into a variable. *)
Fixpoint poll (cond : A + error -> bool + error) (polls : list (A + error)) (current : A) : A * option error :=
  match polls with
  | [] => (current, Some err_timeout)
  | answer :: polls =>
      let current := match answer with inl a => a | inr _ => current end in
      match cond answer with
      | inr err => (current, Some err)
      | inl true => (current, None)
      | inl false => poll cond polls current
      end
  end.

(** The conditions: an error ends the wait; or only one that is not "not found"; or none. *)
Definition answered (f : A -> bool) (answer : A + error) : bool + error :=
  match answer with inl a => inl (f a) | inr err => inr err end.
Definition created (f : A -> bool) (answer : A + error) : bool + error :=
  match answer with inl a => inl (f a) | inr err => if IsNotFound err then inl false else inr err end.
Definition eventually (f : A -> bool) (answer : A + error) : bool + error :=
  match answer with inl a => inl (f a) | inr _ => inl false end.

Definition deletionStatusFromError (err : option error) : bool + error :=
  match err with
  | None => inl false
  | Some err => if IsNotFound err then inl true else inr err
  end.
Definition gone (answer : A + error) : bool + error :=
  deletionStatusFromError (match answer with inl _ => None | inr err => Some err end).
End Poll.

(** The client: for each name, the answers to the successive reads. *)
Notation Polls A := (NamespacedName -> list (A + error)).

(** ** Daemon sets *)

Record DaemonSetCounts := mkDaemonSetCounts {
  dc_Desired : Z; dc_Current : Z; dc_Ready : Z; dc_Updated : Z; dc_Available : Z; dc_Unavailable : Z }.
Definition noCounts : DaemonSetCounts := mkDaemonSetCounts 0 0 0 0 0 0.

Definition AreDaemonSetPodsReady (st : DaemonSetCounts) : bool :=
  (0 <? dc_Desired st)%Z && (dc_Current st =? dc_Desired st)%Z && (dc_Available st =? dc_Desired st)%Z
  && (dc_Unavailable st =? 0)%Z.

Definition ForDaemonSetReadyByKey (cli : Polls DaemonSetCounts) (key : NamespacedName) : DaemonSetCounts * option error :=
  poll (created AreDaemonSetPodsReady) (cli key) noCounts.

Definition ForDaemonsetPodsCreation (cli : Polls DaemonSetCounts) (key : NamespacedName) (expectedPods : Z)
  : DaemonSetCounts * option error :=
  poll (created (fun st => dc_Desired st =? expectedPods)%Z) (cli key) noCounts.

Definition ForDaemonSetDeleted (cli : Polls DaemonSetCounts) (dskey : NamespacedName) : option error :=
  snd (poll gone (cli dskey) noCounts).

(** ** Deployments and replica sets *)

Record ReplicaCounts := mkReplicaCounts {
  rc_ObservedGeneration : Z; rc_Replicas : Z; rc_UpdatedReplicas : Z; rc_ReadyReplicas : Z; rc_AvailableReplicas : Z }.
Definition noReplicas : ReplicaCounts := mkReplicaCounts 0 0 0 0 0.

(** A deployment or a replica set, as its wait reads it. *)
Record Replicated := mkReplicated { rp_Key : NamespacedName; rp_Generation : Z; rp_Replicas : option Z }.

Definition areDeploymentReplicasAvailable (st : ReplicaCounts) (replicas : Z) : bool :=
  (rc_Replicas st =? replicas)%Z && (rc_UpdatedReplicas st =? replicas)%Z && (rc_AvailableReplicas st =? replicas)%Z.

Definition IsDeploymentComplete (oldGeneration : Z) (st : ReplicaCounts) (expectedReplicas : Z) : bool :=
  if (rc_ObservedGeneration st <? oldGeneration)%Z then false else areDeploymentReplicasAvailable st expectedReplicas.

Definition ForDeploymentCompleteWithReplicas (cli : Polls ReplicaCounts) (dp : Replicated) (newExpectedReplicas : Z)
  : ReplicaCounts * option error :=
  poll (answered (fun st => IsDeploymentComplete (rp_Generation dp) st newExpectedReplicas)) (cli (rp_Key dp)) noReplicas.

Definition ForDeploymentComplete (cli : Polls ReplicaCounts) (dp : Replicated) : go (ReplicaCounts * option error) :=
  let! replicas := deref "dp.Spec.Replicas" (rp_Replicas dp) in
  Ret (ForDeploymentCompleteWithReplicas cli dp replicas).

Definition ForDeploymentReplicasCreation (cli : Polls ReplicaCounts) (dp : Replicated) (expectedReplicas : Z)
  : ReplicaCounts * option error :=
  poll (answered (fun st => rc_Replicas st =? expectedReplicas)%Z) (cli (rp_Key dp)) noReplicas.

Definition ForDeploymentReplicasReadiness (cli : Polls ReplicaCounts) (dp : Replicated) (expectedReplicas : Z)
  : ReplicaCounts * option error :=
  poll (answered (fun st => rc_ReadyReplicas st =? expectedReplicas)%Z) (cli (rp_Key dp)) noReplicas.

Definition isReplicasetComplete (rs : Replicated) (st : ReplicaCounts) : go bool :=
  let! replicas := deref "rs.Spec.Replicas" (rp_Replicas rs) in
  Ret ((rc_ReadyReplicas st =? replicas)%Z && (rc_Replicas st =? replicas)%Z && (rc_AvailableReplicas st =? replicas)%Z
       && (rp_Generation rs <=? rc_ObservedGeneration st)%Z).

(** The pointer is read in the condition, after the first read that succeeds. *)
Fixpoint ForReplicasetComplete_polls (polls : list (ReplicaCounts + error)) (rs : Replicated) (current : ReplicaCounts)
  : go (ReplicaCounts * option error) :=
  match polls with
  | [] => Ret (current, Some err_timeout)
  | inr err :: _ => Ret (current, Some err)
  | inl st :: polls =>
      let! complete := isReplicasetComplete rs st in
      if complete then Ret (st, None) else ForReplicasetComplete_polls polls rs st
  end.
Definition ForReplicasetComplete (cli : Polls ReplicaCounts) (rs : Replicated) : go (ReplicaCounts * option error) :=
  ForReplicasetComplete_polls (cli (rp_Key rs)) rs noReplicas.

(** ** Jobs, pools and node pools *)

(** The type and the status of a condition. *)
Notation TypedStatus := (string * string)%type.

Definition findJobCondition (conditions : list TypedStatus) (condType : string) : option TypedStatus :=
  snd <$> list_find (fun c => fst c = condType) conditions.

Definition isJobCompleted (conditions : list TypedStatus) : bool :=
  match findJobCondition conditions "Complete" with
  | None => false
  | Some cond => bool_decide (snd cond = ConditionTrue)
  end.

Definition ForJobCompleted (cli : Polls (list TypedStatus)) (jobKey : NamespacedName) : list TypedStatus * option error :=
  poll (answered isJobCompleted) (cli jobKey) [].

(** A pool is its resource version and its conditions. *)
Definition mcp_condition_reached (version condType : string) (updatedMcp : string * list TypedStatus) : bool :=
  if decide (fst updatedMcp = version) then false
  else match findJobCondition (snd updatedMcp) condType with
       | Some cond => bool_decide (snd cond = ConditionTrue)
       | None => false
       end.
Definition ForMachineConfigPoolCondition (cli : Polls (string * list TypedStatus)) (key : NamespacedName)
  (version condType : string) : option error :=
  snd (poll (answered (mcp_condition_reached version condType)) (cli key) ("", [])).

Definition NodePoolUpdatingConfig : string := "UpdatingConfig".
Definition updating_config (status : string) (conds : list TypedStatus) : bool :=
  match findJobCondition conds NodePoolUpdatingConfig with
  | Some cond => bool_decide (snd cond = status)
  | None => false
  end.

Definition waitForCondition (cli : Polls (list TypedStatus)) (npName namespace : string)
  (conditionFunc : list TypedStatus -> bool) : option error :=
  snd (poll (answered conditionFunc) (cli (mkNamespacedName namespace npName)) []).
Definition ForUpdatingConfig (cli : Polls (list TypedStatus)) (npName namespace : string) : option error :=
  waitForCondition cli npName namespace (updating_config ConditionTrue).
Definition ForConfigToBeReady (cli : Polls (list TypedStatus)) (npName namespace : string) : option error :=
  waitForCondition cli npName namespace (updating_config ConditionFalse).

(** ** Deletions; the object read is not looked at *)

Definition ForMachineConfigPoolDeleted (cli : Polls ()) (key : NamespacedName) : option error := snd (poll gone (cli key) ()).
Definition ForMCOKubeletConfigDeleted (cli : Polls ()) (kcName : string) : option error :=
  snd (poll gone (cli (mkNamespacedName "" kcName)) ()).
Definition ForKubeletConfigDeleted (cli : Polls ()) (key : NamespacedName) : option error := snd (poll gone (cli key) ()).
Definition ForNUMAResourcesOperatorDeleted (cli : Polls ()) (key : NamespacedName) : option error :=
  snd (poll gone (cli key) ()).
Definition ForNUMAResourcesSchedulerDeleted (cli : Polls ()) (key : NamespacedName) : option error :=
  snd (poll gone (cli key) ()).

(** The daemon sets of the status. *)
Definition ForDaemonsetInNUMAResourcesOperatorStatus (cli : Polls NUMAResourcesOperator) (zero : NUMAResourcesOperator)
  (key : NamespacedName) : NUMAResourcesOperator * option error :=
  poll (answered (fun i => negb (bool_decide (st_DaemonSets (nro_Status i) = [])))) (cli key) zero.

(** ** Pods *)

Definition noPod : Pod := mkPod "" "" "".
Definition PodRunning : string := "Running".
Definition pod_Key (p : Pod) : NamespacedName := mkNamespacedName (pod_Namespace p) (pod_Name p).
Definition in_phase (phase : string) (p : Pod) : bool := bool_decide (pod_Phase p = phase).

(** One read in each step; there are as many answers as steps. *)
Fixpoint while_in_phase (key : NamespacedName) (steps : nat) (polls : nat -> Pod + error) (step : nat) (updatedPod : Pod)
  (phase : string) : Pod * option error :=
  match steps with
  | O => (updatedPod, None)
  | S steps =>
      match polls step with
      | inr err => (updatedPod, Some err)
      | inl pod =>
          if in_phase phase pod then while_in_phase key steps polls (S step) pod phase
          else (pod, Some (ErrNew ("pod " +:+ nn_String key +:+ " unexpected phase " +:+ quote (pod_Phase pod)
                                     +:+ " expected " +:+ quote phase)))
      end
  end.
Definition WhileInPodPhase (pollSteps : Z) (polls : nat -> Pod + error) (podNamespace podName phase : string)
  : Pod * option error :=
  while_in_phase (mkNamespacedName podNamespace podName) (Z.to_nat pollSteps) polls 0 noPod phase.

Definition ForPodPhase (cli : Polls Pod) (key : NamespacedName) (phase : string) : Pod * option error :=
  poll (eventually (in_phase phase)) (cli key) noPod.

Definition ForPodDeleted (cli : Polls Pod) (key : NamespacedName) : option error := snd (poll gone (cli key) noPod).

(** The waits run at once and report as they end: [ended] is the pods in this order. *)
Definition ForPodsAllRunning (cli : Polls Pod) (ended : list Pod) : list Pod * list Pod :=
  fold_left (fun acc pod =>
               let '(failed, updated) := acc in
               match ForPodPhase cli (pod_Key pod) PodRunning with
               | (updatedPod, Some _) => (failed ++ [updatedPod], updated)
               | (updatedPod, None) => (failed, updated ++ [updatedPod])
               end) ended ([], []).

(** The group of goroutines keeps the first error it gets. *)
Definition ForPodsAllDeleted (cli : Polls Pod) (ended : list Pod) : option error :=
  fold_left (fun first pod => match first with
                              | Some err => Some err
                              | None => ForPodDeleted cli (pod_Key pod)
                              end) ended None.

(** ** Listing (internal/podlist) *)

Section Listing.
Context `{SelectorLib} {A : Type}.

(** The client's [List] in a namespace, or in all of them. *)
Context (cli_List : option string -> (gmap string string -> bool) -> list A + error).

Definition ByDaemonset (selector : option LabelSelector) : list A + error :=
  let? sel := pointer_selector selector in cli_List None sel.
Definition ByReplicaSet (namespace : string) (selector : option LabelSelector) : list A + error :=
  let? sel := pointer_selector selector in cli_List (Some namespace) sel.
Definition ReplicaSetByDeployment (namespace : string) (selector : option LabelSelector) : list A + error :=
  let? sel := pointer_selector selector in cli_List (Some namespace) sel.

(** The field selector is parsed by the library. *)
Definition OnNode (parse_field : string -> option error) (onNode : string -> list A + error) (nodeName : string) : list A + error :=
  match parse_field ("spec.nodeName=" +:+ nodeName) with
  | Some err => inr err
  | None => onNode nodeName
  end.
End Listing.

(** ** The leader of an election; the lease is the identity of its holder *)

Definition GetLeaderPod (lease : NamespacedName -> option string + error) (namespace : string) : NamespacedName + error :=
  let name := namespace +:+ "/" +:+ LeaderElectionResourceName in
  match lease (mkNamespacedName namespace LeaderElectionResourceName) with
  | inr err => inr (ErrWrap ("failed to get lease " +:+ name +:+ ": ") err)
  | inl None => inr (ErrNew ("lease " +:+ name +:+ " has no holder"))
  | inl (Some holderIdentity) =>
      if decide (holderIdentity = "") then inr (ErrNew ("lease " +:+ name +:+ " has no holder"))
      else match split_last "_" holderIdentity with
           | None => inr (ErrNew ("unexpected holder identity format: " +:+ quote holderIdentity))
           | Some (podName, _) => inl (mkNamespacedName namespace podName)
           end
  end.

(** ** Theorems *)

Section PollLemmas.
Context {A : Type} (cond : A + error -> bool + error).

(** What the variable holds after some answers. *)
Definition last_read (answers : list (A + error)) (current : A) : A :=
  fold_left (fun cur a => match a with inl x => x | inr _ => cur end) answers current.

(** Answers after which the wait goes on. *)
Definition pending (answers : list (A + error)) : Prop := Forall (fun a => cond a = inl false) answers.

Lemma poll_pending pre polls current :
  pending pre -> poll cond (pre ++ polls) current = poll cond polls (last_read pre current).
Proof.
  intros Hp. revert current. induction Hp as [|a pre Ha _ IH]; intros current; simpl; [done|]. by rewrite Ha, IH.
Qed.

(** The wait stops at the first answer that is not pending. *)
Lemma poll_cases polls current :
  (pending polls /\ poll cond polls current = (last_read polls current, Some err_timeout))
  \/ exists pre a post, polls = pre ++ a :: post /\ pending pre /\ cond a <> inl false
       /\ poll cond polls current
          = (last_read (pre ++ [a]) current, match cond a with inr err => Some err | inl _ => None end).
Proof.
  revert current. induction polls as [|a polls IH]; intros current; [left; split; [constructor|done]|].
  destruct (cond a) as [[]|err] eqn:Ha.
  - right. exists [], a, polls. simpl. rewrite Ha. repeat split; [constructor|done].
  - destruct (IH (last_read [a] current)) as [[Hp Hr]|(pre & b & post & -> & Hp & Hb & Hr)].
    + left. split; [by constructor|]. simpl in *. by rewrite Ha, Hr.
    + right. exists (a :: pre), b, post. split; [done|]. split; [by constructor|]. split; [done|].
      simpl in *. by rewrite Ha, Hr.
  - right. exists [], a, polls. simpl. rewrite Ha. repeat split; [constructor|done].
Qed.

Lemma poll_done polls current x :
  poll cond polls current = (x, None)
  <-> exists pre a post, polls = pre ++ a :: post /\ pending pre /\ cond a = inl true /\ x = last_read (pre ++ [a]) current.
Proof.
  split.
  - intros Hx. destruct (poll_cases polls current) as [[_ Hr]|(pre & a & post & -> & Hp & Ha & Hr)].
    + by rewrite Hr in Hx.
    + rewrite Hr in Hx. exists pre, a, post. destruct (cond a) as [[]|err] eqn:E; simplify_eq; done.
  - intros (pre & a & post & -> & Hp & Ha & ->). rewrite poll_pending by done. simpl. rewrite Ha.
    unfold last_read. by rewrite fold_left_app.
Qed.
End PollLemmas.

(** An answer pending for a condition that takes no error is an object. *)
Lemma pending_answered {A} (f : A -> bool) (pre : list (A + error)) :
  pending (answered f) pre <-> exists objs, pre = inl <$> objs /\ Forall (fun a => f a = false) objs.
Proof.
  split.
  - induction 1 as [|[a|err] pre Ha _ (objs & -> & IH)]; [by exists []| |done].
    injection Ha as Ha. exists (a :: objs). auto.
  - intros (objs & -> & Hf). apply Forall_fmap. eapply Forall_impl; [exact Hf|]. intros a Ha. cbn. by rewrite Ha.
Qed.

Lemma pending_gone {A} (pre : list (A + error)) :
  pending gone pre <-> exists objs, pre = inl <$> objs.
Proof.
  split.
  - induction 1 as [|[a|err] pre Ha _ (objs & ->)]; [by exists []|by exists (a :: objs)|].
    cbn in Ha. by destruct (IsNotFound err).
  - intros (objs & ->). apply Forall_fmap, Forall_true. done.
Qed.

Lemma last_read_objects {A} (objs : list A) a current :
  last_read ((inl <$> objs) ++ [inl a]) current = a.
Proof. unfold last_read. by rewrite fold_left_app. Qed.

(** A wait that takes no error ends well with the first object that satisfies it. *)
Lemma answered_done {A} (f : A -> bool) (polls : list (A + error)) current x :
  poll (answered f) polls current = (x, None)
  <-> exists before rest, polls = (inl <$> before) ++ inl x :: rest /\ Forall (fun a => f a = false) before /\ f x = true.
Proof.
  rewrite poll_done. split.
  - intros (pre & [a|err] & post & -> & (before & -> & Hf)%pending_answered & Ha & ->); [|done].
    rewrite last_read_objects. injection Ha as Ha. by exists before, post.
  - intros (before & rest & -> & Hf & Hx). exists (inl <$> before), (inl x), rest. rewrite last_read_objects.
    split; [done|]. split; [apply pending_answered; eauto|]. split; [|done]. cbn. by rewrite Hx.
Qed.

(** A deployment has all its replicas, updated and available, for a generation. *)
Definition complete (generation replicas : Z) (st : ReplicaCounts) : Prop :=
  (generation <= rc_ObservedGeneration st)%Z /\ rc_Replicas st = replicas /\ rc_UpdatedReplicas st = replicas
  /\ rc_AvailableReplicas st = replicas.

Lemma IsDeploymentComplete_spec generation st replicas :
  IsDeploymentComplete generation st replicas = true <-> complete generation replicas st.
Proof.
  unfold IsDeploymentComplete, areDeploymentReplicasAvailable, complete.
  destruct (Z.ltb_spec (rc_ObservedGeneration st) generation); [split; [done|lia]|].
  rewrite !andb_true_iff, !Z.eqb_eq. intuition lia.
Qed.

(** The wait for a deployment succeeds exactly when it has a number of replicas and
    some poll, after polls that all found the deployment incomplete, reads it complete
    for its generation; the status returned is that one. *)
Theorem ForDeploymentComplete_spec (cli : Polls ReplicaCounts) (dp : Replicated) (st : ReplicaCounts) :
  ForDeploymentComplete cli dp = Ret (st, None)
  <-> exists replicas before rest, rp_Replicas dp = Some replicas
        /\ cli (rp_Key dp) = (inl <$> before) ++ inl st :: rest
        /\ Forall (fun b => ~ complete (rp_Generation dp) replicas b) before
        /\ complete (rp_Generation dp) replicas st.
Proof.
  unfold ForDeploymentComplete. split.
  - intros (replicas & Hr & Hp)%go_bind_ret_inv. destruct (rp_Replicas dp) as [r|]; simplify_eq/=.
    apply answered_done in Hp as (before & rest & Hc & Hb & Hst).
    exists replicas, before, rest. rewrite <- IsDeploymentComplete_spec. repeat split; [done| |done].
    eapply Forall_impl; [exact Hb|]. intros a Ha Hc'. rewrite <- IsDeploymentComplete_spec in Hc'. cbn in Ha. congruence.
  - intros (replicas & before & rest & -> & Hc & Hb & Hst). cbn. f_equal. apply answered_done.
    exists before, rest. split; [done|]. split; [|by apply IsDeploymentComplete_spec].
    eapply Forall_impl; [exact Hb|]. intros a Ha. apply not_true_iff_false. by rewrite IsDeploymentComplete_spec.
Qed.

(** ** Deletions *)

(** The cluster shows an object some times, then says that it is not found. *)
Definition deleted {A} (polls : list (A + error)) : Prop :=
  exists objs err rest, polls = (inl <$> objs) ++ inr err :: rest /\ IsNotFound err = true.

Lemma gone_done {A} (polls : list (A + error)) current : snd (poll gone polls current) = None <-> deleted polls.
Proof.
  split.
  - destruct (poll gone polls current) as [x o] eqn:E; simpl; intros ->.
    apply poll_done in E as (pre & [a|err] & post & -> & (objs & ->)%pending_gone & Ha & _); [done|].
    exists objs, err, post. split; [done|]. cbn in Ha. by destruct (IsNotFound err).
  - intros (objs & err & rest & -> & He).
    rewrite poll_pending by (apply pending_gone; eauto). cbn. by rewrite He.
Qed.

(** However the waits for some pods interleave, they succeed together exactly when
    every pod is seen to be gone before any other error and before the time is over. *)
Theorem ForPodsAllDeleted_spec (cli : Polls Pod) (pods ended : list Pod) :
  ended ≡ₚ pods ->
  ForPodsAllDeleted cli ended = None <-> Forall (fun pod => deleted (cli (pod_Key pod))) pods.
Proof.
  intros He. rewrite <- He. clear He. unfold ForPodsAllDeleted.
  set (step := fun first pod => match first with Some err => Some err | None => ForPodDeleted cli (pod_Key pod) end).
  assert (Hs : forall l err, fold_left step l (Some err) = Some err) by (induction l; auto).
  induction ended as [|pod ended IH]; simpl; [split; [constructor|done]|].
  rewrite Forall_cons. unfold ForPodDeleted. rewrite <- (gone_done _ noPod).
  destruct (snd (poll gone (cli (pod_Key pod)) noPod)) as [err|] eqn:E.
  - rewrite Hs. split; [done|]. by intros [? _].
  - rewrite IH. tauto.
Qed.

(** ** Pods that run *)

Lemma ForPodPhase_running cli key p : ForPodPhase cli key PodRunning = (p, None) -> pod_Phase p = PodRunning.
Proof.
  intros (pre & [a|err] & post & _ & _ & Ha & ->)%poll_done; [|done].
  unfold last_read. rewrite fold_left_app. cbn in *. unfold in_phase in Ha.
  case_bool_decide; [done|]. by simplify_eq.
Qed.

(** The pods given up and the ones that run, as the waits end. *)
Lemma ForPodsAllRunning_eq cli ended :
  ForPodsAllRunning cli ended
  = (fst <$> filter (fun r => snd r <> None) ((fun p => ForPodPhase cli (pod_Key p) PodRunning) <$> ended),
     fst <$> filter (fun r => snd r = None) ((fun p => ForPodPhase cli (pod_Key p) PodRunning) <$> ended)).
Proof.
  unfold ForPodsAllRunning.
  set (step := fun acc pod => _).
  enough (Hg : forall f u, fold_left step ended (f, u)
    = (f ++ (fst <$> filter (fun r => snd r <> None) ((fun p => ForPodPhase cli (pod_Key p) PodRunning) <$> ended)),
       u ++ (fst <$> filter (fun r => snd r = None) ((fun p => ForPodPhase cli (pod_Key p) PodRunning) <$> ended)))).
  { apply (Hg [] []). }
  induction ended as [|pod ended IH]; intros f u; simpl; [by rewrite !app_nil_r|].
  destruct (ForPodPhase cli (pod_Key pod) PodRunning) as [p [err|]] eqn:E.
  - rewrite IH, filter_cons_True, filter_cons_False by done. simpl. by rewrite <- app_assoc.
  - rewrite IH, filter_cons_False, filter_cons_True by (simpl; auto). simpl. by rewrite <- app_assoc.
Qed.

(** However the waits for some pods interleave, the pods given up and the pods that
    run are the same up to their order, each pod counts once, and every pod in the second
    list was read running. *)
Theorem ForPodsAllRunning_spec (cli : Polls Pod) (pods ended : list Pod) :
  ended ≡ₚ pods ->
  let '(failed, updated) := ForPodsAllRunning cli ended in
  failed ≡ₚ fst (ForPodsAllRunning cli pods) /\ updated ≡ₚ snd (ForPodsAllRunning cli pods)
  /\ (length failed + length updated = length pods)%nat
  /\ Forall (fun p => pod_Phase p = PodRunning) updated.
Proof.
  intros He. rewrite !ForPodsAllRunning_eq. cbn [fst snd]. split; [by rewrite He|]. split; [by rewrite He|].
  rewrite He. clear ended He. split.
  - rewrite !length_fmap. rewrite <- (length_fmap (fun p => ForPodPhase cli (pod_Key p) PodRunning) pods).
    generalize ((fun p => ForPodPhase cli (pod_Key p) PodRunning) <$> pods).
    induction l as [|[p [err|]] l IH]; [done| |].
    + rewrite filter_cons_True, filter_cons_False by done. simpl. lia.
    + rewrite filter_cons_False, filter_cons_True by (simpl; auto). simpl. lia.
  - apply Forall_fmap, Forall_forall. intros [p o] [Ho (pod & Hp & _)%list_elem_of_fmap]%list_elem_of_filter.
    simpl in *. subst. by eapply ForPodPhase_running.
Qed.

(** ** The leader *)

(** From the identity of a holder, which is the name of its pod, an underscore and
    a text without one, the name of the pod comes back, whatever the name is. *)
Theorem GetLeaderPod_spec (lease : NamespacedName -> option string + error) (namespace pod uuid : string) :
  lease (mkNamespacedName namespace LeaderElectionResourceName) = inl (Some (pod +:+ String "_" uuid)) ->
  str_mem "_" uuid = false ->
  GetLeaderPod lease namespace = inl (mkNamespacedName namespace pod).
Proof.
  intros Hl Hu. unfold GetLeaderPod. rewrite Hl. rewrite decide_False by (by destruct pod).
  by rewrite (proj2 (split_last_Some "_" _ pod uuid)).
Qed.

(** *** Witnesses *)

Module polled.
Definition pods : list Pod := [mkPod "ns" "a" "Running"; mkPod "ns" "b" "Pending"].
Definition ended : list Pod := [mkPod "ns" "b" "Pending"; mkPod "ns" "a" "Running"].
Definition answers (key : NamespacedName) : list (Pod + error) :=
  [inl (mkPod (nn_Namespace key) (nn_Name key) (if decide (nn_Name key = "a") then PodRunning else "Pending"));
   inr (NewNotFound "pods")].
Lemma ended_perm : ended ≡ₚ pods.
Proof. apply perm_swap. Qed.
End polled.

Lemma ForPodsAllDeleted_spec_witness :
  ForPodsAllDeleted polled.answers polled.ended = None
  <-> Forall (fun pod => deleted (polled.answers (pod_Key pod))) polled.pods.
Proof. exact (ForPodsAllDeleted_spec polled.answers polled.pods polled.ended polled.ended_perm). Defined.

Lemma ForPodsAllRunning_spec_witness :
  let '(failed, updated) := ForPodsAllRunning polled.answers polled.ended in
  failed ≡ₚ fst (ForPodsAllRunning polled.answers polled.pods)
  /\ updated ≡ₚ snd (ForPodsAllRunning polled.answers polled.pods)
  /\ (length failed + length updated = length polled.pods)%nat
  /\ Forall (fun p => pod_Phase p = PodRunning) updated.
Proof. exact (ForPodsAllRunning_spec polled.answers polled.pods polled.ended polled.ended_perm). Defined.

Example ForPodsAllRunning_pods :
  ForPodsAllRunning polled.answers polled.ended = ([mkPod "ns" "b" "Pending"], [mkPod "ns" "a" "Running"]).
Proof. reflexivity. Qed.

(** A pod that could never be read is given up without its name. *)
Example ForPodsAllRunning_unread :
  ForPodsAllRunning (fun _ => [inr (NewNotFound "pods")]) [mkPod "ns" "a" "Running"] = ([noPod], []).
Proof. reflexivity. Qed.

(** Without a number of steps, as [With] leaves it, the phase is not looked at. *)
Example WhileInPodPhase_no_steps polls : WhileInPodPhase 0 polls "ns" "a" PodRunning = (noPod, None).
Proof. reflexivity. Qed.

Definition held (key : NamespacedName) : option string + error := inl (Some "my_scheduler_0-1-2").

Lemma GetLeaderPod_spec_witness : GetLeaderPod held "ns" = inl (mkNamespacedName "ns" "my_scheduler").
Proof. apply (GetLeaderPod_spec held "ns" "my_scheduler" "0-1-2"); reflexivity. Defined.
