(* ===== verification/Tools.v ===== *)
(** * Build and release tools (tools/getdigests, tools/verify-commit, tools/buildhelper,
    internal/buildinfo, internal/api/features)

    Small programs that feed the build: they collect the digests of the scheduler's
    images, check the sign-off of commits, and tell the version and the branch being
    built. Commands, files, the environment, the decoders and the version library are
    arguments or the interface [ToolsLib]. *)
From S2P Require Import Prelude GoErrors Meta Selectors ApiV1 Conditions Steps Trees Validation.

(** ** Standard library *)

(** [strconv.Atoi]: an optional sign and decimal digits, in the range of int64. *)
Definition is_digit (c : Ascii.ascii) : bool := ((48 <=? Ascii.nat_of_ascii c) && (Ascii.nat_of_ascii c <=? 57))%nat.

Fixpoint decimal (acc : Z) (s : string) : option Z :=
  match s with
  | EmptyString => Some acc
  | String c s' =>
      if is_digit c then decimal (acc * 10 + (Z.of_nat (Ascii.nat_of_ascii c) - 48)) s' else None
  end.

Definition Atoi (s : string) : option Z :=
  let '(sign, digits) := match s with
                         | String c rest => if decide (c = "-"%char) then ((-1)%Z, rest)
                                            else if decide (c = "+"%char) then (1%Z, rest) else (1%Z, s)
                         | EmptyString => (1%Z, s)
                         end in
  if decide (digits = "") then None
  else match decimal 0 digits with
       | None => None
       | Some n => let n := (sign * n)%Z in
                   if ((- 2 ^ 63 <=? n) && (n <? 2 ^ 63))%Z then Some n else None
       end.

(** A [bufio.Scanner] over lines: it stops, without a word unless asked, at the first
    line that does not fit in its buffer of 64 KiB. *)
Definition MaxScanTokenSize : nat := 65536.
Definition lf : Ascii.ascii := Ascii.ascii_of_nat 10.
Definition fits (line : string) : bool := (String.length line <? MaxScanTokenSize)%nat.
Definition dropCR (line : string) : string := TrimSuffix line (String (Ascii.ascii_of_nat 13) "").

Fixpoint scan_lines (lines : list string) : list string :=
  match lines with
  | [] => []
  | [line] => if decide (line = "") then [] else if fits line then [dropCR line] else []
  | line :: rest => if fits line then dropCR line :: scan_lines rest else []
  end.
Definition Scan (data : string) : list string := scan_lines (split_on lf data).

(** ** The libraries and the git command *)

Record GitCommit := mkGitCommit {
  gc_Commit : string; gc_Author : string; gc_AuthorEmail : string; gc_AuthorEmailLocal : string;
  gc_DCOSignTag : string; gc_DCOCoauthorTag : string }.

Class ToolsLib := {
  decode_tags : string -> list string + error;
  decode_commit : string -> GitCommit + error;
  goversion_Parse : string -> option error;
  git_Output : list string -> string + error;
  semver_Derive : string * option error;
  ReadFile : string -> string + error;
}.

(** ** Digests of images (tools/getdigests) *)

Record imageRef := mkImageRef { ir_Repository : string; ir_Tag : string; ir_Version : string }.

Definition parseImageURL (fullURL : string) : imageRef + error :=
  let fullURL := TrimSpace fullURL in
  if decide (fullURL = "") then inr (ErrNew "image URL is empty")
  else match split_last ":" fullURL with
       | None => inr (ErrNew ("image URL " +:+ quote fullURL +:+ " missing tag; expected form registry/image:vX.Y"))
       | Some (repo, tag) =>
           let malformed := inr (ErrNew ("image URL tag " +:+ quote tag +:+ " must be of form vX.Y")) in
           let not_int := inr (ErrNew ("image URL tag " +:+ quote tag +:+ " must be of form vX.Y where X and Y are integers")) in
           if decide (repo = "" \/ tag = "")
           then inr (ErrNew ("image URL " +:+ quote fullURL +:+ " missing repository or tag; expected form registry/image:vX.Y"))
           else if negb (String.prefix "v" tag) then malformed
           else
             let version := TrimPrefix tag "v" in
             match split2 "." version with
             | (_, None) => malformed
             | (major, Some minor) =>
                 if decide (major = "" \/ minor = "") then malformed
                 else if str_mem "." minor
                 then inr (ErrNew ("image URL tag " +:+ quote tag +:+ " must be of form vX.Y (no patch component)"))
                 else match Atoi major with
                      | None => not_int
                      | Some _ => match Atoi minor with
                                  | None => not_int
                                  | Some _ => inl (mkImageRef repo tag version)
                                  end
                      end
             end
       end.

Definition auth_args (pullSecretPath : string) : list string :=
  if decide (pullSecretPath = "") then [] else ["--authfile"; pullSecretPath].
Definition skopeoListTagsArgs (imageURL pullSecretPath : string) : list string :=
  ["list-tags"] ++ auth_args pullSecretPath ++ ["docker://" +:+ imageURL].
Definition skopeoInspectArgs (imageURL pullSecretPath tag : string) : list string :=
  ["inspect"] ++ auth_args pullSecretPath ++ ["--format"; "{{.Digest}}"] ++ ["docker://" +:+ imageURL +:+ ":" +:+ tag].

Definition filterTags (tags : list string) (versionString : string) : list string :=
  filter (fun tag => String.prefix ("v" +:+ versionString +:+ ".") tag = true /\ HasSuffix tag "-source" = false)
    (TrimSpace <$> tags).

Section GetDigests.
Context `{ToolsLib}.

(** The [n]-th command run: its output or an error. *)
Context (run : nat -> list string -> string + error).

(** The digests of the tags, each one once. *)
Fixpoint inspect_tags (n : nat) (repo pullSecretPath : string) (tags : list string) (digests : list string)
  : list string + error :=
  match tags with
  | [] => inl digests
  | tag :: rest =>
      match run n ("skopeo" :: skopeoInspectArgs repo pullSecretPath tag) with
      | inr err => inr (ErrWrap ("inspecting tag " +:+ tag +:+ ": ") err)
      | inl digest =>
          inspect_tags (S n) repo pullSecretPath rest (if decide (digest ∈ digests) then digests else digests ++ [digest])
      end
  end.

(** The digest of the image of a channel; the error is not wrapped. *)
Definition channel_digest (n : nat) (channel pullSecretPath : string) (ref : imageRef) : string + error :=
  match run n ("skopeo" :: skopeoInspectArgs (ir_Repository ref) pullSecretPath (ir_Tag ref)) with
  | inr err => inr (ErrNew ("failed to get digest of " +:+ channel +:+ " channel (" +:+ ir_Repository ref +:+ ":"
                              +:+ ir_Tag ref +:+ "): " +:+ Error err))
  | inl digest => inl digest
  end.

Definition wrap_err {A} (prefix : string) (r : A + error) : A + error :=
  match r with inl a => inl a | inr err => inr (ErrWrap prefix err) end.

Definition getDigests (pullSecretPath currentURL prevURL eusURL : string) : schedulerapi.Digests + error :=
  let? current := wrap_err "parsing --current-url: " (parseImageURL currentURL) in
  let? prev := wrap_err "parsing --prev-url: " (parseImageURL prevURL) in
  let? raw := wrap_err ("listing tags for " +:+ currentURL +:+ ": ")
                (run 0 ("skopeo" :: skopeoListTagsArgs (ir_Repository current) pullSecretPath)) in
  let? all := wrap_err "parsing list-tags output: " (decode_tags raw) in
  let tags := filterTags all (ir_Version current) in
  if decide (tags = [])
  then inr (ErrNew ("no tags found matching version " +:+ quote (ir_Version current) +:+ " in " +:+ ir_Repository current))
  else
    let? digests := inspect_tags 1 (ir_Repository current) pullSecretPath tags [] in
    let n := S (length tags) in
    let? latestOfPrev := channel_digest n "previous" pullSecretPath prev in
    if decide (eusURL = "") then inl (schedulerapi.mkDigests digests latestOfPrev "")
    else
      let? eus := wrap_err "parsing --eus-url: " (parseImageURL eusURL) in
      let? latestOfEUS := channel_digest (S n) "EUS" pullSecretPath eus in
      inl (schedulerapi.mkDigests digests latestOfPrev latestOfEUS).
End GetDigests.

(** ** Sign-off of commits (tools/verify-commit) *)

Definition dependabot : string := "dependabot[bot]".
Definition konflux : string := "red-hat-konflux".
Definition chaiBot : string := "Chai Bot".
Definition chaiBotEmail : string := "<chai-bot@redhat.com>".
Definition telcoGitlabCI : string := "ocp-telco-ci-gitlab-ci".
Definition telcoGitlabCIEmail : string := "<ocp-telco-ci-gitlab-ci@redhat.com>".

Definition expectedDCOSignTag (commit : GitCommit) : string :=
  if decide (gc_Author commit = dependabot) then "Signed-off-by: " +:+ gc_Author commit
  else "Signed-off-by: " +:+ gc_Author commit +:+ " " +:+ gc_AuthorEmail commit.
Definition expectedDCOCoauthorTag (commit : GitCommit) : string :=
  "Co-authored-by: " +:+ gc_Author commit +:+ " " +:+ gc_AuthorEmail commit.

Definition validate_commit (commit : GitCommit) : option error :=
  if decide (gc_Author commit = chaiBot /\ gc_AuthorEmail commit = chaiBotEmail) then None
  else if decide (gc_Author commit = telcoGitlabCI /\ gc_AuthorEmail commit = telcoGitlabCIEmail) then None
  else
    let errs := if decide ("<" +:+ gc_Author commit +:+ ">" = gc_AuthorEmailLocal commit)
                then Join None (Some (ErrNew "missing author name - equals to email local part")) else None in
    if str_contains konflux (gc_Author commit) then None
    else if decide (gc_DCOSignTag commit = "") then Join errs (Some (ErrNew "DCO signoff trailer missing"))
    else if str_contains (expectedDCOSignTag commit) (gc_DCOSignTag commit) then errs
    else if str_contains (expectedDCOCoauthorTag commit) (gc_DCOCoauthorTag commit) then errs
    else Join errs (Some (ErrNew ("DCO signoff malformed: " +:+ quote (gc_DCOSignTag commit) +:+ " does not contain expected "
                                    +:+ quote (expectedDCOSignTag commit)))).

Section VerifyCommit.
Context `{ToolsLib}.

Fixpoint decode_commits (lines : list string) : list GitCommit + error :=
  match lines with
  | [] => inl []
  | line :: rest =>
      let? commit := decode_commit line in
      let? commits := decode_commits rest in
      inl (commit :: commits)
  end.

(** The exit code and the error; all lines are decoded before a commit is validated. *)
Definition scanAndVerify (stdin : string) : Z * option error :=
  match decode_commits (Scan stdin) with
  | inr err => (1%Z, Some (ErrNew ("error decoding git commit: " +:+ Error err +:+ String lf "")))
  | inl commits =>
      match list_find (fun commit => validate_commit commit <> None) commits with
      | None => (0%Z, None)
      | Some (_, commit) =>
          (2%Z, Some (ErrNew ("invalid commit: " +:+ from_option Error "" (validate_commit commit) +:+ String lf "")))
      end
  end.

(** The process ends with 0 when there is no error. *)
Definition verify_commit_main (stdin : string) : Z :=
  match scanAndVerify stdin with (exitcode, Some _) => exitcode | (_, None) => 0%Z end.

(** ** Version, branch and commit of a build (internal/buildinfo, tools/buildhelper) *)

Definition versionFileName : string := "Makefile".
Definition versionTagPrefix : string := "VERSION".
Definition versionTagSuffix : string := ".999-snapshot".

Definition findVersionValueInLine (line : string) : string :=
  match FieldsFunc "=" line with
  | _ :: value :: _ => TrimSpace value
  | _ => ""
  end.

Fixpoint version_of_lines (lines : list string) : string :=
  match lines with
  | [] => ""
  | line :: rest =>
      if negb (String.prefix versionTagPrefix line) then version_of_lines rest
      else
        let ver := findVersionValueInLine line in
        if negb (HasSuffix ver versionTagSuffix) then version_of_lines rest
        else
          let ver := TrimSuffix ver versionTagSuffix in
          match goversion_Parse ver with Some _ => "" | None => ver end
  end.
Definition ParseVersionFromReader (data : string) : string := version_of_lines (Scan data).
Definition ParseVersionFromFile (srcFile : string) : string :=
  match ReadFile srcFile with inr _ => "" | inl data => ParseVersionFromReader data end.

Definition develBranchName : string := "devel".
Definition releaseBranchPrefix : string := "release-".

Definition parseBranch (branchName : string) : string :=
  if negb (String.prefix releaseBranchPrefix branchName) then develBranchName
  else TrimPrefix branchName releaseBranchPrefix.

Section BuildHelper.
Context (LookupEnv : string -> option string).

Definition parseVersion : string := ParseVersionFromFile (default versionFileName (LookupEnv "NRO_BUILD_VERSION_FILE")).

Definition getVersion : string * option error :=
  match LookupEnv "NRO_BUILD_VERSION" with
  | Some ver => (ver, None)
  | None => if decide (parseVersion <> "") then (parseVersion, None) else semver_Derive
  end.

(** A variable, or the trimmed output of git. *)
Definition from_git (variable : string) (args : list string) : string + error :=
  match LookupEnv variable with
  | Some cm => inl cm
  | None => let? out := git_Output args in inl (TrimSpace out)
  end.
Definition getCommit : string + error := from_git "NRO_BUILD_COMMIT" ["log"; "-1"; "--pretty=format:%h"].
Definition getRawBranch : string + error := from_git "NRO_BUILD_BRANCH" ["rev-parse"; "--abbrev-ref"; "HEAD"].
Definition getBranch : string + error := let? branchName := getRawBranch in inl (parseBranch branchName).

Record build_info := mkBuild_info { b_GitBranch : string; b_Branch : string; b_Version : string; b_Commit : string }.

Definition validate_build (bi : build_info) : option error :=
  if decide (b_Branch bi <> develBranchName)
  then if decide (b_Branch bi <> b_Version bi)
       then Some (ErrNew ("branch name " +:+ quote (b_Branch bi) +:+ " must match version " +:+ quote (b_Version bi)))
       else None
  else None.

(** What is printed, as a value or text, and the code returned. *)
Definition inspect : option build_info * Z :=
  match getVersion with
  | (_, Some _) => (None, 1%Z)
  | (version, None) =>
      match getRawBranch with
      | inr _ => (None, 1%Z)
      | inl branchName =>
          match getCommit with
          | inr _ => (None, 1%Z)
          | inl commit =>
              let bi := mkBuild_info branchName (parseBranch branchName) version commit in
              match validate_build bi with Some _ => (None, 1%Z) | None => (Some bi, 0%Z) end
          end
      end
  end.

Definition show (r : string + error) : option string * Z :=
  match r with inr _ => (None, 1%Z) | inl s => (Some s, 0%Z) end.
Definition showVersion : option string * Z :=
  show (match getVersion with (_, Some err) => inr err | (ver, None) => inl ver end).
Definition showCommit : option string * Z := show getCommit.
Definition showBranch : option string * Z := show getBranch.

(** What the process prints and its exit status: the codes of the commands are dropped. *)
Definition buildhelper_main (args : list string) : option (build_info + string) * Z :=
  match args with
  | [cmd] =>
      if decide (cmd = "inspect") then (inl <$> fst inspect, 0%Z)
      else if decide (cmd = "version") then (inr <$> fst showVersion, 0%Z)
      else if decide (cmd = "commit") then (inr <$> fst showCommit, 0%Z)
      else if decide (cmd = "branch") then (inr <$> fst showBranch, 0%Z)
      else (None, 1%Z)
  | _ => (None, 1%Z)
  end.
End BuildHelper.

(** ** Topics (internal/api/features) *)

Record TopicInfo := mkTopicInfo { ti_Version : string; ti_Active : list string }.
Definition features_Version : string := "v5.1.0".
Definition NewTopicInfo : TopicInfo := mkTopicInfo features_Version [].

Definition TopicInfo_Validate (tp : TopicInfo) : option error :=
  if decide (ti_Version tp = "") then Some (ErrNew "metadata: missing version")
  else match goversion_Parse (ti_Version tp) with
       | Some err => Some (ErrWrap "metadata: malformed version: " err)
       | None => if decide (ti_Active tp = []) then Some (ErrNew "missing active topics") else None
       end.

(** The embedded file, once decoded: it has no metadata. *)
Definition GetTopics : TopicInfo :=
  mkTopicInfo ""
    ["config"; "nonreg"; "hostlevel"; "resacct"; "cache"; "stall"; "schedrst"; "rtetols"; "overhead"; "wlplacement";
     "unsched"; "nonrt"; "taint"; "nodelabel"; "byres"; "tmpol"; "schedattrwatch"; "ngpoolname"; "nganns"; "metrics";
     "nrtcrdanns"; "netpols"; "introspection"; "mgselinuxcollect"; "tlscompliance"; "preemption"].

(** tools/mkginkgolabelfilter *)
Definition label_filter (topics : TopicInfo) : string :=
  "feature: containsAny {" +:+ str_join "," (ti_Active topics) +:+ "}" +:+ String lf "".
End VerifyCommit.
