(* ===== verification/ToolsSpec.v ===== *)
(** * Theorems about the build and release tools

    The image references taken are those of a grammar; the digests collected are those
    of the tags of the version, each one once; the commits accepted are the signed ones
    and the robots'; the version printed is the one of the makefile. *)
From S2P Require Import Prelude GoErrors Meta Selectors ApiV1 Conditions Steps Trees Validation Tools.

(** ** Image references *)

(** A tag [vX.Y] and the two integers. *)
Definition channel_tag (x y : string) : string := "v" +:+ x +:+ String "." y.

(** A reference [repo:vX.Y]. *)
Definition channel_ref (url repo x y : string) : Prop :=
  url = repo +:+ String ":" (channel_tag x y) /\ repo <> "" /\ str_mem "." x = false /\ str_mem "." y = false
  /\ is_Some (Atoi x) /\ is_Some (Atoi y).

Lemma decimal_no_mem c s acc n : decimal acc s = Some n -> is_digit c = false -> str_mem c s = false.
Proof.
  intros Hd Hc. revert acc Hd. induction s as [|a s IH]; intros acc; simpl; [done|].
  destruct (is_digit a) eqn:E; [|done]. intros Hs. rewrite (IH _ Hs), orb_false_r. apply bool_decide_eq_false. congruence.
Qed.

(** An integer has no character but a sign and digits. *)
Lemma Atoi_no_mem c s :
  is_Some (Atoi s) -> c <> "-"%char -> c <> "+"%char -> is_digit c = false -> str_mem c s = false.
Proof.
  intros [n Hn] Hm Hp Hc. destruct s as [|a s]; [done|]. unfold Atoi in Hn.
  assert (Hgo : forall d, is_Some (decimal 0 d) -> str_mem c d = false) by (intros d [m Hd]; by eapply decimal_no_mem).
  destruct (decide (a = "-"%char)) as [->|Ha]; [|destruct (decide (a = "+"%char)) as [->|Ha']].
  - case_decide; [done|]. destruct (decimal 0 s) eqn:E; [|done]. simpl. rewrite bool_decide_false by done. apply Hgo. eauto.
  - case_decide; [done|]. destruct (decimal 0 s) eqn:E; [|done]. simpl. rewrite bool_decide_false by done. apply Hgo. eauto.
  - case_decide; [done|]. destruct (decimal 0 (String a s)) eqn:E; [|done]. apply Hgo. eauto.
Qed.

Lemma Atoi_nonempty s : is_Some (Atoi s) -> s <> "".
Proof. intros [n Hn] ->. done. Qed.

(** A reference is accepted exactly when, without its blanks, it is a repository, a
    colon and a tag vX.Y of two integers; the parts are given back. *)
Theorem parseImageURL_spec (url : string) (ref : imageRef) :
  parseImageURL url = inl ref
  <-> exists repo x y, channel_ref (TrimSpace url) repo x y
        /\ ref = mkImageRef repo (channel_tag x y) (x +:+ String "." y).
Proof.
  unfold parseImageURL. generalize (TrimSpace url) as s. clear url. intros s. split.
  - case_decide; [done|]. destruct (split_last ":" s) as [[repo tag]|] eqn:Es; [|done].
    case_decide as Hne; [done|]. destruct (String.prefix "v" tag) eqn:Hv; [|done]. simpl.
    apply prefix_true in Hv as [version ->]. rewrite TrimPrefix_app.
    destruct (split2 "." version) as [x [y|]] eqn:E2; [|done].
    assert (Hs2 : snd (split2 "." version) = Some y) by (by rewrite E2). apply split2_Some in Hs2 as (x' & -> & Hx).
    rewrite split2_app in E2 by done. simplify_eq.
    case_decide as Hne2; [done|]. destruct (str_mem "." y) eqn:Hy; [done|].
    destruct (Atoi x) eqn:Hax; [|done]. destruct (Atoi y) eqn:Hay; [|done]. intros [= <-].
    apply split_last_Some in Es as [-> _]. exists repo, x, y.
    split; [|done]. unfold channel_ref. rewrite Hax, Hay. unfold channel_tag.
    repeat split; [tauto|done|done|eauto|eauto].
  - intros (repo & x & y & (-> & Hr & Hx & Hy & Hax & Hay) & ->).
    rewrite decide_False by (by destruct repo).
    assert (Hl : split_last ":" (repo +:+ String ":" (channel_tag x y)) = Some (repo, channel_tag x y)).
    { apply split_last_Some. split; [done|]. unfold channel_tag. rewrite str_mem_app. simpl. rewrite str_mem_app. simpl.
      rewrite (Atoi_no_mem ":" x), (Atoi_no_mem ":" y) by done. done. }
    rewrite Hl. rewrite decide_False by (by intros [?|?]). 
    assert (Hv : String.prefix "v" (channel_tag x y) = true /\ TrimPrefix (channel_tag x y) "v" = x +:+ String "." y)
      by (unfold channel_tag; by rewrite prefix_app, TrimPrefix_app).
    destruct Hv as [-> ->]. simpl. rewrite split2_app by done. rewrite decide_False by (intros [?|?]; by eapply Atoi_nonempty; [|eassumption]).
    rewrite Hy. destruct Hax as [? ->], Hay as [? ->]. done.
Qed.

(** The integers may have a sign. *)
Example parseImageURL_signs : parseImageURL "r:v+4.-1" = inl (mkImageRef "r" "v+4.-1" "+4.-1").
Proof. reflexivity. Qed.

(** ** Digests *)

Section Digests.
Context `{ToolsLib} (run : nat -> list string -> string + error).

(** The answers for the tags, from the [n]-th command on. *)
Definition answers (n : nat) (repo secret : string) (tags digests : list string) : Prop :=
  length digests = length tags
  /\ forall i tag, tags !! i = Some tag ->
       exists d, digests !! i = Some d /\ run (n + i) ("skopeo" :: skopeoInspectArgs repo secret tag) = inl d.

Lemma inspect_tags_spec n repo secret tags acc ds :
  inspect_tags run n repo secret tags acc = inl ds -> NoDup acc ->
  NoDup ds /\ exists all, answers n repo secret tags all /\ forall d, d ∈ ds <-> d ∈ acc \/ d ∈ all.
Proof.
  revert n acc. induction tags as [|tag tags IH]; intros n acc; simpl.
  - intros [= <-] Hnd. split; [done|]. exists []. split; [by split|]. set_solver.
  - destruct (run n _) as [digest|] eqn:E; [|done]. intros Hi Hnd.
    destruct (IH _ _ Hi) as (Hnd' & all & [Hlen Hall] & Hin).
    + case_decide; [done|]. apply NoDup_app. split; [done|]. split; [set_solver|]. apply NoDup_singleton.
    + split; [done|]. exists (digest :: all). split.
      * split; [simpl; by rewrite Hlen|]. intros [|i] t; simpl.
        -- intros [= <-]. exists digest. by rewrite Nat.add_0_r.
        -- intros Ht. destruct (Hall i t Ht) as (d & Hd & Hr). exists d. split; [done|].
           by replace (n + S i)%nat with (S n + i)%nat by lia.
      * intros d. rewrite Hin. case_decide; set_solver.
Qed.

Lemma wrap_err_inl {A} prefix (r : A + error) a : wrap_err prefix r = inl a <-> r = inl a.
Proof. destruct r; simpl; naive_solver. Qed.

Lemma channel_digest_inl n channel secret ref d :
  channel_digest run n channel secret ref = inl d
  <-> run n ("skopeo" :: skopeoInspectArgs (ir_Repository ref) secret (ir_Tag ref)) = inl d.
Proof. unfold channel_digest. destruct (run n _); naive_solver. Qed.

(** When the digests are collected, those of the current channel are the answers of
    the registry for the tags of the version that are not source images, each one once
    and at least one; those of the other channels are the answers for their own tags, and
    the long-lived channel's is empty exactly without its reference. *)
Theorem getDigests_spec (secret currentURL prevURL eusURL : string) (d : schedulerapi.Digests) :
  getDigests run secret currentURL prevURL eusURL = inl d ->
  exists current prev raw all digests,
    parseImageURL currentURL = inl current /\ parseImageURL prevURL = inl prev
    /\ run 0%nat ("skopeo" :: skopeoListTagsArgs (ir_Repository current) secret) = inl raw /\ decode_tags raw = inl all
    /\ let tags := filterTags all (ir_Version current) in
       tags <> [] /\ answers 1 (ir_Repository current) secret tags digests
       /\ NoDup (schedulerapi.CurrentChannel d)
       /\ (forall x, x ∈ schedulerapi.CurrentChannel d <-> x ∈ digests)
       /\ run (S (length tags)) ("skopeo" :: skopeoInspectArgs (ir_Repository prev) secret (ir_Tag prev))
          = inl (schedulerapi.PreviousChannelLast d)
       /\ (eusURL = "" /\ schedulerapi.EUSChannelLast d = ""
           \/ exists eus, eusURL <> "" /\ parseImageURL eusURL = inl eus
                /\ run (S (S (length tags))) ("skopeo" :: skopeoInspectArgs (ir_Repository eus) secret (ir_Tag eus))
                   = inl (schedulerapi.EUSChannelLast d)).
Proof.
  unfold getDigests.
  intros (current & ?%wrap_err_inl & (prev & ?%wrap_err_inl & (raw & ?%wrap_err_inl & (all & ?%wrap_err_inl & Hd)%sum_bind_inl
           )%sum_bind_inl)%sum_bind_inl)%sum_bind_inl.
  case_decide as Htags; [done|].
  apply sum_bind_inl in Hd as (ds & Hds & (latest & Hl%channel_digest_inl & Hd)%sum_bind_inl).
  destruct (inspect_tags_spec _ _ _ _ _ _ Hds (NoDup_nil_2)) as (Hnd & digests & Hans & Hin).
  exists current, prev, raw, all, digests. do 4 (split; [done|]). cbv zeta. split; [done|]. split; [done|].
  case_decide as Heus.
  - injection Hd as <-. simpl. split; [done|]. split; [set_solver|]. split; [done|]. by left.
  - apply sum_bind_inl in Hd as (eus & ?%wrap_err_inl & (leus & ?%channel_digest_inl & Hd)%sum_bind_inl).
    injection Hd as <-. simpl. split; [done|]. split; [set_solver|]. split; [done|]. right. by exists eus.
Qed.
End Digests.

(** ** Commits *)

(** The robots whose commits are taken as they are. *)
Definition exempt (c : GitCommit) : Prop :=
  gc_Author c = chaiBot /\ gc_AuthorEmail c = chaiBotEmail
  \/ gc_Author c = telcoGitlabCI /\ gc_AuthorEmail c = telcoGitlabCIEmail
  \/ str_contains konflux (gc_Author c) = true.

(** Some sign-off is there, and the author is among those who signed or among the co-authors. *)
Definition signed (c : GitCommit) : Prop :=
  gc_DCOSignTag c <> ""
  /\ (str_contains (expectedDCOSignTag c) (gc_DCOSignTag c) = true
      \/ str_contains (expectedDCOCoauthorTag c) (gc_DCOCoauthorTag c) = true).

(** A commit is accepted exactly when a robot made it, or its author has a name and
    signed it, possibly as a co-author. *)
Theorem validate_commit_spec (c : GitCommit) :
  validate_commit c = None
  <-> exempt c \/ ("<" +:+ gc_Author c +:+ ">" <> gc_AuthorEmailLocal c /\ signed c).
Proof.
  unfold validate_commit, exempt, signed.
  case_decide; [tauto|]. case_decide; [tauto|].
  destruct (str_contains konflux (gc_Author c)); [tauto|].
  destruct (decide ("<" +:+ gc_Author c +:+ ">" = gc_AuthorEmailLocal c)); case_decide; rewrite ?Join_None;
    [naive_solver| | naive_solver|];
    destruct (str_contains (expectedDCOSignTag c) _), (str_contains (expectedDCOCoauthorTag c) _);
    rewrite ?Join_None; naive_solver.
Qed.

Section Commits.
Context `{ToolsLib}.

Lemma decode_commits_inl lines commits :
  decode_commits lines = inl commits <-> Forall2 (fun line c => decode_commit line = inl c) lines commits.
Proof.
  revert commits. induction lines as [|line lines IH]; intros commits; simpl.
  - split; [by intros [= <-]|by inversion 1].
  - rewrite sum_bind_inl. setoid_rewrite sum_bind_inl. split.
    + intros (c & Hc & cs & Hcs%IH & [= <-]). by constructor.
    + inversion 1; subst. eexists. split; [done|]. eexists. split; [by apply IH|done].
Qed.

(** The check passes exactly when every line scanned is a commit and is accepted. *)
Theorem scanAndVerify_spec (stdin : string) :
  verify_commit_main stdin = 0%Z
  <-> Forall (fun line => exists c, decode_commit line = inl c /\ validate_commit c = None) (Scan stdin).
Proof.
  unfold verify_commit_main, scanAndVerify. split.
  - destruct (decode_commits (Scan stdin)) as [commits|] eqn:E; [|done]. apply decode_commits_inl in E.
    destruct (list_find _ commits) as [[i c]|] eqn:F; [done|]. intros _. apply list_find_None in F.
    clear -E F. induction E as [|line c lines cs Hc _ IH]; constructor; inversion F; subst; [|auto].
    exists c. split; [done|]. destruct (validate_commit c); naive_solver.
  - intros Hall. assert (exists commits, Forall2 (fun line c => decode_commit line = inl c) (Scan stdin) commits
                                         /\ Forall (fun c => validate_commit c = None) commits) as (commits & Hd & Hv).
    { induction Hall as [|line lines (c & Hc & Hv) _ (cs & Hd & Hvs)]; [by exists []|].
      exists (c :: cs). split; constructor; done. }
    rewrite (proj2 (decode_commits_inl _ _) Hd).
    rewrite (proj2 (list_find_None _ _)); [done|]. eapply Forall_impl; [exact Hv|]. intros c Hc Hn. done.
Qed.

Lemma scan_lines_long before long after :
  Forall (fun l => l <> "" /\ fits l = true) before -> fits long = false ->
  scan_lines (before ++ long :: after) = dropCR <$> before.
Proof.
  intros Hb Hl. induction Hb as [|l before [Hne Hf] Hb IH]; simpl.
  - rewrite Hl. destruct after; [|done]. case_decide; [by subst|done].
  - rewrite Hf, IH. destruct before; done.
Qed.

(** A line too long for the scanner hides itself and the lines that follow: the
    check then passes when the commits before it are in order. *)
Theorem scanAndVerify_long_line (stdin : string) before long after :
  split_on lf stdin = before ++ long :: after ->
  Forall (fun l => l <> "" /\ fits l = true) before -> fits long = false ->
  verify_commit_main stdin = 0%Z
  <-> Forall (fun line => exists c, decode_commit (dropCR line) = inl c /\ validate_commit c = None) before.
Proof.
  intros Hs Hb Hl. rewrite scanAndVerify_spec. unfold Scan. rewrite Hs, scan_lines_long by done.
  by rewrite Forall_fmap.
Qed.

(** ** Version and branch of a build *)

(** The version printed is, of the first line that starts as the declaration of the
    version and has a value with the snapshot suffix, that value without the suffix, when
    the library can parse it; lines before it are passed over. *)
Theorem version_of_lines_spec (before after : list string) (line ver : string) :
  Forall (fun l => String.prefix versionTagPrefix l = false
                   \/ HasSuffix (findVersionValueInLine l) versionTagSuffix = false) before ->
  String.prefix versionTagPrefix line = true ->
  findVersionValueInLine line = ver +:+ versionTagSuffix ->
  version_of_lines (before ++ line :: after) = match goversion_Parse ver with Some _ => "" | None => ver end.
Proof.
  intros Hb Hp Hv. induction Hb as [|l before Hl _ IH]; simpl.
  - by rewrite Hp, Hv, HasSuffix_app, TrimSuffix_app.
  - destruct Hl as [->| ->]; simpl; [done|]. by destruct (String.prefix versionTagPrefix l).
Qed.

Context (env : string -> option string).

(** The description of a build is printed exactly when its parts are known and, on
    a release branch, the name of the branch is the version. *)
Theorem inspect_spec (bi : build_info) :
  inspect env = (Some bi, 0%Z)
  <-> getVersion env = (b_Version bi, None) /\ getRawBranch env = inl (b_GitBranch bi)
      /\ getCommit env = inl (b_Commit bi) /\ b_Branch bi = parseBranch (b_GitBranch bi)
      /\ (b_Branch bi = develBranchName \/ b_Branch bi = b_Version bi).
Proof.
  destruct bi as [gb b v c]. unfold inspect, validate_build. simpl.
  destruct (getVersion env) as [v' [err|]]; [naive_solver|].
  destruct (getRawBranch env) as [gb'|]; [|naive_solver].
  destruct (getCommit env) as [c'|]; [|naive_solver]. simpl.
  destruct (decide (parseBranch gb' <> develBranchName)) as [Hd|Hd]; [destruct (decide (parseBranch gb' <> v')) as [Hv|Hv]|].
  - naive_solver.
  - apply dec_stable in Hv. naive_solver.
  - apply dec_stable in Hd. naive_solver.
Qed.

(** The process ends with 0 whenever its argument is a command, also when the
    command fails and prints nothing. *)
Theorem buildhelper_exit (cmd : string) :
  cmd ∈ ["inspect"; "version"; "commit"; "branch"] -> snd (buildhelper_main env [cmd]) = 0%Z.
Proof. intros Hc. repeat (apply elem_of_cons in Hc as [->|Hc]; [done|]). by apply elem_of_nil in Hc. Qed.

(** The branch of a release is its version, any other is the development. *)
Lemma parseBranch_spec name :
  (forall v, name = releaseBranchPrefix +:+ v -> parseBranch name = v)
  /\ ((forall v, name <> releaseBranchPrefix +:+ v) -> parseBranch name = develBranchName).
Proof.
  unfold parseBranch. split.
  - intros v ->. by rewrite prefix_app, TrimPrefix_app.
  - intros Hn. destruct (String.prefix releaseBranchPrefix name) eqn:E; [|done].
    apply prefix_true in E as [v ->]. by destruct (Hn v).
Qed.

(** The topics the operator prints are not what their own type takes as valid. *)
Lemma GetTopics_invalid : is_Some (TopicInfo_Validate GetTopics).
Proof. by eexists. Qed.
End Commits.

(** The declaration in the repository's Makefile. *)
Example findVersionValueInLine_makefile : findVersionValueInLine "VERSION ?= 5.1.999-snapshot" = "5.1" +:+ versionTagSuffix.
Proof. reflexivity. Qed.
