(* ===== verification/Programs.v ===== *)
(** * Other programs (nrovalidate/main.go, rte/main.go, tools/make-job-foreach-ds,
    tools/catkubeletconfmap, tools/watchnrtattr, tools/lsplatform, internal/kloglevel)

    What each program prints on its standard output and the status it exits with, as a
    function of its arguments and of the answers of what it calls. Logs are left out. *)
From S2P Require Import Prelude GoErrors Meta ApiV1 Validation FlagCodec Workload Objects Cluster Apply RteState Trees.
From S2P Require Import RteUpdate Dangling Controller SchedParams SchedApi SchedUpdate SchedState SchedController Kubelet Loading Nrovalidate Detect Main Waits.

Record Finished := mkFinished { fin_Code : Z; fin_Out : string }.

(** [log.Fatalf] exits with 1, [klog.Fatalf] with 255. *)
Definition log_Fatal (out : string) : Finished := mkFinished 1 out.
Definition klog_Fatal (out : string) : Finished := mkFinished 255 out.

(** What [flag.Parse] knows of a set of flags. *)
Definition flag_set (kinds : list (string * flag_kind)) (name : string) : option (bool * (string -> bool)) :=
  (fun f => let k := snd (snd f) in (match k with FBool => true | _ => false end, flag_takes k))
  <$> list_find (fun f => fst f = name) kinds.

(** ** The cluster validator (nrovalidate/main.go) *)

(** [fmt.Sprintf("%03d")] of a natural number. *)
Definition three_digits (n : nat) : string :=
  let s := pretty n in String.concat "" (replicate (3 - String.length s) "0") +:+ s.

Definition nrovalidate_flags : list (string * flag_kind) :=
  [("version", FBool); ("verbose", FBool); ("json", FBool); ("quiet", FBool); ("what", FString); ("labels", FString)].

Record ValidateArgs := mkValidateArgs {
  va_Version : bool; va_Verbose : bool; va_Quiet : bool; va_JSON : bool; va_Labels : string;
  va_Validations : gset string }.

(** [parseArgs]: the arguments or an error, or the status the flag library exits with. *)
Definition nrovalidate_parseArgs (args : list string) : (ValidateArgs + error) + Z :=
  match Parse (flag_set nrovalidate_flags) args [] with
  | inr code => inr code
  | inl set =>
      inl (let? validations := Requested (string_var set "what" "all") in
           inl (mkValidateArgs (bool_var set "version" false) (bool_var set "verbose" false) (bool_var set "quiet" false)
                  (bool_var set "json" false) (string_var set "labels" "") validations))
  end.

(** The text of a result, and the JSON of a report. *)
Class ReportLib := {
  vr_String : ValidationResult -> string;
  encode_report : Report -> string + error;
}.

Section NrovalidateMain.
Context {W : Type} `{!Client W} `{!SchedClient W} `{!KubeletClient W} `{!ValidatorClient W} `{!SelectorLib} `{!KubeletLib}.
Context `{!ReportLib}.
Variable show_node_group : NodeGroup -> string.
Variable UnsortedList : gset string -> list string.
Variable range_map : forall A, gmap string A -> list (string * A).

Fixpoint print_items (idx : nat) (items : list ValidationResult) : string :=
  match items with
  | [] => ""
  | item :: rest => "ERROR#" +:+ three_digits idx +:+ ": " +:+ vr_String item +:+ nl +:+ print_items (S idx) rest
  end.

Definition printValidationResults (items : list ValidationResult) (verbose : bool) : string :=
  match items with
  | [] => "PASSED>>: cluster configuration looks ok!" +:+ nl
  | _ => "FAILED>>: cluster configuration does NOT look ok!" +:+ nl +:+ (if verbose then print_items 0 items else "")
  end.

(** [NewClientWithScheme]: the configuration read, and a client for it. *)
Definition NewClientWithScheme (config : option error) (new : W + error) : W + error :=
  match config with Some err => inr err | None => new end.

(** [validateCluster] of the command: what it prints, or its error. *)
Definition cmd_validateCluster (client : W + error) (args : ValidateArgs) : go (string + error) :=
  match client with
  | inr err => Ret (inr err)
  | inl w =>
      let! rep := validateCluster show_node_group UnsortedList range_map w (va_Labels args) (va_Validations args) in
      Ret (let? rep := rep in
           if va_Quiet args then inl ""
           else if negb (va_JSON args) then inl (printValidationResults (rep_Errors rep) (va_Verbose args))
           else encode_report rep)
  end.

Definition nrovalidate_main (client : W + error) (program version : string) (args : list string) : go Finished :=
  match nrovalidate_parseArgs args with
  | inr code => Ret (mkFinished code "")
  | inl (inr _) => Ret (mkFinished 1 "")
  | inl (inl parsedArgs) =>
      if va_Version parsedArgs then Ret (mkFinished 0 (program +:+ " " +:+ version +:+ nl))
      else if decide (size (va_Validations parsedArgs) = 0%nat \/ "help" ∈ va_Validations parsedArgs)
      then Ret (mkFinished 0 "")
      else
        let! res := cmd_validateCluster client parsedArgs in
        Ret (match res with inr _ => mkFinished 2 "" | inl out => mkFinished 0 out end)
  end.
End NrovalidateMain.

(** ** The exporter (rte/main.go) *)

Module rte.

(** What is used of the arguments the library loads. *)
Record ProgArgs := mkProgArgs {
  pa_Version : bool; pa_DumpConfig : string; pa_KubeConfig : string; pa_Debug : bool;
  pa_PodResourcesSocketPath : string; pa_ReferenceContainer : string; pa_PodExclude : list rteconfig.PodExclude;
  pa_ExcludeTerminalPods : bool; pa_MetricsMode : string;
  pa_TopologyManagerScope : string; pa_TopologyManagerPolicy : string;
  pa_other : string }.

Definition set_Scope (scope : string) (a : ProgArgs) : ProgArgs :=
  mkProgArgs (pa_Version a) (pa_DumpConfig a) (pa_KubeConfig a) (pa_Debug a) (pa_PodResourcesSocketPath a)
    (pa_ReferenceContainer a) (pa_PodExclude a) (pa_ExcludeTerminalPods a) (pa_MetricsMode a) scope
    (pa_TopologyManagerPolicy a) (pa_other a).
Definition set_Policy (policy : string) (a : ProgArgs) : ProgArgs :=
  mkProgArgs (pa_Version a) (pa_DumpConfig a) (pa_KubeConfig a) (pa_Debug a) (pa_PodResourcesSocketPath a)
    (pa_ReferenceContainer a) (pa_PodExclude a) (pa_ExcludeTerminalPods a) (pa_MetricsMode a) (pa_TopologyManagerScope a)
    policy (pa_other a).

(** The lister of the resources of pods: a client of the kubelet, and what is put
    around it. *)
Inductive Lister :=
| PodResources (socket : string)
| SharedCPUsPool (cli : Lister) (debug : bool) (referenceContainer : string)
| PodExcluded (cli : Lister) (debug : bool) (podExclude : list rteconfig.PodExclude)
| TerminalPodsFiltered (cli : Lister) (period : Z) (debug : bool).

(** The steps that may fail. *)
Inductive rte_step :=
| GetK8sClient | GetTopologyClient | WaitForReady | FilterTerminalPods | MetricsSetup | MetricsServerSetup | Execute.

Class RteLib := {
  LoadArgs : list string -> ProgArgs + error;
  ToYAMLString : ProgArgs -> string;
  attempt : rte_step -> option error;
}.

Definition defaultTopologyManagerPolicy : string := "none".
Definition defaultTopologyManagerScope : string := "container".

(** Either the process ended, or it served until the exporter came back. *)
Inductive outcome :=
| Exited (fin : Finished)
| Served (cli : Lister) (args : ProgArgs) (fin : Finished).

Section Rte.
Context `{RteLib}.

Definition setupTopologyManagerConfig (parsedArgs : ProgArgs) : ProgArgs :=
  let parsedArgs := if decide (pa_TopologyManagerScope parsedArgs = "")
                    then set_Scope defaultTopologyManagerScope parsedArgs else parsedArgs in
  if decide (pa_TopologyManagerPolicy parsedArgs = "")
  then set_Policy defaultTopologyManagerPolicy parsedArgs else parsedArgs.

Definition rte_parseArgs (args : list string) : ProgArgs + error :=
  let? progArgs := LoadArgs args in inl (setupTopologyManagerConfig progArgs).

(** What is printed, and the status if the process exits. *)
Definition dump (parsedArgs : ProgArgs) : string * option Z :=
  let conf := ToYAMLString parsedArgs +:+ nl in
  let dc := pa_DumpConfig parsedArgs in
  if decide (dc = "-") then (conf, None)
  else if decide (dc = ".andexit") then (conf, Some 0%Z)
  else if decide (dc = ".log") then ("", None)
  else ("", Some 255%Z).

(** The lister the exporter is given, or the error of the filter. *)
Definition lister (parsedArgs : ProgArgs) : Lister + error :=
  let cli := SharedCPUsPool (PodResources (pa_PodResourcesSocketPath parsedArgs)) (pa_Debug parsedArgs)
               (pa_ReferenceContainer parsedArgs) in
  let cli := if decide (0 < length (pa_PodExclude parsedArgs))%nat
             then PodExcluded cli (pa_Debug parsedArgs) (pa_PodExclude parsedArgs) else cli in
  if pa_ExcludeTerminalPods parsedArgs then
    match attempt FilterTerminalPods with
    | Some err => inr err
    | None => inl (TerminalPodsFiltered cli (60 * Duration.Second)%Z (pa_Debug parsedArgs))
    end
  else inl cli.

Notation "'or_fatal' out m 'in' k" :=
  (match m with Some _ => Exited (klog_Fatal out) | None => k end)
  (at level 10, out at level 9, m at level 100, k at level 200).

(** From the clients on. *)
Definition serve (parsedArgs : ProgArgs) (out : string) : outcome :=
  or_fatal out attempt GetK8sClient in
  or_fatal out attempt GetTopologyClient in
  or_fatal out attempt WaitForReady in
  match lister parsedArgs with
  | inr _ => Exited (klog_Fatal out)
  | inl cli =>
      or_fatal out attempt MetricsSetup in
      or_fatal out attempt MetricsServerSetup in
      Served cli parsedArgs (match attempt Execute with Some _ => klog_Fatal out | None => mkFinished 0 out end)
  end.

Definition rte_main (version : string) (args : list string) : outcome :=
  match rte_parseArgs args with
  | inr _ => Exited (klog_Fatal "")
  | inl parsedArgs =>
      if pa_Version parsedArgs then Exited (mkFinished 0 (version +:+ nl))
      else
        let '(out, code) := if decide (pa_DumpConfig parsedArgs <> "") then dump parsedArgs else ("", None) in
        match code with
        | Some code => Exited (mkFinished code out)
        | None => serve parsedArgs out
        end
  end.
End Rte.
End rte.

(** ** Jobs on the nodes of the exporters (tools/make-job-foreach-ds) *)

Record ChrootJob := mkChrootJob { cj_Name : string; cj_Namespace : string; cj_Script : string; cj_ServiceAccount : string }.

(** [batchv1.Job], as far as it is set. *)
Record JobSpec := mkJobSpec { jsp_Parallelism : Z; jsp_Completions : Z; jsp_Template : PodTemplateSpec }.
Record Job := mkJob { job_Namespace : string; job_GenerateName : string; job_Spec : JobSpec }.

(** The first thing missing, which ends the process. *)
Definition validate_job (cj : ChrootJob) (scriptPath : string) : option string :=
  if decide (cj_Name cj = "") then Some "missing job name"
  else if decide (cj_ServiceAccount cj = "") then Some "missing service account"
  else if decide (scriptPath = "") then Some "missing script to run"
  else None.

(** What the pod specification has besides the fields of the model. *)
Definition run_once_as_root : string := "restartPolicy: Never, securityContext: {runAsUser: 0}".

Definition job_container (cj : ChrootJob) (image : string) : Container :=
  mkContainer "chroot-task" image "" ["/usr/bin/chroot"; "/host"; "/bin/sh"; "-c"; cj_Script cj] [] [] []
    [mkVolumeMount "host" "/host" false ""]
    (Some (mkSecurityContext None (Some true) None (Some 0%Z) None None ""))
    "" (mkResourceRequirements (<["cpu" := "100m"]> (<["memory" := "256Mi"]> ∅)) ∅) "".

Definition MakeChrootJob (cj : ChrootJob) (ds : DaemonSet) : Job + error :=
  let namespace := if decide (cj_Namespace cj <> "") then cj_Namespace cj else om_Namespace (ds_Meta ds) in
  let parallelism := dss_CurrentNumberScheduled (ds_Status ds) in
  match FindContainerByName (ps_Containers (ds_PodSpec ds)) MainContainerName
        ≫= fun i => ps_Containers (ds_PodSpec ds) !! i with
  | None => inr (ErrNew ("cannot find RTE container by name with name " +:+ MainContainerName))
  | Some rteCnt =>
      let jobLabels := {["app" := cj_Name cj]} in
      inl (mkJob namespace (cj_Name cj +:+ "-")
             (mkJobSpec parallelism parallelism
                (mkPodTemplateSpec (Some jobLabels) None
                   (mkPodSpec None [] [job_container cj (cnt_Image rteCnt)]
                      [mkVolume "host" (VSHostPath "/" "Directory")] None [] ""
                      [SpreadOnHost jobLabels 1 "kubernetes.io/hostname" "DoNotSchedule" ["pod-template-hash"]]
                      (cj_ServiceAccount cj) run_once_as_root))))
  end.

Section MakeJobs.
Context {W : Type} `{!Client W} (yaml_Marshal : Job -> string + error).

Definition GetDaemonsetsByNRO (w : W) : list NamespacedName + error :=
  let? nroInstance := cli_GetNRO w (mkNamespacedName "" objectnames.DefaultNUMAResourcesOperatorCrName) in
  inl (st_DaemonSets (nro_Status nroInstance)).

(** The text printed for one daemon set, or none. *)
Definition job_for (w : W) (cj : ChrootJob) (ds : NamespacedName) : option string :=
  match cli_Get w TDaemonSet (mkNamespacedName (nn_Namespace ds) (nn_Name ds)) with
  | inr _ => None
  | inl o =>
      match object_ds o with
      | None => None
      | Some dsInstance =>
          match MakeChrootJob cj dsInstance with
          | inr _ => None
          | inl job => match yaml_Marshal job with inr _ => None | inl data => Some data end
          end
      end
  end.

Definition jobs_for (w : W) (cj : ChrootJob) (dss : list NamespacedName) : string :=
  fold_left (fun out ds => match job_for w cj ds with
                           | None => out
                           | Some data => out +:+ "---" +:+ nl +:+ data +:+ nl
                           end) dss "".

(** The program after its flags are read. *)
Definition make_jobs_main (client : W + error) (ReadFile : string -> string + error) (cj : ChrootJob) (scriptPath : string)
  : Finished :=
  match validate_job cj scriptPath with
  | Some _ => log_Fatal ""
  | None =>
      match ReadFile scriptPath with
      | inr _ => log_Fatal ""
      | inl data =>
          let cj := mkChrootJob (cj_Name cj) (cj_Namespace cj) data (cj_ServiceAccount cj) in
          match client with
          | inr _ => log_Fatal ""
          | inl w =>
              match GetDaemonsetsByNRO w with
              | inr _ => log_Fatal ""
              | inl dss => mkFinished 0 (jobs_for w cj dss)
              end
          end
      end
  end.
End MakeJobs.

(** ** The settings of the kubelet, as variables (tools/catkubeletconfmap) *)

Definition noConfigMap : ConfigMap := mkConfigMap (emptyMeta "" "") None None.

(** The program after its flags are read; [polls] are the answers of the client until
    the time is over, the first one immediate. *)
Definition catkubeletconfmap_main `{KubeletLib} (client : option error) (polls : list (ConfigMap + error)) (prefix : string)
  : Finished :=
  match client with
  | Some _ => log_Fatal ""
  | None =>
      match poll (created (fun _ => true)) polls noConfigMap with
      | (_, Some _) => log_Fatal ""
      | (cm, None) =>
          match rteconfig.UnpackConfigMap (Some cm) with
          | inr _ => log_Fatal ""
          | inl cmData =>
              match Unrender cmData with
              | inr _ => log_Fatal ""
              | inl conf =>
                  let kl := rteconfig.conf_Kubelet conf in
                  mkFinished 0
                    (prefix +:+ "TOPOLOGY_MANAGER_POLICY=" +:+ rteconfig.kp_TopologyManagerPolicy kl +:+ nl
                     +:+ prefix +:+ "TOPOLOGY_MANAGER_SCOPE=" +:+ rteconfig.kp_TopologyManagerScope kl +:+ nl)
              end
          end
      end
  end.

(** ** The platform (tools/lsplatform) *)

Definition lsplatform_main `{DetectLib} `{Assets} (platformName : string) : go Finished :=
  let! (clusterPlatform, err) := detect_Platform 0 in
  match err with
  | Some _ => Ret (log_Fatal "")
  | None =>
      if decide (platformName <> "") then
        let '(userPlatform, ok) := ParsePlatform platformName in
        if negb ok then Ret (log_Fatal "")
        else Ret (mkFinished (if decide (userPlatform = clusterPlatform) then 0 else 1) "")
      else Ret (mkFinished 0 (platform_String clusterPlatform +:+ nl))
  end.

(** ** Watching topologies (tools/watchnrtattr) *)

Module watchnrtattr.

(** An event, with the name and the attributes of the topology it is about, if it is
    about one. A closed channel gives the zero event, whose type is empty. *)
Record Event := mkEvent { ev_Type : string; ev_Object : option (string * string) }.
Definition zeroEvent : Event := mkEvent "" None.

(** Whether there was something to tell. *)
Definition processEvent (ev : Event) : bool :=
  if decide (ev_Type ev <> "MODIFIED") then false
  else match ev_Object ev with None => false | Some _ => true end.

(** About to watch; in the inner loop, with what the channel still holds before it
    is closed; or returned. The context is never done. *)
Inductive watch_state := Starting | Watching (pending : list Event) | Done.

Section Watch.
(** What each call to [Watch] gives: the events until the server closes the watch, or
    an error. *)
Context (watch : list Event + error).

(** A step and the events it tells; none when the program has returned. *)
Definition watch_step (s : watch_state) : option (watch_state * list Event) :=
  match s with
  | Starting => match watch with inr _ => Some (Done, []) | inl events => Some (Watching events, []) end
  | Watching [] => Some (Watching [], if processEvent zeroEvent then [zeroEvent] else [])
  | Watching (ev :: rest) => Some (Watching rest, if processEvent ev then [ev] else [])
  | Done => None
  end.

(** The first [n] steps. *)
Fixpoint watch_run (n : nat) (s : watch_state) : watch_state * list Event :=
  match n with
  | O => (s, [])
  | S n =>
      match watch_step s with
      | None => (s, [])
      | Some (s, out) => let '(s, out') := watch_run n s in (s, out ++ out')
      end
  end.
End Watch.
End watchnrtattr.

(** ** The verbosity of the logger (internal/kloglevel) *)

Module kloglevel.

(** The value of a flag: the logger's level, or another one. *)
Inductive flag_value := Level (level : Z) | OtherValue.

Section Level.
(** The flags of the command line; the order a visit takes is that of their names. *)
Context (formal : gmap string flag_value) (visit_order : list (string * flag_value)).

Definition visit (level : option Z) (f : string * flag_value) : option Z :=
  match level with
  | Some _ => level
  | None => if decide (fst f <> "v") then None else match snd f with Level l => Some l | OtherValue => None end
  end.

(** The pointer to the level is the level it points to. *)
Definition getKLogLevel : option Z :=
  let level := match formal !! "v" with Some (Level l) => Some l | _ => None end in
  match level with
  | Some _ => level
  | None => fold_left visit visit_order level
  end.

Definition Get : Z + error :=
  match getKLogLevel with
  | None => inr (ErrNew "cannot get the log level programmatically")
  | Some level => inl level
  end.

(** [level_Set] is the setter of the library, which sets the level of the logger
    whatever the pointer it is called on. *)
Definition Set_ (level_Set : string -> option error) (v : Z) : option error :=
  let verbosity := pretty v in
  match getKLogLevel with
  | Some _ => level_Set verbosity
  | None =>
      match level_Set verbosity with
      | Some err => Some (ErrNew ("failed set klog.logging.verbosity " +:+ verbosity +:+ ": " +:+ Error err))
      | None => None
      end
  end.
End Level.
End kloglevel.
