(* ===== verification/ProgramsSpec.v ===== *)
(** * Theorems about the other programs *)
From S2P Require Import Prelude GoErrors Meta ApiV1 Validation FlagCodec Workload Objects Cluster Apply RteState Trees.
From S2P Require Import RteUpdate Dangling Controller SchedParams SchedApi SchedUpdate SchedState SchedController Kubelet Loading.
From S2P Require Import Nrovalidate Detect Main Waits Programs.

(** ** The exporter *)

Section Exporter.
Context `{rte.RteLib}.
Import rte.

(** An argument, or its default. *)
Definition or_default (dflt s : string) : string := if decide (s = "") then dflt else s.

Lemma setupTopologyManagerConfig_eq a :
  setupTopologyManagerConfig a
  = set_Policy (or_default "none" (pa_TopologyManagerPolicy a))
      (set_Scope (or_default "container" (pa_TopologyManagerScope a)) a).
Proof.
  unfold setupTopologyManagerConfig, or_default, set_Policy, set_Scope. destruct a; simpl.
  repeat case_decide; simpl in *; by subst.
Qed.

(** What the exporter was started with: the arguments loaded, but for a policy and a
    scope, which are never empty. *)
Definition exporter_args (loaded : ProgArgs) : ProgArgs :=
  set_Policy (or_default "none" (pa_TopologyManagerPolicy loaded))
    (set_Scope (or_default "container" (pa_TopologyManagerScope loaded)) loaded).

(** The lister, layer by layer from the client of the kubelet. *)
Definition layers (a : ProgArgs) : Lister :=
  let cli := SharedCPUsPool (PodResources (pa_PodResourcesSocketPath a)) (pa_Debug a) (pa_ReferenceContainer a) in
  let cli := match pa_PodExclude a with [] => cli | l => PodExcluded cli (pa_Debug a) l end in
  if pa_ExcludeTerminalPods a then TerminalPodsFiltered cli (60 * Duration.Second)%Z (pa_Debug a) else cli.

(** The configuration is printed on the way only when asked for on the standard output. *)
Definition printed (a : ProgArgs) : string := if decide (pa_DumpConfig a = "-") then ToYAMLString a +:+ nl else "".

(** The steps that have to work. *)
Definition needed (a : ProgArgs) : list rte_step :=
  [GetK8sClient; GetTopologyClient; WaitForReady] ++ (if pa_ExcludeTerminalPods a then [FilterTerminalPods] else [])
  ++ [MetricsSetup; MetricsServerSetup].

Lemma lister_Some a cli :
  lister a = inl cli <-> layers a = cli /\ (pa_ExcludeTerminalPods a = true -> attempt FilterTerminalPods = None).
Proof.
  unfold lister, layers. destruct (pa_PodExclude a), (pa_ExcludeTerminalPods a), (attempt FilterTerminalPods);
    simpl; rewrite ?decide_True, ?decide_False by lia; naive_solver.
Qed.

Lemma serve_Served a out cli a' fin :
  serve a out = Served cli a' fin <->
  a' = a /\ cli = layers a /\ Forall (fun s => attempt s = None) (needed a) /\
  fin = match attempt Execute with Some _ => klog_Fatal out | None => mkFinished 0 out end.
Proof.
  unfold serve, needed. rewrite !Forall_app, !Forall_cons, !Forall_nil.
  destruct (attempt GetK8sClient), (attempt GetTopologyClient), (attempt WaitForReady); try naive_solver.
  destruct (lister a) as [c|] eqn:El.
  - apply lister_Some in El as [<- Hf].
    assert (Forall (fun s => attempt s = None) (if pa_ExcludeTerminalPods a then [FilterTerminalPods] else [])) as Hfil
      by (destruct (pa_ExcludeTerminalPods a); [by apply Forall_singleton, Hf|by apply Forall_nil]).
    destruct (attempt MetricsSetup), (attempt MetricsServerSetup); naive_solver.
  - split; [done|]. intros (-> & -> & (_ & Hf & _) & _). exfalso.
    assert (lister a = inl (layers a)) as E; [|by rewrite E in El].
    apply lister_Some. split; [done|]. intros Hx. rewrite Hx in Hf. by inversion Hf.
Qed.

(** Whether the way the configuration is dumped lets the program go on. *)
Definition dump_goes_on (a : ProgArgs) : Prop := pa_DumpConfig a ∈ [""; "-"; ".log"].

(** C37: When the exporter serves, and with what. It does exactly when its arguments
    load and ask for neither the version nor a dump that ends the process, and every
    client, filter and server it needs can be set up. It is given the arguments loaded
    with a policy and a scope that are never empty, and a lister with the layers asked
    for, in order: the pool of shared processors, the pods excluded, and the pods that
    ended. *)
Theorem rte_main_serves version args cli a fin :
  rte_main version args = Served cli a fin <->
  exists loaded, LoadArgs args = inl loaded /\ a = exporter_args loaded /\ cli = layers a /\
    pa_Version a = false /\ dump_goes_on a /\ Forall (fun s => attempt s = None) (needed a) /\
    fin = match attempt Execute with Some _ => klog_Fatal (printed a) | None => mkFinished 0 (printed a) end /\
    pa_TopologyManagerPolicy a <> "" /\ pa_TopologyManagerScope a <> "".
Proof.
  assert (forall l, pa_TopologyManagerPolicy (exporter_args l) <> "" /\ pa_TopologyManagerScope (exporter_args l) <> "") as Hne
    by (intros l; unfold exporter_args, or_default; simpl; by repeat case_decide).
  unfold rte_main, rte_parseArgs. destruct (LoadArgs args) as [l|]; cbn [sum_bind]; [|split; [done|by intros (l & ? & _)]].
  rewrite setupTopologyManagerConfig_eq. fold (exporter_args l). specialize (Hne l). remember (exporter_args l) as b eqn:Eb.
  assert ((let '(out, code) := if decide (pa_DumpConfig b <> "") then dump b else ("", None) in
           match code with Some code => Exited (mkFinished code out) | None => serve b out end) = Served cli a fin
          <-> dump_goes_on b /\ serve b (printed b) = Served cli a fin) as Hd.
  { unfold dump, dump_goes_on, printed. rewrite !elem_of_cons, elem_of_nil.
    destruct (decide (pa_DumpConfig b = "")) as [->|H1]; [simpl; naive_solver|]. rewrite decide_True by done.
    destruct (decide (pa_DumpConfig b = "-")) as [->|H2]; [naive_solver|].
    destruct (decide (pa_DumpConfig b = ".andexit")) as [->|H3]; [naive_solver|].
    destruct (decide (pa_DumpConfig b = ".log")) as [->|H4]; naive_solver. }
  assert (forall l', inl l = @inl ProgArgs error l' /\ a = exporter_args l' <-> l' = l /\ a = b) as Hl by (subst b; naive_solver).
  destruct (pa_Version b) eqn:Ev.
  - split; [done|]. intros (l' & H1 & H2 & _ & Hv & _). destruct (proj1 (Hl l') (conj H1 H2)) as [_ ->]. congruence.
  - rewrite Hd, serve_Served. split.
    + intros (Hg & -> & -> & Hf & ->). exists l. by split_and!; try apply Hne.
    + intros (l' & H1 & H2 & -> & _ & Hg & Hf & -> & _). by destruct (proj1 (Hl l') (conj H1 H2)) as [_ ->].
Qed.
End Exporter.

(** ** Jobs *)

(** The labels a spread constraint counts pods by. *)
Definition spread_labels (c : TopologySpreadConstraint) : option (gmap string string) :=
  match c with SpreadOnHost labels _ _ _ _ => Some labels | SpreadOther _ => None end.

(** The job for a daemon set: there is one exactly when the daemon set has the exporter's
    container. It runs one pod for each pod of the daemon set, all at a time, with the
    exporter's image and the script, under the account given, on the root of the host;
    the pods bear the labels by which the job spreads them over the hosts. *)
Theorem MakeChrootJob_spec cj ds :
  match MakeChrootJob cj ds with
  | inr _ => MainContainerName ∉ cnt_Name <$> ps_Containers (ds_PodSpec ds)
  | inl job =>
      let pods := dss_CurrentNumberScheduled (ds_Status ds) in
      let template := jsp_Template (job_Spec job) in
      jsp_Parallelism (job_Spec job) = pods /\ jsp_Completions (job_Spec job) = pods /\
      job_Namespace job = (if decide (cj_Namespace cj = "") then om_Namespace (ds_Meta ds) else cj_Namespace cj) /\
      ps_ServiceAccountName (pt_Spec template) = cj_ServiceAccount cj /\
      (exists c cnt, ps_Containers (pt_Spec template) = [c] /\ cnt ∈ ps_Containers (ds_PodSpec ds) /\
         cnt_Name cnt = MainContainerName /\ cnt_Image c = cnt_Image cnt /\
         last (cnt_Command c) = Some (cj_Script cj) /\
         (forall vm, vm ∈ cnt_VolumeMounts c ->
            mkVolume (vm_Name vm) (VSHostPath "/" "Directory") ∈ ps_Volumes (pt_Spec template))) /\
      (forall c, c ∈ ps_TopologySpreadConstraints (pt_Spec template) -> spread_labels c = pt_Labels template)
  end.
Proof.
  unfold MakeChrootJob. destruct (FindContainerByName _ _) as [i|] eqn:E; cbn [mbind option_bind].
  - apply find_index_Some in E as (cnt & Hi & Hname & _). rewrite Hi. simpl. split_and!; try done.
    + by repeat case_decide.
    + exists (job_container cj (cnt_Image cnt)), cnt. split_and!; try done; [by eapply list_elem_of_lookup_2|].
      intros vm Hvm. apply list_elem_of_singleton in Hvm as ->. by apply list_elem_of_singleton.
    + intros c Hc. by apply list_elem_of_singleton in Hc as ->.
  - rewrite list_elem_of_fmap. intros (cnt & Hn & Hc). apply find_index_None in E. rewrite Forall_forall in E.
    by apply (E cnt Hc).
Qed.

Section MakeJobs.
Context {W : Type} `{!Client W} (yaml_Marshal : Job -> string + error).

Definition job_text (data : string) : string := "---" +:+ nl +:+ data +:+ nl.

(** What is printed is the jobs of the daemon sets the instance reports, in this order,
    but for those without one; nothing else stops the program once it has a client. *)
Lemma jobs_for_spec w cj dss :
  jobs_for yaml_Marshal w cj dss
  = foldr (fun data out => job_text data +:+ out) "" (omap (job_for yaml_Marshal w cj) dss).
Proof.
  unfold jobs_for. rewrite <-(str_app_nil_l (foldr _ _ _)).
  match goal with |- fold_left ?f dss ?o = _ => enough (forall out, fold_left f dss out = out +:+
    foldr (fun data out => job_text data +:+ out) "" (omap (job_for yaml_Marshal w cj) dss)) as Hf by apply (Hf o) end.
  induction dss as [|ds dss IH]; intros out; simpl; [by rewrite str_app_nil_r|].
  rewrite IH. destruct (job_for yaml_Marshal w cj ds) as [data|]; simpl; [|done]. unfold job_text.
  by rewrite !str_app_assoc.
Qed.
End MakeJobs.

(** ** The cluster validator *)

Section Validator.
Context {W : Type} `{!Client W} `{!SchedClient W} `{!KubeletClient W} `{!ValidatorClient W} `{!SelectorLib} `{!KubeletLib}.
Context `{!ReportLib}.
Variable show_node_group : NodeGroup -> string.
Variable UnsortedList : gset string -> list string.
Variable range_map : forall A, gmap string A -> list (string * A).

Notation run := (nrovalidate_main show_node_group UnsortedList range_map).
Notation report := (nrovalidate show_node_group UnsortedList range_map).

Lemma printValidationResults_passes items verbose :
  String.prefix "PASSED" (printValidationResults items verbose) = true <-> items = [].
Proof. destruct items; simpl; split; done. Qed.

(** The program and the report: given a command line that parses and asks for a
    validation of a cluster it reaches, the program exits with 0 if there is a report,
    whatever it says, and with 2 if there is none. The report is printed, as text or as
    JSON, unless asked to be quiet; then nothing tells a good cluster from a bad one. *)
Theorem nrovalidate_main_spec w program version args a fin :
  nrovalidate_parseArgs args = inl (inl a) -> va_Version a = false ->
  size (va_Validations a) <> 0%nat -> "help" ∉ va_Validations a ->
  (forall rep, is_Some (match encode_report rep with inl s => Some s | inr _ => None end)) ->
  run (inl w) program version args = Ret fin ->
  exists res, validateCluster show_node_group UnsortedList range_map w (va_Labels a) (va_Validations a) = Ret res /\
    match res with
    | inr _ => fin = mkFinished 2 ""
    | inl rep =>
        fin_Code fin = 0%Z /\ (va_Quiet a = true -> fin_Out fin = "") /\
        (va_Quiet a = false -> va_JSON a = true -> encode_report rep = inl (fin_Out fin)) /\
        (va_Quiet a = false -> va_JSON a = false -> String.prefix "PASSED" (fin_Out fin) = true <-> rep_Errors rep = [])
    end.
Proof.
  intros Ha Hv Hs Hh Henc. unfold nrovalidate_main. rewrite Ha, Hv, decide_False by naive_solver. unfold cmd_validateCluster.
  destruct (validateCluster _ _ _ w _ _) as [res|]; [|done]. cbn [go_bind]. intros [= <-]. exists res. split; [done|].
  destruct res as [rep|]; [|done]. cbn [sum_bind]. specialize (Henc rep).
  destruct (va_Quiet a); [done|]. destruct (va_JSON a); simpl.
  - destruct (encode_report rep); [naive_solver|]. by destruct Henc.
  - split_and!; try done. intros _ _. apply printValidationResults_passes.
Qed.
End Validator.

(** ** Watching topologies *)

Section Watch.
Import watchnrtattr.

Lemma run_watching watch n pending :
  watch_run watch n (Watching pending) = (Watching (drop n pending), filter (fun ev => processEvent ev = true) (take n pending)).
Proof.
  revert pending. induction n as [|n IH]; intros pending; [by rewrite drop_0, take_0|].
  destruct pending as [|ev rest]; simpl.
  - specialize (IH []). rewrite drop_nil, take_nil in IH. by rewrite IH.
  - rewrite IH. destruct (processEvent ev) eqn:E; simpl.
    + by rewrite filter_cons_True.
    + by rewrite filter_cons_False by congruence.
Qed.

(** The watch is started once. The program tells the changes it gets until the server
    closes the watch; it then goes on for ever without telling anything, and neither
    returns nor asks for another watch, as the loop around the first one means to. *)
Theorem watch_is_not_restarted events n :
  (length events <= n)%nat ->
  watch_run (inl events) (S n) Starting = (Watching [], filter (fun ev => processEvent ev = true) events) /\
  watch_step (inl events) (Watching []) = Some (Watching [], []).
Proof.
  intros Hn. split; [|done]. simpl. rewrite run_watching, drop_ge, take_ge by done. done.
Qed.
End Watch.

Lemma watch_is_not_restarted_witness :
  let ev := watchnrtattr.mkEvent "MODIFIED" (Some ("worker-0", "[]")) in
  watchnrtattr.watch_run (inl [ev; watchnrtattr.mkEvent "ADDED" (Some ("worker-1", "[]"))]) 100 watchnrtattr.Starting
  = (watchnrtattr.Watching [], [ev]).
Proof. apply watch_is_not_restarted. simpl. lia. Defined.

(** ** The verbosity *)

(** The second search, over all flags, never finds what the first did not. *)
Theorem getKLogLevel_first formal visit_order :
  visit_order ≡ₚ map_to_list formal ->
  kloglevel.getKLogLevel formal visit_order
  = match formal !! "v" with Some (kloglevel.Level l) => Some l | _ => None end.
Proof.
  intros Hp. unfold kloglevel.getKLogLevel.
  destruct (match formal !! "v" with Some (kloglevel.Level l) => Some l | _ => None end) eqn:E; [done|].
  assert (forall f, f ∈ visit_order -> kloglevel.visit None f = None) as Hnone.
  { intros [name v]. rewrite Hp, elem_of_map_to_list. intros Hf. unfold kloglevel.visit. simpl.
    destruct (decide (name = "v")) as [->|]; [|by rewrite decide_True]. rewrite decide_False by (intros Hx; by apply Hx).
    rewrite Hf in E. by destruct v. }
  clear E Hp. induction visit_order as [|f l IH]; [done|]. cbn [fold_left]. rewrite Hnone by apply list_elem_of_here.
  apply IH. intros g Hg. apply Hnone. by apply list_elem_of_further.
Qed.
