(* ===== verification/RemoteExec.v ===== *)
(** * Commands in pods and forwarded ports (internal/remoteexec)

    [PortForwardToPodByNames] runs next to a goroutine that reads the error stream,
    and to a peer that ends this stream when it likes, and is bound to end it once the
    data stream, the error stream or the connection is closed on this side. Each of the
    three is a function from states to states; a run interleaves their steps. The calls
    to the network have given answers. *)
From S2P Require Import Prelude GoErrors.
From stdpp Require Import relations.

(** ** Commands *)

Record PodExecOptions := mkPodExecOptions {
  pe_Container : string; pe_Command : list string; pe_Stdin : bool; pe_Stdout : bool; pe_Stderr : bool; pe_TTY : bool }.

(** The configuration, the executor and its streams: the standard output and error of
    the command. *)
Class ExecLib := {
  config_GetConfig : option error;
  NewSPDYExecutor : string -> string -> PodExecOptions -> option error;
  StreamWithContext : string -> string -> PodExecOptions -> (string * string) + error;
}.

Section Exec.
Context `{ExecLib}.

Definition CommandOnPodByNames (podNamespace podName cntName : string) (command : list string) : (string * string) + error :=
  let req := mkPodExecOptions cntName command true true true true in
  match config_GetConfig with
  | Some err => inr err
  | None =>
      match NewSPDYExecutor podNamespace podName req with
      | Some err => inr err
      | None =>
          match StreamWithContext podNamespace podName req with
          | inr err => inr (ErrWrap ("failed to run command [" +:+ str_join " " command +:+ "]: ") err)
          | inl out => inl out
          end
      end
  end.

(** The command runs in the first container; a pod without one panics. *)
Definition CommandOnPod (podNamespace podName : string) (containers : list string) (command : list string)
  : go ((string * string) + error) :=
  match containers with
  | [] => Panic (IndexOutOfRange "pod.Spec.Containers")
  | cntName :: _ => Ret (CommandOnPodByNames podNamespace podName cntName command)
  end.
End Exec.

(** ** A forwarded port *)

(** The answers of the network, and what the function passed returns. A data stream
    that fails to close stays open. *)
Record Answers := mkAnswers {
  an_dialer : option error;
  an_dial : option error;
  an_errorStream : option error;
  an_dataStream : option error;
  an_fn : option error;
  an_closeData : option error }.

(** Where the function is: the deferred calls are its last steps. *)
Inductive point :=
| Dialing
| OpeningErrorStream
| StartingReader
| OpeningDataStream
| CallingFn
| ClosingDataStream (fnErr : option error)
| Receiving
| ClosingErrorStream (ret : option error)
| ClosingConnection (ret : option error)
| Returned (ret : option error).

(** Where the goroutine is. *)
Inductive reader := NotStarted | Reading | Sending (e : option error) | Finished.

(** A stream of this side. *)
Inductive stream := NotOpened | Open | Closed.
#[global] Instance stream_eq_dec : EqDecision stream. Proof. solve_decision. Defined.

Record Forwarding := mkForwarding {
  s_pc : point;
  s_reader : reader;
  s_conn : stream; s_error : stream; s_data : stream;
  s_ended : option (string + error);
    (** what reading the error stream to its end gave, once it has an end *)
  s_chan : option (option error)
    (** the buffer of the channel, of size one *) }.

Definition initial : Forwarding := mkForwarding Dialing NotStarted NotOpened NotOpened NotOpened None None.

Section PortForward.
Context (podNamespace podName podPort : string) (n : Answers).

Definition pod_port : string := podNamespace +:+ "/" +:+ podName +:+ ":" +:+ podPort.

Definition at_point (p : point) (s : Forwarding) : Forwarding :=
  mkForwarding p (s_reader s) (s_conn s) (s_error s) (s_data s) (s_ended s) (s_chan s).
Definition with_reader (r : reader) (s : Forwarding) : Forwarding :=
  mkForwarding (s_pc s) r (s_conn s) (s_error s) (s_data s) (s_ended s) (s_chan s).
Definition with_conn (c : stream) (s : Forwarding) : Forwarding :=
  mkForwarding (s_pc s) (s_reader s) c (s_error s) (s_data s) (s_ended s) (s_chan s).
Definition with_error (c : stream) (s : Forwarding) : Forwarding :=
  mkForwarding (s_pc s) (s_reader s) (s_conn s) c (s_data s) (s_ended s) (s_chan s).
Definition with_data (c : stream) (s : Forwarding) : Forwarding :=
  mkForwarding (s_pc s) (s_reader s) (s_conn s) (s_error s) c (s_ended s) (s_chan s).
Definition with_ended (r : string + error) (s : Forwarding) : Forwarding :=
  mkForwarding (s_pc s) (s_reader s) (s_conn s) (s_error s) (s_data s) (Some r) (s_chan s).
Definition with_chan (c : option (option error)) (s : Forwarding) : Forwarding :=
  mkForwarding (s_pc s) (s_reader s) (s_conn s) (s_error s) (s_data s) (s_ended s) c.

(** The next step of the function, none when it waits or has returned. *)
Definition forward_step (s : Forwarding) : option Forwarding :=
  match s_pc s with
  | Dialing =>
      match an_dialer n, an_dial n with
      | Some err, _ => Some (at_point (Returned (Some (ErrWrap "port-forward dialer creation failed: " err))) s)
      | None, Some err =>
          Some (at_point (Returned (Some (ErrWrap ("port-forward dial to " +:+ pod_port +:+ " failed: ") err))) s)
      | None, None => Some (at_point OpeningErrorStream (with_conn Open s))
      end
  | OpeningErrorStream =>
      match an_errorStream n with
      | Some err => Some (at_point (ClosingConnection (Some (ErrWrap "port-forward error stream creation failed: " err))) s)
      | None => Some (at_point StartingReader (with_error Open s))
      end
  | StartingReader => Some (at_point OpeningDataStream (with_reader Reading s))
  | OpeningDataStream =>
      match an_dataStream n with
      | Some err => Some (at_point (ClosingErrorStream (Some (ErrWrap "port-forward data stream creation failed: " err))) s)
      | None => Some (at_point CallingFn (with_data Open s))
      end
  | CallingFn => Some (at_point (ClosingDataStream (an_fn n)) s)
  | ClosingDataStream fnErr =>
      let s := match an_closeData n with Some _ => s | None => with_data Closed s end in
      match fnErr with
      | Some err => Some (at_point (ClosingErrorStream (Some err)) s)
      | None => Some (at_point Receiving s)
      end
  | Receiving =>
      match s_chan s with
      | None => None
      | Some err => Some (at_point (ClosingErrorStream err) (with_chan None s))
      end
  | ClosingErrorStream ret => Some (at_point (ClosingConnection ret) (with_error Closed s))
  | ClosingConnection ret => Some (at_point (Returned ret) (with_conn Closed s))
  | Returned _ => None
  end.

(** What the goroutine sends. *)
Definition reader_message (ended : string + error) : option error :=
  match ended with
  | inr err => Some err
  | inl buf => if decide (buf = "") then None else Some (ErrNew ("port-forward to " +:+ pod_port +:+ ": " +:+ buf))
  end.

Definition reader_step (s : Forwarding) : option Forwarding :=
  match s_reader s with
  | Reading => (fun ended => with_reader (Sending (reader_message ended)) s) <$> s_ended s
  | Sending e =>
      match s_chan s with
      | None => Some (with_reader Finished (with_chan (Some e) s))
      | Some _ => None
      end
  | _ => None
  end.

(** The peer, or the connection, ends the error stream. *)
Definition peer_step (ended : string + error) (s : Forwarding) : option Forwarding :=
  match s_error s, s_ended s with
  | NotOpened, _ | _, Some _ => None
  | _, None => Some (with_ended ended s)
  end.

Definition winds_down (s : Forwarding) : bool :=
  bool_decide (s_data s = Closed \/ s_error s = Closed \/ s_conn s = Closed).

(** Whatever may happen. *)
Inductive step (s s' : Forwarding) : Prop :=
| step_main : forward_step s = Some s' -> step s s'
| step_reader : reader_step s = Some s' -> step s s'
| step_peer ended : peer_step ended s = Some s' -> step s s'.

(** What happens unless something else does first: the peer only ends a stream on its
    own when it is being shut down. *)
Inductive bound (s s' : Forwarding) : Prop :=
| bound_main : forward_step s = Some s' -> bound s s'
| bound_reader : reader_step s = Some s' -> bound s s'
| bound_peer ended : winds_down s = true -> peer_step ended s = Some s' -> bound s s'.

(** ** What the function returns *)






(** ** What holds in every state reached *)







Context (Hclose : an_closeData n = None).





Lemma bound_step s s' : bound s s' -> step s s'.
Proof. intros [H|H|r _ H]; by econstructor. Qed.


End PortForward.

(** ** Examples *)

Module remote_scenario.
(** Everything works, and the function passed does. *)
Definition good : Answers := mkAnswers None None None None None None.
Definition steps (n : Answers) (k : nat) (s : Forwarding) : Forwarding :=
  Nat.iter k (fun s => default s (forward_step "ns" "pod" "8080" n s)) s.

(** The function waits for the goroutine, which waits for the peer, which is told by
    the closed stream. *)
Definition waiting : Forwarding := steps good 6 initial.
(** The peer ends the error stream with a message, and all goes on. *)
Definition ended : Forwarding := default waiting (peer_step (inl "lost connection") waiting).
End remote_scenario.

Lemma remote_main_steps n k s : rtc (step "ns" "pod" "8080" n) s (remote_scenario.steps n k s).
Proof.
  unfold remote_scenario.steps. induction k as [|k IH]; [done|]. simpl. etrans; [exact IH|].
  destruct (forward_step _ _ _ _ _) eqn:E; simpl; [|done]. apply rtc_once. by constructor.
Qed.


(** Were the data stream left open, because closing it failed, the function could wait
    for a peer that has no reason to end the error stream. *)
Example PortForward_left_open :
  let n := mkAnswers None None None None None (Some (ErrNew "broken")) in
  let s := remote_scenario.steps n 6 initial in
  rtc (step "ns" "pod" "8080" n) initial s /\ s_pc s = Receiving /\ nf (bound "ns" "pod" "8080" n) s.
Proof.
  split; [apply remote_main_steps|]. split; [done|]. intros [s' [H|H|r H _]]; discriminate H.
Qed.

