(* ===== verification/AlphaTrees.v ===== *)
(** * Binding node groups to pools, before v1 (api/v1alpha1/helper/nodegroup)

    The older binding, by selector only, and its equivalence with that of v1 on the
    converted groups. *)
From S2P Require Import Prelude GoErrors Meta Selectors ApiV1 Conditions Steps Trees SchedApi Conversion.

Record alpha_Tree := mkAlphaTree {
  at_NodeGroup : option alpha_NodeGroup;
  at_MachineConfigPools : list MachineConfigPool }.

(** A deep copy. *)
Definition alpha_Clone (ttr : alpha_Tree) : alpha_Tree :=
  mkAlphaTree (at_NodeGroup ttr) (fold_left (fun ret mcp => ret ++ [mcp]) (at_MachineConfigPools ttr) []).

Section Find.
Context `{SelectorLib}.

(** The text of a selector. *)
Variable show_selector : LabelSelector -> string.

Fixpoint alpha_find_trees (mcps : list MachineConfigPool) (nodeGroups : list alpha_NodeGroup) (result : list alpha_Tree)
  : list alpha_Tree + error :=
  match nodeGroups with
  | [] => inl result
  | nodeGroup :: rest =>
      match ag_MachineConfigPoolSelector nodeGroup with
      | None => alpha_find_trees mcps rest result
      | Some sel =>
          match LabelSelectorAsSelector sel with
          | inr _ => alpha_find_trees mcps rest result
          | inl Matches =>
              match filter (fun mcp => Matches (mcp_Labels mcp) = true) mcps with
              | [] => inr (ErrNew ("failed to find MachineConfigPool for the node group with the selector "
                                     +:+ quote (show_selector sel)))
              | treeMCPs => alpha_find_trees mcps rest (result ++ [mkAlphaTree (Some nodeGroup) treeMCPs])
              end
          end
      end
  end.

Definition alpha_FindTrees (mcps : list MachineConfigPool) (nodeGroups : list alpha_NodeGroup) : list alpha_Tree + error :=
  alpha_find_trees mcps nodeGroups [].

Definition alpha_flattenTrees (trees : list alpha_Tree) : list MachineConfigPool :=
  fold_left (fun result tree => result ++ at_MachineConfigPools tree) trees [].

Definition alpha_FindMachineConfigPools (mcps : list MachineConfigPool) (nodeGroups : list alpha_NodeGroup)
  : list MachineConfigPool + error :=
  let? trees := alpha_FindTrees mcps nodeGroups in inl (alpha_flattenTrees trees).
End Find.

(** ** Theorems *)

Lemma alpha_Clone_eq ttr : alpha_Clone ttr = ttr.
Proof.
  destruct ttr as [ng mcps]. unfold alpha_Clone. simpl. f_equal.
  enough (forall acc, fold_left (fun ret mcp => ret ++ [mcp]) mcps acc = acc ++ mcps) as Hf by apply Hf.
  induction mcps as [|m l IH]; intros acc; simpl; [by rewrite app_nil_r|]. by rewrite IH, <-app_assoc.
Qed.

Lemma alpha_flattenTrees_eq trees : alpha_flattenTrees trees = trees ≫= at_MachineConfigPools.
Proof.
  unfold alpha_flattenTrees. enough (forall acc, fold_left (fun result tree => result ++ at_MachineConfigPools tree) trees acc
    = acc ++ (trees ≫= at_MachineConfigPools)) as Hf by apply Hf.
  induction trees as [|t l IH]; intros acc; simpl; [by rewrite app_nil_r|]. by rewrite IH, <-app_assoc.
Qed.

Section Equivalence.
Context `{SelectorLib} (show_selector : LabelSelector -> string) (show_node_group : NodeGroup -> string).

(** What a tree binds: its group, in v1, and its pools. *)
Definition alpha_binds (t : alpha_Tree) : option NodeGroup * list MachineConfigPool :=
  (convert_node_group <$> at_NodeGroup t, at_MachineConfigPools t).
Definition binds (t : Tree) : option NodeGroup * list MachineConfigPool := (tree_NodeGroup t, tree_MCPs t).

(** Both bind the same, or both fail. *)
Definition agree (old : list alpha_Tree + error) (new : list Tree + error) : Prop :=
  match old, new with
  | inl old, inl new => alpha_binds <$> old = binds <$> new
  | inr _, inr _ => True
  | _, _ => False
  end.

Lemma node_group_mcps_converted mcps ng :
  node_group_mcps mcps (convert_node_group ng)
  = match ag_MachineConfigPoolSelector ng with
    | None => Some []
    | Some sel => match LabelSelectorAsSelector sel with
                  | inr _ => None
                  | inl Matches => Some (filter (fun mcp => Matches (mcp_Labels mcp) = true) mcps)
                  end
    end.
Proof. done. Qed.

Lemma find_trees_agree mcps ngs idx old new :
  Forall (fun ng => is_Some (ag_MachineConfigPoolSelector ng)) ngs -> alpha_binds <$> old = binds <$> new ->
  agree (alpha_find_trees show_selector mcps ngs old)
    (find_trees_from show_node_group mcps idx (convert_node_group <$> ngs) new).
Proof.
  intros Hsel. revert idx old new. induction Hsel as [|ng ngs [sel Hs] _ IH]; intros idx old new Hacc; [done|].
  rewrite fmap_cons. cbn [alpha_find_trees find_trees_from]. rewrite node_group_mcps_converted, Hs.
  destruct (LabelSelectorAsSelector sel) as [Matches|]; [|by apply IH].
  destruct (filter _ mcps) as [|m l]; [done|]. apply IH. by rewrite !fmap_app, Hacc.
Qed.

(** On groups that have a selector, the binding of v1alpha1 and that of v1 on the
    converted groups agree: both fail, or both bind the same groups to the same pools,
    in order. A group without one makes v1 fail where v1alpha1 goes on without it. *)
Theorem FindTrees_converted mcps ngs :
  Forall (fun ng => is_Some (ag_MachineConfigPoolSelector ng)) ngs ->
  agree (alpha_FindTrees show_selector mcps ngs)
    (FindTreesOpenshift show_node_group mcps (convert_node_group <$> ngs)).
Proof. intros Hsel. by apply find_trees_agree. Qed.

Lemma FindTrees_without_selector mcps ng :
  ag_MachineConfigPoolSelector ng = None ->
  alpha_FindTrees show_selector mcps [ng] = inl [] /\
  exists err, FindTreesOpenshift show_node_group mcps [convert_node_group ng] = inr err.
Proof.
  intros Hs. split.
  - unfold alpha_FindTrees. simpl. by rewrite Hs.
  - unfold FindTreesOpenshift. cbn [find_trees_from]. rewrite node_group_mcps_converted, Hs. by eexists.
Qed.
End Equivalence.

(** Two pools, and a group that selects one of them. *)
Lemma FindTrees_converted_witness :
  let pool name := mkMachineConfigPool name (<["pool" := name]> ∅) false None None [] [] in
  let ng := mkAlphaNodeGroup (Some (mkLabelSelector (<["pool" := "worker"]> ∅) [])) None None in
  alpha_FindTrees (fun _ => "") [pool "master"; pool "worker"] [ng]
    = inl [mkAlphaTree (Some ng) [pool "worker"]] /\
  agree (alpha_FindTrees (fun _ => "") [pool "master"; pool "worker"] [ng])
    (FindTreesOpenshift (fun _ => "") [pool "master"; pool "worker"] [convert_node_group ng]).
Proof.
  split; [vm_compute; reflexivity|]. apply (FindTrees_converted (fun _ => "") (fun _ => "") _ [_]).
  repeat constructor. by eexists.
Defined.
